(** * agent-trust-gateway: payment gate, JSON-RPC envelope, registration
    resolution, trust scoring and validation verdicts.

    A shallow embedding of [src/app.ts], [src/a2a/handler.ts] and the REST /
    invoke routes ([routes/api.ts]), followed by the properties established
    about them.

    Conventions of the embedding
    - A JavaScript string is a [string]; every [ascii] stands for one code
      unit, so the model covers texts over U+0000..U+00FF.
    - A JavaScript number that the code only ever uses as an integer (HTTP
      status, counts) is a [Z].  The other numbers are binary64 values
      ([Double.double]): a number of a request is the value of its numeral,
      and the trust score is computed on such values in [Api64].  The score
      route as a whole ([Api.postScoreInvoke]) carries the formula over the
      real numbers ([R]), without rounding, overflow and NaN.
    - Awaited calls to collaborators (registry clients, [fetch], the x402
      middleware, the A2A runtime, [JSON.parse], [Buffer]) are fields of the
      record [World]; every call is logged in a trace of [Event]s, and a
      rejected promise is an [Exn] value. *)

From Stdlib Require Import ZArith List String Ascii Bool Lia QArith.
From Stdlib Require Import Qround Qabs Qpower.
From Stdlib Require Import Reals Lra Psatz.
From Stdlib Require DecimalString.
Import ListNotations.

Local Open Scope string_scope.
Local Open Scope Z_scope.

(* ================================================================= *)
(** ** JavaScript strings *)

Module JS.

Definition code (a : ascii) : N := N_of_ascii a.

Definition between (lo hi : N) (a : ascii) : bool :=
  (lo <=? code a)%N && (code a <=? hi)%N.

(** [\d] *)
Definition isDigit (a : ascii) : bool := between 48 57 a.
Definition isUpper (a : ascii) : bool := between 65 90 a.
Definition isLower (a : ascii) : bool := between 97 122 a.
(** [\w] is [A-Za-z0-9_] *)
Definition isWord (a : ascii) : bool :=
  isUpper a || isLower a || isDigit a || (code a =? 95)%N.
(** [\s] and the characters removed by [trim]: TAB, LF, VT, FF, CR, SPACE
    and NBSP (the members of WhiteSpace and LineTerminator below U+0100). *)
Definition isSpace (a : ascii) : bool :=
  between 9 13 a || (code a =? 32)%N || (code a =? 160)%N.
(** [.] matches everything except a line terminator. *)
Definition isDot (a : ascii) : bool :=
  negb ((code a =? 10)%N || (code a =? 13)%N).

(** Case folding of the [i] flag, which relates an ASCII letter only to its
    other case. *)
Definition toLowerChar (a : ascii) : ascii :=
  if isUpper a then ascii_of_N (code a + 32) else a.

(** The capital letters U+00C0..U+00DE (without the sign U+00D7) have their
    small letter 32 places further. *)
Definition lowerChar (a : ascii) : ascii :=
  if isUpper a || (between 192 222 a && negb (code a =? 215)%N)
  then ascii_of_N (code a + 32) else a.

(** [String.prototype.toLowerCase] *)
Fixpoint toLowerCase (s : string) : string :=
  match s with
  | EmptyString => EmptyString
  | String a s' => String (lowerChar a) (toLowerCase s')
  end.

Fixpoint dropSpace (s : string) : string :=
  match s with
  | String a s' => if isSpace a then dropSpace s' else s
  | EmptyString => EmptyString
  end.

Fixpoint rev_onto (s acc : string) : string :=
  match s with
  | EmptyString => acc
  | String a s' => rev_onto s' (String a acc)
  end.

Definition reverse (s : string) : string := rev_onto s EmptyString.

(** [String.prototype.trim] *)
Definition trim (s : string) : string :=
  reverse (dropSpace (reverse (dropSpace s))).

Definition isEmpty (s : string) : bool :=
  match s with EmptyString => true | _ => false end.

(** [s.startsWith(p)] *)
Definition startsWith (p s : string) : bool := String.prefix p s.

(** [s.slice(n)] for [0 <= n] *)
Fixpoint slice (n : nat) (s : string) : string :=
  match n, s with
  | O, _ => s
  | S n', String _ s' => slice n' s'
  | S _, EmptyString => EmptyString
  end.

(** [s.replace(p, empty)] for a literal pattern that is a prefix of [s]:
    the first occurrence is the prefix itself. *)
Definition removePrefix (p s : string) : string :=
  if startsWith p s then slice (String.length p) s else s.

(** [s.replace(/\/$/, empty)]: without one trailing slash. *)
Fixpoint dropTrailingSlash (s : string) : string :=
  match s with
  | EmptyString => EmptyString
  | String a EmptyString => if Ascii.eqb a "/" then EmptyString else s
  | String a s' => String a (dropTrailingSlash s')
  end.

(** [s.split(" ")[1] || empty]: what stands between the first space and the
    next one. *)
Fixpoint upToSpace (s : string) : string :=
  match s with
  | EmptyString => EmptyString
  | String a s' => if Ascii.eqb a " " then EmptyString else String a (upToSpace s')
  end.

Fixpoint afterSpace (s : string) : string :=
  match s with
  | EmptyString => EmptyString
  | String a s' => if Ascii.eqb a " " then s' else afterSpace s'
  end.

Definition secondWord (s : string) : string := upToSpace (afterSpace s).

(** [s.replace(/\*/g, r)] *)
Fixpoint replaceStars (r s : string) : string :=
  match s with
  | EmptyString => EmptyString
  | String a s' =>
      if Ascii.eqb a "*" then r ++ replaceStars r s'
      else String a (replaceStars r s')
  end.

Definition startsWithWord (s : string) : bool :=
  match s with
  | String b _ => isWord b
  | EmptyString => false
  end.

(** [s.replace(/:([A-Za-z0-9_]+)/g, "{$1}")]: [inName] tells that the
    characters just before belong to a parameter name that is still open. *)
Fixpoint braceParams (inName : bool) (s : string) : string :=
  match s with
  | EmptyString => if inName then "}" else EmptyString
  | String a s' =>
      if inName && isWord a then String a (braceParams true s')
      else
        (if inName then "}" else EmptyString)
        ++ (if Ascii.eqb a ":" && startsWithWord s'
            then "{" ++ braceParams true s'
            else String a (braceParams false s'))
  end.

(** Decimal rendering of an integer inside a template literal. *)
Definition showZ (z : Z) : string :=
  DecimalString.NilZero.string_of_int (Z.to_int z).

End JS.

(* ================================================================= *)
(** ** Regular expressions

    The regular expressions of the source are written as terms of [regex]
    and decided by Brzozowski derivatives.  [test] decides whether the whole
    text belongs to the language, so an unanchored end of a source pattern
    is written out with [anything]. *)

Module Re.

Inductive regex : Type :=
| Void
| Eps
| Cls (p : ascii -> bool)
| Seq (r s : regex)
| Alt (r s : regex)
| Star (r : regex).

Fixpoint nullable (r : regex) : bool :=
  match r with
  | Void => false
  | Eps => true
  | Cls _ => false
  | Seq r s => nullable r && nullable s
  | Alt r s => nullable r || nullable s
  | Star _ => true
  end.

Definition seq (r s : regex) : regex :=
  match r with
  | Void => Void
  | Eps => s
  | _ => Seq r s
  end.

Definition alt (r s : regex) : regex :=
  match r, s with
  | Void, _ => s
  | _, Void => r
  | _, _ => Alt r s
  end.

Fixpoint deriv (a : ascii) (r : regex) : regex :=
  match r with
  | Void => Void
  | Eps => Void
  | Cls p => if p a then Eps else Void
  | Seq r s =>
      if nullable r then alt (seq (deriv a r) s) (deriv a s)
      else seq (deriv a r) s
  | Alt r s => alt (deriv a r) (deriv a s)
  | Star r => seq (deriv a r) (Star r)
  end.

Fixpoint test (r : regex) (s : string) : bool :=
  match s with
  | EmptyString => nullable r
  | String a s' => test (deriv a r) s'
  end.

(** Pattern combinators *)
Definition chr (c : ascii) : regex := Cls (Ascii.eqb c).
(** one character under the [i] flag *)
Definition chr_i (c : ascii) : regex :=
  Cls (fun a => Ascii.eqb (JS.toLowerChar a) (JS.toLowerChar c)).
Definition plus (r : regex) : regex := Seq r (Star r).
Definition opt (r : regex) : regex := Alt Eps r.
Definition anything : regex := Star (Cls (fun _ => true)).

Fixpoint lit (s : string) : regex :=
  match s with
  | EmptyString => Eps
  | String a s' => Seq (chr a) (lit s')
  end.

Fixpoint lit_i (s : string) : regex :=
  match s with
  | EmptyString => Eps
  | String a s' => Seq (chr_i a) (lit_i s')
  end.

Fixpoint times (n : nat) (r : regex) : regex :=
  match n with
  | O => Eps
  | S n' => Seq r (times n' r)
  end.

Definition seqs (rs : list regex) : regex := fold_right Seq Eps rs.

End Re.

(* ================================================================= *)
(** ** Numbers

    A JavaScript number is an IEEE 754 binary64 value.  [double] has the
    finite values as rationals, the two infinities and NaN.  The two zeros
    are one value here: the code that is modelled never divides by zero and
    a response prints both as [0].  An arithmetic operation is the exact
    operation followed by [round]: the nearest value, a tie going to the
    even significand, and an infinity from 2^1024 on.  [Finite q] is
    written for any rational [q]; the values are those that [round] keeps
    ([isDouble]), and [round] gives nothing else. *)

Module Double.

#[local] Open Scope Q_scope.

Inductive double : Type :=
| NaN
| Inf (negative : bool)
| Finite (q : Q).

(** 2^k *)
Definition pow2 (k : Z) : Q := Qpower 2 k.

(** The nearest integer of a rational, a tie going to the even one. *)
Definition nearestEven (x : Q) : Z :=
  let lower := Qfloor x in
  match Qcompare (x - inject_Z lower) (1 # 2) with
  | Lt => lower
  | Gt => (lower + 1)%Z
  | Eq => if Z.even lower then lower else (lower + 1)%Z
  end.

(** The binary exponent of [a > 0]: the [e] with 2^e <= a < 2^(e+1). *)
Definition exponent (a : Q) : Z :=
  let e0 := (Z.log2 (Qnum a) - Z.log2 (Z.pos (Qden a)))%Z in
  if Qle_bool (pow2 e0) a then e0 else (e0 - 1)%Z.

(** The exponent of the spacing of the values around [a > 0]: 53 binary
    digits in a significand, and the spacing 2^-1074 of the subnormal
    values at the bottom. *)
Definition quantum (a : Q) : Z := (Z.max (exponent a - 52) (-1074))%Z.

(** The magnitude that [a > 0] is rounded to. *)
Definition nearest (a : Q) : Q :=
  inject_Z (nearestEven (a / pow2 (quantum a))) * pow2 (quantum a).

Definition signed (negative : bool) (a : Q) : Q :=
  if negative then - a else a.

(** The value of the exact result [q] of an operation. *)
Definition round (q : Q) : double :=
  match Qcompare q 0 with
  | Eq => Finite 0
  | c =>
      let negative := match c with Lt => true | _ => false end in
      let magnitude := nearest (Qabs q) in
      if Qle_bool (pow2 1024) magnitude then Inf negative
      else Finite (Qred (signed negative magnitude))
  end.

(** A rational that is a value: rounding keeps it. *)
Definition isDouble (q : Q) : bool :=
  match round q with
  | Finite r => Qeq_bool r q
  | _ => false
  end.

(** [Number(n)] for an integer, and a numeric literal. *)
Definition ofZ (n : Z) : double := round (inject_Z n).

Definition isNegative (q : Q) : bool :=
  match Qcompare q 0 with Lt => true | _ => false end.

Definition isZero (q : Q) : bool := Qeq_bool q 0.

Definition opp (x : double) : double :=
  match x with
  | NaN => NaN
  | Inf s => Inf (negb s)
  | Finite a => Finite (- a)
  end.

(** [x + y] *)
Definition add (x y : double) : double :=
  match x, y with
  | NaN, _ | _, NaN => NaN
  | Inf s, Inf s' => if Bool.eqb s s' then Inf s else NaN
  | Inf s, Finite _ | Finite _, Inf s => Inf s
  | Finite a, Finite b => round (a + b)
  end.

(** [x - y] *)
Definition sub (x y : double) : double := add x (opp y).

(** [x * y] *)
Definition mul (x y : double) : double :=
  match x, y with
  | NaN, _ | _, NaN => NaN
  | Inf s, Inf s' => Inf (xorb s s')
  | Inf s, Finite a | Finite a, Inf s =>
      if isZero a then NaN else Inf (xorb s (isNegative a))
  | Finite a, Finite b => round (a * b)
  end.

(** [x / y]; a zero divisor is taken as the positive zero. *)
Definition div (x y : double) : double :=
  match x, y with
  | NaN, _ | _, NaN => NaN
  | Inf _, Inf _ => NaN
  | Inf s, Finite b => Inf (xorb s (isNegative b))
  | Finite _, Inf _ => Finite 0
  | Finite a, Finite b =>
      if isZero b then (if isZero a then NaN else Inf (isNegative a))
      else round (a / b)
  end.

(** The magnitude that the square root of [a > 0] is rounded to: the
    root is compared with the middle of two neighbours by their squares. *)
Definition nearestRoot (a : Q) : Q :=
  let ex := (exponent a / 2 - 52)%Z in
  let y := a / pow2 (2 * ex) in
  let lower := Z.sqrt (Qfloor y) in
  let middle := inject_Z (2 * lower + 1) / 2 in
  let m :=
    match Qcompare y (middle * middle) with
    | Lt => lower
    | Gt => (lower + 1)%Z
    | Eq => if Z.even lower then lower else (lower + 1)%Z
    end in
  inject_Z m * pow2 ex.

(** [Math.sqrt(x)] *)
Definition sqrt (x : double) : double :=
  match x with
  | NaN => NaN
  | Inf s => if s then NaN else Inf false
  | Finite a =>
      match Qcompare a 0 with
      | Eq => Finite 0
      | Lt => NaN
      | Gt => Finite (Qred (nearestRoot a))
      end
  end.

(** [Math.round(x)]: the integer at or below [x + 1/2]; it is a value of
    its own, since a value from 2^52 on is an integer already. *)
Definition Math_round (x : double) : double :=
  match x with
  | Finite a => Finite (inject_Z (Qfloor (a + (1 # 2))))
  | other => other
  end.

(** [Math.min(x, y)] and [Math.max(x, y)] *)
Definition Math_min (x y : double) : double :=
  match x, y with
  | NaN, _ | _, NaN => NaN
  | Inf true, _ | _, Inf true => Inf true
  | Inf false, v | v, Inf false => v
  | Finite a, Finite b => Finite (if Qle_bool a b then a else b)
  end.

Definition Math_max (x y : double) : double :=
  match x, y with
  | NaN, _ | _, NaN => NaN
  | Inf false, _ | _, Inf false => Inf false
  | Inf true, v | v, Inf true => v
  | Finite a, Finite b => Finite (if Qle_bool a b then b else a)
  end.

(** [x <= y] *)
Definition leb (x y : double) : bool :=
  match x, y with
  | NaN, _ | _, NaN => false
  | Inf true, _ | _, Inf false => true
  | Inf false, _ | _, Inf true => false
  | Finite a, Finite b => Qle_bool a b
  end.

(** [x < y] *)
Definition ltb (x y : double) : bool :=
  match x, y with
  | NaN, _ | _, NaN => false
  | Inf true, Inf true | Inf false, _ => false
  | Inf true, _ => true
  | Finite _, Inf s => negb s
  | Finite a, Finite b => negb (Qle_bool b a)
  end.

(** [lo <= x && x <= hi] for rational bounds *)
Definition between (lo hi : Q) (x : double) : bool :=
  match x with
  | Finite a => Qle_bool lo a && Qle_bool a hi
  | _ => false
  end.

(** [!!x] *)
Definition truthy (x : double) : bool :=
  match x with
  | NaN => false
  | Inf _ => true
  | Finite a => negb (isZero a)
  end.

(** [Number.isInteger(x)] *)
Definition isInteger (x : double) : bool :=
  match x with
  | Finite a => (Z.pos (Qden (Qred a)) =? 1)%Z
  | _ => false
  end.

End Double.

(* ================================================================= *)
(** ** JSON values *)

#[local] Set Warnings "-register-all".

(** A number is kept as its numeral says; the value that the program holds
    is [Double.round q]. *)
Inductive JSON : Type :=
| JNull
| JBool (b : bool)
| JNumber (q : Q)
| JString (s : string)
| JArray (items : list JSON)
| JObject (fields : list (string * JSON)).

Module Json.

(** Property read [o[k]] on a parsed document: [None] is [undefined].  A
    later duplicate of a key overwrites an earlier one. *)
Fixpoint lookup (k : string) (fields : list (string * JSON)) : option JSON :=
  match fields with
  | [] => None
  | (k', v) :: rest =>
      match lookup k rest with
      | Some v' => Some v'
      | None => if String.eqb k k' then Some v else None
      end
  end.

Definition get (k : string) (v : JSON) : option JSON :=
  match v with
  | JObject fields => lookup k fields
  | _ => None
  end.

(** [!!v] *)
Definition truthy (v : JSON) : bool :=
  match v with
  | JNull => false
  | JBool b => b
  | JNumber q => Double.truthy (Double.round q)
  | JString s => negb (JS.isEmpty s)
  | JArray _ => true
  | JObject _ => true
  end.

(** [typeof v === "object"] *)
Definition isObjectType (v : JSON) : bool :=
  match v with
  | JNull | JArray _ | JObject _ => true
  | _ => false
  end.

(** [Array.isArray(v)] *)
Definition isArray (v : JSON) : bool :=
  match v with
  | JArray _ => true
  | _ => false
  end.

(** [k in v] for a value already known to be a non-null object *)
Definition has (k : string) (v : JSON) : bool :=
  match get k v with
  | Some _ => true
  | None => false
  end.

Definition asString (v : option JSON) : option string :=
  match v with
  | Some (JString s) => Some s
  | _ => None
  end.

End Json.

(* ================================================================= *)
(** ** Collaborators, exceptions and traces *)

(** What a [catch] clause can receive. *)
Inductive Exn : Type :=
| RegistrationFileError (message : string) (status : Z)
| Error (message : string)
| Thrown.

Inductive Result (A : Type) : Type :=
| Ok (a : A)
| Throw (e : Exn).
Arguments Ok {A} a.
Arguments Throw {A} e.

(** A [Response] of [fetch]; [ok] is derived from the status as the Fetch
    standard defines it. *)
Record FetchResponse : Type := {
  resp_status : Z;
  resp_body : string
}.

Definition resp_ok (r : FetchResponse) : bool :=
  (200 <=? resp_status r) && (resp_status r <=? 299).

(** Outcome of the statements inside the [try] of an endpoint probe:
    a response, a rejected [fetch] (turned into [null] by [.catch]), or an
    exception that reaches the [catch] clause. *)
Inductive ProbeOutcome : Type :=
| Responded (r : FetchResponse) (latencyMs : Z)
| NoResponse
| ProbeThrew (e : Exn).

(** [reputation.readAllFeedback]: a field is [None] when it is not an array. *)
Record Feedback : Type := {
  fb_scores : option (list R);
  fb_clientAddresses : option (list string)
}.

(** Feedback of an agent that nobody has rated. *)
Definition noFeedback : Feedback :=
  {| fb_scores := Some []; fb_clientAddresses := Some [] |}.

(** What [jsonRpcHandler.handle] gives back. *)
Inductive RuntimeOutcome : Type :=
| Single (result : JSON)
| Stream (first : JSON)
| Failed.

Record World : Type := {
  (** [JSON.parse]; [None] is its SyntaxError *)
  JSON_parse : string -> option JSON;
  (** [Buffer.from(s, "base64").toString("utf-8")], which never throws *)
  base64_utf8 : string -> string;
  (** the x402 verification of the proof carried by a request, for a route *)
  verifyPayment : string -> option string -> bool;
  handle : JSON -> RuntimeOutcome;
  getTokenURI : string -> Z -> Result string;
  getOwner : string -> Z -> Result string;
  getMetadata : string -> Z -> string -> Result string;
  readAllFeedback : string -> Z -> Result Feedback;
  fetch : string -> option FetchResponse;
  probe : string -> ProbeOutcome
}.

(** The world with one collaborator replaced. *)
Definition withFetch (f : string -> option FetchResponse) (w : World) : World :=
  {| JSON_parse := JSON_parse w; base64_utf8 := base64_utf8 w;
     verifyPayment := verifyPayment w; handle := handle w;
     getTokenURI := getTokenURI w; getOwner := getOwner w;
     getMetadata := getMetadata w; readAllFeedback := readAllFeedback w;
     fetch := f; probe := probe w |}.

Definition withFeedback (f : Result Feedback) (w : World) : World :=
  {| JSON_parse := JSON_parse w; base64_utf8 := base64_utf8 w;
     verifyPayment := verifyPayment w; handle := handle w;
     getTokenURI := getTokenURI w; getOwner := getOwner w;
     getMetadata := getMetadata w; readAllFeedback := fun _ _ => f;
     fetch := fetch w; probe := probe w |}.

Definition withProbe (f : string -> ProbeOutcome) (w : World) : World :=
  {| JSON_parse := JSON_parse w; base64_utf8 := base64_utf8 w;
     verifyPayment := verifyPayment w; handle := handle w;
     getTokenURI := getTokenURI w; getOwner := getOwner w;
     getMetadata := getMetadata w; readAllFeedback := readAllFeedback w;
     fetch := fetch w; probe := f |}.

Inductive Event : Type :=
| PaymentVerification (route : string)
| RuntimeHandle (body : JSON)
| GetTokenURI (chain : string) (agentId : Z)
| GetOwner (chain : string) (agentId : Z)
| GetMetadata (chain : string) (agentId : Z) (key : string)
| ReadAllFeedback (chain : string) (agentId : Z)
| Fetch (url : string)
| Probe (url : string).

Definition isPaymentVerification (e : Event) : bool :=
  match e with PaymentVerification _ => true | _ => false end.

(** An asynchronous computation: the calls it made, then its outcome. *)
Definition M (A : Type) : Type := (list Event * Result A)%type.

Definition ret {A} (a : A) : M A := ([], Ok a).
Definition throw {A} (e : Exn) : M A := ([], Throw e).
Definition call {A} (e : Event) (r : Result A) : M A := ([e], r).

Definition bind {A B} (m : M A) (k : A -> M B) : M B :=
  match m with
  | (t, Ok a) => let (t', r) := k a in ((t ++ t')%list, r)
  | (t, Throw e) => (t, Throw e)
  end.

(** [try { m } catch (e) { h e }] *)
Definition catch {A} (m : M A) (h : Exn -> M A) : M A :=
  match m with
  | (t, Throw e) => let (t', r) := h e in ((t ++ t')%list, r)
  | done => done
  end.

Notation "x <- c ;; k" := (bind c (fun x => k))
  (at level 61, c at next level, right associativity).

Record Response (B : Type) : Type := {
  status : Z;
  body : B
}.
Arguments status {B} r.
Arguments body {B} r.

(* ================================================================= *)
(** ** [src/app.ts] and [src/a2a/handler.ts]: the POST /a2a pipeline *)

Module A2A.

(** An entry of the table [routeConfig] of [src/payments/x402.ts]. *)
Record Accepts : Type := {
  scheme : string;
  accepts_price : string;
  accepts_network : string;
  payTo : string
}.

Record RouteConfig : Type := {
  accepts : Accepts;
  resource : string;
  route_description : string;
  mimeType : string
}.

Inductive Payload : Type :=
| RpcError (id : JSON) (code : Z) (message : string)
| RpcValue (value : JSON)
| PaymentRequired (requirements : RouteConfig).

Record Request : Type := {
  contentTypeHeader : option string;
  paymentHeader : option string;
  text : string
}.

(** [c.json(x)] *)
Definition c_json (p : Payload) : Response Payload :=
  {| status := 200; body := p |}.

Definition jsonRpcError (id : JSON) (code : Z) (message : string) : Payload :=
  RpcError id code message.

Import Re.

(** [/(^|;)\s*application\/(?:[\w.+-]+\+)?json\s*(;|$)/i] *)
Definition reApplicationJson : regex :=
  seqs [ Alt Eps (Seq anything (chr ";"));
         Star (Cls JS.isSpace);
         lit_i "application/";
         opt (Seq (plus (Cls (fun a => JS.isWord a || Ascii.eqb a "."
                                     || Ascii.eqb a "+" || Ascii.eqb a "-")))
                  (chr "+"));
         lit_i "json";
         Star (Cls JS.isSpace);
         Alt (Seq (chr ";") anything) Eps ].

(** [/(^|;)\s*text\/plain\s*(;|$)/i] *)
Definition reTextPlain : regex :=
  seqs [ Alt Eps (Seq anything (chr ";"));
         Star (Cls JS.isSpace);
         lit_i "text/plain";
         Star (Cls JS.isSpace);
         Alt (Seq (chr ";") anything) Eps ].

Definition acceptsAsJson (contentType : string) : bool :=
  JS.isEmpty contentType
  || test reApplicationJson contentType
  || test reTextPlain contentType.

(** [c.req.header("content-type") ?? empty] *)
Definition contentType (c : Request) : string :=
  match contentTypeHeader c with
  | Some v => v
  | None => EmptyString
  end.

Inductive Parsed : Type :=
| ParsedOk (body : JSON)
| ParsedFail (response : Payload).

(** The body of [parseA2AJsonBody]; [parseJsonRpcRequest] repeats it after
    its look at the context. *)
Definition parseBody (w : World) (c : Request) : Parsed :=
  let raw := text c in
  if JS.isEmpty (JS.trim raw) then ParsedOk JNull
  else if negb (acceptsAsJson (contentType c))
  then ParsedFail (jsonRpcError JNull (-32600) "Invalid JSON-RPC Request.")
  else
    match JSON_parse w raw with
    | Some v => ParsedOk v
    | None => ParsedFail (jsonRpcError JNull (-32700) "Parse error")
    end.

Definition parseA2AJsonBody (w : World) (c : Request) : Parsed :=
  parseBody w c.

(** [fromMiddleware] is [c.get("jsonrpcBody")]: [None] is [undefined]. *)
Definition parseJsonRpcRequest (w : World) (fromMiddleware : option JSON)
    (c : Request) : Parsed :=
  match fromMiddleware with
  | Some b => ParsedOk b
  | None => parseBody w c
  end.

Definition PAID_A2A_METHODS : list string := ["message/send"; "message/stream"].

(** [PAID_A2A_METHODS.has(m)] *)
Definition isPaidMethod (m : string) : bool :=
  existsb (String.eqb m) PAID_A2A_METHODS.

Record RoutePrice : Type := {
  path : string;
  price : string;
  description : string
}.

Definition PAID_ENDPOINTS : list RoutePrice :=
  [ {| path := "GET /api/agent/:id/profile"; price := "$0.001";
       description := "Fetch agent identity and registration file" |};
    {| path := "GET /api/agent/*/profile"; price := "$0.001";
       description := "Fetch agent identity and registration file" |};
    {| path := "POST /api/agent/profile/invoke"; price := "$0.001";
       description := "Fetch agent identity (A2A invoke format)" |};
    {| path := "POST /api/agent/score/invoke"; price := "$0.01";
       description := "Compute trust score from reputation data" |};
    {| path := "POST /api/agent/validate/invoke"; price := "$0.03";
       description := "Deep validation of agent endpoints and attestations" |};
    {| path := "POST /a2a"; price := "$0.01";
       description := "A2A task execution" |} ].

(** The members of [Config] that the application reads; [bypassPayments]
    is [false] when the configuration does not set it. *)
Record Config : Type := {
  bypassPayments : bool;
  network : string;
  walletAddress : string;
  agentUrl : string
}.

(** The table [routeConfig] that [createPaymentMiddleware(config, routes)]
    hands to the x402 middleware, keyed by [route.path]. *)
Definition routeConfigOf (config : Config) (route : RoutePrice) : RouteConfig :=
  let canonicalBase := JS.dropTrailingSlash (agentUrl config) in
  let pathPattern := JS.secondWord (path route) in
  let canonicalPath :=
    JS.replaceStars "{wildcard}" (JS.braceParams false pathPattern) in
  {| accepts := {| scheme := "exact";
                   accepts_price := price route;
                   accepts_network := network config;
                   payTo := walletAddress config |};
     resource := canonicalBase ++ canonicalPath;
     route_description := description route;
     mimeType := "application/json" |}.

Definition createPaymentMiddleware (config : Config) (routes : list RoutePrice)
    : list (string * RouteConfig) :=
  map (fun route => (path route, routeConfigOf config route)) routes.

(** [routeConfig[key]]: a later entry with the same key has overwritten an
    earlier one. *)
Fixpoint routeEntry (key : string) (table : list (string * RouteConfig))
    : option RouteConfig :=
  match table with
  | [] => None
  | (k, entry) :: rest =>
      match routeEntry key rest with
      | Some later => Some later
      | None => if String.eqb key k then Some entry else None
      end
  end.

(** The x402 middleware on a request for [route], as far as the gateway
    relies on it: a route of the table is served only when the proof of the
    request verifies, and is answered with 402 and the requirements of the
    route otherwise; a route outside the table is not priced.  The route is
    looked up by its key, which is how a key without path parameters or
    wildcards such as [POST /a2a] is found. *)
Definition paymentMiddleware (w : World) (table : list (string * RouteConfig))
    (route : string) (c : Request) (next : M (Response Payload))
    : M (Response Payload) :=
  match routeEntry route table with
  | None => next
  | Some entry =>
      valid <- call (PaymentVerification route)
                    (Ok (verifyPayment w route (paymentHeader c))) ;;
      if valid then next
      else ret {| status := 402; body := PaymentRequired entry |}
  end.

(** The [a2a.post("/a2a", ...)] route of [createA2ARoutes]. *)
Definition a2aPost (w : World) (fromMiddleware : option JSON) (c : Request)
    : M (Response Payload) :=
  match parseJsonRpcRequest w fromMiddleware c with
  | ParsedFail response => ret (c_json response)
  | ParsedOk body =>
      if negb (Json.truthy body) || negb (Json.isObjectType body)
         || Json.isArray body
      then ret (c_json (jsonRpcError JNull (-32600) "Invalid JSON-RPC Request."))
      else
        outcome <- call (RuntimeHandle body) (Ok (handle w body)) ;;
        match outcome with
        | Stream first => ret (c_json (RpcValue first))
        | Single result => ret (c_json (RpcValue result))
        | Failed =>
            let id := match Json.get "id" body with
                      | Some v => v
                      | None => JNull
                      end in
            ret (c_json (jsonRpcError id (-32603) "Internal error"))
        end
  end.

(** The middleware that [createApp] installs on ["/a2a"]; [next] receives
    the value stored with [c.set("jsonrpcBody", body)]. *)
Definition a2aMiddleware (config : Config) (w : World) (c : Request)
    (next : option JSON -> M (Response Payload)) : M (Response Payload) :=
  match parseA2AJsonBody w c with
  | ParsedFail response => ret (c_json response)
  | ParsedOk body =>
      if negb (Json.truthy body) || negb (Json.isObjectType body)
         || Json.isArray body || negb (Json.has "method" body)
      then next (Some body)
      else
        match Json.get "method" body with
        | Some (JString method) =>
            if negb (bypassPayments config) && isPaidMethod method
            then paymentMiddleware w
                   (createPaymentMiddleware config PAID_ENDPOINTS)
                   "POST /a2a" c (next (Some body))
            else next (Some body)
        | _ => next (Some body)
        end
  end.

(** POST /a2a through [createApp(config)] *)
Definition postA2A (config : Config) (w : World) (c : Request)
    : M (Response Payload) :=
  a2aMiddleware config w c (fun stored => a2aPost w stored c).

End A2A.

(* ================================================================= *)
(** ** [routes/api.ts]: registration files *)

Module Api.

Import Re.

Definition DEFAULT_CHAIN : string := "base".

(** The own keys of [CHAINS]. *)
Definition CHAINS : list string := ["base"; "base-sepolia"; "ethereum"; "sepolia"].

(** Keys that [CHAINS[k]] finds on [Object.prototype]: the value found there
    is truthy and has no [rpcs]. *)
Definition inheritedKeys : list string :=
  ["constructor"; "__proto__"; "hasOwnProperty"; "isPrototypeOf";
   "propertyIsEnumerable"; "toString"; "toLocaleString"; "valueOf";
   "__defineGetter__"; "__defineSetter__"; "__lookupGetter__";
   "__lookupSetter__"].

(** [createClients(chainName)]: the clients are identified by the key of the
    chain they read. *)
Definition createClients (chainName : string) : M string :=
  if existsb (String.eqb chainName) CHAINS then ret chainName
  else if existsb (String.eqb chainName) inheritedKeys
  then throw (Error "Cannot read properties of undefined (reading 'filter')")
  else ret DEFAULT_CHAIN.

Record EndpointDecl : Type := {
  ep_name : string;
  ep_endpoint : string;
  ep_version : option string
}.

(** The interface [RegistrationFile]; a field is [None] when the document
    does not have it. *)
Record RegistrationFile : Type := {
  rf_name : option string;
  rf_description : option string;
  rf_image : option string;
  rf_endpoints : option (list EndpointDecl);
  rf_registrations : option (list JSON);
  rf_supportedTrust : option (list string);
  rf_active : option bool
}.

Definition stringOr (d : string) (v : option JSON) : string :=
  match v with
  | Some (JString s) => s
  | _ => d
  end.

Definition asEndpoint (v : JSON) : EndpointDecl :=
  {| ep_name := stringOr EmptyString (Json.get "name" v);
     ep_endpoint := stringOr EmptyString (Json.get "endpoint" v);
     ep_version := Json.asString (Json.get "version" v) |}.

Definition asStrings (items : list JSON) : list string :=
  map (fun v => stringOr EmptyString (Some v)) items.

(** The cast [as RegistrationFile].  Documents are taken to follow the
    interface ([followsInterface] below): the record is what the code reads
    from such a document.  A member whose value does not have the declared
    type is read as absent here, which is not what the code does with it. *)
Definition asRegistrationFile (doc : JSON) : RegistrationFile :=
  {| rf_name := Json.asString (Json.get "name" doc);
     rf_description := Json.asString (Json.get "description" doc);
     rf_image := Json.asString (Json.get "image" doc);
     rf_endpoints :=
       match Json.get "endpoints" doc with
       | Some (JArray items) => Some (map asEndpoint items)
       | _ => None
       end;
     rf_registrations :=
       match Json.get "registrations" doc with
       | Some (JArray items) => Some items
       | _ => None
       end;
     rf_supportedTrust :=
       match Json.get "supportedTrust" doc with
       | Some (JArray items) => Some (asStrings items)
       | _ => None
       end;
     rf_active :=
       match Json.get "active" doc with
       | Some (JBool b) => Some b
       | _ => None
       end |}.

(** The documents that follow the interface: a member is absent or has the
    declared type, and the two lists may also be [null], which the code
    takes for absent.  On these documents the cast loses nothing.  Another
    document is outside the cast: the code would iterate a text by its
    characters and throw a TypeError on a number or on a [null] entry. *)
Definition isText (v : option JSON) : bool :=
  match v with
  | Some (JString _) | None => true
  | Some _ => false
  end.

Definition isEndpointDecl (v : JSON) : bool :=
  match v with
  | JObject _ =>
      match Json.get "name" v, Json.get "endpoint" v with
      | Some (JString _), Some (JString _) => isText (Json.get "version" v)
      | _, _ => false
      end
  | _ => false
  end.

Definition isListOf (p : JSON -> bool) (v : option JSON) : bool :=
  match v with
  | Some (JArray items) => forallb p items
  | Some JNull | None => true
  | Some _ => false
  end.

Definition followsInterface (doc : JSON) : bool :=
  isText (Json.get "name" doc)
  && isText (Json.get "description" doc)
  && isText (Json.get "image" doc)
  && isListOf isEndpointDecl (Json.get "endpoints" doc)
  && isListOf (fun _ => true) (Json.get "registrations" doc)
  && isListOf (fun v => isText (Some v)) (Json.get "supportedTrust" doc)
  && match Json.get "active" doc with
     | Some (JBool _) | None => true
     | Some _ => false
     end.

(** A property read [registrationFile.<member>]: it throws a TypeError on
    the document [null]. *)
Definition fileOf (member : string) (doc : JSON) : M RegistrationFile :=
  match doc with
  | JNull =>
      throw (Error ("Cannot read properties of null (reading '" ++ member ++ "')"))
  | _ => ret (asRegistrationFile doc)
  end.

(** [/^data:application\/json;base64,(.+)$/]; the group is what follows the
    29 characters of the fixed prefix. *)
Definition reDataUri : regex :=
  Seq (lit "data:application/json;base64,") (plus (Cls JS.isDot)).

(** [parseDataUri]; [JNull] is the [null] it returns. *)
Definition parseDataUri (w : World) (uri : string) : JSON :=
  if test reDataUri uri then
    let decoded := base64_utf8 w (JS.slice 29 uri) in
    match JSON_parse w decoded with
    | Some v => v
    | None => JNull
    end
  else JNull.

(** The SyntaxError of [JSON.parse].  The message stands for the one of
    the engine, whose wording depends on the text and on the engine; no
    statement relies on it. *)
Definition syntaxError : Exn := Error "Unexpected token in JSON".

(** [response.json()] *)
Definition response_json (w : World) (r : FetchResponse) : M JSON :=
  match JSON_parse w (resp_body r) with
  | Some v => ret v
  | None => throw syntaxError
  end.

Definition ipfsGateways (cid : string) : list string :=
  [ "https://ipfs.io/ipfs/" ++ cid;
    "https://cloudflare-ipfs.com/ipfs/" ++ cid;
    "https://dweb.link/ipfs/" ++ cid ].

(** The list [fetchUrls] built by [fetchRegistrationFile]. *)
Definition candidates (tokenUri : string) : list string :=
  if JS.startsWith "ipfs://" tokenUri
  then ipfsGateways (JS.removePrefix "ipfs://" tokenUri)
  else [tokenUri].

(** The [for (const fetchUrl of fetchUrls)] loop and the [throw] after it,
    with the variable [lastStatus] as an argument. *)
Fixpoint tryCandidates (w : World) (fetchUrls : list string) (lastStatus : Z)
    : M JSON :=
  match fetchUrls with
  | [] =>
      throw (RegistrationFileError
               ("Failed to fetch registration file: " ++ JS.showZ lastStatus)
               lastStatus)
  | fetchUrl :: rest =>
      response <- call (Fetch fetchUrl) (Ok (fetch w fetchUrl)) ;;
      match response with
      | None => tryCandidates w rest 502
      | Some r =>
          if resp_ok r then response_json w r
          else
            let lastStatus := resp_status r in
            (* [continue] on 404; any other status reaches the end of the
               loop body: both go on with the next candidate *)
            if resp_status r =? 404 then tryCandidates w rest lastStatus
            else tryCandidates w rest lastStatus
      end
  end.

(** What [fetchRegistrationFile] does once it holds the token URI. *)
Definition resolveTokenUri (w : World) (tokenUri : string) : M JSON :=
  let dataUriResult := parseDataUri w tokenUri in
  if Json.truthy dataUriResult then ret dataUriResult
  else tryCandidates w (candidates tokenUri) 500.

Definition fetchRegistrationFile (w : World) (chain : string) (agentId : Z)
    : M JSON :=
  tokenUri <- call (GetTokenURI chain agentId) (getTokenURI w chain agentId) ;;
  resolveTokenUri w tokenUri.

(* ----------------------------------------------------------------- *)
(** *** Input schemas *)

(** [/^\d+$/] *)
Definition reAgentId : regex := plus (Cls JS.isDigit).

Definition agentIdMessage : string :=
  "agentId must be a non-negative integer string".

(** [BigInt(s)] on a decimal numeral; [None] stands for the SyntaxError on
    other texts. *)
Fixpoint digitsValue (s : string) (acc : Z) : option Z :=
  match s with
  | EmptyString => Some acc
  | String a s' =>
      if JS.isDigit a
      then digitsValue s' (10 * acc + (Z.of_N (JS.code a) - 48))
      else None
  end.

Definition BigInt (s : string) : option Z :=
  match s with
  | EmptyString => None
  | _ => digitsValue s 0
  end.

(** The result of [error.flatten()] or a plain text. *)
Inductive Details : Type :=
| Flattened (formErrors : list string) (fieldErrors : list (string * list string))
| Text (s : string).

Inductive ParamResult : Type :=
| ParamOk (value : Z)
| ParamFail (details : Details).

(** [parseAgentIdParam] *)
Definition parseAgentIdParam (agentIdParam : string) : ParamResult :=
  if negb (test reAgentId agentIdParam)
  then ParamFail (Flattened [agentIdMessage] [])
  else
    match BigInt agentIdParam with
    | Some v => ParamOk v
    | None => ParamFail (Text "agentId is out of range")
    end.

(** Default messages of zod issues; their wording is the library's. *)
Definition zodInvalidInput : string := "Invalid input".
Definition zodInvalidType : string := "Invalid type".
Definition zodInvalidEnum : string := "Invalid enum value".
Definition zodNotInteger : string := "Expected integer, received float".
Definition zodNegative : string := "Number must be greater than or equal to 0".

(** [agentIdSchema]: the union of a numeral text and a non-negative integer,
    transformed by [BigInt].  [None] is a failed parse.  A number of the
    request is the value that [JSON.parse] gives its numeral. *)
Definition agentIdSchema (v : option JSON) : option Z :=
  match v with
  | Some (JString s) => if test reAgentId s then BigInt s else None
  | Some (JNumber q) =>
      match Double.round q with
      | Double.Finite a =>
          if Double.isInteger (Double.Finite a) && negb (Double.isNegative a)
          then Some (Qnum (Qred a))
          else None
      | _ => None
      end
  | _ => None
  end.

(** The messages of the issues of a failed [agentIdSchema]: an option of the
    union that accepts the type and fails a check reports its own issues (a
    text: the message given with the pattern; a number: [int] and then
    [nonnegative]); when no option accepts the type, the union reports one
    issue of its own. *)
Definition agentIdIssues (v : option JSON) : list string :=
  match v with
  | Some (JString s) => if test reAgentId s then [] else [agentIdMessage]
  | Some (JNumber q) =>
      let x := Double.round q in
      ((if Double.isInteger x then [] else [zodNotInteger])
       ++ (if Double.ltb x (Double.Finite 0) then [zodNegative] else []))%list
  | _ => [zodInvalidInput]
  end.

(** [z.string().optional().default(DEFAULT_CHAIN)] *)
Definition chainSchema (v : option JSON) : option string :=
  match v with
  | None => Some DEFAULT_CHAIN
  | Some (JString s) => Some s
  | Some _ => None
  end.

Inductive Check : Type := Endpoints | Wallet | Attestations.

Definition Check_eqb (a b : Check) : bool :=
  match a, b with
  | Endpoints, Endpoints | Wallet, Wallet | Attestations, Attestations => true
  | _, _ => false
  end.

(** [checks.includes(k)] *)
Definition includes (k : Check) (checks : list Check) : bool :=
  existsb (Check_eqb k) checks.

Definition checkEnum (v : JSON) : option Check :=
  match v with
  | JString s =>
      if String.eqb s "endpoints" then Some Endpoints
      else if String.eqb s "wallet" then Some Wallet
      else if String.eqb s "attestations" then Some Attestations
      else None
  | _ => None
  end.

Fixpoint checkArray (items : list JSON) : option (list Check) :=
  match items with
  | [] => Some []
  | v :: rest =>
      match checkEnum v, checkArray rest with
      | Some k, Some ks => Some (k :: ks)
      | _, _ => None
      end
  end.

(** [z.array(z.enum([...])).optional().default(["endpoints", "wallet"])] *)
Definition checksSchema (v : option JSON) : option (list Check) :=
  match v with
  | None => Some [Endpoints; Wallet]
  | Some (JArray items) => checkArray items
  | Some _ => None
  end.

Definition fieldError (name message : string) (failed : bool)
    : list (string * list string) :=
  if failed then [(name, [message])] else [].

(** The entry of [fieldErrors] for a member with the given issues. *)
Definition fieldIssues (name : string) (messages : list string)
    : list (string * list string) :=
  match messages with
  | [] => []
  | _ => [(name, messages)]
  end.

Definition isNone {A} (o : option A) : bool :=
  match o with None => true | Some _ => false end.

Inductive Parse (A : Type) : Type :=
| Parsed (data : A)
| Invalid (details : Details).
Arguments Parsed {A} data.
Arguments Invalid {A} details.

(** [invokeEnvelopeSchema.safeParse(body)]: the member [input], [None] when
    the body has none. *)
Definition invokeEnvelopeSchema (body : JSON) : Parse (option JSON) :=
  match body with
  | JObject _ => Parsed (Json.get "input" body)
  | _ => Invalid (Flattened [zodInvalidType] [])
  end.

(** [profileInputSchema] and [scoreInputSchema] are the same object schema. *)
Definition profileInputSchema (input : option JSON) : Parse (Z * string) :=
  match input with
  | Some (JObject fields) =>
      let o := JObject fields in
      match agentIdSchema (Json.get "agentId" o), chainSchema (Json.get "chain" o) with
      | Some agentId, Some chain => Parsed (agentId, chain)
      | _, c =>
          Invalid (Flattened []
                     (fieldIssues "agentId" (agentIdIssues (Json.get "agentId" o))
                      ++ fieldError "chain" zodInvalidType (isNone c))%list)
      end
  | _ => Invalid (Flattened [zodInvalidType] [])
  end.

Definition scoreInputSchema := profileInputSchema.

Definition validateInputSchema (input : option JSON)
    : Parse (Z * string * list Check) :=
  match input with
  | Some (JObject fields) =>
      let o := JObject fields in
      match agentIdSchema (Json.get "agentId" o), chainSchema (Json.get "chain" o),
            checksSchema (Json.get "checks" o) with
      | Some agentId, Some chain, Some checks => Parsed (agentId, chain, checks)
      | _, c, k =>
          Invalid (Flattened []
                     (fieldIssues "agentId" (agentIdIssues (Json.get "agentId" o))
                      ++ fieldError "chain" zodInvalidType (isNone c)
                      ++ fieldError "checks" zodInvalidEnum (isNone k))%list)
      end
  | _ => Invalid (Flattened [zodInvalidType] [])
  end.

(* ----------------------------------------------------------------- *)
(** *** Responses *)

Record Profile : Type := {
  p_agentId : string;
  p_chain : string;
  p_owner : string;
  p_wallet : string;
  p_name : option string;
  p_description : option string;
  p_image : option string;
  p_endpoints : list EndpointDecl;
  p_supportedTrust : list string;
  p_active : bool;
  p_registrations : option (list JSON)
}.

Record Breakdown : Type := {
  b_feedbackScore : Z;
  b_identityMaturity : Z;
  b_reputationConfidence : R;
  b_formula : string
}.

Record FeedbackSummary : Type := {
  fs_count : nat;
  fs_averageScore : R;
  fs_uniqueClients : nat;
  fs_warning : option string
}.

Record ScoreOutput : Type := {
  so_agentId : string;
  so_chain : string;
  so_trustScore : Z;
  so_verdict : string;
  so_breakdown : Breakdown;
  so_feedbackSummary : FeedbackSummary;
  so_agentName : option string
}.

Record EndpointStatus : Type := {
  es_name : string;
  es_endpoint : string;
  es_status : string;
  es_latencyMs : option Z;
  es_error : option string
}.

Record WalletStatus : Type := {
  ws_address : string;
  ws_valid : bool;
  ws_isOwner : bool
}.

Record Attestation : Type := {
  at_type : string;
  at_status : string;
  at_details : option string
}.

Record ValidationReport : Type := {
  endpointStatus : list EndpointStatus;
  walletStatus : WalletStatus;
  attestations : list Attestation;
  overallVerdict : string;
  issues : list string
}.

Record ValidateOutput : Type := {
  vo_agentId : string;
  vo_chain : string;
  vo_agentName : option string;
  vo_report : ValidationReport
}.

(** The JSON that [c.json] sends for the output of the validate route: the
    members in the order of the object literals, a member that is
    [undefined] left out. *)
Definition optionalMember (name : string) (v : option JSON)
    : list (string * JSON) :=
  match v with
  | Some x => [(name, x)]
  | None => []
  end.

Definition endpointStatusJson (s : EndpointStatus) : JSON :=
  JObject ([("name", JString (es_name s));
            ("endpoint", JString (es_endpoint s));
            ("status", JString (es_status s))]
           ++ optionalMember "latencyMs"
                (option_map (fun n => JNumber (inject_Z n)) (es_latencyMs s))
           ++ optionalMember "error" (option_map JString (es_error s)))%list.

Definition walletStatusJson (s : WalletStatus) : JSON :=
  JObject [("address", JString (ws_address s));
           ("valid", JBool (ws_valid s));
           ("isOwner", JBool (ws_isOwner s))].

Definition attestationJson (a : Attestation) : JSON :=
  JObject ([("type", JString (at_type a)); ("status", JString (at_status a))]
           ++ optionalMember "details" (option_map JString (at_details a)))%list.

Definition validateOutputJson (o : ValidateOutput) : JSON :=
  JObject
    [("output",
      JObject
        ([("agentId", JString (vo_agentId o)); ("chain", JString (vo_chain o))]
         ++ optionalMember "agentName" (option_map JString (vo_agentName o))
         ++ [("endpointStatus",
              JArray (map endpointStatusJson (endpointStatus (vo_report o))));
             ("walletStatus", walletStatusJson (walletStatus (vo_report o)));
             ("attestations",
              JArray (map attestationJson (attestations (vo_report o))));
             ("overallVerdict", JString (overallVerdict (vo_report o)));
             ("issues", JArray (map JString (issues (vo_report o))))])%list)].

Inductive ApiBody : Type :=
| ErrorBody (error : string) (details : option Details)
| ProfileBody (profile : Profile)
| ProfileOutput (profile : Profile)
| ScoreOutputBody (output : ScoreOutput)
| ValidateOutputBody (output : ValidateOutput).

(** [c.json(body)] and [c.json(body, status)] *)
Definition c_json (b : ApiBody) : Response ApiBody :=
  {| status := 200; body := b |}.

Definition errorBody (error : string) (details : option Details) : ApiBody :=
  ErrorBody error details.

Definition badRequest (error : string) (details : option Details)
    : Response ApiBody :=
  {| status := 400; body := errorBody error details |}.

Definition notFound (error : string) (details : option Details)
    : Response ApiBody :=
  {| status := 404; body := errorBody error details |}.

Definition internalError (error : string) (details : option Details)
    : Response ApiBody :=
  {| status := 500; body := errorBody error details |}.

Definition endpointError (errorMessage : string) (error : Exn)
    : Response ApiBody :=
  match error with
  | RegistrationFileError message st =>
      if st =? 404
      then notFound errorMessage
             (Some (Text "Agent registration metadata not found (token URI unresolved)"))
      else internalError errorMessage (Some (Text message))
  | Error message => internalError errorMessage (Some (Text message))
  | Thrown => internalError errorMessage (Some (Text "Unknown error"))
  end.

(** [try { m } catch (error) { return endpointError(c, errorMessage, error) }] *)
Definition guarded (errorMessage : string) (m : M (Response ApiBody))
    : M (Response ApiBody) :=
  catch m (fun error => ret (endpointError errorMessage error)).

Definition orEmpty {A} (o : option (list A)) : list A :=
  match o with Some l => l | None => [] end.

(* ----------------------------------------------------------------- *)
(** *** Profile *)

(** The wallet of the profile routes: the metadata entry, or the owner when
    the read fails. *)
Definition profileWallet (w : World) (chain : string) (agentId : Z)
    (owner : string) : M string :=
  catch (call (GetMetadata chain agentId "agentWallet")
              (getMetadata w chain agentId "agentWallet"))
        (fun _ => ret owner).

Definition readProfile (w : World) (chainName : string) (agentId : Z)
    (withRegistrations : bool) : M Profile :=
  chain <- createClients chainName ;;
  doc <- fetchRegistrationFile w chain agentId ;;
  owner <- call (GetOwner chain agentId) (getOwner w chain agentId) ;;
  wallet <- profileWallet w chain agentId owner ;;
  registrationFile <- fileOf "name" doc ;;
  ret {| p_agentId := JS.showZ agentId;
         p_chain := chainName;
         p_owner := owner;
         p_wallet := wallet;
         p_name := rf_name registrationFile;
         p_description := rf_description registrationFile;
         p_image := rf_image registrationFile;
         p_endpoints := orEmpty (rf_endpoints registrationFile);
         p_supportedTrust := orEmpty (rf_supportedTrust registrationFile);
         p_active := match rf_active registrationFile with
                     | Some b => b
                     | None => true
                     end;
         p_registrations :=
           if withRegistrations
           then Some (orEmpty (rf_registrations registrationFile))
           else None |}.

(** GET /agent/:id/profile; [chainQuery] is [c.req.query("chain")]. *)
Definition getProfile (w : World) (agentIdParam : string)
    (chainQuery : option string) : M (Response ApiBody) :=
  let chain :=
    match chainQuery with
    | Some q => if JS.isEmpty q then DEFAULT_CHAIN else q
    | None => DEFAULT_CHAIN
    end in
  match parseAgentIdParam agentIdParam with
  | ParamFail details => ret (badRequest "Invalid agentId" (Some details))
  | ParamOk agentId =>
      guarded "Failed to fetch agent profile"
        (profile <- readProfile w chain agentId true ;;
         ret (c_json (ProfileBody profile)))
  end.

(** [await c.req.json().catch(() => null)] on the text of the request *)
Definition requestJson (w : World) (raw : string) : JSON :=
  match JSON_parse w raw with
  | Some v => v
  | None => JNull
  end.

(** POST /agent/profile/invoke *)
Definition postProfileInvoke (w : World) (raw : string) : M (Response ApiBody) :=
  match invokeEnvelopeSchema (requestJson w raw) with
  | Invalid details => ret (badRequest "Invalid request body" (Some details))
  | Parsed input =>
      match profileInputSchema input with
      | Invalid details => ret (badRequest "Invalid input" (Some details))
      | Parsed (agentId, chain) =>
          guarded "Failed to fetch agent profile"
            (profile <- readProfile w chain agentId false ;;
             ret (c_json (ProfileOutput profile)))
      end
  end.

(* ----------------------------------------------------------------- *)
(** *** Feedback and the trust score *)

Record SafeFeedback : Type := {
  scores : list R;
  clientAddresses : list string;
  warning : option string
}.

(** [error instanceof Error ? error.message : fallback] *)
Definition messageOr (fallback : string) (error : Exn) : string :=
  match error with
  | RegistrationFileError message _ => message
  | Error message => message
  | Thrown => fallback
  end.

Definition readFeedbackSafe (w : World) (chain : string) (agentId : Z)
    : M SafeFeedback :=
  catch
    (feedback <- call (ReadAllFeedback chain agentId)
                      (readAllFeedback w chain agentId) ;;
     ret {| scores := orEmpty (fb_scores feedback);
            clientAddresses := orEmpty (fb_clientAddresses feedback);
            warning := None |})
    (fun error =>
       ret {| scores := [];
              clientAddresses := [];
              warning := Some (messageOr "Failed to read feedback" error) |}).

(** [xs.reduce((a, b) => a + b, 0)] *)
Definition sum (xs : list R) : R := fold_left Rplus xs 0%R.

(** [Math.round]: the nearest integer, a tie going up. *)
Definition Math_round (x : R) : Z := Int_part (x + / 2)%R.

Definition computeVariance (scores : list R) : R :=
  match scores with
  | [] => 0%R
  | _ =>
      let mean := (sum scores / INR (List.length scores))%R in
      let squaredDiffs := map (fun s => ((s - mean) ^ 2)%R) scores in
      sqrt (sum squaredDiffs / INR (List.length scores))
  end.

Section Score.

Variable registrationFile : RegistrationFile.
Variable allFeedbackScores : list R.

Definition feedbackCount : nat := List.length allFeedbackScores.

Definition avgScore : R :=
  if (0 <? feedbackCount)%nat
  then (sum allFeedbackScores / INR feedbackCount)%R
  else 0%R.

Definition hasEndpoints : bool :=
  (0 <? List.length (orEmpty (rf_endpoints registrationFile)))%nat.

Definition hasTrustMethods : bool :=
  (0 <? List.length (orEmpty (rf_supportedTrust registrationFile)))%nat.

Definition longDescription : bool :=
  match rf_description registrationFile with
  | Some d => (50 <? String.length d)%nat
  | None => false
  end.

Definition identityMaturity : Z :=
  (if hasEndpoints then 30 else 0) + (if hasTrustMethods then 20 else 0)
  + (if longDescription then 10 else 0).

Definition volumeScore : Z := Z.min 30 (Z.of_nat feedbackCount * 3).

Definition consistencyScore : R :=
  if (0 <? feedbackCount)%nat
  then Rmin 20 ((100 - computeVariance allFeedbackScores) / 5)
  else 0%R.

Definition reputationConfidence : R := (IZR volumeScore + consistencyScore)%R.

Definition baseScore : R := avgScore.
Definition maturityBonus : R := (IZR identityMaturity * 0.3)%R.
Definition confidenceBonus : R := (reputationConfidence * 0.2)%R.

Definition effectiveBaseScore : R :=
  if (0 <? feedbackCount)%nat then baseScore else 50%R.

Definition trustScore : Z :=
  Z.min 100
    (Z.max 0 (Math_round (effectiveBaseScore + maturityBonus + confidenceBonus))).

End Score.

Definition verdict (trustScore : Z) : string :=
  if 80 <=? trustScore then "highly-trusted"
  else if 60 <=? trustScore then "trusted"
  else if 40 <=? trustScore then "neutral"
  else if 20 <=? trustScore then "low-trust"
  else "untrusted".

(** [new Set(xs).size] *)
Definition distinctCount (xs : list string) : nat :=
  List.length (nodup string_dec xs).

Definition scoreOutput (agentId : Z) (chain : string)
    (registrationFile : RegistrationFile) (allFeedback : SafeFeedback)
    : ScoreOutput :=
  let s := scores allFeedback in
  {| so_agentId := JS.showZ agentId;
     so_chain := chain;
     so_trustScore := trustScore registrationFile s;
     so_verdict := verdict (trustScore registrationFile s);
     so_breakdown :=
       {| b_feedbackScore := Math_round (effectiveBaseScore s);
          b_identityMaturity := identityMaturity registrationFile;
          b_reputationConfidence := reputationConfidence s;
          b_formula :=
            "score = feedbackAvg + (identityMaturity * 0.3) + (reputationConfidence * 0.2)" |};
     so_feedbackSummary :=
       {| fs_count := feedbackCount s;
          fs_averageScore := (IZR (Math_round (avgScore s * 10)) / 10)%R;
          fs_uniqueClients := distinctCount (clientAddresses allFeedback);
          fs_warning := warning allFeedback |};
     so_agentName := rf_name registrationFile |}.

(** The response with the warning of its feedback summary replaced. *)
Definition setWarning (warning : option string) (response : Response ApiBody)
    : Response ApiBody :=
  match body response with
  | ScoreOutputBody o =>
      {| status := status response;
         body :=
           ScoreOutputBody
             {| so_agentId := so_agentId o;
                so_chain := so_chain o;
                so_trustScore := so_trustScore o;
                so_verdict := so_verdict o;
                so_breakdown := so_breakdown o;
                so_feedbackSummary :=
                  {| fs_count := fs_count (so_feedbackSummary o);
                     fs_averageScore := fs_averageScore (so_feedbackSummary o);
                     fs_uniqueClients := fs_uniqueClients (so_feedbackSummary o);
                     fs_warning := warning |};
                so_agentName := so_agentName o |} |}
  | _ => response
  end.

(** The statements inside the [try] of the score route. *)
Definition scoreAgent (w : World) (agentId : Z) (chainName : string)
    : M (Response ApiBody) :=
  chain <- createClients chainName ;;
  doc <- fetchRegistrationFile w chain agentId ;;
  allFeedback <- readFeedbackSafe w chain agentId ;;
  registrationFile <- fileOf "endpoints" doc ;;
  ret (c_json (ScoreOutputBody
                 (scoreOutput agentId chainName registrationFile allFeedback))).

(** POST /agent/score/invoke *)
Definition postScoreInvoke (w : World) (raw : string) : M (Response ApiBody) :=
  match invokeEnvelopeSchema (requestJson w raw) with
  | Invalid details => ret (badRequest "Invalid request body" (Some details))
  | Parsed input =>
      match scoreInputSchema input with
      | Invalid details => ret (badRequest "Invalid input" (Some details))
      | Parsed (agentId, chainName) =>
          guarded "Failed to compute trust score"
            (scoreAgent w agentId chainName)
      end
  end.

(* ----------------------------------------------------------------- *)
(** *** Validation *)

Definition initialReport : ValidationReport :=
  {| endpointStatus := [];
     walletStatus := {| ws_address := EmptyString; ws_valid := false; ws_isOwner := false |};
     attestations := [];
     overallVerdict := "pending";
     issues := [] |}.

(** [validationReport.endpointStatus.push(s)] *)
Definition pushEndpointStatus (s : EndpointStatus) (r : ValidationReport)
    : ValidationReport :=
  {| endpointStatus := endpointStatus r ++ [s];
     walletStatus := walletStatus r;
     attestations := attestations r;
     overallVerdict := overallVerdict r;
     issues := issues r |}.

(** [validationReport.issues.push(i)] *)
Definition pushIssue (i : string) (r : ValidationReport) : ValidationReport :=
  {| endpointStatus := endpointStatus r;
     walletStatus := walletStatus r;
     attestations := attestations r;
     overallVerdict := overallVerdict r;
     issues := issues r ++ [i] |}.

(** [validationReport.attestations.push(a)] *)
Definition pushAttestation (a : Attestation) (r : ValidationReport)
    : ValidationReport :=
  {| endpointStatus := endpointStatus r;
     walletStatus := walletStatus r;
     attestations := attestations r ++ [a];
     overallVerdict := overallVerdict r;
     issues := issues r |}.

Definition setWalletStatus (s : WalletStatus) (r : ValidationReport)
    : ValidationReport :=
  {| endpointStatus := endpointStatus r;
     walletStatus := s;
     attestations := attestations r;
     overallVerdict := overallVerdict r;
     issues := issues r |}.

Definition setOverallVerdict (v : string) (r : ValidationReport)
    : ValidationReport :=
  {| endpointStatus := endpointStatus r;
     walletStatus := walletStatus r;
     attestations := attestations r;
     overallVerdict := v;
     issues := issues r |}.

(** One turn of the loop over the declared endpoints: a HEAD probe under a
    five-second abort timer. *)
Definition probeEndpoint (w : World) (ep : EndpointDecl) (r : ValidationReport)
    : M ValidationReport :=
  outcome <- call (Probe (ep_endpoint ep)) (Ok (probe w (ep_endpoint ep))) ;;
  match outcome with
  | Responded response latencyMs =>
      if resp_ok response
      then ret (pushEndpointStatus
                  {| es_name := ep_name ep; es_endpoint := ep_endpoint ep;
                     es_status := "reachable";
                     es_latencyMs := Some latencyMs; es_error := None |} r)
      else ret (pushIssue ("Endpoint " ++ ep_name ep ++ " is unreachable")
                  (pushEndpointStatus
                     {| es_name := ep_name ep; es_endpoint := ep_endpoint ep;
                        es_status := "unreachable"; es_latencyMs := None;
                        es_error := Some ("HTTP " ++ JS.showZ (resp_status response)) |}
                     r))
  | NoResponse =>
      ret (pushIssue ("Endpoint " ++ ep_name ep ++ " is unreachable")
             (pushEndpointStatus
                {| es_name := ep_name ep; es_endpoint := ep_endpoint ep;
                   es_status := "unreachable"; es_latencyMs := None;
                   es_error := Some "Connection failed" |}
                r))
  | ProbeThrew error =>
      ret (pushIssue ("Endpoint " ++ ep_name ep ++ " probe failed")
             (pushEndpointStatus
                {| es_name := ep_name ep; es_endpoint := ep_endpoint ep;
                   es_status := "error"; es_latencyMs := None;
                   es_error := Some (messageOr "Unknown error" error) |}
                r))
  end.

Fixpoint probeEndpoints (w : World) (eps : list EndpointDecl)
    (r : ValidationReport) : M ValidationReport :=
  match eps with
  | [] => ret r
  | ep :: rest =>
      r' <- probeEndpoint w ep r ;;
      probeEndpoints w rest r'
  end.

(** [if (checks.includes("endpoints") && registrationFile.endpoints) ...],
    on a document that follows the interface ([followsInterface]). *)
Definition checkEndpoints (w : World) (checks : list Check) (doc : JSON)
    (r : ValidationReport) : M ValidationReport :=
  if includes Endpoints checks then
    registrationFile <- fileOf "endpoints" doc ;;
    match rf_endpoints registrationFile with
    | Some eps => probeEndpoints w eps r
    | None => ret r
    end
  else ret r.

(** [/^0x[a-fA-F0-9]{40}$/] *)
Definition reAddress : regex :=
  Seq (lit "0x")
      (times 40 (Cls (fun a => JS.between 97 102 a || JS.between 65 70 a
                               || JS.isDigit a))).

(** [if (checks.includes("wallet")) ...] *)
Definition checkWallet (w : World) (checks : list Check) (chain : string)
    (agentId : Z) (owner : string) (r : ValidationReport) : M ValidationReport :=
  if includes Wallet checks then
    wallet <- catch
                (walletMeta <- call (GetMetadata chain agentId "agentWallet")
                                    (getMetadata w chain agentId "agentWallet") ;;
                 ret (if negb (JS.isEmpty walletMeta) then walletMeta else owner))
                (fun _ => ret owner) ;;
    let isValidAddress := test reAddress wallet in
    let r' := setWalletStatus
                {| ws_address := wallet;
                   ws_valid := isValidAddress;
                   ws_isOwner := String.eqb (JS.toLowerCase wallet)
                                            (JS.toLowerCase owner) |} r in
    if negb isValidAddress
    then ret (pushIssue "Invalid wallet address format" r')
    else ret r'
  else ret r.

(** One turn of the loop over [registrationFile.supportedTrust]. *)
Definition attest (w : World) (chain : string) (agentId : Z)
    (trustType : string) (r : ValidationReport) : M ValidationReport :=
  if String.eqb trustType "reputation" then
    feedback <- readFeedbackSafe w chain agentId ;;
    let count := List.length (scores feedback) in
    let average :=
      if (0 <? count)%nat then (sum (scores feedback) / INR count)%R else 0%R in
    ret (pushAttestation
           {| at_type := "reputation";
              at_status := if (0 <? count)%nat then "active" else "no-feedback";
              at_details :=
                Some (match warning feedback with
                      | Some (String a rest) =>
                          "feedback unavailable: " ++ String a rest
                      | _ =>
                          JS.showZ (Z.of_nat count) ++ " feedbacks, avg score: "
                          ++ JS.showZ (Math_round average)
                      end) |} r)
  else if String.eqb trustType "tee-attestation" then
    ret (pushAttestation
           {| at_type := "tee-attestation"; at_status := "declared";
              at_details := Some "TEE attestation verification not yet implemented" |} r)
  else if String.eqb trustType "crypto-economic" then
    ret (pushAttestation
           {| at_type := "crypto-economic"; at_status := "declared";
              at_details := Some "Crypto-economic validation not yet implemented" |} r)
  else
    ret (pushAttestation
           {| at_type := trustType; at_status := "unknown"; at_details := None |} r).

Fixpoint attestAll (w : World) (chain : string) (agentId : Z)
    (trust : list string) (r : ValidationReport) : M ValidationReport :=
  match trust with
  | [] => ret r
  | trustType :: rest =>
      r' <- attest w chain agentId trustType r ;;
      attestAll w chain agentId rest r'
  end.

(** [if (checks.includes("attestations") && registrationFile.supportedTrust) ...],
    on a document that follows the interface ([followsInterface]). *)
Definition checkAttestations (w : World) (checks : list Check) (chain : string)
    (agentId : Z) (doc : JSON) (r : ValidationReport) : M ValidationReport :=
  if includes Attestations checks then
    registrationFile <- fileOf "supportedTrust" doc ;;
    match rf_supportedTrust registrationFile with
    | Some trust => attestAll w chain agentId trust r
    | None => ret r
    end
  else ret r.

(** "Determine overall verdict" *)
Definition determineVerdict (r : ValidationReport) : ValidationReport :=
  let reachableEndpoints :=
    List.length (filter (fun e => String.eqb (es_status e) "reachable")
                        (endpointStatus r)) in
  let totalEndpoints := List.length (endpointStatus r) in
  let walletValid := ws_valid (walletStatus r) in
  if (List.length (issues r) =? 0)%nat then setOverallVerdict "validated" r
  else if (reachableEndpoints =? totalEndpoints)%nat && walletValid
  then setOverallVerdict "validated-with-warnings" r
  else if (0 <? reachableEndpoints)%nat || walletValid
  then setOverallVerdict "partial" r
  else setOverallVerdict "failed" r.

(** The checks of the validate route, in the order the handler runs them. *)
Definition runChecks (w : World) (checks : list Check) (chain : string)
    (agentId : Z) (doc : JSON) (owner : string) : M ValidationReport :=
  r1 <- checkEndpoints w checks doc initialReport ;;
  r2 <- checkWallet w checks chain agentId owner r1 ;;
  checkAttestations w checks chain agentId doc r2.

(** The statements inside the [try] of the validate route. *)
Definition validateAgent (w : World) (agentId : Z) (chainName : string)
    (checks : list Check) : M (Response ApiBody) :=
  chain <- createClients chainName ;;
  doc <- fetchRegistrationFile w chain agentId ;;
  owner <- call (GetOwner chain agentId) (getOwner w chain agentId) ;;
  checked <- runChecks w checks chain agentId doc owner ;;
  let validationReport := determineVerdict checked in
  registrationFile <- fileOf "name" doc ;;
  ret (c_json (ValidateOutputBody
                 {| vo_agentId := JS.showZ agentId;
                    vo_chain := chainName;
                    vo_agentName := rf_name registrationFile;
                    vo_report := validationReport |})).

(** POST /agent/validate/invoke *)
Definition postValidateInvoke (w : World) (raw : string)
    : M (Response ApiBody) :=
  match invokeEnvelopeSchema (requestJson w raw) with
  | Invalid details => ret (badRequest "Invalid request body" (Some details))
  | Parsed input =>
      match validateInputSchema input with
      | Invalid details => ret (badRequest "Invalid input" (Some details))
      | Parsed (agentId, chainName, checks) =>
          guarded "Failed to validate agent"
            (validateAgent w agentId chainName checks)
      end
  end.

End Api.

(* ================================================================= *)
(** ** The trust score on binary64 values

    The lines of the score route between the feedback read and the
    response, with every number the binary64 value that the engine holds:
    the sums are taken from the left as [reduce] takes them, every operation
    rounds, and a sum that overflows is an infinity.  [Math.pow(d, 2)] is
    the square of [d], rounded.  [Api.trustScore] above is the same formula
    over the real numbers. *)

Module Api64.

Import Double.

(** [xs.reduce((a, b) => a + b, 0)] *)
Definition sum (xs : list double) : double := fold_left add xs (Finite 0).

(** [xs.length] as a number *)
Definition lengthOf (xs : list double) : double := ofZ (Z.of_nat (List.length xs)).

Definition computeVariance (scores : list double) : double :=
  match scores with
  | [] => Finite 0
  | _ =>
      let mean := div (sum scores) (lengthOf scores) in
      let squaredDiffs := map (fun s => mul (sub s mean) (sub s mean)) scores in
      sqrt (div (sum squaredDiffs) (lengthOf scores))
  end.

Section Score.

Variable registrationFile : Api.RegistrationFile.
Variable allFeedbackScores : list double.

Definition feedbackCount : nat := List.length allFeedbackScores.

Definition avgScore : double :=
  if (0 <? feedbackCount)%nat
  then div (sum allFeedbackScores) (lengthOf allFeedbackScores)
  else Finite 0.

(** The identity maturity is a sum of the integers 30, 20 and 10. *)
Definition identityMaturity : Z := Api.identityMaturity registrationFile.

(** [Math.min(30, feedbackCount * 3)]: integers, and exact on them. *)
Definition volumeScore : Z := Z.min 30 (Z.of_nat feedbackCount * 3).

Definition consistencyScore : double :=
  if (0 <? feedbackCount)%nat
  then Math_min (Finite 20)
         (div (sub (Finite 100) (computeVariance allFeedbackScores)) (Finite 5))
  else Finite 0.

Definition reputationConfidence : double :=
  add (ofZ volumeScore) consistencyScore.

Definition baseScore : double := avgScore.
Definition maturityBonus : double := mul (ofZ identityMaturity) (round (3 # 10)).
Definition confidenceBonus : double := mul reputationConfidence (round (2 # 10)).

Definition effectiveBaseScore : double :=
  if (0 <? feedbackCount)%nat then baseScore else Finite 50.

Definition rawScore : double :=
  add (add effectiveBaseScore maturityBonus) confidenceBonus.

Definition trustScore : double :=
  Math_min (Finite 100) (Math_max (Finite 0) (Math_round rawScore)).

(** [breakdown.feedbackScore] *)
Definition feedbackScore : double := Math_round effectiveBaseScore.

End Score.

(** The verdict of a score; a comparison with NaN is false. *)
Definition verdict (trustScore : double) : string :=
  if leb (Finite 80) trustScore then "highly-trusted"
  else if leb (Finite 60) trustScore then "trusted"
  else if leb (Finite 40) trustScore then "neutral"
  else if leb (Finite 20) trustScore then "low-trust"
  else "untrusted".

End Api64.

(* ================================================================= *)
(** ** Reference collaborators

    Concrete values for the fields of [World], used to run the model on
    sample requests: a JSON reader after ECMA-404, a base64 decoder, and
    registries and networks given by tables. *)

Module Ref.

Import Re.

Definition isJsonSpace (a : ascii) : bool :=
  let c := JS.code a in
  ((c =? 32) || (c =? 9) || (c =? 10) || (c =? 13))%N.

Fixpoint skipWs (s : string) : string :=
  match s with
  | String a s' => if isJsonSpace a then skipWs s' else s
  | EmptyString => EmptyString
  end.

Definition quote : ascii := ascii_of_N 34.
Definition backslash : ascii := ascii_of_N 92.

Definition hexValue (a : ascii) : option N :=
  let c := JS.code a in
  if JS.isDigit a then Some (c - 48)%N
  else if JS.between 97 102 a then Some (c - 87)%N
  else if JS.between 65 70 a then Some (c - 55)%N
  else None.

(** The code unit of [\uXXXX], when it lies below U+0100. *)
Definition unicodeEscape (a b c d : ascii) : option ascii :=
  match hexValue a, hexValue b, hexValue c, hexValue d with
  | Some 0%N, Some 0%N, Some h, Some l => Some (ascii_of_N (16 * h + l))
  | _, _, _, _ => None
  end.

(** The characters of a string literal after its opening quote; [acc] holds
    the characters read so far, last one first. *)
Fixpoint stringBody (s acc : string) : option (string * string) :=
  match s with
  | EmptyString => None
  | String a rest =>
      if Ascii.eqb a quote then Some (JS.reverse acc, rest)
      else if Ascii.eqb a backslash then
        match rest with
        | String e rest' =>
            if Ascii.eqb e "u" then
              match rest' with
              | String h1 (String h2 (String h3 (String h4 rest''))) =>
                  match unicodeEscape h1 h2 h3 h4 with
                  | Some u => stringBody rest'' (String u acc)
                  | None => None
                  end
              | _ => None
              end
            else
              match
                (if Ascii.eqb e quote then Some quote
                 else if Ascii.eqb e backslash then Some backslash
                 else if Ascii.eqb e "/" then Some "/"%char
                 else if Ascii.eqb e "b" then Some (ascii_of_N 8)
                 else if Ascii.eqb e "f" then Some (ascii_of_N 12)
                 else if Ascii.eqb e "n" then Some (ascii_of_N 10)
                 else if Ascii.eqb e "r" then Some (ascii_of_N 13)
                 else if Ascii.eqb e "t" then Some (ascii_of_N 9)
                 else None)
              with
              | Some u => stringBody rest' (String u acc)
              | None => None
              end
        | EmptyString => None
        end
      else if (JS.code a <? 32)%N then None
      else stringBody rest (String a acc)
  end.

Definition isNumberChar (a : ascii) : bool :=
  JS.isDigit a || Ascii.eqb a "-" || Ascii.eqb a "+" || Ascii.eqb a "."
  || Ascii.eqb a "e" || Ascii.eqb a "E".

Fixpoint spanNumber (s acc : string) : string * string :=
  match s with
  | String a rest =>
      if isNumberChar a then spanNumber rest (String a acc)
      else (JS.reverse acc, s)
  | EmptyString => (JS.reverse acc, s)
  end.

Definition digit : regex := Cls JS.isDigit.

(** A JSON number: an optional minus sign, an integer part without a
    leading zero, an optional fraction and an optional exponent. *)
Definition reNumber : regex :=
  seqs [ opt (chr "-");
         Alt (chr "0") (Seq (Cls (JS.between 49 57)) (Star digit));
         opt (Seq (chr ".") (plus digit));
         opt (seqs [Alt (chr "e") (chr "E"); opt (Alt (chr "+") (chr "-"));
                    plus digit]) ].

Record Numeral : Type := {
  negative : bool;
  mantissa : Z;
  fraction : Z;
  exponentNegative : bool;
  exponent : Z
}.

(** Reading of a numeral: 0 = integer part, 1 = fraction, 2 = exponent. *)
Fixpoint readNumeral (s : string) (part : nat) (n : Numeral) : Numeral :=
  match s with
  | EmptyString => n
  | String a rest =>
      let d := Z.of_N (JS.code a) - 48 in
      if Ascii.eqb a "-" then
        match part with
        | O => readNumeral rest part
                 {| negative := true; mantissa := mantissa n;
                    fraction := fraction n;
                    exponentNegative := exponentNegative n;
                    exponent := exponent n |}
        | _ => readNumeral rest part
                 {| negative := negative n; mantissa := mantissa n;
                    fraction := fraction n; exponentNegative := true;
                    exponent := exponent n |}
        end
      else if Ascii.eqb a "+" then readNumeral rest part n
      else if Ascii.eqb a "." then readNumeral rest 1%nat n
      else if Ascii.eqb a "e" || Ascii.eqb a "E" then readNumeral rest 2%nat n
      else
        match part with
        | O => readNumeral rest part
                 {| negative := negative n; mantissa := 10 * mantissa n + d;
                    fraction := fraction n;
                    exponentNegative := exponentNegative n;
                    exponent := exponent n |}
        | S O => readNumeral rest part
                 {| negative := negative n; mantissa := 10 * mantissa n + d;
                    fraction := fraction n + 1;
                    exponentNegative := exponentNegative n;
                    exponent := exponent n |}
        | _ => readNumeral rest part
                 {| negative := negative n; mantissa := mantissa n;
                    fraction := fraction n;
                    exponentNegative := exponentNegative n;
                    exponent := 10 * exponent n + d |}
        end
  end.

Definition numeralValue (n : Numeral) : Q :=
  let m := if negative n then - mantissa n else mantissa n in
  let e := (if exponentNegative n then - exponent n else exponent n) - fraction n in
  if 0 <=? e then Qmake (m * 10 ^ e) 1
  else Qred (Qmake m (Z.to_pos (10 ^ (- e)))).

Definition number (tok : string) : option JSON :=
  if test reNumber tok
  then Some (JNumber (numeralValue
                        (readNumeral tok 0%nat
                           {| negative := false; mantissa := 0; fraction := 0;
                              exponentNegative := false; exponent := 0 |})))
  else None.

Definition keyword (k : string) (v : JSON) (s : string)
    : option (JSON * string) :=
  if JS.startsWith k s then Some (v, JS.slice (String.length k) s) else None.

(** [value], [elements] after an opening bracket and [members] after an
    opening brace; [fuel] bounds the number of nested calls. *)
Fixpoint value (fuel : nat) (s : string) : option (JSON * string) :=
  match fuel with
  | O => None
  | S fuel' =>
      match skipWs s with
      | EmptyString => None
      | String a rest as s' =>
          if Ascii.eqb a "{" then
            match skipWs rest with
            | String b rest' as inner =>
                if Ascii.eqb b "}" then Some (JObject [], rest')
                else members fuel' inner []
            | EmptyString => None
            end
          else if Ascii.eqb a "[" then
            match skipWs rest with
            | String b rest' as inner =>
                if Ascii.eqb b "]" then Some (JArray [], rest')
                else elements fuel' inner []
            | EmptyString => None
            end
          else if Ascii.eqb a quote then
            match stringBody rest EmptyString with
            | Some (str, rest') => Some (JString str, rest')
            | None => None
            end
          else if Ascii.eqb a "t" then keyword "true" (JBool true) s'
          else if Ascii.eqb a "f" then keyword "false" (JBool false) s'
          else if Ascii.eqb a "n" then keyword "null" JNull s'
          else
            let (tok, rest') := spanNumber s' EmptyString in
            match number tok with
            | Some v => Some (v, rest')
            | None => None
            end
      end
  end
with elements (fuel : nat) (s : string) (acc : list JSON)
    : option (JSON * string) :=
  match fuel with
  | O => None
  | S fuel' =>
      match value fuel' s with
      | Some (v, rest) =>
          match skipWs rest with
          | String a rest' =>
              if Ascii.eqb a "," then elements fuel' rest' (v :: acc)
              else if Ascii.eqb a "]" then Some (JArray (rev (v :: acc)), rest')
              else None
          | EmptyString => None
          end
      | None => None
      end
  end
with members (fuel : nat) (s : string) (acc : list (string * JSON))
    : option (JSON * string) :=
  match fuel with
  | O => None
  | S fuel' =>
      match skipWs s with
      | String q afterQuote =>
          if Ascii.eqb q quote then
            match stringBody afterQuote EmptyString with
            | Some (key, rest) =>
                match skipWs rest with
                | String c rest' =>
                    if Ascii.eqb c ":" then
                      match value fuel' rest' with
                      | Some (v, rest'') =>
                          match skipWs rest'' with
                          | String a rest3 =>
                              if Ascii.eqb a ","
                              then members fuel' rest3 ((key, v) :: acc)
                              else if Ascii.eqb a "}"
                              then Some (JObject (rev ((key, v) :: acc)), rest3)
                              else None
                          | EmptyString => None
                          end
                      | None => None
                      end
                    else None
                | EmptyString => None
                end
            | None => None
            end
          else None
      | EmptyString => None
      end
  end.

(** [JSON.parse] *)
Definition parse (s : string) : option JSON :=
  match value (2 * String.length s + 2) s with
  | Some (v, rest) => if JS.isEmpty (skipWs rest) then Some v else None
  | None => None
  end.

(** The six bits of a base64 character, in the standard and the URL-safe
    alphabet. *)
Definition sextet (a : ascii) : option N :=
  let c := JS.code a in
  if JS.isUpper a then Some (c - 65)%N
  else if JS.isLower a then Some (c - 71)%N
  else if JS.isDigit a then Some (c + 4)%N
  else if Ascii.eqb a "+" || Ascii.eqb a "-" then Some 62%N
  else if Ascii.eqb a "/" || Ascii.eqb a "_" then Some 63%N
  else None.

(** The sextets up to the padding; other characters are passed over. *)
Fixpoint sextets (s : string) : list N :=
  match s with
  | EmptyString => []
  | String a rest =>
      if Ascii.eqb a "=" then []
      else match sextet a with
           | Some n => n :: sextets rest
           | None => sextets rest
           end
  end.

Fixpoint octets (l : list N) : string :=
  match l with
  | a :: b :: c :: d :: rest =>
      String (ascii_of_N (4 * a + b / 16))
        (String (ascii_of_N (16 * (b mod 16) + c / 4))
           (String (ascii_of_N (64 * (c mod 4) + d)) (octets rest)))
  | [a; b; c] =>
      String (ascii_of_N (4 * a + b / 16))
        (String (ascii_of_N (16 * (b mod 16) + c / 4)) EmptyString)
  | [a; b] => String (ascii_of_N (4 * a + b / 16)) EmptyString
  | _ => EmptyString
  end.

(** [Buffer.from(s, "base64").toString("utf-8")] for a payload of ASCII
    text, where an octet is a character. *)
Definition base64 (s : string) : string := octets (sextets s).

End Ref.

(* ================================================================= *)
(** ** The scoring formula as the specification words it

    Section 4.4 of the specification, kept apart from the code so that the
    two can be compared; its numbers are binary64 values as well. *)

Module ScoringEngine.

Import Double.

(** The mean of the samples: their sum, in their order, by their number. *)
Definition mean (xs : list double) : double :=
  div (fold_left add xs (Finite 0)) (ofZ (Z.of_nat (List.length xs))).

Definition square (x : double) : double := mul x x.

(** population standard deviation: the root of the mean squared deviation *)
Definition populationStddev (xs : list double) : double :=
  sqrt (mean (map (fun x => square (sub x (mean xs))) xs)).

Definition clamp (x lo hi : double) : double := Math_max lo (Math_min x hi).

(** nearest integer, halves upwards *)
Definition nearestInteger (x : double) : double := Math_round x.

Section Formula.

Variables hasEndpoints hasSupportedTrust : bool.
Variable descriptionLength : nat.
Variable scores : list double.

Definition feedbackCount : nat := List.length scores.

Definition identityMaturity : Z :=
  ((if hasEndpoints then 30 else 0) + (if hasSupportedTrust then 20 else 0)
   + (if (50 <? descriptionLength)%nat then 10 else 0))%Z.

Definition volumeScore : Z := Z.min 30 (Z.of_nat feedbackCount * 3).

Definition consistencyScore : double :=
  if (0 <? feedbackCount)%nat
  then Math_min (Finite 20)
         (div (sub (Finite 100) (populationStddev scores)) (Finite 5))
  else Finite 0.

Definition reputationConfidence : double :=
  add (ofZ volumeScore) consistencyScore.

Definition effectiveBaseScore : double :=
  if (0 <? feedbackCount)%nat then mean scores else Finite 50.

Definition rawScore : double :=
  add (add effectiveBaseScore (mul (ofZ identityMaturity) (round (3 # 10))))
      (mul reputationConfidence (round (2 # 10))).

Definition score : double :=
  nearestInteger (clamp rawScore (Finite 0) (Finite 100)).

End Formula.

End ScoringEngine.

(* ================================================================= *)
(** ** Sample requests and worlds *)

Module Sample.

(** A JSON string literal without characters that need an escape. *)
Definition str (s : string) : string :=
  String Ref.quote (s ++ String Ref.quote EmptyString).

(** The text of a JSON-RPC request with the given method. *)
Definition rpcText (method : string) : string :=
  "{" ++ str "jsonrpc" ++ ":" ++ str "2.0" ++ "," ++ str "id" ++ ":" ++ str "1"
  ++ "," ++ str "method" ++ ":" ++ str method ++ "}".

Definition rpcBody (method : string) : JSON :=
  JObject [("jsonrpc", JString "2.0"); ("id", JString "1");
           ("method", JString method)].

(** The text of an invoke request for an agent id given as a string. *)
Definition invokeText (agentId : string) : string :=
  "{" ++ str "input" ++ ":{" ++ str "agentId" ++ ":" ++ str agentId ++ "}}".

Definition invokeChecksText (agentId check : string) : string :=
  "{" ++ str "input" ++ ":{" ++ str "agentId" ++ ":" ++ str agentId ++ ","
  ++ str "checks" ++ ":[" ++ str check ++ "]}}".

Definition owner : string := "0x8004A169FB4a3325136EB29fA0ceB6D2e539a432".

Definition documentText : string :=
  "{" ++ str "name" ++ ":" ++ str "Sample Agent" ++ ","
  ++ str "description" ++ ":"
  ++ str "An agent that answers questions about on-chain identity records."
  ++ "," ++ str "endpoints" ++ ":[{" ++ str "name" ++ ":" ++ str "a2a" ++ ","
  ++ str "endpoint" ++ ":" ++ str "https://agent.example/a2a" ++ "}],"
  ++ str "supportedTrust" ++ ":[" ++ str "reputation" ++ ","
  ++ str "tee-attestation" ++ "]}".

Definition document : JSON :=
  JObject
    [("name", JString "Sample Agent");
     ("description",
      JString "An agent that answers questions about on-chain identity records.");
     ("endpoints",
      JArray [JObject [("name", JString "a2a");
                       ("endpoint", JString "https://agent.example/a2a")]]);
     ("supportedTrust", JArray [JString "reputation"; JString "tee-attestation"])].

(** Token URIs of the sample registry: agent 1 points into IPFS, agent 2
    carries inline a document with the one member [name], agent 3 carries
    inline the text [not json] and agent 4 the text [null]. *)
Definition tokenURI (agentId : Z) : Result string :=
  if agentId =? 1 then Ok "ipfs://QmSample"
  else if agentId =? 2 then Ok "data:application/json;base64,eyJuYW1lIjoiQSJ9"
  else if agentId =? 3 then Ok "data:application/json;base64,bm90IGpzb24="
  else if agentId =? 4 then Ok "data:application/json;base64,bnVsbA=="
  else Throw (Error "ERC721NonexistentToken").

(** The sample network: the first gateway answers 404, the second serves
    the document, and a [data:] URL is served from its own payload. *)
Definition network (url : string) : option FetchResponse :=
  if String.eqb url "https://ipfs.io/ipfs/QmSample"
  then Some {| resp_status := 404; resp_body := "not found" |}
  else if String.eqb url "https://cloudflare-ipfs.com/ipfs/QmSample"
  then Some {| resp_status := 200; resp_body := documentText |}
  else if JS.startsWith "data:application/json;base64," url
  then Some {| resp_status := 200; resp_body := Ref.base64 (JS.slice 29 url) |}
  else None.

(** A network on which nothing answers. *)
Definition offline (url : string) : option FetchResponse := None.

Definition world : World :=
  {| JSON_parse := Ref.parse;
     base64_utf8 := Ref.base64;
     verifyPayment := fun _ proof =>
                        match proof with
                        | Some p => String.eqb p "settled"
                        | None => false
                        end;
     handle := fun _ => Single (JObject [("jsonrpc", JString "2.0");
                                         ("id", JString "1");
                                         ("result", JNull)]);
     getTokenURI := fun _ agentId => tokenURI agentId;
     getOwner := fun _ _ => Ok owner;
     getMetadata := fun _ _ _ => Throw (Error "metadata not set");
     readAllFeedback := fun _ _ =>
                          Ok {| fb_scores := Some [80%R; 90%R];
                                fb_clientAddresses := Some ["0xa"; "0xb"] |};
     fetch := network;
     probe := fun _ => NoResponse |}.

(** The configuration of the test suite. *)
Definition testConfig : A2A.Config :=
  {| A2A.bypassPayments := false;
     A2A.network := "eip155:84532";
     A2A.walletAddress := "0xtest";
     A2A.agentUrl := "http://localhost:3000" |}.

Definition request (contentType : option string) (text : string) : A2A.Request :=
  {| A2A.contentTypeHeader := contentType;
     A2A.paymentHeader := None;
     A2A.text := text |}.

End Sample.

(* ================================================================= *)
(** ** The overall verdict as the specification words it

    Section 4.5 of the specification: no issues, validated; issues but all
    endpoints reachable and the wallet valid, validated-with-warnings; any
    endpoint reachable or the wallet valid, partial; failed otherwise. *)

Module ValidationPipeline.

Import Api.

Definition reachable (e : EndpointStatus) : bool :=
  String.eqb (es_status e) "reachable".

Definition noIssues (r : ValidationReport) : bool :=
  match issues r with
  | [] => true
  | _ :: _ => false
  end.

Definition allEndpointsReachable (r : ValidationReport) : bool :=
  forallb reachable (endpointStatus r).

Definition anyEndpointReachable (r : ValidationReport) : bool :=
  existsb reachable (endpointStatus r).

Definition walletValid (r : ValidationReport) : bool :=
  ws_valid (walletStatus r).

Definition verdict (r : ValidationReport) : string :=
  if noIssues r then "validated"
  else if allEndpointsReachable r && walletValid r then "validated-with-warnings"
  else if anyEndpointReachable r || walletValid r then "partial"
  else "failed".

(** While the endpoints are probed, an issue means an endpoint that is not
    reachable. *)
Definition issuesFromEndpoints (r : ValidationReport) : Prop :=
  issues r = [] \/ allEndpointsReachable r = false.

(** From the wallet check on, an issue means an endpoint that is not
    reachable or a wallet that is not valid. *)
Definition issuesExplained (r : ValidationReport) : Prop :=
  issues r = [] \/ allEndpointsReachable r = false \/ walletValid r = false.

(** The two worlds answer alike to everything that a validate request with
    these checks can ask: they may differ in the endpoint probes when the
    endpoints are not checked, in the wallet metadata when the wallet is not
    checked, and in the feedback when the attestations are not checked. *)
Record sameForChecks (checks : list Check) (w w' : World) : Prop := {
  same_parse : JSON_parse w = JSON_parse w';
  same_base64 : base64_utf8 w = base64_utf8 w';
  same_tokenURI : getTokenURI w = getTokenURI w';
  same_owner : getOwner w = getOwner w';
  same_fetch : fetch w = fetch w';
  same_probe : includes Endpoints checks = true -> probe w = probe w';
  same_metadata : includes Wallet checks = true -> getMetadata w = getMetadata w';
  same_feedback :
    includes Attestations checks = true -> readAllFeedback w = readAllFeedback w'
}.

End ValidationPipeline.

Definition isProbe (e : Event) : bool :=
  match e with Probe _ => true | _ => false end.

Definition isGetMetadata (e : Event) : bool :=
  match e with GetMetadata _ _ _ => true | _ => false end.

Definition isReadAllFeedback (e : Event) : bool :=
  match e with ReadAllFeedback _ _ => true | _ => false end.

(* ================================================================= *)
(** ** Vocabulary for the statements about the candidate loop *)

Module Attempt.

(** The candidate answers with a success status. *)
Definition succeeds (w : World) (url : string) : bool :=
  match fetch w url with
  | Some r => resp_ok r
  | None => false
  end.

Definition fails (w : World) (url : string) : bool := negb (succeeds w url).

(** The status that a failed attempt leaves behind: the status of the
    response, or 502 when there was no response. *)
Definition recorded (w : World) (url : string) : Z :=
  match fetch w url with
  | Some r => resp_status r
  | None => 502
  end.

(** The status that the last of the attempts leaves behind, [initial] when
    there was no attempt. *)
Definition lastRecorded (w : World) (urls : list string) (initial : Z) : Z :=
  fold_left (fun _ url => recorded w url) urls initial.

End Attempt.

(* ================================================================= *)
(** * Further properties of the gateway

    What follows supports the statements made after the section on
    feedback reads: vocabulary for them, and the parts of the source that
    the sections above did not need. *)

From Stdlib Require DecimalPos.

(* ================================================================= *)
(** ** Vocabulary for the statements about POST /a2a *)

Module Gate.

Import A2A.

(** The test of the middleware on a parsed body: a non-null object that is
    not an array, with a string member [method] of the paid set, while the
    payments are not bypassed. *)
Definition demandsPayment (config : Config) (body : JSON) : bool :=
  match body with
  | JObject fields =>
      match Json.lookup "method" fields with
      | Some (JString method) => negb (bypassPayments config) && isPaidMethod method
      | _ => false
      end
  | _ => false
  end.

(** The configuration with the payments bypassed. *)
Definition bypassed (config : Config) : Config :=
  {| bypassPayments := true;
     network := network config;
     walletAddress := walletAddress config;
     agentUrl := agentUrl config |}.

End Gate.

(** The world with the A2A runtime replaced. *)
Definition withHandle (h : JSON -> RuntimeOutcome) (w : World) : World :=
  {| JSON_parse := JSON_parse w; base64_utf8 := base64_utf8 w;
     verifyPayment := verifyPayment w; handle := h;
     getTokenURI := getTokenURI w; getOwner := getOwner w;
     getMetadata := getMetadata w; readAllFeedback := readAllFeedback w;
     fetch := fetch w; probe := probe w |}.

(* ================================================================= *)
(** ** Vocabulary for the statements that compare two requests *)

Module Compare.

Import Api.

(** The computation with its result replaced: the same calls, the same
    exception. *)
Definition onResult {A B} (f : A -> B) (m : M A) : M B :=
  (fst m,
   match snd m with
   | Ok a => Ok (f a)
   | Throw e => Throw e
   end).

Definition withoutRegistrations (p : Profile) : Profile :=
  {| p_agentId := p_agentId p;
     p_chain := p_chain p;
     p_owner := p_owner p;
     p_wallet := p_wallet p;
     p_name := p_name p;
     p_description := p_description p;
     p_image := p_image p;
     p_endpoints := p_endpoints p;
     p_supportedTrust := p_supportedTrust p;
     p_active := p_active p;
     p_registrations := None |}.

(** The body of GET /agent/:id/profile as POST /agent/profile/invoke wraps
    it: under [output], without [registrations]. *)
Definition asInvokeOutput (response : Response ApiBody) : Response ApiBody :=
  match body response with
  | ProfileBody p =>
      {| status := status response;
         body := ProfileOutput (withoutRegistrations p) |}
  | _ => response
  end.

Definition profileUnder (chain : string) (p : Profile) : Profile :=
  {| p_agentId := p_agentId p;
     p_chain := chain;
     p_owner := p_owner p;
     p_wallet := p_wallet p;
     p_name := p_name p;
     p_description := p_description p;
     p_image := p_image p;
     p_endpoints := p_endpoints p;
     p_supportedTrust := p_supportedTrust p;
     p_active := p_active p;
     p_registrations := p_registrations p |}.

(** The response with the member [chain] of its body replaced; an error
    body has no such member. *)
Definition underChain (chain : string) (response : Response ApiBody)
    : Response ApiBody :=
  {| status := status response;
     body :=
       match body response with
       | ErrorBody error details => ErrorBody error details
       | ProfileBody p => ProfileBody (profileUnder chain p)
       | ProfileOutput p => ProfileOutput (profileUnder chain p)
       | ScoreOutputBody o =>
           ScoreOutputBody
             {| so_agentId := so_agentId o;
                so_chain := chain;
                so_trustScore := so_trustScore o;
                so_verdict := so_verdict o;
                so_breakdown := so_breakdown o;
                so_feedbackSummary := so_feedbackSummary o;
                so_agentName := so_agentName o |}
       | ValidateOutputBody o =>
           ValidateOutputBody
             {| vo_agentId := vo_agentId o;
                vo_chain := chain;
                vo_agentName := vo_agentName o;
                vo_report := vo_report o |}
       end |}.

(** The chain names that [createClients] serves from the registries of
    Base: those that are neither a key of [CHAINS] nor found on
    [Object.prototype]. *)
Definition fallsBack (chainName : string) : bool :=
  negb (existsb (String.eqb chainName) CHAINS)
  && negb (existsb (String.eqb chainName) inheritedKeys).

(** What every route of the API keeps to: it answers, with one of four
    statuses; a request answered with 400 has made no call; an answer with
    another status than 200 carries an error body. *)
Definition wellAnswered (m : M (Response ApiBody)) : Prop :=
  exists t response,
    m = (t, Ok response)
    /\ In (status response) [200; 400; 404; 500]
    /\ (status response = 400 -> t = [])
    /\ (status response <> 200 ->
        exists error details, body response = ErrorBody error details).

End Compare.

(* ================================================================= *)
(** ** Vocabulary for the statements about validation reports *)

Module Report.

Import Api.

(** The endpoints and the trust methods that a registration document
    declares, for a document that follows the interface
    ([Api.followsInterface]): none when the member is absent. *)
Definition declaredEndpoints (doc : JSON) : list EndpointDecl :=
  orEmpty (rf_endpoints (asRegistrationFile doc)).

Definition declaredTrust (doc : JSON) : list string :=
  orEmpty (rf_supportedTrust (asRegistrationFile doc)).

Definition unreachable (e : EndpointStatus) : bool :=
  negb (String.eqb (es_status e) "reachable").

(** The number of entries of [endpointStatus] that are not reachable. *)
Definition unreachableCount (r : ValidationReport) : nat :=
  List.length (filter unreachable (endpointStatus r)).

(** The wallet that the validate route examines: the metadata entry
    [agentWallet] when it can be read and is not empty, the owner
    otherwise. *)
Definition walletOf (w : World) (chain : string) (agentId : Z) (owner : string)
    : string :=
  match getMetadata w chain agentId "agentWallet" with
  | Ok walletMeta => if JS.isEmpty walletMeta then owner else walletMeta
  | Throw _ => owner
  end.

End Report.

(* ================================================================= *)
(** ** Further sample requests *)

Module Samples.

(** The text of a validate request for an agent id given as a string and a
    list of checks given as JSON text. *)
Definition validateText (agentId checks : string) : string :=
  "{" ++ Sample.str "input" ++ ":{" ++ Sample.str "agentId" ++ ":"
  ++ Sample.str agentId ++ "," ++ Sample.str "checks" ++ ":" ++ checks ++ "}}".

(** The text of an invoke request for an agent id given as a number. *)
Definition invokeNumberText (numeral : string) : string :=
  "{" ++ Sample.str "input" ++ ":{" ++ Sample.str "agentId" ++ ":" ++ numeral
  ++ "}}".

Definition validateInput (agentId : string) (checks : list string)
    : option JSON :=
  Some (JObject [("agentId", JString agentId);
                 ("checks", JArray (map JString checks))]).

(** The sample world with a reputation registry that holds no feedback. *)
Definition unrated : World := withFeedback (Ok noFeedback) Sample.world.

(** The calls that read the registration file and the owner of agent 1. *)
Definition resolution : list Event :=
  [GetTokenURI "base" 1; Fetch "https://ipfs.io/ipfs/QmSample";
   Fetch "https://cloudflare-ipfs.com/ipfs/QmSample"; GetOwner "base" 1].

Definition outputOf (report : Api.ValidationReport) : Api.ValidateOutput :=
  {| Api.vo_agentId := "1"; Api.vo_chain := "base";
     Api.vo_agentName := Some "Sample Agent"; Api.vo_report := report |}.

Definition ownerWallet : Api.WalletStatus :=
  {| Api.ws_address := Sample.owner; Api.ws_valid := true;
     Api.ws_isOwner := true |}.

(** The reports of agent 1 in the sample world, for the checks
    [endpoints], none, [wallet], and [wallet] with [attestations]. *)
Definition endpointsReport : Api.ValidationReport :=
  {| Api.endpointStatus :=
       [{| Api.es_name := "a2a";
           Api.es_endpoint := "https://agent.example/a2a";
           Api.es_status := "unreachable";
           Api.es_latencyMs := None;
           Api.es_error := Some "Connection failed" |}];
     Api.walletStatus := Api.walletStatus Api.initialReport;
     Api.attestations := [];
     Api.overallVerdict := "failed";
     Api.issues := ["Endpoint a2a is unreachable"] |}.

Definition emptyReport : Api.ValidationReport :=
  {| Api.endpointStatus := [];
     Api.walletStatus := Api.walletStatus Api.initialReport;
     Api.attestations := [];
     Api.overallVerdict := "validated";
     Api.issues := [] |}.

Definition walletReport : Api.ValidationReport :=
  {| Api.endpointStatus := [];
     Api.walletStatus := ownerWallet;
     Api.attestations := [];
     Api.overallVerdict := "validated";
     Api.issues := [] |}.

Definition attestedReport : Api.ValidationReport :=
  {| Api.endpointStatus := [];
     Api.walletStatus := ownerWallet;
     Api.attestations :=
       [{| Api.at_type := "reputation"; Api.at_status := "no-feedback";
           Api.at_details :=
             Some ("0 feedbacks, avg score: " ++ JS.showZ (Api.Math_round 0)) |};
        {| Api.at_type := "tee-attestation"; Api.at_status := "declared";
           Api.at_details :=
             Some "TEE attestation verification not yet implemented" |}];
     Api.overallVerdict := "validated";
     Api.issues := [] |}.

(** A registration file with a long description and nothing else, and the
    score 0.8999999999999997. *)
Definition described : Api.RegistrationFile :=
  Api.asRegistrationFile
    (JObject
       [("description",
         JString "An agent that answers questions about on-chain identity records.")]).

Definition score09 : Double.double :=
  Double.round (89999999999999969 # 100000000000000000).

Definition walletAndAttestations : string :=
  "[" ++ Sample.str "wallet" ++ "," ++ Sample.str "attestations" ++ "]".

End Samples.

(* ================================================================= *)
(** ** Further text operations *)

Module Text.

(** Whether the character occurs in the text. *)
Fixpoint hasChar (c : ascii) (s : string) : bool :=
  match s with
  | EmptyString => false
  | String a s' => Ascii.eqb a c || hasChar c s'
  end.

(** [s.endsWith("/")] *)
Fixpoint endsWithSlash (s : string) : bool :=
  match s with
  | EmptyString => false
  | String a EmptyString => Ascii.eqb a "/"
  | String _ s' => endsWithSlash s'
  end.

(** The text is one slash or more and nothing else: it matches [\/+$] from
    its start. *)
Fixpoint allSlashes (s : string) : bool :=
  match s with
  | EmptyString => false
  | String a EmptyString => Ascii.eqb a "/"
  | String a s' => Ascii.eqb a "/" && allSlashes s'
  end.

(** [s.replace(/\/+$/, empty)]: the first place from which the rest of the
    text is slashes only is where the text is cut. *)
Fixpoint dropTrailingSlashes (s : string) : string :=
  match s with
  | EmptyString => EmptyString
  | String a s' =>
      if allSlashes s then EmptyString else String a (dropTrailingSlashes s')
  end.

(** [s.replace(/\/a2a\/?$/, empty)]: the first place from which the rest of
    the text is [/a2a] or [/a2a/] is where the text is cut. *)
Fixpoint dropA2A (s : string) : string :=
  match s with
  | EmptyString => EmptyString
  | String a s' =>
      if String.eqb s "/a2a" || String.eqb s "/a2a/" then EmptyString
      else String a (dropA2A s')
  end.

(** [s.includes(needle)] *)
Fixpoint includes (needle s : string) : bool :=
  String.prefix needle s
  || match s with
     | EmptyString => false
     | String _ s' => includes needle s'
     end.

(** [xs.join(sep)] *)
Fixpoint join (sep : string) (xs : list string) : string :=
  match xs with
  | [] => EmptyString
  | [x] => x
  | x :: rest => x ++ sep ++ join sep rest
  end.

(** The line feed of a template literal that runs over several lines. *)
Definition nl : string := String (ascii_of_N 10) EmptyString.

End Text.

(** The configuration with another agent URL. *)
Definition withAgentUrl (url : string) (config : A2A.Config) : A2A.Config :=
  {| A2A.bypassPayments := A2A.bypassPayments config;
     A2A.network := A2A.network config;
     A2A.walletAddress := A2A.walletAddress config;
     A2A.agentUrl := url |}.

(** The path pattern of a route key, made canonical as
    [createPaymentMiddleware] does for the member [resource]. *)
Definition canonicalPath (route : A2A.RoutePrice) : string :=
  JS.replaceStars "{wildcard}" (JS.braceParams false (JS.secondWord (A2A.path route))).

(* ================================================================= *)
(** ** The entrypoints of the agent card *)

Module Entrypoints.

Record Entrypoint : Type := {
  url : string;
  method : string;
  description : string;
  streaming : bool;
  input_schema : JSON;
  (** the member [invoke] of [pricing] *)
  pricing : option string
}.

Record EntrypointTemplate : Type := {
  t_path : string;
  t_method : string;
  t_description : string;
  t_streaming : bool;
  t_input_schema : JSON;
  t_pricing : option string
}.

Definition CHAIN_DESCRIPTION : string :=
  "Target chain for registry lookup. Options: base, base-sepolia, ethereum, sepolia".

Definition agentIdProperty : JSON :=
  JObject [("type", JArray [JString "string"; JString "number"]);
           ("description", JString "ERC-8004 token ID")].

Definition chainProperty : JSON :=
  JObject [("type", JString "string");
           ("default", JString "base");
           ("description", JString CHAIN_DESCRIPTION)].

Definition checksProperty : JSON :=
  JObject [("type", JString "array");
           ("items",
            JObject [("type", JString "string");
                     ("enum", JArray [JString "endpoints"; JString "wallet";
                                      JString "attestations"])]);
           ("default", JArray [JString "endpoints"; JString "wallet"]);
           ("description",
            JString "Checks to run. Defaults to endpoints + wallet if omitted.")].

Definition schemaOf (properties : list (string * JSON)) : JSON :=
  JObject [("$schema", JString "https://json-schema.org/draft/2020-12/schema");
           ("type", JString "object");
           ("properties", JObject properties);
           ("required", JArray [JString "agentId"]);
           ("additionalProperties", JBool false)].

Definition templates : list (string * EntrypointTemplate) :=
  [ ("profile",
     {| t_path := "/agent/profile/invoke";
        t_method := "POST";
        t_description :=
          "Fetch agent identity from the ERC-8004 Identity Registry ($0.001). Returns name, description, owner, wallet, endpoints, and supported trust methods.";
        t_streaming := false;
        t_input_schema :=
          schemaOf [("agentId", agentIdProperty); ("chain", chainProperty)];
        t_pricing := Some "0.001" |});
    ("score",
     {| t_path := "/agent/score/invoke";
        t_method := "POST";
        t_description :=
          "Compute trust score (0-100) from ERC-8004 reputation data ($0.01). Returns verdict, scoring breakdown, and feedback summary.";
        t_streaming := false;
        t_input_schema :=
          schemaOf [("agentId", agentIdProperty); ("chain", chainProperty)];
        t_pricing := Some "0.01" |});
    ("validate",
     {| t_path := "/agent/validate/invoke";
        t_method := "POST";
        t_description :=
          "Deep validation of agent endpoints, wallet, and attestations ($0.03). Returns per-check results and overall verdict.";
        t_streaming := false;
        t_input_schema :=
          schemaOf [("agentId", agentIdProperty); ("chain", chainProperty);
                    ("checks", checksProperty)];
        t_pricing := Some "0.03" |}) ].

(** [{ url: `${origin}${path}`, ...rest }] *)
Definition resolve (origin : string) (t : EntrypointTemplate) : Entrypoint :=
  {| url := origin ++ t_path t;
     method := t_method t;
     description := t_description t;
     streaming := t_streaming t;
     input_schema := t_input_schema t;
     pricing := t_pricing t |}.

(** [buildEntrypoints]: the result holds the keys of [templates] in their
    order. *)
Definition buildEntrypoints (baseUrl : string) : list (string * Entrypoint) :=
  let origin := Text.dropTrailingSlashes baseUrl in
  map (fun entry => (fst entry, resolve origin (snd entry))) templates.

(** The agent card as the route reads it: its member [url], and the other
    members. *)
Record AgentCard : Type := {
  card_url : string;
  card_members : list (string * JSON)
}.

(** The body of GET /.well-known/agent-card.json: [{ ...card, entrypoints }]. *)
Record CardBody : Type := {
  card : AgentCard;
  entrypoints : list (string * Entrypoint)
}.

(** The route GET /.well-known/agent-card.json of [createA2ARoutes], for
    the card that [requestHandler.getAgentCard()] gives. *)
Definition agentCardRoute (agentCard : AgentCard) : Response CardBody :=
  let baseUrl := Text.dropA2A (card_url agentCard) in
  {| status := 200;
     body := {| card := agentCard; entrypoints := buildEntrypoints baseUrl |} |}.

End Entrypoints.

(* ================================================================= *)
(** ** Traces over any kind of call

    The computations of the API routes record [Event]s; the executor and
    the registration script talk to other collaborators, so their
    computations record calls of their own. *)

Module Trace.

Section Trace.

Context {E : Type}.

Definition T (A : Type) : Type := (list E * Result A)%type.

Definition ret {A} (a : A) : T A := ([], Ok a).
Definition throw {A} (e : Exn) : T A := ([], Throw e).
Definition call {A} (e : E) (r : Result A) : T A := ([e], r).

Definition bind {A B} (m : T A) (k : A -> T B) : T B :=
  match m with
  | (t, Ok a) => let (t', r) := k a in ((t ++ t')%list, r)
  | (t, Throw e) => (t, Throw e)
  end.

(** [try { m } catch (e) { h e }] *)
Definition catch {A} (m : T A) (h : Exn -> T A) : T A :=
  match m with
  | (t, Throw e) => let (t', r) := h e in ((t ++ t')%list, r)
  | done => done
  end.

End Trace.

End Trace.

Notation "x <~ c ;; k" := (Trace.bind c (fun x => k))
  (at level 61, c at next level, right associativity).

(* ================================================================= *)
(** ** The A2A executor

    [TrustGatewayExecutor]: it reads an agent id and an intent off the text
    of the user's message, asks the registries of Base, and publishes one
    message with the answer.  Texts hold the code units below U+0100; the
    signs of the reports that lie outside this range are written as their
    UTF-8 bytes.  The registration file is taken to follow its interface,
    counts to stay below 2^53 and numbers below 10^21, where [Number] is
    exact and a template literal renders an integer by its digits. *)

Module Executor.

Import Trace.

(** *** Requests, messages and collaborators *)

Record Part : Type := {
  kind : string;
  text : option string
}.

Record UserMessage : Type := {
  parts : option (list Part)
}.

Record RequestContext : Type := {
  userMessage : option UserMessage;
  contextId : string
}.

Record Message : Type := {
  m_kind : string;
  m_messageId : string;
  m_role : string;
  m_parts : list Part;
  m_contextId : string
}.

(** What [reputationClient.getSummary] gives. *)
Record Summary : Type := {
  count : Z;
  averageScore : R
}.

Record Clients : Type := {
  getRegistrationFile : Z -> Result Api.RegistrationFile;
  getOwner : Z -> Result string;
  getMetadata : Z -> string -> Result string;
  getSummary : Z -> Result Summary;
  (** the statements inside the [try] of an endpoint check, a HEAD request
      under a five-second abort timer *)
  head : string -> ProbeOutcome;
  uuidv4 : string
}.

Inductive Call : Type :=
| GetRegistrationFile (agentId : Z)
| GetOwner (agentId : Z)
| GetMetadata (agentId : Z) (key : string)
| GetSummary (agentId : Z)
| Head (url : string)
| Publish (message : Message)
| Finished.

(** A computation of the executor: its calls, then its outcome. *)
Definition Run (A : Type) : Type := @T Call A.

(** The calls that read a registry or probe an endpoint. *)
Definition isRead (c : Call) : bool :=
  match c with
  | Publish _ | Finished => false
  | _ => true
  end.

Definition isHead (c : Call) : bool :=
  match c with Head _ => true | _ => false end.

(** *** The text of the user's message *)

(** [userMessage?.parts?.find((p) => p.kind === "text")], then its member
    [text] if it has one. *)
Definition userText (requestContext : RequestContext) : string :=
  match userMessage requestContext with
  | Some message =>
      match parts message with
      | Some ps =>
          match find (fun p => String.eqb (kind p) "text") ps with
          | Some textPart =>
              match text textPart with
              | Some t => t
              | None => EmptyString
              end
          | None => EmptyString
          end
      | None => EmptyString
      end
  | None => EmptyString
  end.

(** *** The agent id

    [userText.match] with the pattern, under the flag [i], of the word
    [agent], [\s] any number of times, an optional group of an optional [#]
    and [\s] any number of times, and the capturing group [\d+].

    White space, the sign [#] and the digits exclude one another, so at a
    given start the pattern has one way to match: the word, the white
    space, one optional [#], the white space, and then all the digits that
    follow, of which there must be one.  [match] takes the leftmost start
    that matches. *)

(** [s] starts with [p], the ASCII letters compared without their case. *)
Fixpoint prefix_i (p s : string) : bool :=
  match p, s with
  | EmptyString, _ => true
  | String a p', String b s' =>
      Ascii.eqb (JS.toLowerChar a) (JS.toLowerChar b) && prefix_i p' s'
  | String _ _, EmptyString => false
  end.

(** [#?] *)
Definition afterHash (s : string) : string :=
  match s with
  | String a s' => if Ascii.eqb a "#" then s' else s
  | EmptyString => EmptyString
  end.

(** The digits that [\d+] takes at the start of a text. *)
Fixpoint digitsAt (s : string) : string :=
  match s with
  | String a s' => if JS.isDigit a then String a (digitsAt s') else EmptyString
  | EmptyString => EmptyString
  end.

(** The group of a match that starts at the first character. *)
Definition matchHere (s : string) : option string :=
  if prefix_i "agent" s then
    let digits :=
      digitsAt (JS.dropSpace (afterHash (JS.dropSpace (JS.slice 5 s)))) in
    if JS.isEmpty digits then None else Some digits
  else None.

(** [agentIdMatch[1]], or [None] when [match] gives [null]. *)
Fixpoint matchAgentId (s : string) : option string :=
  match matchHere s with
  | Some digits => Some digits
  | None =>
      match s with
      | EmptyString => None
      | String _ s' => matchAgentId s'
      end
  end.

(** *** Templates *)

(** [${member}] for a member that the document may lack. *)
Definition show (member : option string) : string :=
  match member with
  | Some s => s
  | None => "undefined"
  end.

Definition showBool (b : bool) : string := if b then "true" else "false".

(** [text || fallback] *)
Definition orText (fallback s : string) : string :=
  if JS.isEmpty s then fallback else s.

(** A number with at most one decimal, given by its tenfold: what
    [${Math.round(x * 10) / 10}] prints. *)
Definition showTenths (k : Z) : string :=
  (if k <? 0 then "-" else EmptyString)
  ++ JS.showZ (Z.abs k / 10)
  ++ (if Z.abs k mod 10 =? 0 then EmptyString
      else "." ++ JS.showZ (Z.abs k mod 10)).

Definition lines (ls : list string) : string := Text.join Text.nl ls.

Definition usage : string :=
  "Please specify an agent ID. Example: 'Get trust score for agent 42' or 'Validate agent #100'".

(** *** [getProfile] *)

(** The wallet: the owner, unless the metadata entry can be read. *)
Definition readWallet (cl : Clients) (agentId : Z) (owner : string) : Run string :=
  catch (call (GetMetadata agentId "agentWallet")
              (getMetadata cl agentId "agentWallet"))
        (fun _ => ret owner).

Definition endpointsText (registration : Api.RegistrationFile) : string :=
  orText "None"
    match Api.rf_endpoints registration with
    | Some eps =>
        Text.join ", "
          (map (fun e => Api.ep_name e ++ " (" ++ Api.ep_endpoint e ++ ")") eps)
    | None => EmptyString
    end.

Definition supportedTrustText (registration : Api.RegistrationFile) : string :=
  orText "None specified"
    match Api.rf_supportedTrust registration with
    | Some methods => Text.join ", " methods
    | None => EmptyString
    end.

Definition profileText (agentId : Z) (registration : Api.RegistrationFile)
    (owner wallet : string) : string :=
  lines
    ["**Agent #" ++ JS.showZ agentId ++ " Profile**";
     EmptyString;
     "**Name:** " ++ show (Api.rf_name registration);
     "**Description:** " ++ show (Api.rf_description registration);
     "**Owner:** " ++ owner;
     "**Wallet:** " ++ wallet;
     "**Active:** " ++ showBool match Api.rf_active registration with
                                | Some b => b
                                | None => true
                                end;
     "**Endpoints:** " ++ endpointsText registration;
     "**Supported Trust:** " ++ supportedTrustText registration].

Definition getProfile (cl : Clients) (agentId : Z) : Run string :=
  registration <~ call (GetRegistrationFile agentId) (getRegistrationFile cl agentId) ;;
  owner <~ call (GetOwner agentId) (getOwner cl agentId) ;;
  wallet <~ readWallet cl agentId owner ;;
  ret (profileText agentId registration owner wallet).

(** *** [getTrustScore] *)

Section Score.

Variable registration : Api.RegistrationFile.
Variable summary : Summary.

Definition feedbackCount : Z := count summary.
Definition avgScore : R := averageScore summary.

Definition hasEndpoints : bool :=
  (0 <? List.length (Api.orEmpty (Api.rf_endpoints registration)))%nat.

Definition hasTrustMethods : bool :=
  (0 <? List.length (Api.orEmpty (Api.rf_supportedTrust registration)))%nat.

Definition identityMaturity : Z :=
  (if hasEndpoints then 30 else 0) + (if hasTrustMethods then 20 else 0).

Definition volumeScore : Z := Z.min 30 (feedbackCount * 3).

Definition reputationConfidence : Z := volumeScore.

Definition effectiveBaseScore : R :=
  if 0 <? feedbackCount then avgScore else 50%R.

Definition trustScore : Z :=
  Z.min 100
    (Z.max 0
       (Api.Math_round (effectiveBaseScore + IZR identityMaturity * 0.3
                        + IZR reputationConfidence * 0.2)%R)).

End Score.

Definition verdict (trustScore : Z) : string :=
  if 80 <=? trustScore then "highly-trusted"
  else if 60 <=? trustScore then "trusted"
  else if 40 <=? trustScore then "neutral"
  else if 20 <=? trustScore then "low-trust"
  else "untrusted".

Definition scoreText (agentId : Z) (registration : Api.RegistrationFile)
    (summary : Summary) : string :=
  let score := trustScore registration summary in
  lines
    ["**Agent #" ++ JS.showZ agentId ++ " Trust Score**";
     EmptyString;
     "**Name:** " ++ show (Api.rf_name registration);
     "**Trust Score:** " ++ JS.showZ score ++ "/100";
     "**Verdict:** " ++ verdict score;
     EmptyString;
     "**Breakdown:**";
     "- Feedback Score: " ++ JS.showZ (Api.Math_round (effectiveBaseScore summary));
     "- Identity Maturity: " ++ JS.showZ (identityMaturity registration);
     "- Reputation Confidence: " ++ JS.showZ (reputationConfidence summary);
     EmptyString;
     "**Feedback Summary:**";
     "- Total Feedback: " ++ JS.showZ (feedbackCount summary);
     "- Average Score: "
     ++ showTenths (Api.Math_round (avgScore summary * 10)%R)].

Definition getTrustScore (cl : Clients) (agentId : Z) : Run string :=
  registration <~ call (GetRegistrationFile agentId) (getRegistrationFile cl agentId) ;;
  summary <~ call (GetSummary agentId) (getSummary cl agentId) ;;
  ret (scoreText agentId registration summary).

(** *** The score of [getTrustScore] on binary64 values

    The same lines with the numbers as the engine holds them:
    [Number(summary.count)] and the average of the summary are binary64
    values, and every operation rounds. *)

Section Score64.

Import Double.

Variable registration : Api.RegistrationFile.
Variable summaryCount : Z.
Variable summaryAverage : double.

Definition feedbackCount64 : double := ofZ summaryCount.

Definition volumeScore64 : double :=
  Math_min (Finite 30) (mul feedbackCount64 (Finite 3)).

Definition reputationConfidence64 : double := volumeScore64.

Definition effectiveBaseScore64 : double :=
  if ltb (Finite 0) feedbackCount64 then summaryAverage else Finite 50.

Definition rawScore64 : double :=
  add (add effectiveBaseScore64
           (mul (ofZ (identityMaturity registration)) (round (3 # 10))))
      (mul reputationConfidence64 (round (2 # 10))).

Definition trustScore64 : double :=
  Math_min (Finite 100) (Math_max (Finite 0) (Math_round rawScore64)).

End Score64.

(** *** [validateAgent] *)

Definition reachableMark : string := "✅".
Definition failureMark : string := "❌".
Definition warningMark : string := "⚠️".

(** The two lists that the checks fill. *)
Record Findings : Type := {
  endpointResults : list string;
  issues : list string
}.

Definition noFindings : Findings := {| endpointResults := []; issues := [] |}.

Definition pushResult (line : string) (f : Findings) : Findings :=
  {| endpointResults := (endpointResults f ++ [line])%list; issues := issues f |}.

Definition pushIssue (issue : string) (f : Findings) : Findings :=
  {| endpointResults := endpointResults f; issues := (issues f ++ [issue])%list |}.

(** One turn of the loop over [registration.endpoints]. *)
Definition checkEndpoint (cl : Clients) (ep : Api.EndpointDecl) (f : Findings)
    : Run Findings :=
  outcome <~ call (Head (Api.ep_endpoint ep)) (Ok (head cl (Api.ep_endpoint ep))) ;;
  let unreachable :=
    pushIssue ("Endpoint " ++ Api.ep_name ep ++ " is unreachable")
      (pushResult (failureMark ++ " " ++ Api.ep_name ep ++ ": Unreachable") f) in
  match outcome with
  | Responded response _ =>
      if resp_ok response
      then ret (pushResult (reachableMark ++ " " ++ Api.ep_name ep ++ ": Reachable") f)
      else ret unreachable
  | NoResponse => ret unreachable
  | ProbeThrew _ =>
      ret (pushIssue ("Endpoint " ++ Api.ep_name ep ++ " check failed")
             (pushResult (failureMark ++ " " ++ Api.ep_name ep ++ ": Error") f))
  end.

Fixpoint checkEndpoints (cl : Clients) (eps : list Api.EndpointDecl)
    (f : Findings) : Run Findings :=
  match eps with
  | [] => ret f
  | ep :: rest =>
      f' <~ checkEndpoint cl ep f ;;
      checkEndpoints cl rest f'
  end.

(** [if (registration.endpoints && registration.endpoints.length > 0)] *)
Definition checkDeclared (cl : Clients) (registration : Api.RegistrationFile)
    : Run Findings :=
  match Api.rf_endpoints registration with
  | Some (ep :: rest) => checkEndpoints cl (ep :: rest) noFindings
  | _ => ret (pushResult "No endpoints declared" noFindings)
  end.

Definition walletValid (wallet : string) : bool := Re.test Api.reAddress wallet.

(** [if (!walletValid) issues.push(...)] *)
Definition checkWallet (wallet : string) (f : Findings) : Findings :=
  if negb (walletValid wallet)
  then pushIssue "Invalid wallet address format" f
  else f.

Definition overall (f : Findings) : string :=
  match issues f with
  | [] => reachableMark ++ " Validated"
  | _ =>
      warningMark ++ " " ++ JS.showZ (Z.of_nat (List.length (issues f)))
      ++ " issue(s) found"
  end.

Definition issuesText (f : Findings) : string :=
  match issues f with
  | [] => EmptyString
  | _ => "**Issues:**" ++ Text.nl ++ lines (map (fun i => "- " ++ i) (issues f))
  end.

Definition validationText (agentId : Z) (registration : Api.RegistrationFile)
    (wallet : string) (f : Findings) : string :=
  lines
    ["**Agent #" ++ JS.showZ agentId ++ " Validation Report**";
     EmptyString;
     "**Name:** " ++ show (Api.rf_name registration);
     "**Overall:** " ++ overall f;
     EmptyString;
     "**Endpoints:**";
     lines (endpointResults f);
     EmptyString;
     "**Wallet:** " ++ wallet ++ " "
     ++ (if walletValid wallet then reachableMark else failureMark);
     EmptyString;
     issuesText f].

(** The findings of a validation, before they are put into words. *)
Definition validate (cl : Clients) (agentId : Z)
    : Run (Api.RegistrationFile * string * Findings) :=
  registration <~ call (GetRegistrationFile agentId) (getRegistrationFile cl agentId) ;;
  owner <~ call (GetOwner agentId) (getOwner cl agentId) ;;
  wallet <~ readWallet cl agentId owner ;;
  checked <~ checkDeclared cl registration ;;
  ret (registration, wallet, checkWallet wallet checked).

Definition validateAgent (cl : Clients) (agentId : Z) : Run string :=
  found <~ validate cl agentId ;;
  let '(registration, wallet, f) := found in
  ret (validationText agentId registration wallet f).

(** *** [execute] and [cancelTask] *)

(** [userText.toLowerCase().includes(word)] *)
Definition mentions (userText word : string) : bool :=
  Text.includes word (JS.toLowerCase userText).

(** [BigInt] of the digits of the match. *)
Definition agentIdOf (digits : string) : Run Z :=
  match Api.BigInt digits with
  | Some agentId => ret agentId
  | None => throw (Error ("Cannot convert " ++ digits ++ " to a BigInt"))
  end.

(** The body of the [try]. *)
Definition respond (cl : Clients) (userText : string) : Run string :=
  match matchAgentId userText with
  | None => ret usage
  | Some digits =>
      agentId <~ agentIdOf digits ;;
      if mentions userText "profile" || mentions userText "identity"
         || mentions userText "details"
      then getProfile cl agentId
      else if mentions userText "score" || mentions userText "trust"
              || mentions userText "reputation"
      then getTrustScore cl agentId
      else if mentions userText "validate" || mentions userText "check"
              || mentions userText "health"
      then validateAgent cl agentId
      else getProfile cl agentId
  end.

(** The message that carries a response text. *)
Definition reply (cl : Clients) (requestContext : RequestContext)
    (responseText : string) : Message :=
  {| m_kind := "message";
     m_messageId := uuidv4 cl;
     m_role := "agent";
     m_parts := [{| kind := "text"; text := Some responseText |}];
     m_contextId := contextId requestContext |}.

Definition execute (cl : Clients) (requestContext : RequestContext) : Run unit :=
  responseText <~ catch (respond cl (userText requestContext))
                    (fun error =>
                       ret ("Error: "
                            ++ Api.messageOr "Unknown error occurred" error)) ;;
  _ <~ call (Publish (reply cl requestContext responseText)) (Ok tt) ;;
  call Finished (Ok tt).

Definition cancelTask (taskId : string) : Run unit := call Finished (Ok tt).

End Executor.

(* ================================================================= *)
(** ** The skills of the agent card *)

Module Skills.

Record AgentSkill : Type := {
  id : string;
  name : string;
  description : string;
  tags : list string;
  examples : list string
}.

Definition agentProfile : AgentSkill :=
  {| id := "agent-profile";
     name := "Agent Profile";
     description :=
       "Fetch an agent's identity and registration file from the ERC-8004 Identity Registry. Returns name, description, endpoints, supported trust methods, and wallet address. Costs $0.002 USDC per request.";
     tags := ["erc-8004"; "identity"; "profile"; "discovery"; "x402"];
     examples :=
       ["Get the profile for agent 42";
        "Show me agent 100's identity";
        "Fetch agent details for ID 15 on Base";
        "What endpoints does agent 7 have?"] |}.

Definition trustScore : AgentSkill :=
  {| id := "trust-score";
     name := "Trust Score";
     description :=
       "Compute a trust score (0-100) for an agent based on reputation data from the ERC-8004 Reputation Registry. Analyzes feedback volume, average ratings, identity maturity, and consistency. Costs $0.01 USDC per request.";
     tags := ["erc-8004"; "reputation"; "trust"; "scoring"; "x402"];
     examples :=
       ["What's the trust score for agent 42?";
        "Score agent 100 on Base Sepolia";
        "Is agent 15 trustworthy?";
        "Get reputation summary for agent 7"] |}.

Definition validateAgent : AgentSkill :=
  {| id := "validate-agent";
     name := "Validate Agent";
     description :=
       "Deep validation of an agent including endpoint reachability, wallet verification, and attestation checks. Returns detailed validation report with issues. Costs $0.03 USDC per request.";
     tags := ["erc-8004"; "validation"; "endpoints"; "health"; "x402"];
     examples :=
       ["Validate agent 42's endpoints";
        "Check if agent 100 is healthy";
        "Run validation on agent 15";
        "Are agent 7's services reachable?"] |}.

Definition skills : list AgentSkill := [agentProfile; trustScore; validateAgent].

(** An example with another number: the first run of digits of the text is
    replaced by the digits of [n]. *)
Fixpoint beforeDigits (s : string) : string :=
  match s with
  | String a s' => if JS.isDigit a then EmptyString else String a (beforeDigits s')
  | EmptyString => EmptyString
  end.

Fixpoint dropDigits (s : string) : string :=
  match s with
  | String a s' => if JS.isDigit a then dropDigits s' else s
  | EmptyString => EmptyString
  end.

Fixpoint afterDigits (s : string) : string :=
  match s with
  | String a s' => if JS.isDigit a then dropDigits s' else afterDigits s'
  | EmptyString => EmptyString
  end.

Definition forAgent (n : Z) (example : string) : string :=
  beforeDigits example ++ JS.showZ n ++ afterDigits example.

End Skills.

(** Vocabulary for the statements about the executor. *)
Module Answer.

Import Executor.

(** Whether the HEAD request to an endpoint is answered with a success
    status. *)
Definition reachable (cl : Clients) (ep : Api.EndpointDecl) : bool :=
  match head cl (Api.ep_endpoint ep) with
  | Responded response _ => resp_ok response
  | _ => false
  end.

Definition unreachableCount (cl : Clients) (eps : list Api.EndpointDecl) : nat :=
  List.length (filter (fun ep => negb (reachable cl ep)) eps).

(** The response text for an outcome of the [try] of [execute]. *)
Definition textOf (outcome : Result string) : string :=
  match outcome with
  | Ok responseText => responseText
  | Throw error => "Error: " ++ Api.messageOr "Unknown error occurred" error
  end.

Definition hasDigit (s : string) : bool :=
  existsb JS.isDigit (list_ascii_of_string s).

Definition startsWithDigit (s : string) : bool :=
  match s with
  | String a _ => JS.isDigit a
  | EmptyString => false
  end.

(** The text is the word [agent], white space, at most one [#] and white
    space: digits that follow it are taken by the pattern. *)
Definition readyHere (s : string) : bool :=
  prefix_i "agent" s
  && JS.isEmpty (JS.dropSpace (afterHash (JS.dropSpace (JS.slice 5 s)))).

(** Some end of the text is ready for digits. *)
Fixpoint ready (s : string) : bool :=
  readyHere s
  || match s with
     | EmptyString => false
     | String _ s' => ready s'
     end.

(** The operation that the words of a text select, the text being given in
    two pieces. *)
Definition selected (cl : Clients) (before after : string) (agentId : Z)
    : Run string :=
  let said word := mentions before word || mentions after word in
  if said "profile" || said "identity" || said "details"
  then getProfile cl agentId
  else if said "score" || said "trust" || said "reputation"
  then getTrustScore cl agentId
  else if said "validate" || said "check" || said "health"
  then validateAgent cl agentId
  else getProfile cl agentId.

End Answer.

Module ExecutorSample.

Import Executor.

Definition registration : Api.RegistrationFile :=
  Api.asRegistrationFile Sample.document.

(** Registries that know every agent under the sample document, with an
    owner and no wallet entry, and a network on which nothing answers. *)
Definition clients : Clients :=
  {| getRegistrationFile := fun _ => Ok registration;
     getOwner := fun _ => Ok Sample.owner;
     getMetadata := fun _ _ => Throw (Error "metadata not set");
     getSummary := fun _ => Ok {| count := 2; averageScore := 85 |};
     head := fun _ => NoResponse;
     uuidv4 := "5b0c1f0e-2f5e-4c58-9d0a-7d1c3a6f2e11" |}.

(** A request whose message has one text part. *)
Definition context (userText : string) : RequestContext :=
  {| userMessage :=
       Some {| parts := Some [{| kind := "text"; text := Some userText |}] |};
     contextId := "ctx-1" |}.

End ExecutorSample.

(* ================================================================= *)
(** ** Registration of the agent

    [registerAgent] and [uploadImageToPinata]: the agent SDK, the file
    system and the upload service are collaborators, and every call of
    theirs may throw. *)

Module Registration.

Import Trace.

Definition RegistryAddresses : Type := list (string * string).

(** The members of the configuration that the registration reads. *)
Record Config : Type := {
  network : string;
  rpcUrl : option string;
  privateKey : option string;
  pinataJwt : option string;
  agentName : string;
  agentDescription : string;
  agentUrl : string
}.

Record Opts : Type := {
  registryAddresses : option RegistryAddresses;
  imagePath : option string
}.

(** The argument of [new SDK]; the members other than the chain id are
    [None] when the spread adds nothing. *)
Record SdkConfig : Type := {
  sdk_chainId : Double.double;
  sdk_rpcUrl : option string;
  sdk_privateKey : option string;
  sdk_registryOverrides : option (Double.double * RegistryAddresses);
  sdk_ipfs : option string;
  sdk_pinataJwt : option string
}.

Record RegistrationResult : Type := {
  agentId : string;
  txHash : string;
  agentURI : option string;
  imageCID : option JSON
}.

Record Sdk : Type := {
  newSDK : SdkConfig -> Result unit;
  createAgent : string -> string -> Result unit;
  setA2A : string -> Result unit;
  setX402Support : bool -> Result unit;
  updateInfo : string -> Result unit;
  (** [agent.registerIPFS()]: the hash of the transaction handle *)
  registerIPFS : Result string;
  (** [txHandle.waitMined()]: the member [agentURI] of its result *)
  waitMined : Result (option string);
  (** [agent.agentId] at the end *)
  agent_agentId : option string;
  readFileSync : string -> Result string;
  basename : string -> string;
  (** [fetch] with the method POST: the address, the header Authorization,
      the name and the content of the file *)
  post : string -> string -> string -> string -> Result FetchResponse;
  JSON_parse : string -> option JSON;
  JSON_stringify : JSON -> string;
  (** the text of a value that is not a string, inside a template literal *)
  String_of : JSON -> string
}.

Inductive Call : Type :=
| NewSDK (sdkConfig : SdkConfig)
| CreateAgent (name description : string)
| SetA2A (url : string)
| SetX402Support (enabled : bool)
| ReadFile (path : string)
| Post (url authorization fileName : string)
| UpdateInfo (image : string)
| RegisterIPFS
| WaitMined.

Definition Run (A : Type) : Type := @T Call A.

Definition isRegisterIPFS (c : Call) : bool :=
  match c with RegisterIPFS => true | _ => false end.

(** The calls of the image upload. *)
Definition isImageCall (c : Call) : bool :=
  match c with
  | ReadFile _ | Post _ _ _ | UpdateInfo _ => true
  | _ => false
  end.

(** *** The chain id: [parseInt(config.network.split(":")[1], 10)] *)

Fixpoint afterColon (s : string) : option string :=
  match s with
  | EmptyString => None
  | String a s' => if Ascii.eqb a ":" then Some s' else afterColon s'
  end.

Fixpoint upToColon (s : string) : string :=
  match s with
  | EmptyString => EmptyString
  | String a s' => if Ascii.eqb a ":" then EmptyString else String a (upToColon s')
  end.

(** [s.split(":")[1]]; [None] is [undefined]. *)
Definition secondPiece (s : string) : option string :=
  option_map upToColon (afterColon s).

(** [parseInt(s, 10)]: leading white space is skipped, a sign is read, and
    the digits that follow are the number, which is the value nearest to
    their integer (an engine may drop digits after the twentieth); without
    a digit the result is NaN. *)
Definition parseInt (s : option string) : Double.double :=
  match s with
  | None => Double.NaN
  | Some s =>
      let trimmed := JS.dropSpace s in
      let signed :=
        match trimmed with
        | String a rest =>
            if Ascii.eqb a "-" then (true, rest)
            else if Ascii.eqb a "+" then (false, rest)
            else (false, trimmed)
        | EmptyString => (false, trimmed)
        end in
      match Api.BigInt (Executor.digitsAt (snd signed)) with
      | Some v => Double.ofZ (if fst signed then - v else v)
      | None => Double.NaN
      end
  end.

Definition chainIdOf (config : Config) : Double.double :=
  parseInt (secondPiece (network config)).

(** *** The registries *)

Definition REGISTRY_ADDRESSES : list (Z * RegistryAddresses) :=
  [(84532, [("IDENTITY", "0x8004AA63c570c570eBF15376c0dB199918BFe9Fb")]);
   (8453, [("IDENTITY", "0x8004A169FB4a3325136EB29fA0ceB6D2e539a432")])].

(** [REGISTRY_ADDRESSES[chainId]]: the entry whose key is the text of the
    number; NaN and the infinities have none. *)
Definition builtinAddresses (chainId : Double.double)
    : option RegistryAddresses :=
  match chainId with
  | Double.Finite a =>
      match find (fun entry => Qeq_bool a (inject_Z (fst entry)))
                 REGISTRY_ADDRESSES with
      | Some entry => Some (snd entry)
      | None => None
      end
  | _ => None
  end.

Definition registryOverrides (config : Config) (opts : option Opts)
    : option (Double.double * RegistryAddresses) :=
  let chainId := chainIdOf config in
  match match opts with Some o => registryAddresses o | None => None end with
  | Some addresses => Some (chainId, addresses)
  | None =>
      match builtinAddresses chainId with
      | Some addresses => Some (chainId, addresses)
      | None => None
      end
  end.

(** A text that is there and not empty. *)
Definition given (s : option string) : option string :=
  match s with
  | Some t => if JS.isEmpty t then None else Some t
  | None => None
  end.

Definition sdkConfigOf (config : Config) (opts : option Opts) : SdkConfig :=
  {| sdk_chainId := chainIdOf config;
     sdk_rpcUrl := rpcUrl config;
     sdk_privateKey := privateKey config;
     sdk_registryOverrides := registryOverrides config opts;
     sdk_ipfs := match given (pinataJwt config) with
                 | Some _ => Some "pinata"
                 | None => None
                 end;
     sdk_pinataJwt := given (pinataJwt config) |}.

(** *** [uploadImageToPinata] *)

(** [v?.k] *)
Definition member (k : string) (v : option JSON) : option JSON :=
  match v with
  | Some JNull => None
  | Some o => Json.get k o
  | None => None
  end.

Definition truthy (v : option JSON) : bool :=
  match v with
  | Some value => Json.truthy value
  | None => false
  end.

(** [a || b] *)
Definition orElse (a b : option JSON) : option JSON :=
  if truthy a then a else b.

(** [result?.data?.cid || result?.cid || result?.IpfsHash] *)
Definition cidOf (result : JSON) : option JSON :=
  orElse (orElse (member "cid" (member "data" (Some result)))
                 (member "cid" (Some result)))
         (member "IpfsHash" (Some result)).

Definition uploadUrl : string := "https://uploads.pinata.cloud/v3/files".

Definition uploadImageToPinata (w : Sdk) (imagePath pinataJwt : string)
    : Run JSON :=
  imageData <~ call (ReadFile imagePath) (readFileSync w imagePath) ;;
  response <~ call (Post uploadUrl ("Bearer " ++ pinataJwt) (basename w imagePath))
                   (post w uploadUrl ("Bearer " ++ pinataJwt)
                         (basename w imagePath) imageData) ;;
  if negb (resp_ok response)
  then throw (Error ("Failed to upload image to Pinata: HTTP "
                     ++ JS.showZ (resp_status response) ++ " - "
                     ++ resp_body response))
  else
    match JSON_parse w (resp_body response) with
    | None => throw Api.syntaxError
    | Some result =>
        match cidOf result with
        | Some cid =>
            if Json.truthy cid then ret cid
            else throw (Error ("No CID returned from Pinata. Response: "
                               ++ JSON_stringify w result))
        | None =>
            throw (Error ("No CID returned from Pinata. Response: "
                          ++ JSON_stringify w result))
        end
    end.

(** [${value}] *)
Definition textOf (w : Sdk) (value : JSON) : string :=
  match value with
  | JString s => s
  | other => String_of w other
  end.

(** *** [registerAgent] *)

(** The image step: [if (opts?.imagePath && config.pinataJwt)]. *)
Definition uploadImage (w : Sdk) (config : Config) (opts : option Opts)
    : Run (option JSON) :=
  match given match opts with Some o => imagePath o | None => None end,
        given (pinataJwt config) with
  | Some path, Some jwt =>
      imageCID <~ uploadImageToPinata w path jwt ;;
      _ <~ call (UpdateInfo ("ipfs://" ++ textOf w imageCID))
                (updateInfo w ("ipfs://" ++ textOf w imageCID)) ;;
      ret (Some imageCID)
  | _, _ => ret None
  end.

Definition registerAgent (w : Sdk) (config : Config) (opts : option Opts)
    : Run RegistrationResult :=
  let sdkConfig := sdkConfigOf config opts in
  _ <~ call (NewSDK sdkConfig) (newSDK w sdkConfig) ;;
  _ <~ call (CreateAgent (agentName config) (agentDescription config))
            (createAgent w (agentName config) (agentDescription config)) ;;
  _ <~ call (SetA2A (agentUrl config)) (setA2A w (agentUrl config)) ;;
  _ <~ call (SetX402Support true) (setX402Support w true) ;;
  imageCID <~ uploadImage w config opts ;;
  hash <~ call RegisterIPFS (registerIPFS w) ;;
  agentURI <~ call WaitMined (waitMined w) ;;
  ret {| agentId := match agent_agentId w with
                    | Some id => id
                    | None => "pending"
                    end;
         txHash := hash;
         agentURI := agentURI;
         imageCID := imageCID |}.

(** Whether the image step is taken. *)
Definition wantsImage (config : Config) (opts : option Opts) : bool :=
  match given match opts with Some o => imagePath o | None => None end,
        given (pinataJwt config) with
  | Some _, Some _ => true
  | _, _ => false
  end.

(** The steps of [registerAgent] up to the image. *)
Definition firstSteps (config : Config) (opts : option Opts) : list Call :=
  [NewSDK (sdkConfigOf config opts);
   CreateAgent (agentName config) (agentDescription config);
   SetA2A (agentUrl config);
   SetX402Support true].

(** [opts?.imagePath], when it is given. *)
Definition imagePathOf (opts : option Opts) : option string :=
  given match opts with Some o => imagePath o | None => None end.

End Registration.

Module RegistrationSample.

Import Registration.

Definition config : Config :=
  {| network := "eip155:84532";
     rpcUrl := Some "https://sepolia.base.org";
     privateKey := Some "0xkey";
     pinataJwt := Some "jwt";
     agentName := "Agent Trust Gateway";
     agentDescription := "Trust scores for ERC-8004 agents";
     agentUrl := "http://localhost:3000" |}.

Definition opts : Opts :=
  {| registryAddresses := None; imagePath := Some "assets/icon.png" |}.

(** An SDK that works, and an upload service that is down. *)
Definition sdk : Sdk :=
  {| newSDK := fun _ => Ok tt;
     createAgent := fun _ _ => Ok tt;
     setA2A := fun _ => Ok tt;
     setX402Support := fun _ => Ok tt;
     updateInfo := fun _ => Ok tt;
     registerIPFS := Ok "0xhash";
     waitMined := Ok (Some "ipfs://QmAgent");
     agent_agentId := Some "84532:7";
     readFileSync := fun _ => Ok "png";
     basename := fun _ => "icon.png";
     post := fun _ _ _ _ =>
               Ok {| resp_status := 503; resp_body := "unavailable" |};
     JSON_parse := Ref.parse;
     JSON_stringify := fun _ => "{}";
     String_of := fun _ => "[object Object]" |}.

End RegistrationSample.

(* ================================================================= *)
(** ** Rounding to binary64 values *)

Section Rounding.

Import Double.
#[local] Open Scope Q_scope.

Lemma pow2_pos (k : Z) : 0 < pow2 k.
Proof. apply Qpower_0_lt. reflexivity. Qed.

Lemma pow2_add (a b : Z) : pow2 (a + b) == pow2 a * pow2 b.
Proof. apply Qpower_plus. discriminate. Qed.

Lemma pow2_lt (a b : Z) : (a < b)%Z -> pow2 a < pow2 b.
Proof. intros H. apply Qpower_lt_compat_l; [exact H | reflexivity]. Qed.

Lemma pow2_le (a b : Z) : (a <= b)%Z -> pow2 a <= pow2 b.
Proof. intros H. apply Qpower_le_compat_l; [exact H | discriminate]. Qed.

Lemma pow2_lt_inv (a b : Z) : pow2 a < pow2 b -> (a < b)%Z.
Proof. intros H. apply (Qpower_lt_compat_l_inv 2); [exact H | reflexivity]. Qed.

Lemma pow2_Z (k : Z) : (0 <= k)%Z -> pow2 k == inject_Z (2 ^ k).
Proof. intros H. unfold pow2. now rewrite Zpower_Qpower. Qed.

Lemma pow2_sub (a b : Z) : pow2 (a - b) == pow2 a / pow2 b.
Proof.
  unfold pow2. apply Qpower_minus. discriminate.
Qed.

Lemma Qdiv_pow2_le (x y : Q) (k : Z) : x <= y -> x / pow2 k <= y / pow2 k.
Proof.
  intros H. unfold Qdiv. apply Qmult_le_compat_r; [exact H|].
  apply Qlt_le_weak, Qinv_lt_0_compat, pow2_pos.
Qed.

Lemma pow2_cancel (x : Q) (k : Z) : x / pow2 k * pow2 k == x.
Proof.
  unfold Qdiv. rewrite <- Qmult_assoc, (Qmult_comm (/ _)), Qmult_inv_r.
  - apply Qmult_1_r.
  - intros H. pose proof (pow2_pos k) as P. rewrite H in P. discriminate.
Qed.

(** The exponent is the floor of the binary logarithm. *)
Lemma exponent_spec (a : Q) :
  0 < a -> pow2 (exponent a) <= a /\ a < pow2 (exponent a + 1).
Proof.
  intros Ha. unfold exponent.
  destruct a as [n d]. simpl Qnum. simpl Qden.
  assert (0 < n)%Z as Hn by (unfold Qlt in Ha; simpl in Ha; lia).
  pose proof (Z.log2_spec n Hn) as [Hn1 Hn2].
  pose proof (Z.log2_spec (Z.pos d) (Pos2Z.is_pos d)) as [Hd1 Hd2].
  pose proof (Z.log2_nonneg n) as Ln.
  pose proof (Z.log2_nonneg (Z.pos d)) as Ld.
  set (ln := Z.log2 n) in *. set (ld := Z.log2 (Z.pos d)) in *.
  assert (n # d == inject_Z n / inject_Z (Z.pos d)) as Hq
    by (rewrite Qmake_Qdiv; reflexivity).
  assert (0 < inject_Z (Z.pos d)) as Dpos by reflexivity.
  assert (n # d < pow2 (ln - ld + 1)) as Hupper.
  { rewrite Hq. apply Qlt_shift_div_r; [exact Dpos|].
    apply Qlt_le_trans with (pow2 (ln + 1)).
    - rewrite pow2_Z by lia. rewrite <- Zlt_Qlt. exact Hn2.
    - replace (ln + 1)%Z with ((ln - ld + 1) + ld)%Z by ring.
      rewrite pow2_add. apply Qmult_le_l; [apply pow2_pos|].
      rewrite pow2_Z by lia. rewrite <- Zle_Qle. exact Hd1. }
  assert (pow2 (ln - ld - 1) <= n # d) as Hlower.
  { rewrite Hq. apply Qle_shift_div_l; [exact Dpos|].
    apply Qle_trans with (pow2 ln).
    - replace ln with ((ln - ld - 1) + (ld + 1))%Z at 2 by ring.
      rewrite pow2_add. apply Qmult_le_l; [apply pow2_pos|].
      rewrite pow2_Z by lia. rewrite <- Zle_Qle. lia.
    - rewrite pow2_Z by lia. rewrite <- Zle_Qle. exact Hn1. }
  destruct (Qle_bool (pow2 (ln - ld)) (n # d)) eqn:E.
  - apply Qle_bool_iff in E. split; [exact E | exact Hupper].
  - split; [exact Hlower|].
    replace (ln - ld - 1 + 1)%Z with (ln - ld)%Z by ring.
    apply Qnot_le_lt. intros H. apply Qle_bool_iff in H. congruence.
Qed.

Lemma exponent_unique (a : Q) (e : Z) :
  pow2 e <= a -> a < pow2 (e + 1) -> exponent a = e.
Proof.
  intros H1 H2.
  assert (0 < a) as Ha by (eapply Qlt_le_trans; [apply (pow2_pos e) | exact H1]).
  destruct (exponent_spec a Ha) as [E1 E2].
  pose proof (pow2_lt_inv _ _ (Qle_lt_trans _ _ _ E1 H2)).
  pose proof (pow2_lt_inv _ _ (Qle_lt_trans _ _ _ H1 E2)).
  lia.
Qed.

Lemma exponent_mono (a b : Q) : 0 < a -> a <= b -> (exponent a <= exponent b)%Z.
Proof.
  intros Ha Hab.
  assert (0 < b) as Hb by (eapply Qlt_le_trans; eassumption).
  destruct (exponent_spec a Ha) as [A1 _].
  destruct (exponent_spec b Hb) as [_ B2].
  pose proof (pow2_lt_inv _ _ (Qle_lt_trans _ _ _ (Qle_trans _ _ _ A1 Hab) B2)).
  lia.
Qed.

Lemma exponent_comp (a b : Q) : 0 < a -> a == b -> exponent a = exponent b.
Proof.
  intros Ha Hab.
  destruct (exponent_spec a Ha) as [A1 A2].
  symmetry. apply exponent_unique; rewrite <- Hab; assumption.
Qed.

Lemma exponent_lt (a : Q) (e : Z) : 0 < a -> a < pow2 e -> (exponent a < e)%Z.
Proof.
  intros Ha H. destruct (exponent_spec a Ha) as [A1 _].
  apply pow2_lt_inv. eapply Qle_lt_trans; eassumption.
Qed.

Lemma exponent_ge (a : Q) (e : Z) : pow2 e <= a -> (e <= exponent a)%Z.
Proof.
  intros H.
  assert (0 < a) as Ha by (eapply Qlt_le_trans; [apply (pow2_pos e) | exact H]).
  destruct (exponent_spec a Ha) as [_ A2].
  pose proof (pow2_lt_inv _ _ (Qle_lt_trans _ _ _ H A2)). lia.
Qed.

(** The nearest integer *)

Lemma nearestEven_floor (x : Q) :
  (Qfloor x <= nearestEven x <= Qfloor x + 1)%Z.
Proof.
  unfold nearestEven.
  destruct (Qcompare _ _); [destruct (Z.even _)| |]; lia.
Qed.

Lemma nearestEven_le (x : Q) (n : Z) : x <= inject_Z n -> (nearestEven x <= n)%Z.
Proof.
  intros H.
  pose proof (Qfloor_resp_le _ _ H) as F. rewrite Qfloor_Z in F.
  destruct (Z.eq_dec (Qfloor x) n) as [E|E].
  - unfold nearestEven. rewrite E.
    assert (x - inject_Z n < 1 # 2) as L.
    { apply Qle_lt_trans with 0; [|reflexivity].
      apply (Qplus_le_l _ _ (inject_Z n)). ring_simplify. exact H. }
    apply Qlt_alt in L.
    change (Qcompare (x - inject_Z n) (1 # 2) = Lt) in L. rewrite L. lia.
  - pose proof (nearestEven_floor x). lia.
Qed.

Lemma nearestEven_ge (x : Q) (n : Z) : inject_Z n <= x -> (n <= nearestEven x)%Z.
Proof.
  intros H.
  pose proof (Qfloor_resp_le _ _ H) as F. rewrite Qfloor_Z in F.
  pose proof (nearestEven_floor x). lia.
Qed.

Lemma nearestEven_Z (n : Z) : nearestEven (inject_Z n) = n.
Proof.
  pose proof (nearestEven_le (inject_Z n) n (Qle_refl _)).
  pose proof (nearestEven_ge (inject_Z n) n (Qle_refl _)).
  lia.
Qed.

Lemma nearestEven_comp (x y : Q) : x == y -> nearestEven x = nearestEven y.
Proof.
  intros H. unfold nearestEven.
  rewrite (Qfloor_comp _ _ H).
  assert (Qcompare (x - inject_Z (Qfloor y)) (1 # 2)
          = Qcompare (y - inject_Z (Qfloor y)) (1 # 2)) as ->
    by (now rewrite H).
  reflexivity.
Qed.

Lemma nearestEven_mono (x y : Q) : x <= y -> (nearestEven x <= nearestEven y)%Z.
Proof.
  intros H.
  pose proof (Qfloor_resp_le _ _ H) as F.
  destruct (Z.eq_dec (Qfloor x) (Qfloor y)) as [E|E].
  - unfold nearestEven. rewrite E.
    assert (x - inject_Z (Qfloor y) <= y - inject_Z (Qfloor y)) as D
      by (apply Qplus_le_l; exact H).
    destruct (Qcompare_spec (x - inject_Z (Qfloor y)) (1 # 2)) as [Cx|Cx|Cx];
      destruct (Qcompare_spec (y - inject_Z (Qfloor y)) (1 # 2)) as [Cy|Cy|Cy];
      try destruct (Z.even (Qfloor y)); try lia; exfalso;
      try rewrite Cx in D; try rewrite Cy in D;
      try exact (Qlt_irrefl _ (Qle_lt_trans _ _ _ D Cy));
      try exact (Qlt_irrefl _ (Qlt_le_trans _ _ _ Cx D));
      exact (Qlt_irrefl _ (Qlt_trans _ _ _ Cx (Qle_lt_trans _ _ _ D Cy))).
  - pose proof (nearestEven_floor x). pose proof (nearestEven_floor y). lia.
Qed.

(** The nearest integer is within a half. *)
Lemma nearestEven_error (x : Q) :
  x - (1 # 2) <= inject_Z (nearestEven x) /\ inject_Z (nearestEven x) <= x + (1 # 2).
Proof.
  pose proof (Qfloor_le x) as F1. pose proof (Qlt_floor x) as F2.
  rewrite inject_Z_plus in F2. change (inject_Z 1) with 1 in F2.
  unfold nearestEven.
  destruct (Qcompare_spec (x - inject_Z (Qfloor x)) (1 # 2)) as [C|C|C];
    [destruct (Z.even (Qfloor x))| |];
    rewrite ?inject_Z_plus; change (inject_Z 1) with 1; lra.
Qed.

(** The spacing *)

Lemma quantum_mono (a b : Q) : 0 < a -> a <= b -> (quantum a <= quantum b)%Z.
Proof.
  intros Ha Hab. unfold quantum. pose proof (exponent_mono a b Ha Hab). lia.
Qed.

Lemma quantum_comp (a b : Q) : 0 < a -> a == b -> quantum a = quantum b.
Proof. intros Ha Hab. unfold quantum. now rewrite (exponent_comp a b Ha Hab). Qed.

Lemma nearest_comp (a b : Q) : 0 < a -> a == b -> nearest a = nearest b.
Proof.
  intros Ha Hab. unfold nearest. rewrite (quantum_comp a b Ha Hab).
  rewrite (nearestEven_comp (a / pow2 (quantum b)) (b / pow2 (quantum b)));
    [reflexivity|]. now rewrite Hab.
Qed.

Lemma nearest_nonneg (a : Q) : 0 < a -> 0 <= nearest a.
Proof.
  intros Ha. unfold nearest.
  apply Qmult_le_0_compat; [|apply Qlt_le_weak, pow2_pos].
  change 0 with (inject_Z 0). rewrite <- Zle_Qle.
  apply nearestEven_ge. change (inject_Z 0) with 0.
  apply Qle_shift_div_l; [apply pow2_pos|]. rewrite Qmult_0_l.
  apply Qlt_le_weak, Ha.
Qed.

(** A multiple of the spacing is kept. *)
Lemma nearest_fixed (a : Q) (m : Z) :
  a == inject_Z m * pow2 (quantum a) -> nearest a == a.
Proof.
  intros H. unfold nearest.
  rewrite (nearestEven_comp _ (inject_Z m)).
  - rewrite nearestEven_Z. symmetry. exact H.
  - rewrite H at 1. unfold Qdiv. rewrite <- Qmult_assoc, Qmult_inv_r.
    + apply Qmult_1_r.
    + intros E. pose proof (pow2_pos (quantum a)) as P. rewrite E in P. discriminate.
Qed.

Lemma nearest_le_grid (a : Q) (k : Z) :
  0 < a -> (quantum a <= k)%Z -> a <= pow2 k -> nearest a <= pow2 k.
Proof.
  intros Ha Hk H. unfold nearest.
  assert (pow2 k == inject_Z (2 ^ (k - quantum a)) * pow2 (quantum a)) as E.
  { rewrite <- pow2_Z by lia. rewrite <- pow2_add. now replace (k - quantum a + quantum a)%Z with k by ring. }
  rewrite E. apply Qmult_le_compat_r; [|apply Qlt_le_weak, pow2_pos].
  rewrite <- Zle_Qle. apply nearestEven_le.
  apply Qle_shift_div_r; [apply pow2_pos|]. now rewrite <- E.
Qed.

Lemma nearest_ge_grid (a : Q) (k : Z) :
  (quantum a <= k)%Z -> pow2 k <= a -> pow2 k <= nearest a.
Proof.
  intros Hk H. unfold nearest.
  assert (pow2 k == inject_Z (2 ^ (k - quantum a)) * pow2 (quantum a)) as E.
  { rewrite <- pow2_Z by lia. rewrite <- pow2_add. now replace (k - quantum a + quantum a)%Z with k by ring. }
  rewrite E. apply Qmult_le_compat_r; [|apply Qlt_le_weak, pow2_pos].
  rewrite <- Zle_Qle. apply nearestEven_ge.
  apply Qle_shift_div_l; [apply pow2_pos|]. now rewrite <- E.
Qed.

Lemma nearest_upper (a : Q) : 0 < a -> nearest a <= pow2 (exponent a + 1).
Proof.
  intros Ha. destruct (exponent_spec a Ha) as [_ E2].
  destruct (Z_le_gt_dec (quantum a) (exponent a + 1)) as [L|G].
  - apply nearest_le_grid; [exact Ha | exact L | apply Qlt_le_weak, E2].
  - apply Qle_trans with 0; [|apply Qlt_le_weak, pow2_pos].
    unfold nearest.
    assert (nearestEven (a / pow2 (quantum a)) <= 0)%Z as N.
    { pose proof (nearestEven_error (a / pow2 (quantum a))) as [_ U].
      assert (a / pow2 (quantum a) < 1 # 2) as S.
      { apply Qlt_shift_div_r; [apply pow2_pos|].
        apply Qlt_le_trans with (pow2 (exponent a + 1)); [exact E2|].
        apply Qle_trans with (pow2 (quantum a - 1)); [apply pow2_le; lia|].
        rewrite pow2_sub. change (pow2 1) with 2.
        apply Qle_shift_div_r; [reflexivity|].
        pose proof (pow2_pos (quantum a)). lra. }
      assert (inject_Z (nearestEven (a / pow2 (quantum a))) < inject_Z 1) as I
        by (change (inject_Z 1) with 1; lra).
      rewrite <- Zlt_Qlt in I. lia. }
    rewrite Zle_Qle in N. change (inject_Z 0) with 0 in N.
    pose proof (pow2_pos (quantum a)) as P.
    setoid_replace 0 with (0 * pow2 (quantum a)) by ring.
    apply Qmult_le_compat_r; [exact N | apply Qlt_le_weak, P].
Qed.

Lemma nearest_lower (a : Q) :
  0 < a -> (quantum a <= exponent a)%Z -> pow2 (exponent a) <= nearest a.
Proof.
  intros Ha Hq. destruct (exponent_spec a Ha) as [E1 _].
  apply nearest_ge_grid; assumption.
Qed.

(** Rounding keeps the order. *)
Lemma nearest_mono (a b : Q) : 0 < a -> a <= b -> nearest a <= nearest b.
Proof.
  intros Ha Hab.
  assert (0 < b) as Hb by (eapply Qlt_le_trans; eassumption).
  pose proof (quantum_mono a b Ha Hab) as Q.
  destruct (Z.eq_dec (quantum a) (quantum b)) as [E|E].
  - unfold nearest. rewrite E.
    apply Qmult_le_compat_r; [|apply Qlt_le_weak, pow2_pos].
    rewrite <- Zle_Qle. apply nearestEven_mono. now apply Qdiv_pow2_le.
  - apply Qle_trans with (pow2 (exponent a + 1)); [apply nearest_upper, Ha|].
    apply Qle_trans with (pow2 (exponent b)).
    + apply pow2_le. unfold quantum in *. lia.
    + apply nearest_lower; [exact Hb|]. unfold quantum in *. lia.
Qed.

(** Rounding is within half the spacing. *)
Lemma nearest_error (a : Q) :
  a - pow2 (quantum a - 1) <= nearest a /\ nearest a <= a + pow2 (quantum a - 1).
Proof.
  unfold nearest.
  pose proof (nearestEven_error (a / pow2 (quantum a))) as [L U].
  pose proof (pow2_pos (quantum a)) as P.
  assert (~ pow2 (quantum a) == 0) as P0 by (intros E; rewrite E in P; discriminate).
  assert (pow2 (quantum a - 1) == (1 # 2) * pow2 (quantum a)) as H.
  { rewrite pow2_sub. change (pow2 1) with 2. now field. }
  split.
  - apply Qle_trans with ((a / pow2 (quantum a) - (1 # 2)) * pow2 (quantum a)).
    + apply Qle_lteq. right. rewrite H. now field.
    + apply Qmult_le_compat_r; [exact L | apply Qlt_le_weak, P].
  - apply Qle_trans with ((a / pow2 (quantum a) + (1 # 2)) * pow2 (quantum a)).
    + apply Qmult_le_compat_r; [exact U | apply Qlt_le_weak, P].
    + apply Qle_lteq. right. rewrite H. now field.
Qed.

(** The value of an operation *)

Lemma Qabs_of_pos (q : Q) : 0 < q -> Qabs q = q.
Proof.
  destruct q as [[|p|p] d]; intros H; try reflexivity;
    unfold Qlt in H; simpl in H; lia.
Qed.

Lemma Qabs_of_neg (q : Q) : q < 0 -> Qabs q = - q.
Proof.
  destruct q as [[|p|p] d]; intros H; try reflexivity;
    unfold Qlt in H; simpl in H; lia.
Qed.

Lemma round_zero (q : Q) : q == 0 -> round q = Finite 0.
Proof.
  intros H. unfold round. apply Qeq_alt in H.
  change (Qcompare q 0 = Eq) in H. now rewrite H.
Qed.

Lemma round_pos (q : Q) :
  0 < q ->
  round q = if Qle_bool (pow2 1024) (nearest q) then Inf false
            else Finite (Qred (nearest q)).
Proof.
  intros H. unfold round. rewrite (Qabs_of_pos q H).
  apply Qgt_alt in H. change (Qcompare q 0 = Gt) in H. now rewrite H.
Qed.

Lemma round_neg (q : Q) :
  q < 0 ->
  round q = if Qle_bool (pow2 1024) (nearest (- q)) then Inf true
            else Finite (Qred (- nearest (- q))).
Proof.
  intros H. unfold round. rewrite (Qabs_of_neg q H).
  apply Qlt_alt in H. change (Qcompare q 0 = Lt) in H. now rewrite H.
Qed.

Lemma round_comp (q q' : Q) : q == q' -> round q = round q'.
Proof.
  intros H.
  destruct (Qcompare_spec q 0) as [C|C|C].
  - rewrite (round_zero q C). rewrite H in C. now rewrite (round_zero q' C).
  - rewrite (round_neg q C).
    assert (0 < - q) as P by lra.
    assert (- q == - q') as N by (now rewrite H).
    rewrite H in C. rewrite (round_neg q' C).
    now rewrite (nearest_comp _ _ P N).
  - rewrite (round_pos q C). rewrite (nearest_comp _ _ C H).
    rewrite H in C. now rewrite (round_pos q' C).
Qed.

Lemma Qle_bool_false (x y : Q) : Qle_bool x y = false -> y < x.
Proof.
  intros H. apply Qnot_le_lt. intros L. apply Qle_bool_iff in L. congruence.
Qed.

Lemma leb_Qred (x y : Q) : x <= y -> leb (Finite (Qred x)) (Finite (Qred y)) = true.
Proof. intros H. simpl. apply Qle_bool_iff. now rewrite !Qred_correct. Qed.

(** Rounding keeps the order of the exact results. *)
Lemma round_mono (q q' : Q) : q <= q' -> leb (round q) (round q') = true.
Proof.
  intros H.
  destruct (Qcompare_spec q 0) as [C|C|C];
    destruct (Qcompare_spec q' 0) as [C'|C'|C'];
    try (exfalso; lra).
  - rewrite (round_zero q C), (round_zero q' C'). reflexivity.
  - rewrite (round_zero q C), (round_pos q' C').
    destruct (Qle_bool _ _); [reflexivity|].
    change (Finite 0) with (Finite (Qred 0)). apply leb_Qred.
    now apply nearest_nonneg.
  - rewrite (round_neg q C), (round_zero q' C').
    destruct (Qle_bool _ _); [reflexivity|].
    change (Finite 0) with (Finite (Qred 0)). apply leb_Qred.
    assert (0 < - q) as P by lra. pose proof (nearest_nonneg _ P). lra.
  - rewrite (round_neg q C), (round_neg q' C').
    assert (0 < - q') as P' by lra.
    assert (- q' <= - q) as N by lra.
    pose proof (nearest_mono _ _ P' N) as M.
    destruct (Qle_bool (pow2 1024) (nearest (- q))) eqn:E;
      [destruct (Qle_bool (pow2 1024) (nearest (- q'))); reflexivity|].
    destruct (Qle_bool (pow2 1024) (nearest (- q'))) eqn:E'.
    + exfalso. apply Qle_bool_iff in E'. apply Qle_bool_false in E. lra.
    + apply leb_Qred. lra.
  - rewrite (round_neg q C), (round_pos q' C').
    destruct (Qle_bool _ (nearest (- q))); destruct (Qle_bool _ (nearest q'));
      try reflexivity.
    apply leb_Qred.
    assert (0 < - q) as P by lra.
    pose proof (nearest_nonneg _ P). pose proof (nearest_nonneg _ C'). lra.
  - rewrite (round_pos q C), (round_pos q' C').
    pose proof (nearest_mono _ _ C H) as M.
    destruct (Qle_bool (pow2 1024) (nearest q')) eqn:E'.
    + destruct (Qle_bool (pow2 1024) (nearest q)); reflexivity.
    + destruct (Qle_bool (pow2 1024) (nearest q)) eqn:E.
      * exfalso. apply Qle_bool_iff in E. apply Qle_bool_false in E'. lra.
      * now apply leb_Qred.
Qed.

(** The exact result between two values gives a value between them. *)
Lemma round_range (lo hi q : Q) :
  isDouble lo = true -> isDouble hi = true -> lo <= q -> q <= hi ->
  exists r, round q = Finite r /\ lo <= r /\ r <= hi.
Proof.
  unfold isDouble. intros Hlo Hhi L U.
  pose proof (round_mono _ _ L) as ML. pose proof (round_mono _ _ U) as MU.
  destruct (round lo) as [| |rl]; try discriminate.
  destruct (round hi) as [| |rh]; try discriminate.
  apply Qeq_bool_iff in Hlo, Hhi.
  destruct (round q) as [|[|]|r]; try discriminate.
  exists r. simpl in ML, MU. apply Qle_bool_iff in ML, MU.
  split; [reflexivity|]. rewrite <- Hlo, <- Hhi. split; assumption.
Qed.

(** Integers *)

Lemma Qred_inject_Z (v : Z) : Qred (inject_Z v) = inject_Z v.
Proof.
  unfold Qred, inject_Z.
  pose proof (Z.ggcd_correct_divisors v 1) as Hdiv.
  pose proof (Z.ggcd_gcd v 1) as Hgcd. rewrite Z.gcd_1_r in Hgcd.
  destruct (Z.ggcd v 1) as [g [aa bb]]. cbn [fst snd] in *.
  destruct Hdiv as [Ha Hb]. subst g.
  assert (aa = v) as -> by lia. assert (bb = 1)%Z as -> by lia. reflexivity.
Qed.

Lemma nearest_Z (v : Z) :
  (0 < v < 2 ^ 53)%Z -> nearest (inject_Z v) == inject_Z v.
Proof.
  intros [V1 V2].
  assert (0 < inject_Z v) as P by (change 0 with (inject_Z 0); now rewrite <- Zlt_Qlt).
  assert (exponent (inject_Z v) < 53)%Z as E.
  { apply exponent_lt; [exact P|]. rewrite pow2_Z by lia. now rewrite <- Zlt_Qlt. }
  assert (quantum (inject_Z v) <= 0)%Z as L by (unfold quantum; lia).
  apply (nearest_fixed _ (v * 2 ^ (- quantum (inject_Z v)))).
  rewrite inject_Z_mult, <- pow2_Z by lia.
  rewrite <- Qmult_assoc, <- pow2_add.
  replace (- quantum (inject_Z v) + quantum (inject_Z v))%Z with 0%Z by ring.
  change (pow2 0) with 1. ring.
Qed.

Lemma round_Z_pos (v : Z) :
  (0 < v < 2 ^ 53)%Z -> round (inject_Z v) = Finite (inject_Z v).
Proof.
  intros V. pose proof (nearest_Z v V) as N.
  assert (0 < inject_Z v) as P
    by (change 0 with (inject_Z 0); rewrite <- Zlt_Qlt; lia).
  rewrite (round_pos _ P).
  destruct (Qle_bool (pow2 1024) (nearest (inject_Z v))) eqn:B.
  - exfalso. apply Qle_bool_iff in B. rewrite N in B.
    rewrite pow2_Z in B by lia. rewrite <- Zle_Qle in B.
    assert (2 ^ 53 < 2 ^ 1024)%Z by (apply Z.pow_lt_mono_r; lia). lia.
  - rewrite (Qred_complete _ _ N). now rewrite Qred_inject_Z.
Qed.

(** An integer up to 2^53 in magnitude is a value. *)
Lemma round_Z (v : Z) :
  (- 2 ^ 53 <= v <= 2 ^ 53)%Z -> round (inject_Z v) = Finite (inject_Z v).
Proof.
  intros V.
  destruct (Z.eq_dec v (2 ^ 53)) as [->|U]; [vm_compute; reflexivity|].
  destruct (Z.eq_dec v (- 2 ^ 53)) as [->|L]; [vm_compute; reflexivity|].
  destruct (Z.lt_trichotomy v 0) as [N|[->|P]].
  - assert (inject_Z v < 0) as Q
      by (change 0 with (inject_Z 0); now rewrite <- Zlt_Qlt).
    rewrite (round_neg _ Q).
    change (- inject_Z v) with (inject_Z (- v)).
    assert (0 < - v < 2 ^ 53)%Z as V' by lia.
    pose proof (nearest_Z _ V') as R.
    destruct (Qle_bool (pow2 1024) (nearest (inject_Z (- v)))) eqn:B.
    { exfalso. apply Qle_bool_iff in B. rewrite R in B.
      rewrite pow2_Z in B by lia. rewrite <- Zle_Qle in B.
      assert (2 ^ 53 < 2 ^ 1024)%Z by (apply Z.pow_lt_mono_r; lia). lia. }
    assert (- nearest (inject_Z (- v)) == inject_Z v) as E.
    { rewrite R. change (- inject_Z (- v)) with (inject_Z (- - v)).
      now rewrite Z.opp_involutive. }
    rewrite (Qred_complete _ _ E). now rewrite Qred_inject_Z.
  - reflexivity.
  - apply round_Z_pos. lia.
Qed.

Lemma isDouble_Z (v : Z) :
  (- 2 ^ 53 <= v <= 2 ^ 53)%Z -> isDouble (inject_Z v) = true.
Proof.
  intros V. unfold isDouble. rewrite (round_Z v V). apply Qeq_bool_iff. reflexivity.
Qed.

(** The result of an operation is a value. *)
Lemma Qred_Qred (q : Q) : Qred (Qred q) = Qred q.
Proof. apply Qred_complete, Qred_correct. Qed.

Lemma round_reduced (q a : Q) : round q = Finite a -> Qred a = a.
Proof.
  unfold round. cbv zeta.
  destruct (Qcompare q 0).
  - intros H. replace a with 0 by congruence. reflexivity.
  - set (x := signed _ _). destruct (Qle_bool _ _); [discriminate|].
    intros H. replace a with (Qred x) by congruence. apply Qred_Qred.
  - set (x := signed _ _). destruct (Qle_bool _ _); [discriminate|].
    intros H. replace a with (Qred x) by congruence. apply Qred_Qred.
Qed.

Lemma isNegative_false (a : Q) : isNegative a = false -> 0 <= a.
Proof.
  unfold isNegative. destruct (Qcompare_spec a 0) as [C|C|C]; try discriminate;
    intros _; lra.
Qed.

Lemma isNegative_inject_Z (v : Z) : (0 <= v)%Z -> isNegative (inject_Z v) = false.
Proof.
  intros H. unfold isNegative.
  destruct (Qcompare_spec (inject_Z v) 0) as [C|C|C]; try reflexivity.
  exfalso. change 0 with (inject_Z 0) in C. rewrite <- Zlt_Qlt in C. lia.
Qed.

(** A value that is an integer *)
Lemma isInteger_Finite (q a : Q) :
  round q = Finite a -> isInteger (Finite a) = true ->
  a = inject_Z (Qnum (Qred a)).
Proof.
  intros R I. rewrite <- (round_reduced q a R) at 1.
  unfold isInteger in I. apply Z.eqb_eq in I.
  destruct (Qred a) as [n d]. cbn [Qnum Qden] in *.
  injection I as ->. reflexivity.
Qed.

End Rounding.

(* ----------------------------------------------------------------- *)
(** *** Ranges *)

Section Ranges.

Import Double.
#[local] Open Scope Q_scope.

Lemma between_inv (lo hi : Q) (x : double) :
  between lo hi x = true -> exists a, x = Finite a /\ lo <= a /\ a <= hi.
Proof.
  destruct x as [| |a]; try discriminate. cbn. intros H.
  apply andb_prop in H as [L U]. apply Qle_bool_iff in L, U. now exists a.
Qed.

(** The exact result between two exact results gives a value between
    theirs. *)
Lemma round_between (q lo hi vl vh : Q) :
  lo <= q -> q <= hi -> round lo = Finite vl -> round hi = Finite vh ->
  exists r, round q = Finite r /\ vl <= r /\ r <= vh.
Proof.
  intros L U Hlo Hhi.
  pose proof (round_mono _ _ L) as ML. pose proof (round_mono _ _ U) as MU.
  rewrite Hlo in ML. rewrite Hhi in MU.
  destruct (round q) as [|[|]|r]; try discriminate.
  exists r. simpl in ML, MU. apply Qle_bool_iff in ML, MU.
  split; [reflexivity|]. split; assumption.
Qed.

Lemma round_0 : round 0 = Finite 0.
Proof. reflexivity. Qed.

Lemma sqrt_range (a : Q) (b : Z) :
  0 <= a -> a <= inject_Z (b * b) -> (0 <= b < 2 ^ 53)%Z ->
  exists r, sqrt (Finite a) = Finite r /\ 0 <= r /\ r <= inject_Z b.
Proof.
  intros A0 AB [B0 B1]. unfold sqrt.
  destruct (Qcompare_spec a 0) as [C|C|C].
  - exists 0. split; [reflexivity|]. split; [lra|].
    change 0 with (inject_Z 0). now rewrite <- Zle_Qle.
  - exfalso. lra.
  - exists (Qred (nearestRoot a)). split; [reflexivity|].
    rewrite Qred_correct. unfold nearestRoot.
    set (ex := (exponent a / 2 - 52)%Z).
    set (y := a / pow2 (2 * ex)).
    set (lower := Z.sqrt (Qfloor y)).
    set (middle := inject_Z (2 * lower + 1) / 2).
    set (m := match Qcompare y (middle * middle) with
              | Eq => if Z.even lower then lower else (lower + 1)%Z
              | Lt => lower
              | Gt => (lower + 1)%Z
              end).
    pose proof (pow2_pos ex) as P.
    pose proof (Z.sqrt_nonneg (Qfloor y)) as L0. fold lower in L0.
    assert (lower <= m <= lower + 1)%Z as [M0 M1].
    { unfold m. destruct (Qcompare _ _); [destruct (Z.even _)| |]; lia. }
    split.
    + apply Qmult_le_0_compat; [|lra].
      change 0 with (inject_Z 0). rewrite <- Zle_Qle. lia.
    + assert (a < pow2 106) as A106.
      { apply Qle_lt_trans with (inject_Z (b * b)); [exact AB|].
        rewrite pow2_Z by lia. rewrite <- Zlt_Qlt.
        change (2 ^ 106)%Z with (2 ^ 53 * 2 ^ 53)%Z.
        apply Z.mul_lt_mono_nonneg; lia. }
      pose proof (exponent_lt a 106 C A106) as E.
      assert (ex <= 0)%Z as EX.
      { unfold ex.
        assert (exponent a / 2 < 53)%Z by (apply Z.div_lt_upper_bound; lia).
        lia. }
      set (N := (b * 2 ^ (- ex))%Z).
      assert (inject_Z N * pow2 ex == inject_Z b) as HN.
      { unfold N. rewrite inject_Z_mult, <- pow2_Z by lia.
        rewrite <- Qmult_assoc, <- pow2_add.
        replace (- ex + ex)%Z with 0%Z by ring. change (pow2 0) with 1. ring. }
      assert (0 <= N)%Z as N0 by (unfold N; apply Z.mul_nonneg_nonneg; lia).
      assert (y <= inject_Z (N * N)) as YN.
      { unfold y. apply Qle_shift_div_r; [apply pow2_pos|].
        replace (2 * ex)%Z with (ex + ex)%Z by ring. rewrite pow2_add.
        rewrite inject_Z_mult.
        setoid_replace (inject_Z N * inject_Z N * (pow2 ex * pow2 ex))
          with ((inject_Z N * pow2 ex) * (inject_Z N * pow2 ex)) by ring.
        rewrite HN. now rewrite <- inject_Z_mult. }
      assert (lower <= N)%Z as LN.
      { pose proof (Qfloor_resp_le _ _ YN) as F. rewrite Qfloor_Z in F.
        unfold lower. rewrite <- (Z.sqrt_square N) by exact N0.
        now apply Z.sqrt_le_mono. }
      assert (m <= N)%Z as MN.
      { destruct (Z.eq_dec lower N) as [EQ|NE]; [|lia].
        assert (y < middle * middle) as YM.
        { apply Qle_lt_trans with (inject_Z (N * N)); [exact YN|].
          unfold middle. rewrite EQ.
          rewrite inject_Z_plus, !inject_Z_mult.
          change (inject_Z 2) with 2. change (inject_Z 1) with 1.
          assert (0 <= inject_Z N) as N0'
            by (change 0 with (inject_Z 0); now rewrite <- Zle_Qle).
          setoid_replace ((2 * inject_Z N + 1) / 2 * ((2 * inject_Z N + 1) / 2))
            with (inject_Z N * inject_Z N + inject_Z N + (1 # 4)) by field.
          lra. }
        unfold m. apply Qlt_alt in YM.
        change (Qcompare y (middle * middle) = Lt) in YM. rewrite YM. lia. }
      rewrite <- HN. apply Qmult_le_compat_r; [|lra].
      now rewrite <- Zle_Qle.
Qed.

End Ranges.

(* ----------------------------------------------------------------- *)
(** *** Rounding errors *)

Section Errors.

Import Double.
#[local] Open Scope Q_scope.

(** Below 2^k the value of an exact result is within 2^(k - 54) of it. *)
Lemma round_error (q : Q) (k : Z) :
  0 <= q -> q < pow2 k -> (- 1021 <= k <= 1023)%Z ->
  exists r, round q = Finite r /\ 0 <= r
            /\ q - pow2 (k - 54) <= r /\ r <= q + pow2 (k - 54).
Proof.
  intros Q0 Qk [K0 K1].
  pose proof (pow2_pos (k - 54)) as P.
  destruct (Qcompare_spec q 0) as [C|C|C].
  - rewrite (round_zero q C). exists 0. split; [reflexivity|]. lra.
  - exfalso. lra.
  - rewrite (round_pos q C).
    pose proof (exponent_lt q k C Qk) as E.
    pose proof (nearest_upper q C) as U.
    assert (nearest q <= pow2 k) as Uk.
    { eapply Qle_trans; [exact U|]. apply pow2_le. lia. }
    assert (pow2 k < pow2 1024) as K by (apply pow2_lt; lia).
    destruct (Qle_bool (pow2 1024) (nearest q)) eqn:B.
    { exfalso. apply Qle_bool_iff in B. lra. }
    exists (Qred (nearest q)). split; [reflexivity|].
    rewrite Qred_correct.
    split; [now apply nearest_nonneg|].
    pose proof (nearest_error q) as [L H].
    assert (pow2 (quantum q - 1) <= pow2 (k - 54)) as S
      by (apply pow2_le; unfold quantum; lia).
    lra.
Qed.

Lemma add_error (a b : Q) (k : Z) :
  0 <= a + b -> a + b < pow2 k -> (- 1021 <= k <= 1023)%Z ->
  exists r, add (Finite a) (Finite b) = Finite r /\ 0 <= r
            /\ a + b - pow2 (k - 54) <= r /\ r <= a + b + pow2 (k - 54).
Proof. intros. cbn [add]. now apply round_error. Qed.

Lemma mul_error (a b : Q) (k : Z) :
  0 <= a * b -> a * b < pow2 k -> (- 1021 <= k <= 1023)%Z ->
  exists r, mul (Finite a) (Finite b) = Finite r /\ 0 <= r
            /\ a * b - pow2 (k - 54) <= r /\ r <= a * b + pow2 (k - 54).
Proof. intros. cbn [mul]. now apply round_error. Qed.

(** [Math.round] keeps the order, and moves with an integer. *)
Lemma Math_round_le (a b : Q) :
  a <= b -> (Qfloor (a + (1 # 2)) <= Qfloor (b + (1 # 2)))%Z.
Proof. intros H. apply Qfloor_resp_le. lra. Qed.

Lemma Math_round_lt_add (a b : Q) (n : Z) :
  b < a + inject_Z n ->
  (Qfloor (b + (1 # 2)) < Qfloor (a + (1 # 2)) + n + 1)%Z.
Proof.
  intros H.
  pose proof (Qfloor_le (b + (1 # 2))) as Lb.
  pose proof (Qlt_floor (a + (1 # 2))) as Ua.
  rewrite inject_Z_plus in Ua. change (inject_Z 1) with 1 in Ua.
  rewrite Zlt_Qlt, !inject_Z_plus. change (inject_Z 1) with 1. lra.
Qed.

End Errors.

Section Closeness.

Import Double.
#[local] Open Scope Q_scope.

(** Below 256 the value of an exact result is within 1/1000 of it (within
    2^-46, in fact). *)
Lemma round_close (q : Q) :
  0 <= q -> q < 256 ->
  exists r, round q = Finite r /\ 0 <= r
            /\ q - (1 # 1000) <= r /\ r <= q + (1 # 1000).
Proof.
  intros Q0 Q1.
  assert (pow2 8 == 256) as P8 by reflexivity.
  assert (pow2 (8 - 54) <= 1 # 1000) as S8 by (vm_compute; discriminate).
  destruct (round_error q 8) as [r [Hr [R0 [R1 R2]]]]; try lia; try lra.
  exists r. repeat split; try assumption; lra.
Qed.

Lemma leb_Finite (a b : Q) : leb (Finite a) (Finite b) = true -> a <= b.
Proof. cbn. apply Qle_bool_iff. Qed.

(** Two exact results in order have their values in order. *)
Lemma round_le (q q' r r' : Q) :
  q <= q' -> round q = Finite r -> round q' = Finite r' -> r <= r'.
Proof.
  intros H Hr Hr'. pose proof (round_mono q q' H) as M.
  rewrite Hr, Hr' in M. now apply leb_Finite.
Qed.

Lemma three_tenths_value :
  round (3 # 10) = Finite (5404319552844595 # 18014398509481984).
Proof. vm_compute. reflexivity. Qed.

Lemma two_tenths_value :
  round (2 # 10) = Finite (3602879701896397 # 18014398509481984).
Proof. vm_compute. reflexivity. Qed.

End Closeness.

(* ----------------------------------------------------------------- *)
(** *** The results of operations are values *)

Section Idempotence.

Import Double.
#[local] Open Scope Q_scope.

Lemma Qle_bool_true_false (x y : Q) : x < y -> Qle_bool y x = false.
Proof.
  intros H. destruct (Qle_bool y x) eqn:E; [|reflexivity].
  apply Qle_bool_iff in E. exfalso. lra.
Qed.

(** What rounding gives is kept by rounding. *)
Lemma nearest_idem (q : Q) :
  0 < q -> 0 < nearest q -> nearest (nearest q) == nearest q.
Proof.
  intros Q0 A0.
  set (a := nearest q) in *. set (e := exponent q). set (k := quantum q).
  set (M := nearestEven (q / pow2 k)).
  assert (a == inject_Z M * pow2 k) as HA by reflexivity.
  pose proof (pow2_pos k) as Pk.
  assert (1 <= M)%Z as M1.
  { destruct (Z_lt_le_dec M 1) as [L|G]; [|exact G]. exfalso.
    assert (inject_Z M <= 0) as H
      by (change 0 with (inject_Z 0); rewrite <- Zle_Qle; lia).
    assert (inject_Z M * pow2 k <= 0 * pow2 k) as H'
      by (apply Qmult_le_compat_r; [exact H|lra]).
    rewrite <- HA in H'. lra. }
  destruct (Z_le_gt_dec k e) as [KE|KE].
  - pose proof (nearest_lower q Q0 KE) as L. fold a e in L.
    pose proof (nearest_upper q Q0) as U. fold a e in U.
    destruct (Qlt_le_dec a (pow2 (e + 1))) as [Lt|Ge].
    + assert (exponent a = e) as Ea by (apply exponent_unique; assumption).
      apply (nearest_fixed a M). unfold quantum. rewrite Ea. exact HA.
    + assert (a == pow2 (e + 1)) as Ea by lra.
      assert (exponent a = e + 1)%Z as Ex.
      { apply exponent_unique; [lra|]. rewrite Ea. apply pow2_lt. lia. }
      assert (k <= quantum a <= e + 1)%Z as [K1 K2]
        by (unfold quantum, k, quantum; rewrite Ex; fold e; unfold k, quantum in KE; fold e in KE; lia).
      apply (nearest_fixed a (2 ^ (e + 1 - quantum a))).
      rewrite <- pow2_Z by lia. rewrite <- pow2_add.
      replace (e + 1 - quantum a + quantum a)%Z with (e + 1)%Z by ring.
      exact Ea.
  - assert (k = - 1074)%Z as Kv by (unfold k, quantum in *; fold e in KE |- *; lia).
    pose proof (nearest_upper q Q0) as U. fold a e in U.
    assert (pow2 (e + 1) <= pow2 k) as Pe by (apply pow2_le; lia).
    assert (pow2 k <= a) as Lo.
    { rewrite HA. setoid_replace (pow2 k) with (1 * pow2 k) at 1 by ring.
      apply Qmult_le_compat_r; [|lra].
      change 1 with (inject_Z 1). now rewrite <- Zle_Qle. }
    assert (a == pow2 k) as Ea by lra.
    assert (exponent a = k) as Ex.
    { apply exponent_unique; [lra|]. rewrite Ea. apply pow2_lt. lia. }
    apply (nearest_fixed a 1). unfold quantum. rewrite Ex, Kv.
    change (Z.max (-1074 - 52) (-1074)) with (-1074)%Z.
    rewrite Ea, Kv. ring.
Qed.

Lemma isDouble_of_pos (q : Q) :
  0 < q -> Qle_bool (pow2 1024) (nearest q) = false ->
  isDouble (Qred (nearest q)) = true.
Proof.
  intros Q0 B. apply Qle_bool_false in B.
  pose proof (nearest_nonneg q Q0) as N.
  unfold isDouble.
  destruct (Qlt_le_dec 0 (nearest q)) as [P|Z].
  - assert (0 < Qred (nearest q)) as P' by now rewrite Qred_correct.
    pose proof (nearest_idem q Q0 P) as I.
    assert (nearest (Qred (nearest q)) = nearest (nearest q)) as E
      by (apply nearest_comp; [exact P'|apply Qred_correct]).
    rewrite (round_pos _ P'), E.
    rewrite Qle_bool_true_false by (rewrite I; exact B).
    apply Qeq_bool_iff. rewrite !Qred_correct. exact I.
  - assert (nearest q == 0) as E by lra.
    rewrite (round_zero (Qred (nearest q))) by now rewrite Qred_correct.
    apply Qeq_bool_iff. rewrite Qred_correct. now symmetry.
Qed.

(** The result of an operation is a value. *)
Lemma round_isDouble (q r : Q) : round q = Finite r -> isDouble r = true.
Proof.
  destruct (Qcompare_spec q 0) as [C|C|C].
  - rewrite (round_zero q C). intros [= <-]. reflexivity.
  - rewrite (round_neg q C).
    assert (0 < - q) as P by lra.
    destruct (Qle_bool (pow2 1024) (nearest (- q))) eqn:B; [discriminate|].
    intros H. replace r with (Qred (- nearest (- q))) by congruence.
    pose proof (isDouble_of_pos (- q) P B) as D. unfold isDouble in *.
    pose proof (nearest_nonneg (- q) P) as N.
    destruct (Qlt_le_dec 0 (nearest (- q))) as [Pn|Zn].
    + assert (0 < Qred (nearest (- q))) as P' by now rewrite Qred_correct.
      assert (Qred (- nearest (- q)) < 0) as N' by (rewrite Qred_correct; lra).
      rewrite (round_pos _ P') in D. rewrite (round_neg _ N').
      assert (nearest (- Qred (- nearest (- q)))
              = nearest (Qred (nearest (- q)))) as E.
      { apply nearest_comp; [rewrite Qred_correct; lra|].
        rewrite !Qred_correct. ring. }
      rewrite E.
      set (x := Qred (nearest (- q))) in *.
      destruct (Qle_bool (pow2 1024) (nearest x)); [discriminate|].
      apply Qeq_bool_iff in D. apply Qeq_bool_iff.
      rewrite (Qred_correct (nearest x)) in D.
      rewrite (Qred_correct (- nearest x)), (Qred_correct (- nearest (- q))).
      rewrite D. unfold x. now rewrite Qred_correct.
    + assert (nearest (- q) == 0) as E by lra.
      rewrite (round_zero (Qred (- nearest (- q))))
        by (rewrite Qred_correct, E; reflexivity).
      apply Qeq_bool_iff. rewrite Qred_correct, E. reflexivity.
  - rewrite (round_pos q C).
    destruct (Qle_bool (pow2 1024) (nearest q)) eqn:B; [discriminate|].
    intros H. replace r with (Qred (nearest q)) by congruence.
    now apply isDouble_of_pos.
Qed.

End Idempotence.

(* ================================================================= *)
(** ** Properties of the trust score *)

Section ScoreFacts.

Import Api.
Local Open Scope R_scope.

Lemma Math_round_IZR (n : Z) : Math_round (IZR n) = n.
Proof.
  unfold Math_round. symmetry. apply Int_part_spec. lra.
Qed.


(** [reduce] from the left adds up what a sum from the right adds up. *)
Lemma sum_fold_right (xs : list R) : sum xs = fold_right Rplus 0 xs.
Proof.
  unfold sum. apply fold_symmetric; intros; ring.
Qed.

End ScoreFacts.

(* ----------------------------------------------------------------- *)
(** *** The formula of the code and the formula of the specification *)

Section FormulaFacts.

Import Double.
#[local] Open Scope Q_scope.


Lemma avg_is_mean (xs : list double) :
  div (Api64.sum xs) (Api64.lengthOf xs) = ScoringEngine.mean xs.
Proof. reflexivity. Qed.





Lemma Qfloor_half (k : Z) : Qfloor (inject_Z k + (1 # 2)) = k.
Proof.
  pose proof (Qfloor_le (inject_Z k + (1 # 2))) as L.
  pose proof (Qlt_floor (inject_Z k + (1 # 2))) as U.
  set (f := Qfloor (inject_Z k + (1 # 2))) in *.
  assert (inject_Z f < inject_Z (k + 1)) as A
    by (rewrite inject_Z_plus; change (inject_Z 1) with 1; lra).
  assert (inject_Z k < inject_Z (f + 1)) as B by lra.
  rewrite <- Zlt_Qlt in A, B. lia.
Qed.

Lemma Math_round_Z (k : Z) : Math_round (Finite (inject_Z k)) = Finite (inject_Z k).
Proof. unfold Math_round. now rewrite Qfloor_half. Qed.

Lemma Qle_bool_Z (a b : Z) : Qle_bool (inject_Z a) (inject_Z b) = (a <=? b)%Z.
Proof.
  destruct (Z.leb_spec a b) as [H|H].
  - apply Qle_bool_iff. now rewrite <- Zle_Qle.
  - destruct (Qle_bool (inject_Z a) (inject_Z b)) eqn:E; [|reflexivity].
    apply Qle_bool_iff in E. rewrite <- Zle_Qle in E. lia.
Qed.

Lemma clamp_Z (k : Z) :
  Math_min (Finite 100) (Math_max (Finite 0) (Finite (inject_Z k)))
  = Finite (inject_Z (Z.min 100 (Z.max 0 k))).
Proof.
  cbn [Math_max]. change 0 with (inject_Z 0). rewrite Qle_bool_Z.
  destruct (Z.leb_spec 0 k) as [K0|K0].
  - cbn [Math_min]. change 100 with (inject_Z 100). rewrite Qle_bool_Z.
    destruct (Z.leb_spec 100 k) as [K1|K1]; f_equal; f_equal; lia.
  - cbn [Math_min]. change 100 with (inject_Z 100). rewrite Qle_bool_Z.
    cbn. f_equal. f_equal. lia.
Qed.

Lemma Qfloor_bounds (a : Q) (k : Z) :
  inject_Z k <= a -> a < inject_Z k + 1 -> Qfloor a = k.
Proof.
  intros L U.
  pose proof (Qfloor_le a) as L'. pose proof (Qlt_floor a) as U'.
  rewrite inject_Z_plus in U'. change (inject_Z 1) with 1 in U'.
  assert (inject_Z (Qfloor a) < inject_Z (k + 1)) as A
    by (rewrite inject_Z_plus; change (inject_Z 1) with 1; lra).
  assert (inject_Z k < inject_Z (Qfloor a + 1)) as B
    by (rewrite inject_Z_plus; change (inject_Z 1) with 1; lra).
  rewrite <- Zlt_Qlt in A, B. lia.
Qed.




End FormulaFacts.

(* ----------------------------------------------------------------- *)
(** *** Scores of 0 to 100 *)

Section ScoreRanges.

Import Double.
#[local] Open Scope Q_scope.

Lemma isDouble_0 : isDouble 0 = true.
Proof. reflexivity. Qed.

Lemma inject_Z_nonneg (n : Z) : (0 <= n)%Z -> 0 <= inject_Z n.
Proof. intros H. change 0 with (inject_Z 0). now rewrite <- Zle_Qle. Qed.

Lemma add_range (a b : Q) (lo hi : Z) :
  (- 2 ^ 53 <= lo)%Z -> (hi <= 2 ^ 53)%Z ->
  inject_Z lo <= a + b -> a + b <= inject_Z hi ->
  exists r, add (Finite a) (Finite b) = Finite r
            /\ inject_Z lo <= r /\ r <= inject_Z hi.
Proof.
  intros L H A B. cbn [add].
  assert (lo <= hi)%Z as LH by (rewrite Zle_Qle; lra).
  apply round_range; try assumption; apply isDouble_Z; lia.
Qed.

Lemma sub_range (a b : Q) (lo hi : Z) :
  (- 2 ^ 53 <= lo)%Z -> (hi <= 2 ^ 53)%Z ->
  inject_Z lo <= a - b -> a - b <= inject_Z hi ->
  exists r, sub (Finite a) (Finite b) = Finite r
            /\ inject_Z lo <= r /\ r <= inject_Z hi.
Proof.
  intros L H A B. unfold sub. cbn [opp]. apply add_range; assumption.
Qed.

Lemma mul_range (a b : Q) (lo hi : Z) :
  (- 2 ^ 53 <= lo)%Z -> (hi <= 2 ^ 53)%Z ->
  inject_Z lo <= a * b -> a * b <= inject_Z hi ->
  exists r, mul (Finite a) (Finite b) = Finite r
            /\ inject_Z lo <= r /\ r <= inject_Z hi.
Proof.
  intros L H A B. cbn [mul].
  assert (lo <= hi)%Z as LH by (rewrite Zle_Qle; lra).
  apply round_range; try assumption; apply isDouble_Z; lia.
Qed.

Lemma isZero_false (a : Q) : ~ a == 0 -> isZero a = false.
Proof.
  intros H. unfold isZero. destruct (Qeq_bool a 0) eqn:E; [|reflexivity].
  apply Qeq_bool_iff in E. contradiction.
Qed.

Lemma div_range (a b : Q) (lo hi : Z) :
  (- 2 ^ 53 <= lo)%Z -> (hi <= 2 ^ 53)%Z -> ~ b == 0 ->
  inject_Z lo <= a / b -> a / b <= inject_Z hi ->
  exists r, div (Finite a) (Finite b) = Finite r
            /\ inject_Z lo <= r /\ r <= inject_Z hi.
Proof.
  intros L H Hb A B. cbn [div]. rewrite (isZero_false b Hb).
  assert (lo <= hi)%Z as LH by (rewrite Zle_Qle; lra).
  apply round_range; try assumption; apply isDouble_Z; lia.
Qed.

(** A sum of [n] values of [0 .. b] is a value of [0 .. n * b], as long as
    the integers up to [n * b] are values. *)
Lemma sum_bounds (b : Z) (xs : list double) :
  (0 <= b)%Z ->
  Forall (fun x => between 0 (inject_Z b) x = true) xs ->
  forall (n0 : Z) (a : Q),
    (0 <= n0)%Z ->
    ((n0 + Z.of_nat (List.length xs)) * b <= 2 ^ 53)%Z ->
    0 <= a -> a <= inject_Z (n0 * b) ->
    exists r, fold_left add xs (Finite a) = Finite r
              /\ 0 <= r
              /\ r <= inject_Z ((n0 + Z.of_nat (List.length xs)) * b).
Proof.
  intros B0 Hall. induction Hall as [|x xs Hx Hxs IH]; intros n0 a N0 Hmax A0 A1.
  - exists a. cbn [List.length Z.of_nat]. rewrite Z.add_0_r. auto.
  - apply between_inv in Hx as [q [-> [Q0 Q1]]].
    cbn [fold_left]. cbn [List.length] in Hmax |- *.
    rewrite Nat2Z.inj_succ in Hmax |- *.
    assert ((n0 + 1) * b <= 2 ^ 53)%Z as Hstep by nia.
    destruct (add_range a q 0 ((n0 + 1) * b)) as [r [-> [R0 R1]]].
    + lia.
    + exact Hstep.
    + change (inject_Z 0) with 0. lra.
    + replace ((n0 + 1) * b)%Z with (n0 * b + b)%Z by ring.
      rewrite inject_Z_plus. lra.
    + change (inject_Z 0) with 0 in R0.
      destruct (IH (n0 + 1)%Z r) as [r' [-> [R0' R1']]]; try assumption.
      * lia.
      * replace (n0 + 1 + Z.of_nat (List.length xs))%Z
          with (n0 + Z.succ (Z.of_nat (List.length xs)))%Z by lia.
        exact Hmax.
      * exists r'. split; [reflexivity|]. split; [exact R0'|].
        replace (n0 + Z.succ (Z.of_nat (List.length xs)))%Z
          with (n0 + 1 + Z.of_nat (List.length xs))%Z by lia.
        exact R1'.
Qed.

Lemma lengthOf_value (xs : list double) :
  (Z.of_nat (List.length xs) <= 2 ^ 53)%Z ->
  Api64.lengthOf xs = Finite (inject_Z (Z.of_nat (List.length xs))).
Proof. intros H. unfold Api64.lengthOf, ofZ. apply round_Z. lia. Qed.

(** The mean of values of [0 .. b] is a value of [0 .. b]. *)
Lemma mean_bounds (b : Z) (xs : list double) :
  (0 <= b)%Z -> xs <> [] ->
  (Z.of_nat (List.length xs) * b <= 2 ^ 53)%Z ->
  (Z.of_nat (List.length xs) <= 2 ^ 53)%Z ->
  Forall (fun x => between 0 (inject_Z b) x = true) xs ->
  exists r, div (Api64.sum xs) (Api64.lengthOf xs) = Finite r
            /\ 0 <= r /\ r <= inject_Z b.
Proof.
  intros B0 Hne Hmax Hlen Hall.
  assert ((0 + Z.of_nat (List.length xs)) * b <= 2 ^ 53)%Z as Hmax0
    by (now rewrite Z.add_0_l).
  destruct (sum_bounds b xs B0 Hall 0%Z 0 (Z.le_refl 0) Hmax0 (Qle_refl 0)
              (Qle_refl 0)) as [s [Hs [S0 S1]]].
  unfold Api64.sum. rewrite Hs, (lengthOf_value xs Hlen).
  rewrite Z.add_0_l in S1.
  set (n := Z.of_nat (List.length xs)) in *.
  assert (0 < n)%Z as Npos by (unfold n; destruct xs; [contradiction|cbn; lia]).
  assert (0 < inject_Z n) as NQ
    by (change 0 with (inject_Z 0); now rewrite <- Zlt_Qlt).
  assert (b <= 2 ^ 53)%Z as Bmax by nia.
  assert (~ inject_Z n == 0) as Nne
    by (intros E; rewrite E in NQ; discriminate).
  assert (inject_Z 0 <= s / inject_Z n) as Lo.
  { change (inject_Z 0) with 0. apply Qle_shift_div_l; [exact NQ|]. lra. }
  assert (s / inject_Z n <= inject_Z b) as Hi.
  { apply Qle_shift_div_r; [exact NQ|].
    rewrite <- inject_Z_mult. now rewrite Z.mul_comm. }
  destruct (div_range s (inject_Z n) 0 b ltac:(lia) Bmax Nne Lo Hi)
    as [r [-> [R0 R1]]].
  exists r. auto.
Qed.

End ScoreRanges.

Section ScoreRanges2.

Import Double.
#[local] Open Scope Q_scope.

Lemma length_pos (A : Type) (xs : list A) :
  xs <> [] -> (0 < Z.of_nat (List.length xs))%Z.
Proof. destruct xs; [contradiction|cbn; lia]. Qed.

(** The squared deviations from a mean of [0 .. b] are values of
    [0 .. b * b]. *)
Lemma squaredDiffs_bounds (b : Z) (m : Q) (xs : list double) :
  (0 <= b)%Z -> (b * b <= 2 ^ 53)%Z -> 0 <= m -> m <= inject_Z b ->
  Forall (fun x => between 0 (inject_Z b) x = true) xs ->
  Forall (fun x => between 0 (inject_Z (b * b)) x = true)
         (map (fun s => mul (sub s (Finite m)) (sub s (Finite m))) xs).
Proof.
  intros B0 Bmax M0 M1 Hall.
  assert (b <= 2 ^ 53)%Z as Bmax' by nia.
  induction Hall as [|x xs Hx Hxs IH]; [constructor|].
  cbn [map]. constructor; [|exact IH].
  apply between_inv in Hx as [q [-> [Q0 Q1]]].
  destruct (sub_range q m (- b) b) as [d [-> [D0 D1]]]; try lia.
  - rewrite inject_Z_opp. lra.
  - lra.
  - rewrite inject_Z_opp in D0.
    assert (0 <= d * d) as S0.
    { destruct (Qlt_le_dec d 0) as [N|P].
      - setoid_replace (d * d) with ((- d) * (- d)) by ring.
        apply Qmult_le_0_compat; lra.
      - apply Qmult_le_0_compat; lra. }
    assert (d * d <= inject_Z (b * b)) as S1.
    { rewrite inject_Z_mult.
      assert (0 <= (inject_Z b - d) * (inject_Z b + d)) as H
        by (apply Qmult_le_0_compat; lra).
      setoid_replace ((inject_Z b - d) * (inject_Z b + d))
        with (inject_Z b * inject_Z b - d * d) in H by ring.
      lra. }
    destruct (mul_range d d 0 (b * b)) as [r [-> [R0 R1]]]; try lia.
    + exact S0.
    + exact S1.
    + cbn [between]. apply andb_true_intro.
      split; apply Qle_bool_iff; assumption.
Qed.

(** The standard deviation of values of [0 .. b] is a value of [0 .. b]. *)
Lemma computeVariance_bounds (b : Z) (xs : list double) :
  (0 <= b)%Z -> xs <> [] ->
  (Z.of_nat (List.length xs) * (b * b) <= 2 ^ 53)%Z ->
  (Z.of_nat (List.length xs) * b <= 2 ^ 53)%Z ->
  (Z.of_nat (List.length xs) <= 2 ^ 53)%Z ->
  (b < 2 ^ 53)%Z ->
  Forall (fun x => between 0 (inject_Z b) x = true) xs ->
  exists r, Api64.computeVariance xs = Finite r /\ 0 <= r /\ r <= inject_Z b.
Proof.
  intros B0 Hne Hsq Hmax Hlen Bmax Hall.
  pose proof (length_pos _ xs Hne) as Npos.
  assert (b * b <= 2 ^ 53)%Z as Bsq by nia.
  destruct (mean_bounds b xs B0 Hne Hmax Hlen Hall) as [m [Hm [M0 M1]]].
  unfold Api64.computeVariance.
  destruct xs as [|x xs']; [contradiction|].
  set (l := x :: xs') in *. cbv zeta. rewrite Hm.
  pose proof (squaredDiffs_bounds b m l B0 Bsq M0 M1 Hall) as Hsquares.
  set (squares := map (fun s => mul (sub s (Finite m)) (sub s (Finite m))) l) in *.
  assert (List.length squares = List.length l) as Hlength
    by (unfold squares; apply length_map).
  assert ((0 + Z.of_nat (List.length squares)) * (b * b) <= 2 ^ 53)%Z as Hmax0
    by (rewrite Hlength, Z.add_0_l; exact Hsq).
  assert (0 <= b * b)%Z as Bsq0 by nia.
  destruct (sum_bounds (b * b) squares Bsq0 Hsquares 0%Z 0 (Z.le_refl 0) Hmax0
              (Qle_refl 0) (Qle_refl 0)) as [s [Hs [S0 S1]]].
  unfold Api64.sum. rewrite Hs, (lengthOf_value l Hlen).
  rewrite Hlength, Z.add_0_l in S1.
  set (n := Z.of_nat (List.length l)) in *.
  assert (0 < inject_Z n) as NQ
    by (change 0 with (inject_Z 0); now rewrite <- Zlt_Qlt).
  assert (~ inject_Z n == 0) as Nne
    by (intros E; rewrite E in NQ; discriminate).
  assert (inject_Z 0 <= s / inject_Z n) as Lo.
  { change (inject_Z 0) with 0. apply Qle_shift_div_l; [exact NQ|]. lra. }
  assert (s / inject_Z n <= inject_Z (b * b)) as Hi.
  { apply Qle_shift_div_r; [exact NQ|].
    rewrite <- inject_Z_mult. now rewrite Z.mul_comm. }
  destruct (div_range s (inject_Z n) 0 (b * b) ltac:(lia) Bsq Nne Lo Hi)
    as [v [-> [V0 V1]]].
  change (inject_Z 0) with 0 in V0.
  apply sqrt_range; try assumption. lia.
Qed.

End ScoreRanges2.

Section MaturityFacts.

Import Double.
#[local] Open Scope Q_scope.

Lemma ofZ_value (n : Z) :
  (- 2 ^ 53 <= n <= 2 ^ 53)%Z -> ofZ n = Finite (inject_Z n).
Proof. apply round_Z. Qed.

Lemma identityMaturity_bounds (file : Api.RegistrationFile) : (0 <= Api64.identityMaturity file <= 60)%Z.
Proof.
  unfold Api64.identityMaturity, Api.identityMaturity.
  destruct (Api.hasEndpoints file), (Api.hasTrustMethods file),
    (Api.longDescription file); lia.
Qed.

Lemma three_tenths :
  exists c, round (3 # 10) = Finite c /\ 0 <= c
            /\ round (60 * c) = Finite 18.
Proof. eexists. split; [vm_compute; reflexivity|]. split; [discriminate|]. vm_compute. reflexivity. Qed.

Lemma two_tenths :
  exists c, round (2 # 10) = Finite c /\ 0 <= c
            /\ round (50 * c) = Finite 10.
Proof. eexists. split; [vm_compute; reflexivity|]. split; [discriminate|]. vm_compute. reflexivity. Qed.

Lemma maturityBonus_bounds (file : Api.RegistrationFile) :
  exists r, Api64.maturityBonus file = Finite r /\ 0 <= r /\ r <= 18.
Proof.
  unfold Api64.maturityBonus.
  pose proof (identityMaturity_bounds file) as [I0 I1].
  rewrite ofZ_value by lia.
  destruct three_tenths as [c [-> [C0 C60]]]. cbn [mul].
  assert (0 <= inject_Z (Api64.identityMaturity file)) as I0'
    by now apply inject_Z_nonneg.
  assert (inject_Z (Api64.identityMaturity file) <= 60) as I1'
    by (change 60 with (inject_Z 60); now rewrite <- Zle_Qle).
  apply (round_between _ 0 (60 * c)).
  - apply Qmult_le_0_compat; assumption.
  - apply Qmult_le_compat_r; assumption.
  - reflexivity.
  - exact C60.
Qed.

End MaturityFacts.

Section ScoreRanges3.

Import Double.
#[local] Open Scope Q_scope.

Variable file : Api.RegistrationFile.
Variable xs : list double.
Hypothesis Hall : Forall (fun x => between 0 100 x = true) xs.
Hypothesis Hlen : (Z.of_nat (List.length xs) < 2 ^ 32)%Z.

Lemma volumeScore_bounds : (0 <= Api64.volumeScore xs <= 30)%Z.
Proof. unfold Api64.volumeScore. lia. Qed.

Lemma avgScore_bounds :
  exists r, Api64.avgScore xs = Finite r /\ 0 <= r /\ r <= 100.
Proof.
  unfold Api64.avgScore, Api64.feedbackCount.
  destruct (0 <? List.length xs)%nat eqn:E.
  - assert (xs <> []) as Hne by (destruct xs; discriminate).
    apply (mean_bounds 100 xs); try lia; assumption.
  - exists 0. repeat split; lra.
Qed.

Lemma effectiveBaseScore_bounds :
  exists r, Api64.effectiveBaseScore xs = Finite r /\ 0 <= r /\ r <= 100.
Proof.
  unfold Api64.effectiveBaseScore, Api64.baseScore.
  destruct (0 <? Api64.feedbackCount xs)%nat.
  - apply avgScore_bounds.
  - exists 50. repeat split; lra.
Qed.

Lemma consistencyScore_bounds :
  exists r, Api64.consistencyScore xs = Finite r /\ 0 <= r /\ r <= 20.
Proof.
  unfold Api64.consistencyScore, Api64.feedbackCount.
  destruct (0 <? List.length xs)%nat eqn:E.
  - assert (xs <> []) as Hne by (destruct xs; discriminate).
    destruct (computeVariance_bounds 100 xs) as [v [-> [V0 V1]]];
      try lia; try assumption.
    destruct (sub_range 100 v 0 100) as [d [-> [D0 D1]]]; try lia.
    + change (inject_Z 0) with 0. change (inject_Z 100) with 100 in V1. lra.
    + change (inject_Z 100) with 100. lra.
    + change (inject_Z 0) with 0 in D0. change (inject_Z 100) with 100 in D1.
      destruct (div_range d 5 0 20) as [c [-> [C0 C1]]]; try lia.
      * discriminate.
      * change (inject_Z 0) with 0. apply Qle_shift_div_l; [reflexivity|]. lra.
      * change (inject_Z 20) with 20. apply Qle_shift_div_r; [reflexivity|]. lra.
      * change (inject_Z 0) with 0 in C0. change (inject_Z 20) with 20 in C1.
        cbn [Math_min]. eexists. split; [reflexivity|].
        destruct (Qle_bool 20 c); split; lra.
  - exists 0. repeat split; lra.
Qed.

Lemma reputationConfidence_bounds :
  exists r, Api64.reputationConfidence xs = Finite r /\ 0 <= r /\ r <= 50.
Proof.
  unfold Api64.reputationConfidence.
  pose proof volumeScore_bounds as [V0 V1].
  rewrite ofZ_value by lia.
  destruct consistencyScore_bounds as [c [-> [C0 C1]]].
  assert (0 <= inject_Z (Api64.volumeScore xs)) as V0' by now apply inject_Z_nonneg.
  assert (inject_Z (Api64.volumeScore xs) <= 30) as V1'
    by (change 30 with (inject_Z 30); now rewrite <- Zle_Qle).
  destruct (add_range (inject_Z (Api64.volumeScore xs)) c 0 50)
    as [r [-> [R0 R1]]]; try lia.
  - change (inject_Z 0) with 0. lra.
  - change (inject_Z 50) with 50. lra.
  - exists r. auto.
Qed.

Lemma confidenceBonus_bounds :
  exists r, Api64.confidenceBonus xs = Finite r /\ 0 <= r /\ r <= 10.
Proof.
  unfold Api64.confidenceBonus.
  destruct reputationConfidence_bounds as [rc [-> [R0 R1]]].
  destruct two_tenths as [c [-> [C0 C50]]]. cbn [mul].
  apply (round_between _ 0 (50 * c)).
  - apply Qmult_le_0_compat; assumption.
  - apply Qmult_le_compat_r; assumption.
  - reflexivity.
  - exact C50.
Qed.



End ScoreRanges3.



(** Two scores of the sample registry, 80 and 90, on the sample document:
    the average 85, the deviation 5, the confidence 6 + 19, and the score
    85 + 18 + 5 cut to 100. *)
Example score_of_the_sample :
  Api64.avgScore [Double.Finite 80; Double.Finite 90] = Double.Finite 85
  /\ Api64.computeVariance [Double.Finite 80; Double.Finite 90] = Double.Finite 5
  /\ Api64.reputationConfidence [Double.Finite 80; Double.Finite 90]
     = Double.Finite 25
  /\ Api64.trustScore (Api.asRegistrationFile Sample.document)
       [Double.Finite 80; Double.Finite 90]
     = Double.Finite 100
  /\ Api64.trustScore (Api.asRegistrationFile (JObject []))
       [Double.Finite 80; Double.Finite 90]
     = Double.Finite 90.
Proof. repeat split; vm_compute; reflexivity. Qed.

(** C5: the verdict of a trust score follows inclusive lower bounds: 80 and
    more is highly-trusted, 60..79 trusted, 40..59 neutral, 20..39 low-trust,
    19 and less untrusted; the score route reports the verdict of the very
    score it returns. *)
Theorem verdict_bands (s : Z) :
  (80 <= s -> Api.verdict s = "highly-trusted")
  /\ (60 <= s <= 79 -> Api.verdict s = "trusted")
  /\ (40 <= s <= 59 -> Api.verdict s = "neutral")
  /\ (20 <= s <= 39 -> Api.verdict s = "low-trust")
  /\ (s <= 19 -> Api.verdict s = "untrusted")
  /\ Api.verdict 80 = "highly-trusted" /\ Api.verdict 79 = "trusted"
  /\ Api.verdict 60 = "trusted" /\ Api.verdict 59 = "neutral"
  /\ Api.verdict 40 = "neutral" /\ Api.verdict 39 = "low-trust"
  /\ Api.verdict 20 = "low-trust" /\ Api.verdict 19 = "untrusted"
  /\ (forall agentId chain file feedback,
        Api.so_verdict (Api.scoreOutput agentId chain file feedback)
        = Api.verdict (Api.so_trustScore
                         (Api.scoreOutput agentId chain file feedback))).
Proof.
  unfold Api.verdict.
  repeat split; try reflexivity; intros H;
    repeat match goal with
           | |- context [?a <=? ?b] => destruct (Z.leb_spec a b); try lia
           end; reflexivity.
Qed.

Lemma verdict_bands_witness :
  Api.verdict 85 = "highly-trusted" /\ Api.verdict 65 = "trusted"
  /\ Api.verdict 45 = "neutral" /\ Api.verdict 25 = "low-trust"
  /\ Api.verdict 5 = "untrusted".
Proof.
  split; [apply (proj1 (verdict_bands 85)); lia|].
  split; [apply (proj1 (proj2 (verdict_bands 65))); lia|].
  split; [apply (proj1 (proj2 (proj2 (verdict_bands 45)))); lia|].
  split; [apply (proj1 (proj2 (proj2 (proj2 (verdict_bands 25))))); lia|].
  apply (proj1 (proj2 (proj2 (proj2 (proj2 (verdict_bands 5)))))); lia.
Defined.

(* ================================================================= *)
(** ** The POST /a2a pipeline *)

Section A2AFacts.

Import A2A.

Variable config : Config.
Variable w : World.
Variable c : Request.

(** The route itself never asks for a payment. *)
Lemma a2aPost_no_payment (stored : option JSON) :
  filter isPaymentVerification (fst (a2aPost w stored c)) = [].
Proof.
  unfold a2aPost.
  destruct (parseJsonRpcRequest w stored c) as [body|response]; [|reflexivity].
  destruct (negb (Json.truthy body) || negb (Json.isObjectType body)
            || Json.isArray body); [reflexivity|].
  simpl. destruct (handle w body); reflexivity.
Qed.

(** A body with a member [method] is an object that passes the shape test
    of the middleware. *)
Lemma method_shape (body : JSON) (v : JSON) :
  Json.get "method" body = Some v ->
  negb (Json.truthy body) || negb (Json.isObjectType body)
  || Json.isArray body || negb (Json.has "method" body) = false.
Proof.
  intros Hget. unfold Json.has. rewrite Hget.
  destruct body; try discriminate. reflexivity.
Qed.

(** What the envelope parser does with a text it accepts. *)
Lemma parseBody_accepted (body : JSON) :
  acceptsAsJson (contentType c) = true ->
  JS.isEmpty (JS.trim (text c)) = false ->
  JSON_parse w (text c) = Some body ->
  parseA2AJsonBody w c = ParsedOk body.
Proof.
  intros Hct Hne Hparse. unfold parseA2AJsonBody, parseBody.
  now rewrite Hne, Hct, Hparse.
Qed.

(** Whatever the envelope parser accepts, a free method goes to the route. *)
Lemma free_method_passes (body : JSON) (method : string) :
  parseA2AJsonBody w c = ParsedOk body ->
  Json.get "method" body = Some (JString method) ->
  isPaidMethod method = false ->
  postA2A config w c = a2aPost w (Some body) c.
Proof.
  intros Hparsed Hget Hfree. unfold postA2A, a2aMiddleware.
  rewrite Hparsed, (method_shape body _ Hget), Hget, Hfree.
  now rewrite andb_false_r.
Qed.

Lemma null_body_invalid :
  a2aPost w (Some JNull) c
  = ([], Ok (c_json (RpcError JNull (-32600) "Invalid JSON-RPC Request."))).
Proof. reflexivity. Qed.

End A2AFacts.

(** C1 (as amended): a POST /a2a request whose body text is JSON with a
    string method outside the paid set never reaches the payment
    verification, whatever the bypass flag and the proof; a request that the
    envelope parser accepts (content type absent, application/json, a +json
    subtype or text/plain; a text that is valid JSON) and whose method is
    message/send or message/stream is answered with 402 and the payment
    requirements of the route when the bypass flag is unset and the proof
    does not verify, and the runtime is not called. *)
Theorem a2a_payment_gate (config : A2A.Config) (w : World) (c : A2A.Request)
    (body : JSON) (method : string) :
  JSON_parse w (A2A.text c) = Some body ->
  Json.get "method" body = Some (JString method) ->
  (A2A.isPaidMethod method = false ->
   filter isPaymentVerification (fst (A2A.postA2A config w c)) = [])
  /\ (A2A.isPaidMethod method = true ->
      A2A.acceptsAsJson (A2A.contentType c) = true ->
      JS.isEmpty (JS.trim (A2A.text c)) = false ->
      A2A.bypassPayments config = false ->
      verifyPayment w "POST /a2a" (A2A.paymentHeader c) = false ->
      A2A.postA2A config w c
      = ([PaymentVerification "POST /a2a"],
         Ok {| status := 402;
               body :=
                 A2A.PaymentRequired
                   {| A2A.accepts :=
                        {| A2A.scheme := "exact";
                           A2A.accepts_price := "$0.01";
                           A2A.accepts_network := A2A.network config;
                           A2A.payTo := A2A.walletAddress config |};
                      A2A.resource :=
                        JS.dropTrailingSlash (A2A.agentUrl config) ++ "/a2a";
                      A2A.route_description := "A2A task execution";
                      A2A.mimeType := "application/json" |} |})).
Proof.
  intros Hparse Hget. split.
  - intros Hfree.
    destruct (A2A.parseA2AJsonBody w c) as [parsed|response] eqn:Hparsed.
    + unfold A2A.parseA2AJsonBody, A2A.parseBody in Hparsed.
      destruct (JS.isEmpty (JS.trim (A2A.text c))) eqn:Hblank.
      * injection Hparsed as <-. unfold A2A.postA2A, A2A.a2aMiddleware.
        unfold A2A.parseA2AJsonBody, A2A.parseBody. rewrite Hblank. reflexivity.
      * destruct (negb (A2A.acceptsAsJson (A2A.contentType c))) eqn:Hct;
          [discriminate|].
        rewrite Hparse in Hparsed. injection Hparsed as <-.
        rewrite (free_method_passes config w c body method); auto.
        -- apply a2aPost_no_payment.
        -- unfold A2A.parseA2AJsonBody, A2A.parseBody.
           now rewrite Hblank, Hct, Hparse.
    + unfold A2A.postA2A, A2A.a2aMiddleware. now rewrite Hparsed.
  - intros Hpaid Hct Hne Hbypass Hproof.
    unfold A2A.postA2A, A2A.a2aMiddleware.
    rewrite (parseBody_accepted w c body Hct Hne Hparse).
    rewrite (method_shape body _ Hget), Hget, Hbypass, Hpaid. simpl.
    unfold A2A.paymentMiddleware. simpl. now rewrite Hproof.
Qed.

Lemma a2a_payment_gate_witness :
  filter isPaymentVerification
    (fst (A2A.postA2A Sample.testConfig Sample.world
            (Sample.request (Some "application/json") (Sample.rpcText "tasks/get"))))
  = []
  /\ A2A.postA2A Sample.testConfig Sample.world
       (Sample.request (Some "application/json") (Sample.rpcText "message/send"))
     = ([PaymentVerification "POST /a2a"],
        Ok {| status := 402;
              body :=
                A2A.PaymentRequired
                  {| A2A.accepts :=
                       {| A2A.scheme := "exact";
                          A2A.accepts_price := "$0.01";
                          A2A.accepts_network := "eip155:84532";
                          A2A.payTo := "0xtest" |};
                     A2A.resource := "http://localhost:3000/a2a";
                     A2A.route_description := "A2A task execution";
                     A2A.mimeType := "application/json" |} |}).
Proof.
  split.
  - apply (proj1 (a2a_payment_gate Sample.testConfig Sample.world
                    (Sample.request (Some "application/json")
                                    (Sample.rpcText "tasks/get"))
                    (Sample.rpcBody "tasks/get") "tasks/get"
                    eq_refl eq_refl)).
    reflexivity.
  - apply (proj2 (a2a_payment_gate Sample.testConfig Sample.world
                    (Sample.request (Some "application/json")
                                    (Sample.rpcText "message/send"))
                    (Sample.rpcBody "message/send") "message/send"
                    eq_refl eq_refl)); reflexivity.
Defined.

(** C1, the claim as first stated, fails: a request with the method
    message/send, no proof and no bypass, sent as text/csv, is answered with
    HTTP 200 and the JSON-RPC error -32600, not with 402. *)
Lemma paid_method_under_rejected_content_type :
  JSON_parse Sample.world (Sample.rpcText "message/send")
  = Some (Sample.rpcBody "message/send")
  /\ Json.get "method" (Sample.rpcBody "message/send")
     = Some (JString "message/send")
  /\ A2A.isPaidMethod "message/send" = true
  /\ A2A.bypassPayments Sample.testConfig = false
  /\ verifyPayment Sample.world "POST /a2a" None = false
  /\ A2A.postA2A Sample.testConfig Sample.world
       (Sample.request (Some "text/csv") (Sample.rpcText "message/send"))
     = ([], Ok {| status := 200;
                  body := A2A.RpcError JNull (-32600) "Invalid JSON-RPC Request." |})
  /\ 200 <> 402.
Proof.
  repeat split; try reflexivity. discriminate.
Qed.

(** C6 (as amended): on POST /a2a, a content type that is not empty and is
    neither application/json, a +json subtype nor text/plain is answered with
    the JSON-RPC error -32600 whatever the body; under an accepted content
    type (an absent or empty one included) a body that holds a character
    other than white space and is not valid JSON is answered with -32700; a
    body of white space only is read as an empty body and answered with
    -32600.  The answers are sent with HTTP 200 and without a call to the
    payment verification or to the runtime. *)
Theorem a2a_envelope_errors (config : A2A.Config) (w : World) (c : A2A.Request) :
  (JS.isEmpty (A2A.contentType c) = false ->
   Re.test A2A.reApplicationJson (A2A.contentType c) = false ->
   Re.test A2A.reTextPlain (A2A.contentType c) = false ->
   A2A.postA2A config w c
   = ([], Ok {| status := 200;
                body := A2A.RpcError JNull (-32600) "Invalid JSON-RPC Request." |}))
  /\ (A2A.acceptsAsJson (A2A.contentType c) = true ->
      JS.isEmpty (JS.trim (A2A.text c)) = false ->
      JSON_parse w (A2A.text c) = None ->
      A2A.postA2A config w c
      = ([], Ok {| status := 200;
                   body := A2A.RpcError JNull (-32700) "Parse error" |}))
  /\ (JS.isEmpty (JS.trim (A2A.text c)) = true ->
      A2A.postA2A config w c
      = ([], Ok {| status := 200;
                   body := A2A.RpcError JNull (-32600) "Invalid JSON-RPC Request." |})).
Proof.
  unfold A2A.postA2A, A2A.a2aMiddleware, A2A.parseA2AJsonBody, A2A.parseBody.
  split; [|split].
  - intros Hpresent Hjson Hplain.
    destruct (JS.isEmpty (JS.trim (A2A.text c))); [reflexivity|].
    unfold A2A.acceptsAsJson. now rewrite Hpresent, Hjson, Hplain.
  - intros Hct Hne Hbad. now rewrite Hne, Hct, Hbad.
  - intros Hblank. now rewrite Hblank.
Qed.

Lemma a2a_envelope_errors_witness :
  A2A.postA2A Sample.testConfig Sample.world
    (Sample.request (Some "text/csv") (Sample.rpcText "tasks/get"))
  = ([], Ok {| status := 200;
               body := A2A.RpcError JNull (-32600) "Invalid JSON-RPC Request." |})
  /\ A2A.postA2A Sample.testConfig Sample.world
       (Sample.request (Some "application/json") "{method: tasks/get")
     = ([], Ok {| status := 200;
                  body := A2A.RpcError JNull (-32700) "Parse error" |})
  /\ A2A.postA2A Sample.testConfig Sample.world
       (Sample.request (Some "application/json") "  ")
     = ([], Ok {| status := 200;
                  body := A2A.RpcError JNull (-32600) "Invalid JSON-RPC Request." |}).
Proof.
  split; [|split].
  - apply (proj1 (a2a_envelope_errors Sample.testConfig Sample.world
                    (Sample.request (Some "text/csv") (Sample.rpcText "tasks/get"))));
      reflexivity.
  - apply (proj1 (proj2 (a2a_envelope_errors Sample.testConfig Sample.world
                           (Sample.request (Some "application/json")
                                           "{method: tasks/get"))));
      reflexivity.
  - apply (proj2 (proj2 (a2a_envelope_errors Sample.testConfig Sample.world
                           (Sample.request (Some "application/json") "  "))));
      reflexivity.
Defined.

(** C6, the claim as first stated, fails twice: a body of one space under
    application/json is not empty and is not valid JSON, yet the answer is
    -32600; and without a Content-Type header the content type is none of the
    three named ones, yet an invalid body is answered with -32700. *)
Lemma blank_body_and_absent_content_type :
  (String.length " " = 1%nat
   /\ A2A.acceptsAsJson "application/json" = true
   /\ JSON_parse Sample.world " " = None
   /\ A2A.postA2A Sample.testConfig Sample.world
        (Sample.request (Some "application/json") " ")
      = ([], Ok {| status := 200;
                   body := A2A.RpcError JNull (-32600) "Invalid JSON-RPC Request." |})
   /\ -32600 <> -32700)
  /\ (Re.test A2A.reApplicationJson (A2A.contentType (Sample.request None "{")) = false
      /\ Re.test A2A.reTextPlain (A2A.contentType (Sample.request None "{")) = false
      /\ A2A.postA2A Sample.testConfig Sample.world (Sample.request None "{")
         = ([], Ok {| status := 200;
                      body := A2A.RpcError JNull (-32700) "Parse error" |})).
Proof.
  repeat split; try reflexivity; discriminate.
Qed.

(* ================================================================= *)
(** ** Agent ids *)

Section AgentIdFacts.

Import Api.

Variable w : World.
Variable s : string.
Hypothesis Hbad : Re.test reAgentId s = false.

Lemma agentIdSchema_rejects : agentIdSchema (Some (JString s)) = None.
Proof. unfold agentIdSchema. now rewrite Hbad. Qed.

Lemma profileInputSchema_rejects (input : JSON) :
  Json.get "agentId" input = Some (JString s) ->
  exists fieldErrors,
    profileInputSchema (Some input)
    = Invalid (Flattened [] (("agentId", [agentIdMessage]) :: fieldErrors)).
Proof.
  intros Hget. destruct input; try discriminate.
  unfold profileInputSchema. rewrite Hget, agentIdSchema_rejects.
  unfold agentIdIssues. rewrite Hbad. eexists. reflexivity.
Qed.

Lemma validateInputSchema_rejects (input : JSON) :
  Json.get "agentId" input = Some (JString s) ->
  exists fieldErrors,
    validateInputSchema (Some input)
    = Invalid (Flattened [] (("agentId", [agentIdMessage]) :: fieldErrors)).
Proof.
  intros Hget. destruct input; try discriminate.
  unfold validateInputSchema. rewrite Hget, agentIdSchema_rejects.
  unfold agentIdIssues. rewrite Hbad. eexists. reflexivity.
Qed.

End AgentIdFacts.

(** C7: an agent id that does not match [^\d+$] is refused with HTTP 400
    and the flattened validation errors, before any collaborator is called
    (the trace is empty, so no registry is read): by GET /agent/:id/profile
    for the path parameter, and by the profile, score and validate invoke
    routes for the member [agentId] of the input, whose field error is the
    message that the pattern of the schema was given. *)
Theorem invalid_agentId_rejected (w : World) (s : string) :
  Re.test Api.reAgentId s = false ->
  (forall chainQuery,
      Api.getProfile w s chainQuery
      = ([], Ok {| status := 400;
                   body := Api.ErrorBody "Invalid agentId"
                             (Some (Api.Flattened [Api.agentIdMessage] [])) |}))
  /\ (forall raw input,
         Api.invokeEnvelopeSchema (Api.requestJson w raw) = Api.Parsed (Some input) ->
         Json.get "agentId" input = Some (JString s) ->
         forall route,
           In route [Api.postProfileInvoke; Api.postScoreInvoke;
                     Api.postValidateInvoke] ->
           exists fieldErrors,
             route w raw
             = ([], Ok {| status := 400;
                          body := Api.ErrorBody "Invalid input"
                                    (Some (Api.Flattened []
                                             (("agentId", [Api.agentIdMessage])
                                              :: fieldErrors))) |})).
Proof.
  intros Hbad. split.
  - intros chainQuery. unfold Api.getProfile, Api.parseAgentIdParam.
    now rewrite Hbad.
  - intros raw input Henvelope Hget route Hroute.
    destruct (profileInputSchema_rejects s Hbad input Hget) as [fe Hfe].
    destruct (validateInputSchema_rejects s Hbad input Hget) as [fe' Hfe'].
    simpl in Hroute.
    destruct Hroute as [<-|[<-|[<-|[]]]].
    + exists fe. unfold Api.postProfileInvoke. now rewrite Henvelope, Hfe.
    + exists fe. unfold Api.postScoreInvoke, Api.scoreInputSchema.
      now rewrite Henvelope, Hfe.
    + exists fe'. unfold Api.postValidateInvoke. now rewrite Henvelope, Hfe'.
Qed.

Lemma invalid_agentId_rejected_witness :
  Api.getProfile Sample.world "12a" None
  = ([], Ok {| status := 400;
               body := Api.ErrorBody "Invalid agentId"
                         (Some (Api.Flattened [Api.agentIdMessage] [])) |})
  /\ exists fieldErrors,
       Api.postScoreInvoke Sample.world (Sample.invokeText "-7")
       = ([], Ok {| status := 400;
                    body := Api.ErrorBody "Invalid input"
                              (Some (Api.Flattened []
                                       (("agentId", [Api.agentIdMessage])
                                        :: fieldErrors))) |}).
Proof.
  split.
  - apply (proj1 (invalid_agentId_rejected Sample.world "12a" eq_refl)).
  - apply (proj2 (invalid_agentId_rejected Sample.world "-7" eq_refl)
             (Sample.invokeText "-7") (JObject [("agentId", JString "-7")])
             eq_refl eq_refl).
    simpl. auto.
Defined.

(** With a well-formed id the same routes do read the registry. *)
Example valid_agentId_reads_registry :
  In (GetTokenURI "base" 1) (fst (Api.getProfile Sample.world "1" None))
  /\ In (GetTokenURI "base" 1)
        (fst (Api.postScoreInvoke Sample.world (Sample.invokeText "1"))).
Proof.
  split.
  - vm_compute. auto.
  - simpl. auto.
Qed.

(* ================================================================= *)
(** ** Resolution of the registration file *)

Section ResolverFacts.

Import Api Attempt.

Variable w : World.

Lemma test_Void (s : string) : Re.test Re.Void s = false.
Proof. induction s; simpl; auto. Qed.

(** A text that starts with the letter i is no inline document. *)
Lemma reDataUri_not_i (s : string) : Re.test reDataUri (String "i" s) = false.
Proof.
  change (Re.test (Re.deriv "i" reDataUri) s = false).
  replace (Re.deriv "i" reDataUri) with Re.Void by (vm_compute; reflexivity).
  apply test_Void.
Qed.

(** An inline document starts with the letter d, so it is no IPFS pointer. *)
Lemma reDataUri_not_ipfs (uri : string) :
  Re.test reDataUri uri = true -> JS.startsWith "ipfs://" uri = false.
Proof.
  destruct uri as [|a s]; [reflexivity|]. intros Hdata.
  unfold JS.startsWith.
  change (String.prefix "ipfs://" (String a s))
    with (if ascii_dec "i" a then String.prefix "pfs://" s else false).
  destruct (ascii_dec "i" a) as [<-|Hne]; [|reflexivity].
  now rewrite reDataUri_not_i in Hdata.
Qed.

Lemma tryCandidates_all_fail (urls : list string) (initial : Z) :
  forallb (fails w) urls = true ->
  tryCandidates w urls initial
  = (map Fetch urls,
     Throw (RegistrationFileError
              ("Failed to fetch registration file: "
               ++ JS.showZ (lastRecorded w urls initial))
              (lastRecorded w urls initial))).
Proof.
  revert initial. induction urls as [|u rest IH]; intros initial Hall.
  - reflexivity.
  - simpl in Hall. apply andb_prop in Hall as [Hu Hrest].
    unfold fails, succeeds in Hu.
    cbn [tryCandidates]. unfold call, bind.
    unfold lastRecorded. cbn [fold_left]. fold (lastRecorded w rest (recorded w u)).
    unfold recorded.
    destruct (fetch w u) as [r|].
    + apply negb_true_iff in Hu. rewrite Hu.
      destruct (resp_status r =? 404); rewrite (IH _ Hrest); reflexivity.
    + rewrite (IH _ Hrest). reflexivity.
Qed.

Lemma tryCandidates_first_success (pre post : list string) (u : string)
    (r : FetchResponse) (initial : Z) :
  forallb (fails w) pre = true ->
  fetch w u = Some r ->
  resp_ok r = true ->
  tryCandidates w (pre ++ u :: post) initial
  = (map Fetch (pre ++ [u]),
     match JSON_parse w (resp_body r) with
     | Some doc => Ok doc
     | None => Throw syntaxError
     end).
Proof.
  revert initial. induction pre as [|p pre IH]; intros initial Hpre Hu Hok.
  - cbn [app tryCandidates]. unfold call, bind. rewrite Hu, Hok.
    unfold response_json. destruct (JSON_parse w (resp_body r)); reflexivity.
  - simpl in Hpre. apply andb_prop in Hpre as [Hp Hpre].
    unfold fails, succeeds in Hp.
    cbn [app tryCandidates]. unfold call, bind.
    destruct (fetch w p) as [rp|].
    + apply negb_true_iff in Hp. rewrite Hp.
      destruct (resp_status rp =? 404); rewrite (IH _ Hpre Hu Hok); reflexivity.
    + rewrite (IH _ Hpre Hu Hok). reflexivity.
Qed.

(** The loop walks down its list: what it fetched is a prefix of it. *)
Lemma tryCandidates_trace (urls : list string) (initial : Z) :
  exists n, fst (tryCandidates w urls initial) = map Fetch (firstn n urls).
Proof.
  revert initial. induction urls as [|u rest IH]; intros initial.
  - exists 0%nat. reflexivity.
  - cbn [tryCandidates]. unfold call, bind.
    destruct (fetch w u) as [r|].
    + destruct (resp_ok r).
      * exists 1%nat. unfold response_json.
        destruct (JSON_parse w (resp_body r)); reflexivity.
      * destruct (IH (resp_status r)) as [n Hn]. exists (S n).
        destruct (resp_status r =? 404);
          destruct (tryCandidates w rest (resp_status r)); simpl in *;
          now rewrite Hn.
    + destruct (IH 502) as [n Hn]. exists (S n).
      destruct (tryCandidates w rest 502); simpl in *. now rewrite Hn.
Qed.

Lemma ipfsGateways_NoDup (cid : string) : NoDup (ipfsGateways cid).
Proof.
  unfold ipfsGateways.
  repeat constructor; simpl; intros H;
    repeat match goal with
           | H : _ \/ _ |- _ => destruct H
           | H : False |- _ => destruct H
           | H : String _ _ = String _ _ |- _ => discriminate H
           end.
Qed.

Lemma Fetch_NoDup (urls : list string) : NoDup urls -> NoDup (map Fetch urls).
Proof.
  induction 1 as [|u urls Hnotin Hnd IH]; simpl; constructor; auto.
  intros Hin. apply in_map_iff in Hin as [x [Hx Hin]].
  injection Hx as ->. contradiction.
Qed.

Lemma firstn_NoDup {A} (n : nat) (l : list A) : NoDup l -> NoDup (firstn n l).
Proof.
  intros Hnd. rewrite <- (firstn_skipn n l) in Hnd.
  now apply NoDup_app_remove_r in Hnd.
Qed.

Lemma candidates_ipfs (cid : string) :
  candidates ("ipfs://" ++ cid) = ipfsGateways cid.
Proof.
  unfold candidates, JS.removePrefix.
  replace (JS.startsWith "ipfs://" ("ipfs://" ++ cid)) with true
    by (destruct cid; reflexivity).
  reflexivity.
Qed.

Lemma parseDataUri_ipfs (cid : string) : parseDataUri w ("ipfs://" ++ cid) = JNull.
Proof.
  unfold parseDataUri.
  change ("ipfs://" ++ cid) with (String "i" ("pfs://" ++ cid)).
  now rewrite reDataUri_not_i.
Qed.

Lemma resolveTokenUri_ipfs (cid : string) :
  resolveTokenUri w ("ipfs://" ++ cid) = tryCandidates w (ipfsGateways cid) 500.
Proof.
  unfold resolveTokenUri. now rewrite parseDataUri_ipfs, candidates_ipfs.
Qed.

Lemma fetchRegistrationFile_unfold (chain : string) (agentId : Z) (uri : string) :
  getTokenURI w chain agentId = Ok uri ->
  fetchRegistrationFile w chain agentId
  = (GetTokenURI chain agentId :: fst (resolveTokenUri w uri),
     snd (resolveTokenUri w uri)).
Proof.
  intros Huri. unfold fetchRegistrationFile, call, bind. rewrite Huri.
  destruct (resolveTokenUri w uri). reflexivity.
Qed.

End ResolverFacts.

(** C3: for an [ipfs://] token URI the candidates are three gateway URLs,
    pairwise different, that end with the same content identifier; they are
    fetched in that order and none twice.  With the candidates before it
    failed (no response, 404 or any other status outside 200..299), the
    first candidate that answers with success ends the loop: its parsed
    document is the result and no later candidate is fetched.  When all
    three fail the operation throws the status recorded for the last one
    (502 for a missing response, the response status otherwise), and the
    routes answer 404 when that status is 404 and 500 otherwise. *)
Theorem ipfs_resolution (w : World) (chain : string) (agentId : Z) (cid : string) :
  getTokenURI w chain agentId = Ok ("ipfs://" ++ cid) ->
  Api.candidates ("ipfs://" ++ cid)
  = ["https://ipfs.io/ipfs/" ++ cid;
     "https://cloudflare-ipfs.com/ipfs/" ++ cid;
     "https://dweb.link/ipfs/" ++ cid]
  /\ NoDup (Api.candidates ("ipfs://" ++ cid))
  /\ NoDup (fst (Api.fetchRegistrationFile w chain agentId))
  /\ (forall pre u post r doc,
         Api.candidates ("ipfs://" ++ cid) = (pre ++ u :: post)%list ->
         forallb (Attempt.fails w) pre = true ->
         fetch w u = Some r ->
         resp_ok r = true ->
         JSON_parse w (resp_body r) = Some doc ->
         Api.fetchRegistrationFile w chain agentId
         = (GetTokenURI chain agentId :: map Fetch (pre ++ [u]), Ok doc))
  /\ (forallb (Attempt.fails w) (Api.candidates ("ipfs://" ++ cid)) = true ->
      exists message,
        Api.fetchRegistrationFile w chain agentId
        = (GetTokenURI chain agentId
             :: map Fetch (Api.candidates ("ipfs://" ++ cid)),
           Throw (RegistrationFileError message
                    (Attempt.recorded w ("https://dweb.link/ipfs/" ++ cid))))
        /\ forall errorMessage,
             status (Api.endpointError errorMessage
                       (RegistrationFileError message
                          (Attempt.recorded w ("https://dweb.link/ipfs/" ++ cid))))
             = if Attempt.recorded w ("https://dweb.link/ipfs/" ++ cid) =? 404
               then 404 else 500).
Proof.
  intros Huri.
  rewrite (fetchRegistrationFile_unfold w chain agentId _ Huri).
  rewrite resolveTokenUri_ipfs, (candidates_ipfs cid).
  split; [reflexivity|].
  split; [apply ipfsGateways_NoDup|].
  split.
  - cbn [fst]. constructor.
    + destruct (tryCandidates_trace w (Api.ipfsGateways cid) 500) as [n ->].
      intros Hin. apply in_map_iff in Hin as [x [Hx _]]. discriminate.
    + destruct (tryCandidates_trace w (Api.ipfsGateways cid) 500) as [n ->].
      apply Fetch_NoDup, firstn_NoDup, ipfsGateways_NoDup.
  - split.
    + intros pre u post r doc Hsplit Hpre Hu Hok Hdoc. rewrite Hsplit.
      rewrite (tryCandidates_first_success w pre post u r 500 Hpre Hu Hok).
      now rewrite Hdoc.
    + intros Hall. eexists. split.
      * rewrite (tryCandidates_all_fail w _ 500 Hall). reflexivity.
      * intros errorMessage. unfold Attempt.lastRecorded. cbn [fold_left Api.ipfsGateways].
        unfold Api.endpointError.
        destruct (Attempt.recorded w ("https://dweb.link/ipfs/" ++ cid) =? 404);
          reflexivity.
Qed.

Lemma ipfs_resolution_witness :
  Api.fetchRegistrationFile Sample.world "base" 1
  = ([GetTokenURI "base" 1; Fetch "https://ipfs.io/ipfs/QmSample";
      Fetch "https://cloudflare-ipfs.com/ipfs/QmSample"],
     Ok Sample.document)
  /\ exists message,
       Api.fetchRegistrationFile (withFetch Sample.offline Sample.world) "base" 1
       = ([GetTokenURI "base" 1; Fetch "https://ipfs.io/ipfs/QmSample";
           Fetch "https://cloudflare-ipfs.com/ipfs/QmSample";
           Fetch "https://dweb.link/ipfs/QmSample"],
          Throw (RegistrationFileError message 502))
       /\ forall errorMessage,
            status (Api.endpointError errorMessage (RegistrationFileError message 502))
            = 500.
Proof.
  split.
  - apply (proj1 (proj2 (proj2 (proj2
             (ipfs_resolution Sample.world "base" 1 "QmSample" eq_refl))))
             ["https://ipfs.io/ipfs/QmSample"]
             "https://cloudflare-ipfs.com/ipfs/QmSample"
             ["https://dweb.link/ipfs/QmSample"]
             {| resp_status := 200; resp_body := Sample.documentText |}
             Sample.document);
      reflexivity.
  - apply (proj2 (proj2 (proj2 (proj2
             (ipfs_resolution (withFetch Sample.offline Sample.world)
                "base" 1 "QmSample" eq_refl))))).
    reflexivity.
Defined.

(** How an inline document is resolved.  For a token URI of the form
    [data:application/json;base64,...], a payload that decodes and parses to
    a truthy JSON value is returned without any call (the trace is empty).
    When decoding and parsing fail, or give a falsy value such as [null],
    [parseDataUri] answers [null] as it does for a URI that is not inline,
    and the token URI itself becomes the only candidate of the fetch loop:
    it is fetched once. *)
Lemma inline_document_resolution (w : World) (uri : string) :
  Re.test Api.reDataUri uri = true ->
  (forall doc,
      JSON_parse w (base64_utf8 w (JS.slice 29 uri)) = Some doc ->
      Json.truthy doc = true ->
      Api.resolveTokenUri w uri = ([], Ok doc))
  /\ ((forall doc,
          JSON_parse w (base64_utf8 w (JS.slice 29 uri)) = Some doc ->
          Json.truthy doc = false) ->
      Api.resolveTokenUri w uri = Api.tryCandidates w [uri] 500
      /\ fst (Api.resolveTokenUri w uri) = [Fetch uri]).
Proof.
  intros Hdata. split.
  - intros doc Hdoc Htruthy. unfold Api.resolveTokenUri, Api.parseDataUri.
    now rewrite Hdata, Hdoc, Htruthy.
  - intros Hfalsy.
    assert (Api.resolveTokenUri w uri = Api.tryCandidates w [uri] 500) as Hloop.
    { unfold Api.resolveTokenUri, Api.parseDataUri, Api.candidates.
      rewrite Hdata, (reDataUri_not_ipfs uri Hdata).
      destruct (JSON_parse w (base64_utf8 w (JS.slice 29 uri))) as [doc|] eqn:Hdoc.
      - now rewrite (Hfalsy doc eq_refl).
      - reflexivity. }
    split; [exact Hloop|].
    rewrite Hloop. cbn [Api.tryCandidates]. unfold call, bind.
    destruct (fetch w uri) as [r|] eqn:Hfetch.
    + destruct (resp_ok r) eqn:Hok.
      * unfold Api.response_json.
        destruct (JSON_parse w (resp_body r)); reflexivity.
      * destruct (resp_status r =? 404); reflexivity.
    + reflexivity.
Qed.

Example inline_document_resolution_sample :
  Api.resolveTokenUri Sample.world "data:application/json;base64,eyJuYW1lIjoiQSJ9"
  = ([], Ok (JObject [("name", JString "A")]))
  /\ fst (Api.resolveTokenUri (withFetch Sample.offline Sample.world)
            "data:application/json;base64,bm90IGpzb24=")
     = [Fetch "data:application/json;base64,bm90IGpzb24="].
Proof.
  split.
  - apply (proj1 (inline_document_resolution Sample.world
                    "data:application/json;base64,eyJuYW1lIjoiQSJ9" eq_refl)
             (JObject [("name", JString "A")])); reflexivity.
  - apply (proj2 (inline_document_resolution
                    (withFetch Sample.offline Sample.world)
                    "data:application/json;base64,bm90IGpzb24=" eq_refl)).
    intros doc H. vm_compute in H. discriminate.
Qed.

(** C4, where the code departs from the claim: the token URI of agent 3 is
    an inline base64 URI whose payload is the text [not json].  The payload
    does not parse; [parseDataUri] answers [null], which the caller cannot
    tell from its answer for a URI that is not inline, and so the URI goes
    on to the branch for IPFS and HTTPS: it is fetched, and the profile
    route answers 500, on the sample network (which serves the payload, and
    the body does not parse) as well as on a network without any answer;
    no answer is 404. *)
Theorem undecodable_inline_document_is_fetched :
  Re.test Api.reDataUri "data:application/json;base64,bm90IGpzb24=" = true
  /\ JSON_parse Sample.world
       (base64_utf8 Sample.world (JS.slice 29 "data:application/json;base64,bm90IGpzb24="))
     = None
  /\ Api.parseDataUri Sample.world "data:application/json;base64,bm90IGpzb24="
     = JNull
  /\ Api.parseDataUri Sample.world "https://agent.example/registration.json"
     = JNull
  /\ (exists details,
        Api.getProfile Sample.world "3" None
        = ([GetTokenURI "base" 3; Fetch "data:application/json;base64,bm90IGpzb24="],
           Ok {| status := 500;
                 body := Api.ErrorBody "Failed to fetch agent profile" details |}))
  /\ (exists details,
        Api.getProfile (withFetch Sample.offline Sample.world) "3" None
        = ([GetTokenURI "base" 3; Fetch "data:application/json;base64,bm90IGpzb24="],
           Ok {| status := 500;
                 body := Api.ErrorBody "Failed to fetch agent profile" details |}))
  /\ 500 <> 404.
Proof.
  split; [reflexivity|]. split; [reflexivity|]. split; [reflexivity|].
  split; [reflexivity|].
  split; [eexists; vm_compute; reflexivity|].
  split; [eexists; vm_compute; reflexivity|].
  discriminate.
Qed.

(* ================================================================= *)
(** ** The validation report *)

Section MonadFacts.

Context {A B : Type}.

Lemma bind_Ok_inv (m : M A) (k : A -> M B) (t : list Event) (b : B) :
  bind m k = (t, Ok b) ->
  exists t1 a t2, m = (t1, Ok a) /\ k a = (t2, Ok b) /\ t = (t1 ++ t2)%list.
Proof.
  unfold bind. destruct m as [t1 [a|e]]; [|discriminate].
  destruct (k a) as [t2 r] eqn:Hk. intros [= <- ->].
  now exists t1, a, t2.
Qed.

Lemma bind_Ok (m : M A) (k : A -> M B) (t1 : list Event) (a : A) :
  m = (t1, Ok a) -> bind m k = ((t1 ++ fst (k a))%list, snd (k a)).
Proof.
  intros ->. unfold bind. now destruct (k a).
Qed.

End MonadFacts.

Section ReportFacts.

Import Api ValidationPipeline.

Variable w : World.

(** Counting the reachable entries against the total is asking whether all
    of them are reachable; a positive count is asking whether one is. *)
Lemma count_all {X} (p : X -> bool) (l : list X) :
  (List.length (filter p l) =? List.length l)%nat = forallb p l.
Proof.
  induction l as [|x l IH]; [reflexivity|]. simpl.
  destruct (p x); simpl.
  - exact IH.
  - apply Nat.eqb_neq. pose proof (filter_length_le p l). lia.
Qed.

Lemma count_any {X} (p : X -> bool) (l : list X) :
  (0 <? List.length (filter p l))%nat = existsb p l.
Proof.
  induction l as [|x l IH]; [reflexivity|]. simpl.
  destruct (p x); simpl; auto.
Qed.

Lemma determineVerdict_table (r : ValidationReport) :
  determineVerdict r = setOverallVerdict (verdict r) r.
Proof.
  unfold determineVerdict, verdict, noIssues, allEndpointsReachable,
    anyEndpointReachable, walletValid.
  fold reachable. rewrite count_all, count_any.
  destruct (issues r); simpl; [reflexivity|].
  destruct (forallb reachable (endpointStatus r) && ws_valid (walletStatus r));
    [reflexivity|].
  destruct (existsb reachable (endpointStatus r) || ws_valid (walletStatus r));
    reflexivity.
Qed.

Lemma verdict_setOverallVerdict (v : string) (r : ValidationReport) :
  verdict (setOverallVerdict v r) = verdict r.
Proof. reflexivity. Qed.

Lemma verdict_values (r : ValidationReport) :
  In (verdict r) ["validated"; "validated-with-warnings"; "partial"; "failed"].
Proof.
  unfold verdict.
  destruct (noIssues r); [simpl; auto|].
  destruct (allEndpointsReachable r && walletValid r); [simpl; auto|].
  destruct (anyEndpointReachable r || walletValid r); simpl; auto.
Qed.

(** *** What each check touches *)

Lemma probeEndpoint_effect (ep : EndpointDecl) (r : ValidationReport) :
  exists r',
    probeEndpoint w ep r = ([Probe (ep_endpoint ep)], Ok r')
    /\ walletStatus r' = walletStatus r
    /\ attestations r' = attestations r.
Proof.
  unfold probeEndpoint, call, bind.
  destruct (probe w (ep_endpoint ep)) as [response latencyMs| |error].
  - destruct (resp_ok response); eexists; repeat split.
  - eexists; repeat split.
  - eexists; repeat split.
Qed.

Lemma probeEndpoints_effect (eps : list EndpointDecl) (r : ValidationReport) :
  exists t r',
    probeEndpoints w eps r = (t, Ok r')
    /\ Forall (fun e => isProbe e = true) t
    /\ walletStatus r' = walletStatus r
    /\ attestations r' = attestations r.
Proof.
  revert r. induction eps as [|ep eps IH]; intros r.
  - exists [], r. repeat split. constructor.
  - destruct (probeEndpoint_effect ep r) as [r1 [Hstep [Hw1 Ha1]]].
    destruct (IH r1) as [t [r' [Hrest [Ht [Hw Ha]]]]].
    exists (Probe (ep_endpoint ep) :: t), r'.
    cbn [probeEndpoints]. rewrite (bind_Ok _ _ _ _ Hstep), Hrest.
    repeat split; try congruence. now constructor.
Qed.

Lemma checkEndpoints_skipped (checks : list Check) (doc : JSON)
    (r : ValidationReport) :
  includes Endpoints checks = false -> checkEndpoints w checks doc r = ([], Ok r).
Proof. intros H. unfold checkEndpoints. now rewrite H. Qed.

Lemma checkEndpoints_effect (checks : list Check) (doc : JSON)
    (r r' : ValidationReport) (t : list Event) :
  checkEndpoints w checks doc r = (t, Ok r') ->
  Forall (fun e => isProbe e = true) t
  /\ walletStatus r' = walletStatus r
  /\ attestations r' = attestations r.
Proof.
  unfold checkEndpoints. destruct (includes Endpoints checks).
  - unfold fileOf. destruct doc; try discriminate;
      unfold bind, ret;
      match goal with
      | |- context [rf_endpoints ?f] => destruct (rf_endpoints f) as [eps|]
      end;
      try (intros [= <- <-]; repeat split; constructor);
      destruct (probeEndpoints_effect eps r) as [t1 [r1 [-> [Ht [Hw Ha]]]]];
      intros [= <- <-]; auto.
  - intros [= <- <-]. repeat split. constructor.
Qed.

Lemma checkWallet_skipped (checks : list Check) (chain : string) (agentId : Z)
    (owner : string) (r : ValidationReport) :
  includes Wallet checks = false ->
  checkWallet w checks chain agentId owner r = ([], Ok r).
Proof. intros H. unfold checkWallet. now rewrite H. Qed.

Lemma checkWallet_effect (checks : list Check) (chain : string) (agentId : Z)
    (owner : string) (r : ValidationReport) :
  exists t r',
    checkWallet w checks chain agentId owner r = (t, Ok r')
    /\ Forall (fun e => isGetMetadata e = true) t
    /\ endpointStatus r' = endpointStatus r
    /\ attestations r' = attestations r.
Proof.
  unfold checkWallet. destruct (includes Wallet checks).
  - unfold call, bind, catch, ret.
    destruct (getMetadata w chain agentId "agentWallet") as [walletMeta|e]; simpl.
    + destruct (negb (Re.test reAddress
                        (if negb (JS.isEmpty walletMeta) then walletMeta else owner)));
        do 2 eexists; repeat split; repeat constructor.
    + destruct (negb (Re.test reAddress owner));
        do 2 eexists; repeat split; repeat constructor.
  - exists [], r. repeat split. constructor.
Qed.

(** A wallet check that ran never leaves the blank wallet status: an empty
    address can only be the owner's, and then the wallet is the owner's. *)
Lemma checkWallet_requested (checks : list Check) (chain : string)
    (agentId : Z) (owner : string) (r r' : ValidationReport) (t : list Event) :
  includes Wallet checks = true ->
  checkWallet w checks chain agentId owner r = (t, Ok r') ->
  walletStatus r' <> walletStatus initialReport.
Proof.
  intros Hasked. unfold checkWallet. rewrite Hasked.
  unfold call, bind, catch, ret.
  assert (forall wallet : string,
             (wallet = EmptyString -> owner = EmptyString) ->
             {| ws_address := wallet;
                ws_valid := Re.test reAddress wallet;
                ws_isOwner := String.eqb (JS.toLowerCase wallet)
                                         (JS.toLowerCase owner) |}
             <> walletStatus initialReport) as Hblank.
  { intros wallet Hown [= Haddress _ HisOwner].
    rewrite Haddress, (Hown Haddress) in HisOwner. discriminate. }
  destruct (getMetadata w chain agentId "agentWallet") as [walletMeta|e]; simpl.
  - destruct (negb (Re.test reAddress
                      (if negb (JS.isEmpty walletMeta) then walletMeta else owner)));
      intros [= <- <-]; apply Hblank;
      destruct walletMeta; simpl; auto; discriminate.
  - destruct (negb (Re.test reAddress owner));
      intros [= <- <-]; apply Hblank; auto.
Qed.

Lemma readFeedbackSafe_total (chain : string) (agentId : Z) :
  exists feedback,
    readFeedbackSafe w chain agentId
    = ([ReadAllFeedback chain agentId], Ok feedback).
Proof.
  unfold readFeedbackSafe, call, bind, catch, ret.
  destruct (readAllFeedback w chain agentId); eexists; reflexivity.
Qed.

Lemma attest_effect (chain : string) (agentId : Z) (trustType : string)
    (r : ValidationReport) :
  exists t r',
    attest w chain agentId trustType r = (t, Ok r')
    /\ Forall (fun e => isReadAllFeedback e = true) t
    /\ endpointStatus r' = endpointStatus r
    /\ walletStatus r' = walletStatus r
    /\ issues r' = issues r.
Proof.
  unfold attest.
  destruct (String.eqb trustType "reputation").
  - destruct (readFeedbackSafe_total chain agentId) as [feedback Hread].
    rewrite (bind_Ok _ _ _ _ Hread). simpl.
    do 2 eexists. repeat split. repeat constructor.
  - destruct (String.eqb trustType "tee-attestation");
      [|destruct (String.eqb trustType "crypto-economic")];
      do 2 eexists; repeat split; constructor.
Qed.

Lemma attestAll_effect (chain : string) (agentId : Z) (trust : list string)
    (r : ValidationReport) :
  exists t r',
    attestAll w chain agentId trust r = (t, Ok r')
    /\ Forall (fun e => isReadAllFeedback e = true) t
    /\ endpointStatus r' = endpointStatus r
    /\ walletStatus r' = walletStatus r
    /\ issues r' = issues r.
Proof.
  revert r. induction trust as [|trustType trust IH]; intros r.
  - exists [], r. repeat split. constructor.
  - destruct (attest_effect chain agentId trustType r)
      as [t1 [r1 [Hstep [Ht1 [He1 [Hw1 Hi1]]]]]].
    destruct (IH r1) as [t2 [r' [Hrest [Ht2 [He [Hw Hi]]]]]].
    exists (t1 ++ t2)%list, r'.
    cbn [attestAll]. rewrite (bind_Ok _ _ _ _ Hstep), Hrest.
    repeat split; try congruence. now apply Forall_app.
Qed.

Lemma checkAttestations_skipped (checks : list Check) (chain : string)
    (agentId : Z) (doc : JSON) (r : ValidationReport) :
  includes Attestations checks = false ->
  checkAttestations w checks chain agentId doc r = ([], Ok r).
Proof. intros H. unfold checkAttestations. now rewrite H. Qed.

Lemma checkAttestations_effect (checks : list Check) (chain : string)
    (agentId : Z) (doc : JSON) (r r' : ValidationReport) (t : list Event) :
  checkAttestations w checks chain agentId doc r = (t, Ok r') ->
  Forall (fun e => isReadAllFeedback e = true) t
  /\ endpointStatus r' = endpointStatus r
  /\ walletStatus r' = walletStatus r
  /\ issues r' = issues r.
Proof.
  unfold checkAttestations. destruct (includes Attestations checks).
  - unfold fileOf. destruct doc; try discriminate;
      unfold bind, ret;
      match goal with
      | |- context [rf_supportedTrust ?f] =>
          destruct (rf_supportedTrust f) as [trust|]
      end;
      try (intros [= <- <-]; repeat split; constructor);
      destruct (attestAll_effect chain agentId trust r)
        as [t1 [r1 [-> [Ht [He [Hw Hi]]]]]];
      intros [= <- <-]; auto.
  - intros [= <- <-]. repeat split. constructor.
Qed.

(** Events of one kind are not events of another. *)
Lemma kinds_apart (p q : Event -> bool) (t : list Event) :
  (forall e, p e = true -> q e = false) ->
  Forall (fun e => p e = true) t -> Forall (fun e => q e = false) t.
Proof.
  intros Hpq Hp. eapply Forall_impl; [|exact Hp]. auto.
Qed.

(** The checks that were not asked for leave their place in the report as
    it was first set up, and call nobody. *)
Lemma runChecks_unrequested (checks : list Check) (chain : string)
    (agentId : Z) (doc : JSON) (owner : string) (t : list Event)
    (report : ValidationReport) :
  runChecks w checks chain agentId doc owner = (t, Ok report) ->
  (includes Endpoints checks = false ->
   endpointStatus report = []
   /\ Forall (fun e => isProbe e = false) t)
  /\ (includes Wallet checks = false ->
      walletStatus report = walletStatus initialReport
      /\ Forall (fun e => isGetMetadata e = false) t)
  /\ (includes Attestations checks = false ->
      attestations report = []
      /\ Forall (fun e => isReadAllFeedback e = false) t).
Proof.
  unfold runChecks. intros Hrun.
  apply bind_Ok_inv in Hrun as [t1 [r1 [t' [H1 [Hrun ->]]]]].
  apply bind_Ok_inv in Hrun as [t2 [r2 [t3 [H2 [H3 ->]]]]].
  destruct (checkWallet_effect checks chain agentId owner r1)
    as [t2' [r2' [H2' [Hk2 [He2 Ha2]]]]].
  rewrite H2 in H2'. injection H2' as <- <-.
  pose proof (checkEndpoints_effect _ _ _ _ _ H1) as [Hk1 [Hw1 Ha1]].
  pose proof (checkAttestations_effect _ _ _ _ _ _ _ H3) as [Hk3 [He3 [Hw3 Hi3]]].
  assert (Forall (fun e => isGetMetadata e = false) t1
          /\ Forall (fun e => isReadAllFeedback e = false) t1) as [Hm1 Hf1]
    by (split; apply (kinds_apart isProbe); auto; now intros []).
  assert (Forall (fun e => isProbe e = false) t2
          /\ Forall (fun e => isReadAllFeedback e = false) t2) as [Hp2 Hf2]
    by (split; apply (kinds_apart isGetMetadata); auto; now intros []).
  assert (Forall (fun e => isProbe e = false) t3
          /\ Forall (fun e => isGetMetadata e = false) t3) as [Hp3 Hm3]
    by (split; apply (kinds_apart isReadAllFeedback); auto; now intros []).
  split; [|split]; intros Hskip.
  - rewrite (checkEndpoints_skipped _ _ _ Hskip) in H1. injection H1 as <- <-.
    split.
    + rewrite He3, He2. reflexivity.
    + apply Forall_app. split; [constructor|].
      apply Forall_app. now split.
  - rewrite (checkWallet_skipped _ _ _ _ _ Hskip) in H2. injection H2 as <- <-.
    split.
    + rewrite Hw3, Hw1. reflexivity.
    + apply Forall_app. split; [assumption|].
      apply Forall_app. now split.
  - rewrite (checkAttestations_skipped _ _ _ _ _ Hskip) in H3.
    injection H3 as <- <-.
    split.
    + rewrite Ha2, Ha1. reflexivity.
    + apply Forall_app. split; [assumption|].
      apply Forall_app. now split.
Qed.

Lemma runChecks_wallet_requested (checks : list Check) (chain : string)
    (agentId : Z) (doc : JSON) (owner : string) (t : list Event)
    (report : ValidationReport) :
  runChecks w checks chain agentId doc owner = (t, Ok report) ->
  includes Wallet checks = true ->
  walletStatus report <> walletStatus initialReport.
Proof.
  unfold runChecks. intros Hrun Hasked.
  apply bind_Ok_inv in Hrun as [t1 [r1 [t' [H1 [Hrun ->]]]]].
  apply bind_Ok_inv in Hrun as [t2 [r2 [t3 [H2 [H3 ->]]]]].
  pose proof (checkAttestations_effect _ _ _ _ _ _ _ H3) as [_ [_ [Hw3 _]]].
  rewrite Hw3. exact (checkWallet_requested _ _ _ _ _ _ _ Hasked H2).
Qed.

(** The reading of the registration file asks the registry for the token
    URI and fetches candidates, nothing else. *)
Lemma fetchRegistrationFile_events (chain : string) (agentId : Z) :
  Forall (fun e => isProbe e = false /\ isGetMetadata e = false
                   /\ isReadAllFeedback e = false)
         (fst (fetchRegistrationFile w chain agentId)).
Proof.
  unfold fetchRegistrationFile, call, bind.
  destruct (getTokenURI w chain agentId) as [uri|e]; [|repeat constructor].
  destruct (resolveTokenUri w uri) as [t r] eqn:Hres. simpl.
  constructor; [repeat split|].
  assert (t = fst (resolveTokenUri w uri)) as -> by now rewrite Hres.
  unfold resolveTokenUri.
  destruct (Json.truthy (parseDataUri w uri)); [constructor|].
  destruct (tryCandidates_trace w (candidates uri) 500) as [n ->].
  apply Forall_forall. intros e Hin.
  apply in_map_iff in Hin as [url [<- _]]. repeat split.
Qed.

(** A validate run that ends well: its parts. *)
Lemma validateAgent_Ok (agentId : Z) (chainName : string) (checks : list Check)
    (t : list Event) (response : Response ApiBody) :
  validateAgent w agentId chainName checks = (t, Ok response) ->
  exists chain doc owner t0 t1 checked name,
    runChecks w checks chain agentId doc owner = (t1, Ok checked)
    /\ t = (t0 ++ t1)%list
    /\ Forall (fun e => isProbe e = false /\ isGetMetadata e = false
                        /\ isReadAllFeedback e = false) t0
    /\ response
       = c_json (ValidateOutputBody
                   {| vo_agentId := JS.showZ agentId;
                      vo_chain := chainName;
                      vo_agentName := name;
                      vo_report := determineVerdict checked |}).
Proof.
  unfold validateAgent. intros Hrun.
  apply bind_Ok_inv in Hrun as [tc [chain [t' [Hc [Hrun ->]]]]].
  apply bind_Ok_inv in Hrun as [tf [doc [t'' [Hf [Hrun ->]]]]].
  apply bind_Ok_inv in Hrun as [to [owner [t3 [Ho [Hrun ->]]]]].
  apply bind_Ok_inv in Hrun as [t1 [checked [t4 [Hchecks [Hrun ->]]]]].
  apply bind_Ok_inv in Hrun as [tn [file [t5 [Hfile [Hret ->]]]]].
  injection Hret as <- <-.
  assert (tc = []) as ->.
  { unfold createClients in Hc.
    destruct (existsb (String.eqb chainName) CHAINS); [now injection Hc|].
    destruct (existsb (String.eqb chainName) inheritedKeys);
      [discriminate|now injection Hc]. }
  assert (tn = []) as -> by (unfold fileOf in Hfile; destruct doc;
                             now (discriminate || injection Hfile)).
  unfold call in Ho. injection Ho as <- Ho.
  exists chain, doc, owner, (tf ++ [GetOwner chain agentId])%list, t1, checked,
    (rf_name file).
  repeat split; auto.
  - simpl. now rewrite app_nil_r, <- app_assoc.
  - apply Forall_app. split.
    + pose proof (fetchRegistrationFile_events chain agentId) as Hev.
      now rewrite Hf in Hev.
    + repeat constructor.
Qed.

Lemma guarded_total (errorMessage : string) (m : M (Response ApiBody)) :
  exists t response,
    guarded errorMessage m = (t, Ok response)
    /\ (m = (t, Ok response)
        \/ exists e, snd m = Throw e /\ response = endpointError errorMessage e).
Proof.
  unfold guarded, catch. destruct m as [t [response|e]].
  - exists t, response. auto.
  - simpl. exists (t ++ [])%list, (endpointError errorMessage e).
    split; [reflexivity|]. right. now exists e.
Qed.

Lemma endpointError_status (errorMessage : string) (e : Exn) :
  (status (endpointError errorMessage e) = 404
   \/ status (endpointError errorMessage e) = 500)
  /\ exists details, body (endpointError errorMessage e)
                     = ErrorBody errorMessage details.
Proof.
  unfold endpointError. destruct e as [message st| |];
    [destruct (st =? 404)|..]; simpl; split; eauto.
Qed.

(** *** Worlds that answer alike *)

Lemma tryCandidates_same (w' : World) (urls : list string) (initial : Z) :
  JSON_parse w = JSON_parse w' -> fetch w = fetch w' ->
  tryCandidates w urls initial = tryCandidates w' urls initial.
Proof.
  intros Hp Hf. revert initial. induction urls as [|u urls IH]; intros initial.
  - reflexivity.
  - cbn [tryCandidates]. unfold response_json. rewrite Hp, Hf.
    destruct (fetch w' u) as [r|]; unfold call, bind.
    + destruct (resp_ok r); [reflexivity|].
      destruct (resp_status r =? 404); now rewrite IH.
    + now rewrite IH.
Qed.

Lemma fetchRegistrationFile_same (w' : World) (chain : string) (agentId : Z) :
  JSON_parse w = JSON_parse w' -> base64_utf8 w = base64_utf8 w' ->
  getTokenURI w = getTokenURI w' -> fetch w = fetch w' ->
  fetchRegistrationFile w chain agentId = fetchRegistrationFile w' chain agentId.
Proof.
  intros Hp Hb Ht Hf. unfold fetchRegistrationFile, resolveTokenUri, parseDataUri.
  rewrite Hp, Hb, Ht.
  destruct (getTokenURI w' chain agentId) as [uri|e]; [|reflexivity].
  unfold call, bind.
  now rewrite (tryCandidates_same w' (candidates uri) 500 Hp Hf).
Qed.

Lemma probeEndpoints_same (w' : World) (eps : list EndpointDecl)
    (r : ValidationReport) :
  probe w = probe w' -> probeEndpoints w eps r = probeEndpoints w' eps r.
Proof.
  intros Hp. revert r. induction eps as [|ep eps IH]; intros r; [reflexivity|].
  cbn [probeEndpoints].
  assert (probeEndpoint w ep r = probeEndpoint w' ep r) as ->
      by (unfold probeEndpoint; now rewrite Hp).
  unfold bind. destruct (probeEndpoint w' ep r) as [t [r1|e]]; [|reflexivity].
  now rewrite IH.
Qed.

Lemma attestAll_same (w' : World) (chain : string) (agentId : Z)
    (trust : list string) (r : ValidationReport) :
  readAllFeedback w = readAllFeedback w' ->
  attestAll w chain agentId trust r = attestAll w' chain agentId trust r.
Proof.
  intros Hf. revert r. induction trust as [|trustType trust IH]; intros r;
    [reflexivity|].
  cbn [attestAll].
  assert (attest w chain agentId trustType r = attest w' chain agentId trustType r)
    as -> by (unfold attest, readFeedbackSafe; now rewrite Hf).
  unfold bind.
  destruct (attest w' chain agentId trustType r) as [t [r1|e]]; [|reflexivity].
  now rewrite IH.
Qed.

Lemma runChecks_same (w' : World) (checks : list Check) (chain : string)
    (agentId : Z) (doc : JSON) (owner : string) :
  sameForChecks checks w w' ->
  runChecks w checks chain agentId doc owner
  = runChecks w' checks chain agentId doc owner.
Proof.
  intros [_ _ _ _ _ Hprobe Hmeta Hfeed].
  assert (forall r, checkEndpoints w checks doc r = checkEndpoints w' checks doc r)
    as H1.
  { intros r. unfold checkEndpoints.
    destruct (includes Endpoints checks); [|reflexivity].
    unfold bind. destruct (fileOf "endpoints" doc) as [t [file|e]]; [|reflexivity].
    destruct (rf_endpoints file); [|reflexivity].
    now rewrite (probeEndpoints_same w' _ _ (Hprobe eq_refl)). }
  assert (forall r, checkWallet w checks chain agentId owner r
                    = checkWallet w' checks chain agentId owner r) as H2.
  { intros r. unfold checkWallet.
    destruct (includes Wallet checks); [|reflexivity].
    now rewrite (Hmeta eq_refl). }
  assert (forall r, checkAttestations w checks chain agentId doc r
                    = checkAttestations w' checks chain agentId doc r) as H3.
  { intros r. unfold checkAttestations.
    destruct (includes Attestations checks); [|reflexivity].
    unfold bind. destruct (fileOf "supportedTrust" doc) as [t [file|e]];
      [|reflexivity].
    destruct (rf_supportedTrust file); [|reflexivity].
    now rewrite (attestAll_same w' _ _ _ _ (Hfeed eq_refl)). }
  unfold runChecks. rewrite H1. unfold bind.
  destruct (checkEndpoints w' checks doc initialReport) as [t1 [r1|e]];
    [|reflexivity].
  rewrite H2.
  destruct (checkWallet w' checks chain agentId owner r1) as [t2 [r2|e]];
    [|reflexivity].
  now rewrite H3.
Qed.

Lemma validateAgent_same (w' : World) (agentId : Z) (chainName : string)
    (checks : list Check) :
  sameForChecks checks w w' ->
  validateAgent w agentId chainName checks
  = validateAgent w' agentId chainName checks.
Proof.
  intros Hsame. pose proof Hsame as [Hp Hb Ht Ho Hf _ _ _].
  unfold validateAgent, bind.
  destruct (createClients chainName) as [tc [chain|e]]; [|reflexivity].
  rewrite (fetchRegistrationFile_same w' chain agentId Hp Hb Ht Hf).
  destruct (fetchRegistrationFile w' chain agentId) as [tf [doc|e]];
    [|reflexivity].
  rewrite Ho.
  destruct (call (GetOwner chain agentId) (getOwner w' chain agentId))
    as [to [owner|e]]; [|reflexivity].
  now rewrite (runChecks_same w' checks chain agentId doc owner Hsame).
Qed.

(** *** Reading a document that is not [null] *)

Lemma fileOf_document (member : string) (doc : JSON) :
  doc <> JNull -> fileOf member doc = ([], Ok (asRegistrationFile doc)).
Proof. intros Hdoc. destruct doc; try reflexivity. contradiction. Qed.

End ReportFacts.

(** C8 (as amended): on a validate request with the checks [checks], every
    answer with status 200 carries a report whose overall verdict is the
    verdict of the specification for that very report: validated without
    issues; validated-with-warnings with issues, every probed endpoint
    reachable and the wallet valid; partial with an endpoint reachable or
    the wallet valid; failed otherwise.  A check that was not asked for is
    not absent from the report: its place is there as it was set up (no
    endpoint status, the blank wallet status, no attestation); it calls
    nobody, whereas a wallet check that ran never leaves the blank wallet
    status; and two worlds that differ only in what a check not asked for
    would have read give the same answer. *)
Theorem validation_verdict (w : World) (raw : string) (input : option JSON)
    (agentId : Z) (chainName : string) (checks : list Api.Check) :
  Api.invokeEnvelopeSchema (Api.requestJson w raw) = Api.Parsed input ->
  Api.validateInputSchema input = Api.Parsed (agentId, chainName, checks) ->
  (forall t response,
      Api.postValidateInvoke w raw = (t, Ok response) ->
      status response = 200 ->
      exists name report,
        body response
        = Api.ValidateOutputBody
            {| Api.vo_agentId := JS.showZ agentId;
               Api.vo_chain := chainName;
               Api.vo_agentName := name;
               Api.vo_report := report |}
        /\ Api.overallVerdict report = ValidationPipeline.verdict report
        /\ (Api.includes Api.Endpoints checks = false ->
            Api.endpointStatus report = []
            /\ Forall (fun e => isProbe e = false) t)
        /\ (Api.includes Api.Wallet checks = false ->
            Api.walletStatus report
            = {| Api.ws_address := EmptyString; Api.ws_valid := false;
                 Api.ws_isOwner := false |}
            /\ Forall (fun e => isGetMetadata e = false) t)
        /\ (Api.includes Api.Wallet checks = true ->
            Api.walletStatus report
            <> {| Api.ws_address := EmptyString; Api.ws_valid := false;
                  Api.ws_isOwner := false |})
        /\ (Api.includes Api.Attestations checks = false ->
            Api.attestations report = []
            /\ Forall (fun e => isReadAllFeedback e = false) t))
  /\ (forall w',
         ValidationPipeline.sameForChecks checks w w' ->
         Api.postValidateInvoke w' raw = Api.postValidateInvoke w raw).
Proof.
  intros Henvelope Hinput. split.
  - intros t response Hrun Hstatus.
    unfold Api.postValidateInvoke in Hrun. rewrite Henvelope, Hinput in Hrun.
    destruct (guarded_total "Failed to validate agent"
                (Api.validateAgent w agentId chainName checks))
      as [t' [response' [Hguard Hcases]]].
    rewrite Hguard in Hrun. injection Hrun as -> ->.
    destruct Hcases as [Hok|[e [_ ->]]].
    + apply validateAgent_Ok in Hok
        as [chain [doc [owner [t0 [t1 [checked [name [Hchecks [-> [Ht0 ->]]]]]]]]]].
      exists name, (Api.determineVerdict checked).
      split; [reflexivity|].
      rewrite determineVerdict_table.
      split; [reflexivity|].
      destruct (runChecks_unrequested w _ _ _ _ _ _ _ Hchecks) as [He [Hw Ha]].
      assert (forall q : Event -> bool,
                 Forall (fun e => isProbe e = false /\ isGetMetadata e = false
                                  /\ isReadAllFeedback e = false) t0 ->
                 (forall e, isProbe e = false /\ isGetMetadata e = false
                            /\ isReadAllFeedback e = false -> q e = false) ->
                 Forall (fun e => q e = false) t1 ->
                 Forall (fun e => q e = false) (t0 ++ t1)) as Hjoin.
      { intros q H0 Hq H1. apply Forall_app. split; [|exact H1].
        eapply Forall_impl; [|exact H0]. exact Hq. }
      split; [|split; [|split]].
      * intros Hskip. destruct (He Hskip) as [Hempty Hquiet].
        split; [exact Hempty|]. apply Hjoin; auto. now intros e0 [? _].
      * intros Hskip. destruct (Hw Hskip) as [Hblank Hquiet].
        split; [exact Hblank|]. apply Hjoin; auto. now intros e0 [_ [? _]].
      * intros Hasked.
        exact (runChecks_wallet_requested w _ _ _ _ _ _ _ Hchecks Hasked).
      * intros Hskip. destruct (Ha Hskip) as [Hempty Hquiet].
        split; [exact Hempty|]. apply Hjoin; auto. now intros e0 [_ [_ ?]].
    + destruct (endpointError_status "Failed to validate agent" e) as [[H|H] _];
        rewrite H in Hstatus; discriminate.
  - intros w' Hsame. unfold Api.postValidateInvoke, Api.requestJson.
    rewrite <- (ValidationPipeline.same_parse _ _ _ Hsame).
    fold (Api.requestJson w raw). rewrite Henvelope, Hinput.
    now rewrite (validateAgent_same w w' agentId chainName checks Hsame).
Qed.

Lemma validation_verdict_witness :
  (exists name report,
      Api.ValidateOutputBody
        {| Api.vo_agentId := "1"; Api.vo_chain := "base";
           Api.vo_agentName := Some "Sample Agent";
           Api.vo_report :=
             {| Api.endpointStatus := [];
                Api.walletStatus :=
                  {| Api.ws_address := Sample.owner; Api.ws_valid := true;
                     Api.ws_isOwner := true |};
                Api.attestations := [];
                Api.overallVerdict := "validated";
                Api.issues := [] |} |}
      = Api.ValidateOutputBody
          {| Api.vo_agentId := "1"; Api.vo_chain := "base";
             Api.vo_agentName := name; Api.vo_report := report |}
      /\ Api.overallVerdict report = ValidationPipeline.verdict report
      /\ (Api.includes Api.Endpoints [Api.Wallet] = false ->
          Api.endpointStatus report = []
          /\ Forall (fun e => isProbe e = false)
               [GetTokenURI "base" 1; Fetch "https://ipfs.io/ipfs/QmSample";
                Fetch "https://cloudflare-ipfs.com/ipfs/QmSample";
                GetOwner "base" 1; GetMetadata "base" 1 "agentWallet"])
      /\ (Api.includes Api.Wallet [Api.Wallet] = false ->
          Api.walletStatus report
          = {| Api.ws_address := EmptyString; Api.ws_valid := false;
               Api.ws_isOwner := false |}
          /\ Forall (fun e => isGetMetadata e = false)
               [GetTokenURI "base" 1; Fetch "https://ipfs.io/ipfs/QmSample";
                Fetch "https://cloudflare-ipfs.com/ipfs/QmSample";
                GetOwner "base" 1; GetMetadata "base" 1 "agentWallet"])
      /\ (Api.includes Api.Wallet [Api.Wallet] = true ->
          Api.walletStatus report
          <> {| Api.ws_address := EmptyString; Api.ws_valid := false;
                Api.ws_isOwner := false |})
      /\ (Api.includes Api.Attestations [Api.Wallet] = false ->
          Api.attestations report = []
          /\ Forall (fun e => isReadAllFeedback e = false)
               [GetTokenURI "base" 1; Fetch "https://ipfs.io/ipfs/QmSample";
                Fetch "https://cloudflare-ipfs.com/ipfs/QmSample";
                GetOwner "base" 1; GetMetadata "base" 1 "agentWallet"]))
  /\ Api.postValidateInvoke
       (withProbe (fun _ => ProbeThrew Thrown)
          (withFeedback (Throw Thrown) Sample.world))
       (Sample.invokeChecksText "1" "wallet")
     = Api.postValidateInvoke Sample.world (Sample.invokeChecksText "1" "wallet").
Proof.
  split.
  - apply (proj1 (validation_verdict Sample.world
                    (Sample.invokeChecksText "1" "wallet")
                    (Some (JObject [("agentId", JString "1");
                                    ("checks", JArray [JString "wallet"])]))
                    1 "base" [Api.Wallet] eq_refl eq_refl)
             [GetTokenURI "base" 1; Fetch "https://ipfs.io/ipfs/QmSample";
              Fetch "https://cloudflare-ipfs.com/ipfs/QmSample";
              GetOwner "base" 1; GetMetadata "base" 1 "agentWallet"]
             {| status := 200;
                body := Api.ValidateOutputBody
                          {| Api.vo_agentId := "1"; Api.vo_chain := "base";
                             Api.vo_agentName := Some "Sample Agent";
                             Api.vo_report :=
                               {| Api.endpointStatus := [];
                                  Api.walletStatus :=
                                    {| Api.ws_address := Sample.owner;
                                       Api.ws_valid := true;
                                       Api.ws_isOwner := true |};
                                  Api.attestations := [];
                                  Api.overallVerdict := "validated";
                                  Api.issues := [] |} |} |});
      reflexivity.
  - apply (proj2 (validation_verdict Sample.world
                    (Sample.invokeChecksText "1" "wallet")
                    (Some (JObject [("agentId", JString "1");
                                    ("checks", JArray [JString "wallet"])]))
                    1 "base" [Api.Wallet] eq_refl eq_refl)).
    constructor; try reflexivity; discriminate.
Defined.

(** C8, the claim as first stated, fails on the part that a check not asked
    for is absent from the report: asked for the endpoints of agent 1 only,
    the route answers 200 with a report that has the members [walletStatus],
    with the blank address and both flags false, and [attestations], with
    no entry, although neither the wallet nor the attestations were asked
    for. *)
Lemma unrequested_checks_stay_in_the_report :
  exists t output members,
    Api.postValidateInvoke Sample.world (Sample.invokeChecksText "1" "endpoints")
    = (t, Ok {| status := 200; body := Api.ValidateOutputBody output |})
    /\ Api.validateInputSchema
         (Some (JObject [("agentId", JString "1");
                         ("checks", JArray [JString "endpoints"])]))
       = Api.Parsed (1, "base", [Api.Endpoints])
    /\ Api.includes Api.Wallet [Api.Endpoints] = false
    /\ Api.includes Api.Attestations [Api.Endpoints] = false
    /\ Json.get "output" (Api.validateOutputJson output) = Some members
    /\ Json.get "walletStatus" members
       = Some (JObject [("address", JString EmptyString);
                        ("valid", JBool false); ("isOwner", JBool false)])
    /\ Json.get "attestations" members = Some (JArray [])
    /\ Json.get "walletStatus" members <> None
    /\ Json.get "attestations" members <> None.
Proof.
  do 3 eexists.
  split; [vm_compute; reflexivity|].
  split; [reflexivity|]. split; [reflexivity|]. split; [reflexivity|].
  split; [vm_compute; reflexivity|].
  split; [reflexivity|]. split; [reflexivity|].
  split; discriminate.
Qed.

(** C9: the validate route always answers, and an answer either has status
    200 and carries a report whose overall verdict is validated,
    validated-with-warnings, partial or failed, or has another status and
    carries an error body without any verdict.  The verdict that the route
    computes is never the initial value pending. *)
Theorem pending_never_returned (w : World) (raw : string) :
  (exists t response,
      Api.postValidateInvoke w raw = (t, Ok response)
      /\ ((status response = 200
           /\ exists output,
                body response = Api.ValidateOutputBody output
                /\ In (Api.overallVerdict (Api.vo_report output))
                      ["validated"; "validated-with-warnings"; "partial"; "failed"])
          \/ (status response <> 200
              /\ exists error details,
                   body response = Api.ErrorBody error details)))
  /\ (forall report,
         Api.overallVerdict (Api.determineVerdict report) <> "pending")
  /\ Api.overallVerdict Api.initialReport = "pending".
Proof.
  split; [|split; [|reflexivity]].
  - unfold Api.postValidateInvoke.
    destruct (Api.invokeEnvelopeSchema (Api.requestJson w raw)) as [input|details].
    + destruct (Api.validateInputSchema input)
        as [[[agentId chainName] checks]|details].
      * destruct (guarded_total "Failed to validate agent"
                    (Api.validateAgent w agentId chainName checks))
          as [t [response [Hguard Hcases]]].
        exists t, response. split; [exact Hguard|].
        destruct Hcases as [Hok|[e [_ ->]]].
        -- apply validateAgent_Ok in Hok
             as [chain [doc [owner [t0 [t1 [checked [name [_ [_ [_ ->]]]]]]]]]].
           left. split; [reflexivity|]. eexists. split; [reflexivity|].
           simpl. rewrite determineVerdict_table. apply verdict_values.
        -- right.
           destruct (endpointError_status "Failed to validate agent" e)
             as [[H|H] [details Hbody]]; rewrite H; split; try discriminate; eauto.
      * do 2 eexists. split; [reflexivity|]. right.
        split; [discriminate|]. simpl. eauto.
    + do 2 eexists. split; [reflexivity|]. right.
      split; [discriminate|]. simpl. eauto.
  - intros report. rewrite determineVerdict_table.
    pose proof (verdict_values report) as Hin. simpl in *.
    intros Heq. rewrite Heq in Hin.
    destruct Hin as [H|[H|[H|[H|[]]]]]; discriminate.
Qed.


(** A request on which the validate route reports its verdict. *)
Example validate_wallet_only :
  Api.postValidateInvoke Sample.world (Sample.invokeChecksText "1" "wallet")
  = ([GetTokenURI "base" 1; Fetch "https://ipfs.io/ipfs/QmSample";
      Fetch "https://cloudflare-ipfs.com/ipfs/QmSample";
      GetOwner "base" 1; GetMetadata "base" 1 "agentWallet"],
     Ok {| status := 200;
           body := Api.ValidateOutputBody
                     {| Api.vo_agentId := "1"; Api.vo_chain := "base";
                        Api.vo_agentName := Some "Sample Agent";
                        Api.vo_report :=
                          {| Api.endpointStatus := [];
                             Api.walletStatus :=
                               {| Api.ws_address := Sample.owner;
                                  Api.ws_valid := true;
                                  Api.ws_isOwner := true |};
                             Api.attestations := [];
                             Api.overallVerdict := "validated";
                             Api.issues := [] |} |} |}).
Proof. reflexivity. Qed.

(** With the endpoints as the only check and no endpoint answering, the one
    issue makes the verdict failed; the wallet status is the blank one. *)
Example validate_endpoints_only :
  exists t,
    Api.postValidateInvoke Sample.world (Sample.invokeChecksText "1" "endpoints")
    = (t,
       Ok {| status := 200;
             body := Api.ValidateOutputBody
                       {| Api.vo_agentId := "1"; Api.vo_chain := "base";
                          Api.vo_agentName := Some "Sample Agent";
                          Api.vo_report :=
                            {| Api.endpointStatus :=
                                 [ {| Api.es_name := "a2a";
                                      Api.es_endpoint := "https://agent.example/a2a";
                                      Api.es_status := "unreachable";
                                      Api.es_latencyMs := None;
                                      Api.es_error := Some "Connection failed" |} ];
                               Api.walletStatus :=
                                 {| Api.ws_address := EmptyString;
                                    Api.ws_valid := false;
                                    Api.ws_isOwner := false |};
                               Api.attestations := [];
                               Api.overallVerdict := "failed";
                               Api.issues := ["Endpoint a2a is unreachable"] |} |} |}).
Proof. eexists. reflexivity. Qed.

(* ================================================================= *)
(** ** A verdict that no report receives

    Every issue comes from an endpoint that is not reachable or from a
    wallet that is not valid, so the second case of the verdict never meets
    a report that the route has built. *)

Section WarningsFacts.

Import Api ValidationPipeline.

Variable w : World.

Lemma allEndpointsReachable_push (s : EndpointStatus) (r : ValidationReport) :
  allEndpointsReachable (pushEndpointStatus s r)
  = allEndpointsReachable r && reachable s.
Proof.
  unfold allEndpointsReachable, pushEndpointStatus. cbn [endpointStatus].
  rewrite forallb_app. simpl. now rewrite andb_true_r.
Qed.

Lemma allEndpointsReachable_pushIssue (i : string) (r : ValidationReport) :
  allEndpointsReachable (pushIssue i r) = allEndpointsReachable r.
Proof. reflexivity. Qed.

Lemma probeEndpoint_keeps (ep : EndpointDecl) (r r' : ValidationReport)
    (t : list Event) :
  issuesFromEndpoints r ->
  probeEndpoint w ep r = (t, Ok r') ->
  issuesFromEndpoints r'.
Proof.
  unfold issuesFromEndpoints, probeEndpoint, call, bind. intros Hinv.
  destruct (probe w (ep_endpoint ep)) as [response latencyMs| |error];
    [destruct (resp_ok response)|..]; intros [= <- <-];
    rewrite ?allEndpointsReachable_pushIssue, allEndpointsReachable_push.
  - destruct Hinv as [Hnone|Hsome]; [now left|right]. now rewrite Hsome.
  - right. apply andb_false_r.
  - right. apply andb_false_r.
  - right. apply andb_false_r.
Qed.

Lemma probeEndpoints_keeps (eps : list EndpointDecl) (r r' : ValidationReport)
    (t : list Event) :
  issuesFromEndpoints r ->
  probeEndpoints w eps r = (t, Ok r') ->
  issuesFromEndpoints r'.
Proof.
  revert r t. induction eps as [|ep eps IH]; intros r t Hinv.
  - now intros [= <- <-].
  - cbn [probeEndpoints]. intros Hrun.
    apply bind_Ok_inv in Hrun as [t1 [r1 [t2 [Hstep [Hrest ->]]]]].
    exact (IH _ _ (probeEndpoint_keeps _ _ _ _ Hinv Hstep) Hrest).
Qed.

Lemma checkEndpoints_keeps (checks : list Check) (doc : JSON)
    (r r' : ValidationReport) (t : list Event) :
  issuesFromEndpoints r ->
  checkEndpoints w checks doc r = (t, Ok r') ->
  issuesFromEndpoints r'.
Proof.
  intros Hinv. unfold checkEndpoints.
  destruct (includes Endpoints checks); [|now intros [= <- <-]].
  intros Hrun. apply bind_Ok_inv in Hrun as [t1 [file [t2 [_ [Hrun ->]]]]].
  destruct (rf_endpoints file) as [eps|].
  - exact (probeEndpoints_keeps _ _ _ _ Hinv Hrun).
  - now injection Hrun as <- <-.
Qed.

Lemma checkWallet_explains (checks : list Check) (chain : string)
    (agentId : Z) (owner : string) (r r' : ValidationReport) (t : list Event) :
  issuesFromEndpoints r ->
  checkWallet w checks chain agentId owner r = (t, Ok r') ->
  issuesExplained r'.
Proof.
  unfold issuesFromEndpoints, issuesExplained, checkWallet. intros Hinv.
  destruct (includes Wallet checks).
  - unfold call, bind, catch, ret.
    destruct (getMetadata w chain agentId "agentWallet") as [walletMeta|e];
      cbn [fst snd app].
    + destruct (Re.test reAddress
                  (if negb (JS.isEmpty walletMeta) then walletMeta else owner))
        eqn:Hvalid; cbn [negb]; intros [= <- <-].
      * destruct Hinv as [Hnone|Hsome]; [now left|right; now left].
      * right. right. reflexivity.
    + destruct (Re.test reAddress owner) eqn:Hvalid; cbn [negb];
        intros [= <- <-].
      * destruct Hinv as [Hnone|Hsome]; [now left|right; now left].
      * right. right. reflexivity.
  - intros [= <- <-]. destruct Hinv as [Hnone|Hsome]; [now left|right; now left].
Qed.

Lemma runChecks_explains (checks : list Check) (chain : string) (agentId : Z)
    (doc : JSON) (owner : string) (t : list Event) (report : ValidationReport) :
  runChecks w checks chain agentId doc owner = (t, Ok report) ->
  issuesExplained report.
Proof.
  unfold runChecks. intros Hrun.
  apply bind_Ok_inv in Hrun as [t1 [r1 [t' [H1 [Hrun ->]]]]].
  apply bind_Ok_inv in Hrun as [t2 [r2 [t3 [H2 [H3 ->]]]]].
  assert (issuesFromEndpoints initialReport) as H0 by now left.
  pose proof (checkWallet_explains _ _ _ _ _ _ _
                (checkEndpoints_keeps _ _ _ _ _ H0 H1) H2) as Hexplained.
  pose proof (checkAttestations_effect w _ _ _ _ _ _ _ H3) as [_ [He [Hw Hi]]].
  unfold issuesExplained, allEndpointsReachable, walletValid in *.
  now rewrite He, Hw, Hi.
Qed.

(** No report of the route is validated-with-warnings. *)
Lemma never_validated_with_warnings (checks : list Check) (chain : string)
    (agentId : Z) (doc : JSON) (owner : string) (t : list Event)
    (report : ValidationReport) :
  runChecks w checks chain agentId doc owner = (t, Ok report) ->
  overallVerdict (determineVerdict report) <> "validated-with-warnings".
Proof.
  intros Hrun. rewrite determineVerdict_table.
  cbn [overallVerdict setOverallVerdict]. unfold verdict, noIssues.
  destruct (issues report) eqn:Hissues; [simpl; discriminate|].
  destruct (runChecks_explains _ _ _ _ _ _ _ Hrun) as [Hnone|[Hsome|Hwallet]].
  - rewrite Hissues in Hnone. discriminate.
  - rewrite Hsome. cbn [andb].
    destruct (anyEndpointReachable report || walletValid report);
      simpl; discriminate.
  - rewrite Hwallet, andb_false_r.
    destruct (anyEndpointReachable report || false); simpl; discriminate.
Qed.

End WarningsFacts.

(* ================================================================= *)
(** ** A feedback read that fails *)

Section FeedbackFacts.

Import Api.

Variable w : World.
Variable e : Exn.
Hypothesis Hthrows : forall chain agentId, readAllFeedback w chain agentId = Throw e.

(** [readFeedbackSafe] turns the exception into an empty result with a
    warning. *)
Lemma readFeedbackSafe_absorbs (chain : string) (agentId : Z) :
  readFeedbackSafe w chain agentId
  = ([ReadAllFeedback chain agentId],
     Ok {| scores := []; clientAddresses := [];
           warning := Some (messageOr "Failed to read feedback" e) |}).
Proof.
  unfold readFeedbackSafe, call, bind, catch. now rewrite Hthrows.
Qed.

Lemma readFeedbackSafe_rated (chain : string) (agentId : Z) :
  readFeedbackSafe (withFeedback (Ok noFeedback) w) chain agentId
  = ([ReadAllFeedback chain agentId],
     Ok {| scores := []; clientAddresses := []; warning := None |}).
Proof. reflexivity. Qed.

Lemma setWarning_endpointError (warn : option string) (errorMessage : string)
    (err : Exn) :
  setWarning warn (endpointError errorMessage err)
  = endpointError errorMessage err.
Proof.
  unfold endpointError. destruct err as [message st| |];
    [destruct (st =? 404)|..]; reflexivity.
Qed.

(** The score route answers as it does for an agent without feedback,
    except for the warning. *)
Lemma score_survives_feedback_failure (raw : string) :
  exists t response,
    postScoreInvoke (withFeedback (Ok noFeedback) w) raw = (t, Ok response)
    /\ postScoreInvoke w raw
       = (t, Ok (setWarning (Some (messageOr "Failed to read feedback" e))
                            response)).
Proof.
  unfold postScoreInvoke.
  change (requestJson (withFeedback (Ok noFeedback) w) raw)
    with (requestJson w raw).
  destruct (invokeEnvelopeSchema (requestJson w raw)) as [input|details];
    [|do 2 eexists; split; reflexivity].
  destruct (scoreInputSchema input) as [[agentId chainName]|details];
    [|do 2 eexists; split; reflexivity].
  unfold guarded, scoreAgent, catch, bind.
  destruct (createClients chainName) as [tc [chain|err]];
    [|do 2 eexists; split; [reflexivity|];
      now rewrite setWarning_endpointError].
  rewrite (fetchRegistrationFile_same (withFeedback (Ok noFeedback) w) w chain agentId eq_refl eq_refl
             eq_refl eq_refl).
  destruct (fetchRegistrationFile w chain agentId) as [tf [doc|err]];
    [|do 2 eexists; split; [reflexivity|];
      now rewrite setWarning_endpointError].
  rewrite readFeedbackSafe_absorbs, readFeedbackSafe_rated.
  destruct (fileOf "endpoints" doc) as [tn [file|err]];
    do 2 eexists; (split; [reflexivity|]);
    [reflexivity|now rewrite setWarning_endpointError].
Qed.

Lemma score_without_feedback (agentId : Z) (chain : string)
    (file : RegistrationFile) (warn : option string) :
  let out := scoreOutput agentId chain file
               {| scores := []; clientAddresses := []; warning := warn |} in
  fs_count (so_feedbackSummary out) = 0%nat
  /\ fs_averageScore (so_feedbackSummary out) = 0%R
  /\ fs_uniqueClients (so_feedbackSummary out) = 0%nat
  /\ fs_warning (so_feedbackSummary out) = warn
  /\ b_feedbackScore (so_breakdown out) = 50
  /\ b_reputationConfidence (so_breakdown out) = 0%R.
Proof.
  cbv zeta. unfold scoreOutput. cbn [so_feedbackSummary so_breakdown fs_count
    fs_averageScore fs_uniqueClients fs_warning b_feedbackScore
    b_reputationConfidence scores clientAddresses warning].
  repeat split.
  - unfold avgScore, feedbackCount. simpl.
    replace (0 * 10)%R with 0%R by lra. rewrite (Math_round_IZR 0). lra.
  - unfold effectiveBaseScore, feedbackCount. simpl. apply (Math_round_IZR 50).
  - unfold reputationConfidence, volumeScore, consistencyScore, feedbackCount.
    simpl. rewrite Z.min_r by lia. lra.
Qed.

(** The reputation attestation of the validate route carries a warning whose
    text is not empty. *)
Lemma attestation_reports_warning (chain : string) (agentId : Z)
    (r : ValidationReport) (a : ascii) (rest : string) :
  messageOr "Failed to read feedback" e = String a rest ->
  attest w chain agentId "reputation" r
  = ([ReadAllFeedback chain agentId],
     Ok (pushAttestation
           {| at_type := "reputation"; at_status := "no-feedback";
              at_details :=
                Some ("feedback unavailable: "
                      ++ messageOr "Failed to read feedback" e) |} r)).
Proof.
  intros Htext. unfold attest. cbn [String.eqb Ascii.eqb Bool.eqb].
  rewrite (bind_Ok _ _ _ _ (readFeedbackSafe_absorbs chain agentId)).
  cbn [scores warning List.length Nat.ltb Nat.leb fst snd ret app].
  now rewrite Htext.
Qed.

End FeedbackFacts.

(** C10, where the code departs from the claim: the feedback read throws an
    Error whose message is empty.  [readFeedbackSafe] absorbs it into an empty
    result whose warning is the empty text, the score route still carries
    that warning, but the reputation attestation of the validate route is the
    one of an agent that nobody has rated: status no-feedback with the
    details [0 feedbacks, avg score: 0], and no trace of the failure. *)
Theorem empty_warning_reported_as_no_feedback :
  Api.readFeedbackSafe (withFeedback (Throw (Error EmptyString)) Sample.world) "base" 1
  = ([ReadAllFeedback "base" 1],
     Ok {| Api.scores := []; Api.clientAddresses := [];
           Api.warning := Some EmptyString |})
  /\ Api.attest (withFeedback (Throw (Error EmptyString)) Sample.world)
       "base" 1 "reputation" Api.initialReport
     = ([ReadAllFeedback "base" 1],
        Ok (Api.pushAttestation
              {| Api.at_type := "reputation"; Api.at_status := "no-feedback";
                 Api.at_details := Some "0 feedbacks, avg score: 0" |}
              Api.initialReport))
  /\ Api.postValidateInvoke (withFeedback (Throw (Error EmptyString)) Sample.world)
       (Sample.invokeChecksText "1" "attestations")
     = Api.postValidateInvoke (withFeedback (Ok noFeedback) Sample.world)
         (Sample.invokeChecksText "1" "attestations")
  /\ exists t output,
       Api.postValidateInvoke (withFeedback (Throw (Error EmptyString)) Sample.world)
         (Sample.invokeChecksText "1" "attestations")
       = (t, Ok {| status := 200; body := Api.ValidateOutputBody output |})
       /\ Api.attestations (Api.vo_report output)
          = [ {| Api.at_type := "reputation"; Api.at_status := "no-feedback";
                 Api.at_details := Some "0 feedbacks, avg score: 0" |};
              {| Api.at_type := "tee-attestation"; Api.at_status := "declared";
                 Api.at_details :=
                   Some "TEE attestation verification not yet implemented" |} ].
Proof.
  assert (JS.showZ (Api.Math_round 0) = "0") as Hzero
      by now rewrite (Math_round_IZR 0).
  split; [reflexivity|].
  split.
  { unfold Api.attest. cbn [String.eqb Ascii.eqb Bool.eqb].
    unfold Api.readFeedbackSafe, call, bind, catch, ret.
    cbn -[JS.showZ Api.Math_round]. now rewrite Hzero. }
  split; [reflexivity|].
  do 2 eexists. split.
  - unfold Api.postValidateInvoke. cbn -[JS.showZ Api.Math_round].
    rewrite Hzero. reflexivity.
  - reflexivity.
Qed.

(* ================================================================= *)
(** ** POST /a2a: answers, traces and the payment gate *)

Section A2AAnswers.

Import A2A.

Variable config : Config.
Variable w : World.
Variable c : Request.

(** What the route does with the body that the middleware stored. *)
Lemma a2aPost_stored (body : JSON) :
  a2aPost w (Some body) c
  = match body with
    | JObject fields =>
        ([RuntimeHandle body],
         Ok (c_json
               match handle w body with
               | Stream first => RpcValue first
               | Single result => RpcValue result
               | Failed =>
                   RpcError (match Json.lookup "id" fields with
                             | Some v => v
                             | None => JNull
                             end) (-32603) "Internal error"
               end))
    | _ => ([], Ok (c_json (RpcError JNull (-32600) "Invalid JSON-RPC Request.")))
    end.
Proof.
  unfold a2aPost, parseJsonRpcRequest.
  destruct body as [|b|q|s|items|fields]; try reflexivity.
  - destruct b; reflexivity.
  - cbn [Json.truthy Json.isObjectType Json.isArray negb orb].
    destruct (Double.truthy (Double.round q)); reflexivity.
  - cbn [Json.truthy Json.isObjectType Json.isArray negb orb].
    destruct (negb (JS.isEmpty s)); reflexivity.
  - cbn. destruct (handle w (JObject fields)); reflexivity.
Qed.

(** The entry of the route table that the middleware looks up. *)
Lemma a2a_entry :
  routeEntry "POST /a2a" (createPaymentMiddleware config PAID_ENDPOINTS)
  = Some (routeConfigOf config
            {| path := "POST /a2a"; price := "$0.01";
               description := "A2A task execution" |}).
Proof. reflexivity. Qed.

(** The middleware, case by case. *)
Lemma a2aMiddleware_cases (body : JSON) (next : option JSON -> M (Response Payload)) :
  parseA2AJsonBody w c = ParsedOk body ->
  a2aMiddleware config w c next
  = if Gate.demandsPayment config body
    then
      if verifyPayment w "POST /a2a" (paymentHeader c)
      then (PaymentVerification "POST /a2a" :: fst (next (Some body)),
            snd (next (Some body)))
      else ([PaymentVerification "POST /a2a"],
            Ok {| status := 402;
                  body := PaymentRequired
                            (routeConfigOf config
                               {| path := "POST /a2a"; price := "$0.01";
                                  description := "A2A task execution" |}) |})
    else next (Some body).
Proof.
  intros Hparsed. unfold a2aMiddleware. rewrite Hparsed.
  destruct body as [|b|q|s|items|fields]; try reflexivity.
  - destruct b; reflexivity.
  - cbn [Json.truthy Json.isObjectType Json.isArray negb orb Gate.demandsPayment].
    now rewrite orb_true_r.
  - cbn [Json.truthy Json.isObjectType Json.isArray negb orb Gate.demandsPayment].
    now rewrite orb_true_r.
  - cbn [Json.truthy Json.isObjectType Json.isArray negb orb Gate.demandsPayment].
    unfold Json.has, Json.get.
    destruct (Json.lookup "method" fields) as [[|b|q|method|items|fields']|];
      try reflexivity.
    cbn [negb].
    destruct (negb (bypassPayments config) && isPaidMethod method); [|reflexivity].
    unfold paymentMiddleware. rewrite a2a_entry.
    unfold bind, call, ret.
    destruct (verifyPayment w "POST /a2a" (paymentHeader c)).
    + destruct (next (Some (JObject fields))) as [t r]. reflexivity.
    + reflexivity.
Qed.

Lemma demandsPayment_bypassed (body : JSON) :
  Gate.demandsPayment (Gate.bypassed config) body = false.
Proof.
  destruct body as [| | | | |fields]; try reflexivity. simpl.
  destruct (Json.lookup "method" fields) as [[| | |method| |]|]; reflexivity.
Qed.

Lemma demandsPayment_off (body : JSON) :
  bypassPayments config = true -> Gate.demandsPayment config body = false.
Proof.
  intros Hoff. destruct body as [| | | | |fields]; try reflexivity. simpl.
  destruct (Json.lookup "method" fields) as [[| | |method| |]|]; try reflexivity.
  now rewrite Hoff.
Qed.

End A2AAnswers.

(** X1: a POST /a2a request on which no payment is demanded (the payments
    are bypassed, or the body is not an object with a string method of the
    paid set) is always answered, with HTTP status 200 also when the answer
    is a JSON-RPC error; no proof of payment is verified, and the runtime is
    called at most once, with the parsed body. *)
Theorem a2a_ungated_request_is_answered (config : A2A.Config) (w : World)
    (c : A2A.Request) :
  A2A.bypassPayments config = true
  \/ (forall body,
         A2A.parseA2AJsonBody w c = A2A.ParsedOk body ->
         Gate.demandsPayment config body = false) ->
  exists t response,
    A2A.postA2A config w c = (t, Ok response)
    /\ status response = 200
    /\ filter isPaymentVerification t = []
    /\ (t = []
        \/ exists body,
             A2A.parseA2AJsonBody w c = A2A.ParsedOk body
             /\ t = [RuntimeHandle body]).
Proof.
  intros Hfree. unfold A2A.postA2A.
  destruct (A2A.parseA2AJsonBody w c) as [body|failure] eqn:Hparsed.
  - rewrite (a2aMiddleware_cases config w c body _ Hparsed).
    rewrite a2aPost_stored.
    assert (Gate.demandsPayment config body = false) as ->.
    { destruct Hfree as [Hoff|Hfree]; [now apply demandsPayment_off|auto]. }
    destruct body as [|b|q|s|items|fields];
      do 2 eexists; (split; [reflexivity|]);
      (split; [reflexivity|split; [reflexivity|]]);
      solve [now left | right; eexists; split; reflexivity].
  - unfold A2A.a2aMiddleware. rewrite Hparsed.
    do 2 eexists. split; [reflexivity|].
    split; [reflexivity|split; [reflexivity|now left]].
Qed.

Lemma a2a_ungated_request_is_answered_witness :
  exists t response,
    A2A.postA2A (Gate.bypassed Sample.testConfig) Sample.world
      (Sample.request (Some "application/json") (Sample.rpcText "message/send"))
    = (t, Ok response)
    /\ status response = 200
    /\ filter isPaymentVerification t = []
    /\ (t = []
        \/ exists body,
             A2A.parseA2AJsonBody Sample.world
               (Sample.request (Some "application/json")
                  (Sample.rpcText "message/send"))
             = A2A.ParsedOk body
             /\ t = [RuntimeHandle body]).
Proof.
  apply (a2a_ungated_request_is_answered (Gate.bypassed Sample.testConfig)
           Sample.world
           (Sample.request (Some "application/json")
              (Sample.rpcText "message/send"))).
  left. reflexivity.
Defined.

(** X2: a body that is JSON but not an object (an array such as a JSON-RPC
    batch, a number, a text, a boolean or null) is answered with the error
    -32600 and a null id under HTTP status 200; no payment is asked for and
    the runtime is not called, whatever the array holds. *)
Theorem non_object_body_is_invalid (config : A2A.Config) (w : World)
    (c : A2A.Request) (body : JSON) :
  A2A.acceptsAsJson (A2A.contentType c) = true ->
  JS.isEmpty (JS.trim (A2A.text c)) = false ->
  JSON_parse w (A2A.text c) = Some body ->
  (forall fields, body <> JObject fields) ->
  A2A.postA2A config w c
  = ([], Ok {| status := 200;
               body := A2A.RpcError JNull (-32600) "Invalid JSON-RPC Request." |}).
Proof.
  intros Hct Hne Hparse Hshape. unfold A2A.postA2A.
  rewrite (a2aMiddleware_cases config w c body _
             (parseBody_accepted w c body Hct Hne Hparse)).
  rewrite a2aPost_stored.
  destruct body as [| | | | |fields]; try reflexivity.
  now destruct (Hshape fields).
Qed.

Lemma non_object_body_is_invalid_witness :
  A2A.postA2A Sample.testConfig Sample.world
    (Sample.request (Some "application/json")
       ("[" ++ Sample.rpcText "message/send" ++ "]"))
  = ([], Ok {| status := 200;
               body := A2A.RpcError JNull (-32600) "Invalid JSON-RPC Request." |}).
Proof.
  apply (non_object_body_is_invalid Sample.testConfig Sample.world
           (Sample.request (Some "application/json")
              ("[" ++ Sample.rpcText "message/send" ++ "]"))
           (JArray [Sample.rpcBody "message/send"])).
  - reflexivity.
  - reflexivity.
  - vm_compute. reflexivity.
  - discriminate.
Defined.

(** X3: when the runtime fails on a request on which no payment is
    demanded, the answer is the JSON-RPC error -32603 under HTTP status 200,
    with the id of the request, or null when the request has no member
    [id]. *)
Theorem runtime_failure_reports_request_id (config : A2A.Config) (w : World)
    (c : A2A.Request) (fields : list (string * JSON)) :
  A2A.acceptsAsJson (A2A.contentType c) = true ->
  JS.isEmpty (JS.trim (A2A.text c)) = false ->
  JSON_parse w (A2A.text c) = Some (JObject fields) ->
  handle w (JObject fields) = Failed ->
  Gate.demandsPayment config (JObject fields) = false ->
  snd (A2A.postA2A config w c)
  = Ok {| status := 200;
          body := A2A.RpcError
                    (match Json.get "id" (JObject fields) with
                     | Some id => id
                     | None => JNull
                     end) (-32603) "Internal error" |}
  /\ In (RuntimeHandle (JObject fields)) (fst (A2A.postA2A config w c)).
Proof.
  intros Hct Hne Hparse Hfailed Hpass. unfold A2A.postA2A.
  rewrite (a2aMiddleware_cases config w c _ _
             (parseBody_accepted w c _ Hct Hne Hparse)).
  rewrite a2aPost_stored, Hfailed, Hpass.
  split; [reflexivity|]. now left.
Qed.

Lemma runtime_failure_reports_request_id_witness :
  snd (A2A.postA2A Sample.testConfig (withHandle (fun _ => Failed) Sample.world)
         (Sample.request (Some "application/json") (Sample.rpcText "tasks/get")))
  = Ok {| status := 200;
          body := A2A.RpcError (JString "1") (-32603) "Internal error" |}
  /\ In (RuntimeHandle (Sample.rpcBody "tasks/get"))
        (fst (A2A.postA2A Sample.testConfig
                (withHandle (fun _ => Failed) Sample.world)
                (Sample.request (Some "application/json")
                   (Sample.rpcText "tasks/get")))).
Proof.
  apply (runtime_failure_reports_request_id Sample.testConfig
           (withHandle (fun _ => Failed) Sample.world)
           (Sample.request (Some "application/json") (Sample.rpcText "tasks/get"))
           [("jsonrpc", JString "2.0"); ("id", JString "1");
            ("method", JString "tasks/get")]).
  - reflexivity.
  - reflexivity.
  - vm_compute. reflexivity.
  - reflexivity.
  - reflexivity.
Defined.


(* ================================================================= *)
(** ** Agent ids *)

Section AgentIds.

Import Api.

(** The language of [\d*] and of [\d+], read off the derivatives. *)
Lemma test_digits_star (s : string) :
  Re.test (Re.Star (Re.Cls JS.isDigit)) s
  = forallb JS.isDigit (list_ascii_of_string s).
Proof.
  induction s as [|a s IH]; [reflexivity|].
  cbn [Re.test Re.deriv list_ascii_of_string forallb].
  destruct (JS.isDigit a); cbn [Re.seq andb]; [exact IH|apply test_Void].
Qed.

Lemma test_reAgentId (s : string) :
  Re.test reAgentId s
  = negb (JS.isEmpty s) && forallb JS.isDigit (list_ascii_of_string s).
Proof.
  destruct s as [|a s]; [reflexivity|].
  unfold reAgentId, Re.plus.
  cbn [Re.test Re.deriv Re.nullable JS.isEmpty negb andb list_ascii_of_string
       forallb].
  destruct (JS.isDigit a); cbn [Re.seq andb];
    [apply test_digits_star|apply test_Void].
Qed.

(** [BigInt] reads every numeral, however long. *)
Lemma digitsValue_digits (s : string) (acc : Z) :
  forallb JS.isDigit (list_ascii_of_string s) = true ->
  0 <= acc ->
  exists v, digitsValue s acc = Some v /\ acc <= v.
Proof.
  revert acc. induction s as [|a s IH]; intros acc Hall Hacc.
  - exists acc. split; [reflexivity|lia].
  - cbn [list_ascii_of_string forallb] in Hall.
    apply andb_prop in Hall as [Ha Hs].
    cbn [digitsValue]. rewrite Ha.
    assert (48 <= Z.of_N (JS.code a)) as Hlow.
    { unfold JS.isDigit, JS.between in Ha. apply andb_prop in Ha as [Ha _].
      apply N.leb_le in Ha. lia. }
    destruct (IH (10 * acc + (Z.of_N (JS.code a) - 48)) Hs ltac:(lia))
      as [v [Hv Hle]].
    exists v. split; [exact Hv|lia].
Qed.

Lemma BigInt_digits (s : string) :
  Re.test reAgentId s = true -> exists v, BigInt s = Some v /\ 0 <= v.
Proof.
  rewrite test_reAgentId. intros H. apply andb_prop in H as [Hne Hall].
  destruct s as [|a s]; [discriminate|].
  unfold BigInt. apply digitsValue_digits; [exact Hall|lia].
Qed.

(** The decimal rendering of a number, digit by digit. *)
Lemma digitsValue_uint_acc (d : Decimal.uint) (acc : positive) :
  digitsValue (DecimalString.NilEmpty.string_of_uint d) (Z.pos acc)
  = Some (Z.pos (Pos.of_uint_acc d acc)).
Proof.
  revert acc. induction d; intros acc; [reflexivity|..];
    cbn [DecimalString.NilEmpty.string_of_uint digitsValue Pos.of_uint_acc];
    match goal with
    | |- (if JS.isDigit ?a then _ else _) = _ =>
        change (JS.isDigit a) with true; cbv iota
    end;
    rewrite <- IHd; f_equal;
    match goal with
    | |- context [JS.code ?a] =>
        let v := eval vm_compute in (Z.of_N (JS.code a)) in
        change (Z.of_N (JS.code a)) with v
    end; lia.
Qed.

Lemma digitsValue_uint (d : Decimal.uint) :
  digitsValue (DecimalString.NilEmpty.string_of_uint d) 0
  = Some (Z.of_N (Pos.of_uint d)).
Proof.
  induction d; [reflexivity|exact IHd|..];
    cbn [DecimalString.NilEmpty.string_of_uint digitsValue Pos.of_uint];
    match goal with
    | |- (if JS.isDigit ?a then _ else _) = _ =>
        change (JS.isDigit a) with true; cbv iota
    end;
    apply digitsValue_uint_acc.
Qed.

Lemma string_of_uint_digits (d : Decimal.uint) :
  forallb JS.isDigit
    (list_ascii_of_string (DecimalString.NilEmpty.string_of_uint d)) = true.
Proof. induction d; [reflexivity|..]; exact IHd. Qed.

Lemma showZ_pos (p : positive) :
  exists a s,
    JS.showZ (Z.pos p) = String a s
    /\ String a s = DecimalString.NilEmpty.string_of_uint (Pos.to_uint p).
Proof.
  unfold JS.showZ. cbn [Z.to_int DecimalString.NilZero.string_of_int].
  pose proof (DecimalPos.Unsigned.to_uint_nonnil p) as Hnonnil.
  destruct (Pos.to_uint p) eqn:Hd; [now destruct Hnonnil|..];
    do 2 eexists; split; reflexivity.
Qed.

Lemma BigInt_showZ (n : Z) : 0 <= n -> BigInt (JS.showZ n) = Some n.
Proof.
  intros Hn. destruct n as [|p|p]; [reflexivity| |lia].
  destruct (showZ_pos p) as [a [s [-> Hs]]]. unfold BigInt. rewrite Hs.
  rewrite digitsValue_uint. now rewrite DecimalPos.Unsigned.of_to.
Qed.

Lemma test_reAgentId_showZ (n : Z) :
  0 <= n -> Re.test reAgentId (JS.showZ n) = true.
Proof.
  intros Hn. rewrite test_reAgentId. destruct n as [|p|p]; [reflexivity| |lia].
  destruct (showZ_pos p) as [a [s [-> Hs]]]. rewrite Hs.
  rewrite string_of_uint_digits. rewrite <- Hs. reflexivity.
Qed.

Lemma parseAgentIdParam_showZ (n : Z) :
  0 <= n -> parseAgentIdParam (JS.showZ n) = ParamOk n.
Proof.
  intros Hn. unfold parseAgentIdParam.
  now rewrite (test_reAgentId_showZ n Hn), (BigInt_showZ n Hn).
Qed.

Lemma agentIdSchema_showZ (n : Z) :
  0 <= n -> agentIdSchema (Some (JString (JS.showZ n))) = Some n.
Proof.
  intros Hn. unfold agentIdSchema.
  now rewrite (test_reAgentId_showZ n Hn), (BigInt_showZ n Hn).
Qed.

End AgentIds.

(** X4: the path parameter of the profile route is either refused by the
    pattern of the schema or read as a non-negative integer, however many
    digits it has: the answer "agentId is out of range" is never given. *)
Theorem agentId_param_is_never_out_of_range (s : string) :
  (Re.test Api.reAgentId s = true
   /\ exists v, Api.parseAgentIdParam s = Api.ParamOk v /\ 0 <= v)
  \/ (Re.test Api.reAgentId s = false
      /\ Api.parseAgentIdParam s
         = Api.ParamFail (Api.Flattened [Api.agentIdMessage] [])).
Proof.
  unfold Api.parseAgentIdParam.
  destruct (Re.test Api.reAgentId s) eqn:Hre.
  - left. split; [reflexivity|].
    destruct (BigInt_digits s Hre) as [v [-> Hv]]. now exists v.
  - right. split; reflexivity.
Qed.

(** X5: decimal round trip.  The decimal rendering of a non-negative
    integer is accepted as an agent id, in the path and in the input of an
    invoke request, and is read back as that integer; so the [agentId] that
    a response reports names the agent that was asked for, also when the
    request wrote it with leading zeros. *)
Theorem agentId_decimal_round_trip (n : Z) :
  0 <= n ->
  Api.parseAgentIdParam (JS.showZ n) = Api.ParamOk n
  /\ Api.agentIdSchema (Some (JString (JS.showZ n))) = Some n
  /\ (forall s, Api.parseAgentIdParam s = Api.ParamOk n ->
                Api.parseAgentIdParam (JS.showZ n) = Api.parseAgentIdParam s).
Proof.
  intros Hn. split; [|split].
  - now apply parseAgentIdParam_showZ.
  - now apply agentIdSchema_showZ.
  - intros s Hs. rewrite Hs. now apply parseAgentIdParam_showZ.
Qed.

Lemma agentId_decimal_round_trip_witness :
  Api.parseAgentIdParam "42" = Api.ParamOk 42
  /\ Api.agentIdSchema (Some (JString "42")) = Some 42
  /\ (forall s, Api.parseAgentIdParam s = Api.ParamOk 42 ->
                Api.parseAgentIdParam "42" = Api.parseAgentIdParam s).
Proof.
  apply (agentId_decimal_round_trip 42). lia.
Defined.

(** X6: in the input of an invoke request a JSON number is read as the
    binary64 value of its numeral.  It is accepted as agent id exactly when
    that value is a non-negative integer, and then it is that integer.  For
    an integer up to 2^53 the number and its decimal text name the same
    agent; beyond, they need not: the number 9007199254740993 names agent
    9007199254740992 while the text names 9007199254740993, and a numeral
    like 1e400, whose value is infinite, is refused. *)
Theorem agentId_number_form (q : Q) (v : Z) :
  (Api.agentIdSchema (Some (JNumber q)) = Some v
   <-> Double.round q = Double.Finite (inject_Z v) /\ 0 <= v)
  /\ (0 <= v <= 2 ^ 53 ->
      Api.agentIdSchema (Some (JNumber (inject_Z v)))
      = Api.agentIdSchema (Some (JString (JS.showZ v))))
  /\ Api.agentIdSchema (Some (JNumber (inject_Z 9007199254740993)))
     = Some 9007199254740992
  /\ Api.agentIdSchema (Some (JString "9007199254740993"))
     = Some 9007199254740993
  /\ Api.agentIdSchema (Some (JNumber (inject_Z (10 ^ 400)))) = None.
Proof.
  assert (forall q' v',
             Api.agentIdSchema (Some (JNumber q')) = Some v'
             <-> Double.round q' = Double.Finite (inject_Z v') /\ 0 <= v') as Hiff.
  { intros q' v'. unfold Api.agentIdSchema. split.
    - destruct (Double.round q') as [| |a] eqn:R; try discriminate.
      destruct (Double.isInteger (Double.Finite a)) eqn:I; [|discriminate].
      destruct (Double.isNegative a) eqn:N; [discriminate|].
      cbn [andb negb]. intros [= <-].
      pose proof (isInteger_Finite _ _ R I) as E.
      split; [now rewrite <- E|].
      apply isNegative_false in N. rewrite E in N.
      change 0%Q with (inject_Z 0) in N. now rewrite <- Zle_Qle in N.
    - intros [-> Hv]. unfold Double.isInteger.
      rewrite Qred_inject_Z. cbn [inject_Z Qnum Qden].
      rewrite (isNegative_inject_Z v' Hv). reflexivity. }
  split; [apply Hiff|]. split; [|split; [|split]].
  - intros Hv.
    rewrite (agentIdSchema_showZ v) by lia.
    apply Hiff. split; [apply round_Z; lia | lia].
  - vm_compute. reflexivity.
  - vm_compute. reflexivity.
  - vm_compute. reflexivity.
Qed.

(* ================================================================= *)
(** ** Resolution of a token URI that is no IPFS pointer *)

Section PlainResolution.

Import Api.

Variable w : World.

Lemma candidates_length (uri : string) : (List.length (candidates uri) <= 3)%nat.
Proof.
  unfold candidates, ipfsGateways.
  destruct (JS.startsWith "ipfs://" uri); simpl; lia.
Qed.

Lemma tryCandidates_one (uri : string) (initial : Z) :
  tryCandidates w [uri] initial
  = ([Fetch uri],
     match fetch w uri with
     | None =>
         Throw (RegistrationFileError "Failed to fetch registration file: 502" 502)
     | Some r =>
         if resp_ok r
         then match JSON_parse w (resp_body r) with
              | Some doc => Ok doc
              | None => Throw syntaxError
              end
         else Throw (RegistrationFileError
                       ("Failed to fetch registration file: "
                        ++ JS.showZ (resp_status r))
                       (resp_status r))
     end).
Proof.
  cbn [tryCandidates]. unfold bind, call, throw.
  destruct (fetch w uri) as [r|]; [|reflexivity].
  unfold response_json, ret, throw. destruct (resp_ok r).
  - destruct (JSON_parse w (resp_body r)); reflexivity.
  - destruct (resp_status r =? 404); reflexivity.
Qed.

End PlainResolution.

(** X7: a token URI that is neither an IPFS pointer nor an inline document
    that decodes is fetched as it stands, once.  A success status gives the
    document of the body; a failure gives the error with the status of the
    response, or with 502 when there was no response, which the routes
    answer with 404 when that status is 404 and with 500 otherwise (never
    with 502). *)
Theorem plain_uri_is_fetched_once (w : World) (chain : string) (agentId : Z)
    (uri : string) :
  getTokenURI w chain agentId = Ok uri ->
  JS.startsWith "ipfs://" uri = false ->
  Json.truthy (Api.parseDataUri w uri) = false ->
  fst (Api.fetchRegistrationFile w chain agentId)
  = [GetTokenURI chain agentId; Fetch uri]
  /\ (forall r doc,
         fetch w uri = Some r -> resp_ok r = true ->
         JSON_parse w (resp_body r) = Some doc ->
         snd (Api.fetchRegistrationFile w chain agentId) = Ok doc)
  /\ (forall r,
         fetch w uri = Some r -> resp_ok r = false ->
         snd (Api.fetchRegistrationFile w chain agentId)
         = Throw (RegistrationFileError
                    ("Failed to fetch registration file: "
                     ++ JS.showZ (resp_status r))
                    (resp_status r)))
  /\ (fetch w uri = None ->
      snd (Api.fetchRegistrationFile w chain agentId)
      = Throw (RegistrationFileError
                 "Failed to fetch registration file: 502" 502))
  /\ (forall errorMessage e,
         snd (Api.fetchRegistrationFile w chain agentId) = Throw e ->
         status (Api.endpointError errorMessage e)
         = if match fetch w uri with
              | Some r => negb (resp_ok r) && (resp_status r =? 404)
              | None => false
              end
           then 404 else 500).
Proof.
  intros Huri Hipfs Hdata.
  rewrite (fetchRegistrationFile_unfold w chain agentId uri Huri).
  unfold Api.resolveTokenUri, Api.candidates. rewrite Hdata, Hipfs.
  rewrite tryCandidates_one. cbn [fst snd].
  split; [reflexivity|].
  split; [intros r doc -> -> ->; reflexivity|].
  split; [intros r -> ->; reflexivity|].
  split; [intros ->; reflexivity|].
  intros errorMessage e.
  destruct (fetch w uri) as [r|].
  - destruct (resp_ok r) eqn:Hok.
    + destruct (JSON_parse w (resp_body r)); [discriminate|].
      intros [= <-]. reflexivity.
    + intros [= <-]. cbn [negb andb Api.endpointError].
      destruct (resp_status r =? 404); reflexivity.
  - intros [= <-]. reflexivity.
Qed.

Lemma plain_uri_is_fetched_once_witness :
  fst (Api.fetchRegistrationFile
         (withFetch Sample.offline Sample.world) "base" 3)
  = [GetTokenURI "base" 3; Fetch "data:application/json;base64,bm90IGpzb24="]
  /\ snd (Api.fetchRegistrationFile
            (withFetch Sample.offline Sample.world) "base" 3)
     = Throw (RegistrationFileError
                "Failed to fetch registration file: 502" 502).
Proof.
  pose proof (plain_uri_is_fetched_once
                (withFetch Sample.offline Sample.world) "base" 3
                "data:application/json;base64,bm90IGpzb24="
                eq_refl eq_refl eq_refl) as [Htrace [_ [_ [Hnone _]]]].
  split; [exact Htrace|exact (Hnone eq_refl)].
Defined.

(** X8: reading a registration file costs one read of the token URI and at
    most three requests over the network, which are the first candidates of
    the token URI, in their order. *)
Theorem resolution_makes_at_most_three_requests (w : World) (chain : string)
    (agentId : Z) :
  exists urls,
    fst (Api.fetchRegistrationFile w chain agentId)
    = GetTokenURI chain agentId :: map Fetch urls
    /\ (List.length urls <= 3)%nat
    /\ (forall uri,
           getTokenURI w chain agentId = Ok uri ->
           exists n, urls = firstn n (Api.candidates uri)).
Proof.
  unfold Api.fetchRegistrationFile, bind, call.
  destruct (getTokenURI w chain agentId) as [uri|e].
  - unfold Api.resolveTokenUri.
    destruct (Json.truthy (Api.parseDataUri w uri)).
    + exists []. cbn. split; [reflexivity|split; [lia|]].
      intros uri' _. now exists 0%nat.
    + destruct (tryCandidates_trace w (Api.candidates uri) 500) as [n Hn].
      destruct (Api.tryCandidates w (Api.candidates uri) 500) as [t r].
      cbn [fst] in Hn. subst t.
      exists (firstn n (Api.candidates uri)).
      split; [reflexivity|split].
      * rewrite length_firstn. pose proof (candidates_length uri). lia.
      * intros uri' [= <-]. now exists n.
  - exists []. split; [reflexivity|split; [simpl; lia|]]. discriminate.
Qed.

(* ================================================================= *)
(** ** The routes of the API compared *)

Section RouteFacts.

Import Api Compare.

Variable w : World.

Lemma agentIdSchema_nonneg (v : option JSON) (agentId : Z) :
  agentIdSchema v = Some agentId -> 0 <= agentId.
Proof.
  unfold agentIdSchema.
  destruct v as [[| |q|s| |]|]; try discriminate.
  - destruct (Double.round q) as [| |a] eqn:R; try discriminate.
    destruct (Double.isInteger (Double.Finite a)) eqn:I; [|discriminate].
    destruct (Double.isNegative a) eqn:N; [discriminate|].
    cbn [andb negb]. intros [= <-].
    apply isNegative_false in N. rewrite (isInteger_Finite _ _ R I) in N.
    change 0%Q with (inject_Z 0) in N. now rewrite <- Zle_Qle in N.
  - destruct (Re.test reAgentId s) eqn:Hre; [|discriminate].
    destruct (BigInt_digits s Hre) as [v [-> Hv]]. now intros [= <-].
Qed.

Lemma bind_onResult {A B C} (f : B -> C) (m : M A) (k : A -> M B)
    (k' : A -> M C) :
  (forall a, k' a = onResult f (k a)) ->
  bind m k' = onResult f (bind m k).
Proof.
  intros Hk. unfold bind, onResult. destruct m as [t [a|e]]; [|reflexivity].
  rewrite Hk. unfold onResult. destruct (k a) as [t' [b|e]]; reflexivity.
Qed.

(** The two profile routes read the registry alike. *)
Lemma readProfile_registrations (chainName : string) (agentId : Z) :
  readProfile w chainName agentId false
  = onResult withoutRegistrations (readProfile w chainName agentId true).
Proof.
  unfold readProfile. repeat (apply bind_onResult; intros). reflexivity.
Qed.

Lemma guarded_profile (chainName : string) (agentId : Z) :
  guarded "Failed to fetch agent profile"
    (profile <- readProfile w chainName agentId false ;;
     ret (c_json (ProfileOutput profile)))
  = onResult asInvokeOutput
      (guarded "Failed to fetch agent profile"
         (profile <- readProfile w chainName agentId true ;;
          ret (c_json (ProfileBody profile)))).
Proof.
  rewrite readProfile_registrations.
  destruct (readProfile w chainName agentId true) as [t [p|e]].
  - reflexivity.
  - unfold guarded, catch, bind, onResult. cbn [fst snd].
    unfold endpointError, asInvokeOutput.
    destruct e as [message st| |]; [destruct (st =? 404)|..]; reflexivity.
Qed.

End RouteFacts.

(** X9: the two profile routes agree.  An invoke request whose input names
    an agent and a chain is answered as GET /agent/:id/profile answers for
    the decimal text of the id that the schema reads and that chain, after
    the same calls: the same status, the same error, and the same profile,
    put under [output] and without [registrations].  The id that the schema
    reads from a text is its numeral; from a number it is the integer that
    the binary64 value of the number holds, so the number 9007199254740993
    is answered as GET /agent/9007199254740992/profile is. *)
Theorem profile_routes_agree (w : World) (raw : string)
    (top fields : list (string * JSON)) (agentId : Z) (chain : string) :
  Api.requestJson w raw = JObject top ->
  Json.lookup "input" top = Some (JObject fields) ->
  Api.agentIdSchema (Json.lookup "agentId" fields) = Some agentId ->
  Api.chainSchema (Json.lookup "chain" fields) = Some chain ->
  JS.isEmpty chain = false ->
  Api.postProfileInvoke w raw
  = Compare.onResult Compare.asInvokeOutput
      (Api.getProfile w (JS.showZ agentId) (Some chain)).
Proof.
  intros Hjson Hinput Hid Hchain Hne.
  unfold Api.postProfileInvoke, Api.getProfile.
  rewrite Hjson. cbn [Api.invokeEnvelopeSchema Json.get]. rewrite Hinput.
  cbn [Api.profileInputSchema Json.get]. rewrite Hid, Hchain, Hne.
  rewrite (parseAgentIdParam_showZ agentId (agentIdSchema_nonneg _ _ Hid)).
  apply guarded_profile.
Qed.

Lemma profile_routes_agree_witness :
  Api.postProfileInvoke Sample.world (Sample.invokeText "2")
  = Compare.onResult Compare.asInvokeOutput
      (Api.getProfile Sample.world "2" (Some "base"))
  /\ Api.postProfileInvoke Sample.world
       (Samples.invokeNumberText "9007199254740993")
     = Compare.onResult Compare.asInvokeOutput
         (Api.getProfile Sample.world "9007199254740992" (Some "base")).
Proof.
  split.
  - apply (profile_routes_agree Sample.world (Sample.invokeText "2")
             [("input", JObject [("agentId", JString "2")])]
             [("agentId", JString "2")] 2 "base").
    + vm_compute. reflexivity.
    + reflexivity.
    + reflexivity.
    + reflexivity.
    + reflexivity.
  - apply (profile_routes_agree Sample.world
             (Samples.invokeNumberText "9007199254740993")
             [("input", JObject [("agentId", JNumber (inject_Z 9007199254740993))])]
             [("agentId", JNumber (inject_Z 9007199254740993))]
             9007199254740992 "base").
    + vm_compute. reflexivity.
    + reflexivity.
    + vm_compute. reflexivity.
    + reflexivity.
    + reflexivity.
Defined.

Section ChainFacts.

Import Api Compare.

Variable w : World.

Lemma createClients_fallback (chainName : string) :
  fallsBack chainName = true -> createClients chainName = ret "base".
Proof.
  unfold fallsBack, createClients. intros H. apply andb_prop in H as [Hown Hinh].
  apply negb_true_iff in Hown, Hinh. now rewrite Hown, Hinh.
Qed.

Lemma readProfile_fallback (chainName : string) (agentId : Z) (b : bool) :
  fallsBack chainName = true ->
  readProfile w chainName agentId b
  = onResult (profileUnder chainName) (readProfile w "base" agentId b).
Proof.
  intros Hfb. unfold readProfile. rewrite (createClients_fallback _ Hfb).
  change (createClients "base") with (@ret string "base").
  repeat (apply bind_onResult; intros). reflexivity.
Qed.

Lemma underChain_endpointError (chain errorMessage : string) (e : Exn) :
  underChain chain (endpointError errorMessage e) = endpointError errorMessage e.
Proof.
  unfold endpointError.
  destruct e as [message st| |]; [destruct (st =? 404)|..]; reflexivity.
Qed.

End ChainFacts.

(** X10: a chain name that the gateway does not know is served from the
    registries of Base, and the answer still carries the name that was
    asked for: the profile, the score and the validation of an agent on an
    unknown chain are those of the agent with that id on Base, computed
    with the same calls, and differ from them only in the member [chain]. *)
Theorem unknown_chain_is_served_from_base (w : World) (chainName : string)
    (agentId : Z) (checks : list Api.Check) (agentIdParam : string) :
  Compare.fallsBack chainName = true ->
  JS.isEmpty chainName = false ->
  Api.getProfile w agentIdParam (Some chainName)
  = Compare.onResult (Compare.underChain chainName)
      (Api.getProfile w agentIdParam (Some "base"))
  /\ Api.scoreAgent w agentId chainName
     = Compare.onResult (Compare.underChain chainName)
         (Api.scoreAgent w agentId "base")
  /\ Api.validateAgent w agentId chainName checks
     = Compare.onResult (Compare.underChain chainName)
         (Api.validateAgent w agentId "base" checks).
Proof.
  intros Hfb Hne. split; [|split].
  - unfold Api.getProfile. rewrite Hne. cbn [JS.isEmpty].
    destruct (Api.parseAgentIdParam agentIdParam) as [v|details];
      [|reflexivity].
    rewrite (readProfile_fallback w chainName v true Hfb).
    destruct (Api.readProfile w "base" v true) as [t [q|e]]; [reflexivity|].
    unfold Api.guarded, catch, bind, Compare.onResult, ret. cbn [fst snd].
    now rewrite underChain_endpointError.
  - unfold Api.scoreAgent. rewrite (createClients_fallback _ Hfb).
    change (Api.createClients "base") with (@ret string "base").
    repeat (apply bind_onResult; intros). reflexivity.
  - unfold Api.validateAgent. rewrite (createClients_fallback _ Hfb).
    change (Api.createClients "base") with (@ret string "base").
    repeat (apply bind_onResult; intros). reflexivity.
Qed.

Lemma unknown_chain_is_served_from_base_witness :
  Api.getProfile Sample.world "2" (Some "polygon")
  = Compare.onResult (Compare.underChain "polygon")
      (Api.getProfile Sample.world "2" (Some "base"))
  /\ Api.scoreAgent Sample.world 2 "polygon"
     = Compare.onResult (Compare.underChain "polygon")
         (Api.scoreAgent Sample.world 2 "base")
  /\ Api.validateAgent Sample.world 2 "polygon" [Api.Wallet]
     = Compare.onResult (Compare.underChain "polygon")
         (Api.validateAgent Sample.world 2 "base" [Api.Wallet]).
Proof.
  apply (unknown_chain_is_served_from_base Sample.world "polygon" 2
           [Api.Wallet] "2"); reflexivity.
Defined.

Section AnswerFacts.

Import Api Compare.

Variable w : World.

Lemma badRequest_wellAnswered (error : string) (details : option Details) :
  wellAnswered (ret (badRequest error details)).
Proof.
  exists [], (badRequest error details). split; [reflexivity|].
  cbn [status body badRequest errorBody].
  split; [right; now left|split; [reflexivity|]]. intros _. now do 2 eexists.
Qed.

(** A guarded computation whose own answers have status 200. *)
Lemma guarded_wellAnswered (errorMessage : string) (m : M (Response ApiBody)) :
  (forall t response, m = (t, Ok response) -> status response = 200) ->
  wellAnswered (guarded errorMessage m).
Proof.
  intros H200.
  destruct (guarded_total errorMessage m) as [t [response [Hg Hcases]]].
  exists t, response. split; [exact Hg|].
  destruct Hcases as [Hm|[e [_ ->]]].
  - rewrite (H200 _ _ Hm).
    split; [now left|split; [discriminate|]]. intros Hne. now destruct Hne.
  - destruct (endpointError_status errorMessage e) as [[H404|H500] [details Hbody]];
      rewrite ?H404, ?H500.
    + split; [right; right; now left|split; [discriminate|]].
      intros _. now exists errorMessage, details.
    + split; [right; right; right; now left|split; [discriminate|]].
      intros _. now exists errorMessage, details.
Qed.

Lemma profile_status (chainName : string) (agentId : Z) (b : bool)
    (wrap : Profile -> ApiBody) (t : list Event) (response : Response ApiBody) :
  (profile <- readProfile w chainName agentId b ;; ret (c_json (wrap profile)))
  = (t, Ok response) ->
  status response = 200.
Proof.
  intros H. apply bind_Ok_inv in H as [t1 [p [t2 [_ [Hret _]]]]].
  now injection Hret as _ <-.
Qed.

Lemma scoreAgent_status (agentId : Z) (chainName : string) (t : list Event)
    (response : Response ApiBody) :
  scoreAgent w agentId chainName = (t, Ok response) -> status response = 200.
Proof.
  unfold scoreAgent. intros H.
  apply bind_Ok_inv in H as [t1 [chain [t2 [_ [H _]]]]].
  apply bind_Ok_inv in H as [t3 [doc [t4 [_ [H _]]]]].
  apply bind_Ok_inv in H as [t5 [fb [t6 [_ [H _]]]]].
  apply bind_Ok_inv in H as [t7 [file [t8 [_ [Hret _]]]]].
  now injection Hret as _ <-.
Qed.

Lemma validateAgent_status (agentId : Z) (chainName : string)
    (checks : list Check) (t : list Event) (response : Response ApiBody) :
  validateAgent w agentId chainName checks = (t, Ok response) ->
  status response = 200.
Proof.
  intros H.
  destruct (validateAgent_Ok w _ _ _ _ _ H)
    as [chain [doc [owner [t0 [t1 [checked [name [_ [_ [_ ->]]]]]]]]]].
  reflexivity.
Qed.

End AnswerFacts.

(** X11: every route of the API answers, whatever the request and whatever
    the registries and the network do: no exception leaves a handler.  The
    status is 200, 400, 404 or 500; a request answered with 400 was refused
    before any call to a registry or to the network; every answer with
    another status than 200 carries an error body. *)
Theorem api_routes_always_answer (w : World) (agentIdParam raw : string)
    (chainQuery : option string) :
  Compare.wellAnswered (Api.getProfile w agentIdParam chainQuery)
  /\ Compare.wellAnswered (Api.postProfileInvoke w raw)
  /\ Compare.wellAnswered (Api.postScoreInvoke w raw)
  /\ Compare.wellAnswered (Api.postValidateInvoke w raw).
Proof.
  split; [|split; [|split]].
  - unfold Api.getProfile.
    destruct (Api.parseAgentIdParam agentIdParam) as [agentId|details].
    + apply guarded_wellAnswered. intros t response. apply profile_status.
    + apply badRequest_wellAnswered.
  - unfold Api.postProfileInvoke.
    destruct (Api.invokeEnvelopeSchema (Api.requestJson w raw)) as [input|details];
      [|apply badRequest_wellAnswered].
    destruct (Api.profileInputSchema input) as [[agentId chain]|details];
      [|apply badRequest_wellAnswered].
    apply guarded_wellAnswered. intros t response. apply profile_status.
  - unfold Api.postScoreInvoke.
    destruct (Api.invokeEnvelopeSchema (Api.requestJson w raw)) as [input|details];
      [|apply badRequest_wellAnswered].
    destruct (Api.scoreInputSchema input) as [[agentId chain]|details];
      [|apply badRequest_wellAnswered].
    apply guarded_wellAnswered. intros t response. apply scoreAgent_status.
  - unfold Api.postValidateInvoke.
    destruct (Api.invokeEnvelopeSchema (Api.requestJson w raw)) as [input|details];
      [|apply badRequest_wellAnswered].
    destruct (Api.validateInputSchema input) as [[[agentId chain] checks]|details];
      [|apply badRequest_wellAnswered].
    apply guarded_wellAnswered. intros t response. apply validateAgent_status.
Qed.

(* ================================================================= *)
(** ** Bounds of the trust score *)

Section ScoreBounds.

Import Api.

Lemma identityMaturity_range (file : RegistrationFile) :
  (0 <= identityMaturity file <= 60)%Z.
Proof.
  unfold identityMaturity.
  destruct (hasEndpoints file), (hasTrustMethods file), (longDescription file);
    lia.
Qed.

End ScoreBounds.

Section BonusFacts.

Import Double.
#[local] Open Scope Q_scope.

Variable file : Api.RegistrationFile.
Variable xs : list double.
Hypothesis Hall : Forall (fun x => between 0 100 x = true) xs.
Hypothesis Hlen : (Z.of_nat (List.length xs) < 2 ^ 32)%Z.

Lemma pow2_values :
  pow2 7 == 128 /\ pow2 8 == 256 /\ pow2 (7 - 54) <= 1 # 1000
  /\ pow2 (8 - 54) <= 1 # 1000 /\ 0 < pow2 (7 - 54) /\ 0 < pow2 (8 - 54).
Proof. repeat split; vm_compute; try reflexivity; discriminate. Qed.

(** The raw score is the exact sum of its three parts, up to 2/1000. *)
Lemma rawScore_error :
  exists eb mb cb raw,
    Api64.effectiveBaseScore xs = Finite eb /\ 0 <= eb /\ eb <= 100
    /\ Api64.maturityBonus file = Finite mb /\ 0 <= mb /\ mb <= 18
    /\ Api64.confidenceBonus xs = Finite cb /\ 0 <= cb /\ cb <= 10
    /\ Api64.rawScore file xs = Finite raw
    /\ eb + mb + cb - (2 # 1000) <= raw /\ raw <= eb + mb + cb + (2 # 1000).
Proof.
  destruct (effectiveBaseScore_bounds xs Hall Hlen) as [eb [Heb [E0 E1]]].
  destruct (maturityBonus_bounds file) as [mb [Hmb [M0 M1]]].
  destruct (confidenceBonus_bounds xs Hall Hlen) as [cb [Hcb [C0 C1]]].
  destruct pow2_values as [P7 [P8 [S7 [S8 [Z7 Z8]]]]].
  unfold Api64.rawScore. rewrite Heb, Hmb, Hcb.
  destruct (add_error eb mb 7) as [s [Hs [Spos [S0 S1]]]]; try lia; try lra.
  rewrite Hs.
  destruct (add_error s cb 8) as [raw [Hraw [Rpos [R0 R1]]]]; try lia; try lra.
  exists eb, mb, cb, raw. rewrite Hraw.
  repeat split; try assumption; lra.
Qed.

End BonusFacts.

Section BonusFacts2.

Import Double.
#[local] Open Scope Q_scope.

Variable file : Api.RegistrationFile.
Variable xs : list double.
Hypothesis Hall : Forall (fun x => between 0 100 x = true) xs.
Hypothesis Hlen : (Z.of_nat (List.length xs) < 2 ^ 32)%Z.

Lemma two_tenths_of_three :
  exists c v, round (2 # 10) = Finite c /\ 0 <= c
              /\ round (3 * c) = Finite v /\ 1 # 2 <= v.
Proof.
  do 2 eexists. split; [vm_compute; reflexivity|]. split; [discriminate|].
  split; [vm_compute; reflexivity|]. discriminate.
Qed.

(** With feedback, the confidence bonus is at least a half. *)
Lemma confidenceBonus_lower :
  xs <> [] ->
  exists cb, Api64.confidenceBonus xs = Finite cb /\ 1 # 2 <= cb.
Proof.
  intros Hne. unfold Api64.confidenceBonus, Api64.reputationConfidence.
  pose proof (volumeScore_bounds xs) as [V0 V1].
  assert (3 <= Api64.volumeScore xs)%Z as V3.
  { unfold Api64.volumeScore, Api64.feedbackCount.
    destruct xs; [contradiction|]. cbn [List.length]. lia. }
  rewrite ofZ_value by lia.
  destruct (consistencyScore_bounds xs Hall Hlen) as [c [-> [C0 C1]]].
  assert (3 <= inject_Z (Api64.volumeScore xs)) as V3'
    by (change 3 with (inject_Z 3); now rewrite <- Zle_Qle).
  assert (inject_Z (Api64.volumeScore xs) <= 30) as V1'
    by (change 30 with (inject_Z 30); now rewrite <- Zle_Qle).
  destruct (add_range (inject_Z (Api64.volumeScore xs)) c 3 50)
    as [rc [-> [R0 R1]]]; try lia.
  - change (inject_Z 3) with 3. lra.
  - change (inject_Z 50) with 50. lra.
  - change (inject_Z 3) with 3 in R0. change (inject_Z 50) with 50 in R1.
    destruct two_tenths_of_three as [c2 [v [Hc2 [C20 [Hv V]]]]].
    destruct two_tenths as [c2' [Hc2' [_ C50]]].
    assert (c2' = c2) as -> by congruence.
    rewrite Hc2. cbn [mul].
    destruct (round_between (rc * c2) (3 * c2) (50 * c2) v 10)
      as [cb [-> [B0 B1]]]; try assumption.
    + apply Qmult_le_compat_r; assumption.
    + apply Qmult_le_compat_r; assumption.
    + exists cb. split; [reflexivity|]. lra.
Qed.

(** The raw score is not below the base score. *)
Lemma rawScore_lower :
  exists eb raw,
    Api64.effectiveBaseScore xs = Finite eb
    /\ Api64.rawScore file xs = Finite raw
    /\ eb <= raw.
Proof.
  destruct (rawScore_error file xs Hall Hlen)
    as [eb [mb [cb [raw [Heb [E0 [E1 [Hmb [M0 [M1 [Hcb [C0 [C1 [Hraw [R0 R1]]]]]]]]]]]]]]].
  exists eb, raw. split; [exact Heb|]. split; [exact Hraw|].
  assert (xs = [] \/ xs <> []) as [E|Hne]
    by (clear; destruct xs; [left; reflexivity|right; discriminate]).
  - clear R0 R1. rewrite E in Heb, Hcb, Hraw. unfold Api64.rawScore in Hraw.
    rewrite Hmb in Hraw.
    assert (eb = 50) as ->.
    { unfold Api64.effectiveBaseScore in Heb. cbn in Heb. congruence. }
    assert (Api64.confidenceBonus [] = Finite 0) as Hzero
      by (vm_compute; reflexivity).
    rewrite Hzero in Hraw.
    assert (inject_Z 50 <= 50 + mb) as L1 by (change (inject_Z 50) with 50; lra).
    assert (50 + mb <= inject_Z 118) as U1
      by (change (inject_Z 118) with 118; lra).
    destruct (add_range 50 mb 50 118 ltac:(lia) ltac:(lia) L1 U1)
      as [s [Hs [S0 S1]]].
    rewrite Heb, Hs in Hraw.
    change (inject_Z 50) with 50 in S0. change (inject_Z 118) with 118 in S1.
    assert (inject_Z 50 <= s + 0) as L2 by (change (inject_Z 50) with 50; lra).
    assert (s + 0 <= inject_Z 118) as U2
      by (change (inject_Z 118) with 118; lra).
    destruct (add_range s 0 50 118 ltac:(lia) ltac:(lia) L2 U2)
      as [r [Hr [R0 R1]]].
    rewrite Hr in Hraw. injection Hraw as <-.
    change (inject_Z 50) with 50 in R0. exact R0.
  - destruct (confidenceBonus_lower Hne) as [cb' [Hcb' B]].
    assert (cb' = cb) as -> by congruence.
    lra.
Qed.

End BonusFacts2.

(** X12: the bonuses of the trust score, on binary64 values, are bounded as
    the comments of the source say: the identity maturity adds at most 18
    points, and the volume score reaches its maximum of 30 exactly from ten
    feedbacks on.  For fewer than 2^32 feedback scores between 0 and 100 the
    consistency score lies between 0 and 20, the reputation confidence adds
    at most 10 points, and the trust score is at least the rounded average
    of the feedback (the [feedbackScore] of the breakdown) and exceeds it
    by at most 29 points, up to the cap of 100.  The 29 are reached: ten
    scores 0.49999999999999994 under the sample document give the feedback
    score 0 and the trust score 29. *)
Theorem score_bonuses_are_bounded (file : Api.RegistrationFile)
    (xs : list Double.double) :
  (Api64.volumeScore xs = 30 <-> (10 <= List.length xs)%nat)
  /\ (exists mb,
        Api64.maturityBonus file = Double.Finite mb /\ (0 <= mb <= 18)%Q)
  /\ (Forall (fun x => Double.between 0 100 x = true) xs ->
      Z.of_nat (List.length xs) < 2 ^ 32 ->
      exists cs cb f k,
        Api64.consistencyScore xs = Double.Finite cs /\ (0 <= cs <= 20)%Q
        /\ Api64.confidenceBonus xs = Double.Finite cb /\ (0 <= cb <= 10)%Q
        /\ Api64.feedbackScore xs = Double.Finite (inject_Z f)
        /\ Api64.trustScore file xs = Double.Finite (inject_Z k)
        /\ 0 <= f <= k /\ k <= Z.min 100 (f + 29))
  /\ (let low := Double.round (49999999999999994 # 100000000000000000) in
      Api64.feedbackScore (repeat low 10) = Double.Finite 0
      /\ Api64.trustScore (Api.asRegistrationFile Sample.document)
           (repeat low 10)
         = Double.Finite 29).
Proof.
  split.
  { unfold Api64.volumeScore, Api64.feedbackCount. lia. }
  split.
  { destruct (maturityBonus_bounds file) as [mb [Hmb [M0 M1]]]. now exists mb. }
  split; [|split; vm_compute; reflexivity].
  intros Hall Hlen.
  destruct (consistencyScore_bounds xs Hall Hlen) as [cs [Hcs [S0 S1]]].
  destruct (rawScore_error file xs Hall Hlen)
    as [eb [mb [cb [raw [Heb [E0 [E1 [Hmb [M0 [M1 [Hcb [C0 [C1 [Hraw [R0 R1]]]]]]]]]]]]]]].
  destruct (rawScore_lower file xs Hall Hlen) as [eb' [raw' [Heb' [Hraw' Hlow]]]].
  assert (eb' = eb) as -> by congruence.
  assert (raw' = raw) as -> by congruence.
  set (f := Qfloor (eb + (1 # 2))).
  set (kr := Qfloor (raw + (1 # 2))).
  exists cs, cb, f, (Z.min 100 (Z.max 0 kr)).
  split; [exact Hcs|]. split; [split; assumption|].
  split; [exact Hcb|]. split; [split; assumption|].
  split; [unfold Api64.feedbackScore; rewrite Heb; reflexivity|].
  split.
  { unfold Api64.trustScore. rewrite Hraw. unfold Double.Math_round.
    apply clamp_Z. }
  assert (0 <= f <= 100) as [F0 F1].
  { unfold f. split.
    - assert (Qfloor (0 + (1 # 2)) <= Qfloor (eb + (1 # 2))) as H
        by (apply Math_round_le; exact E0).
      exact H.
    - assert (Qfloor (eb + (1 # 2)) <= Qfloor (100 + (1 # 2))) as H
        by (apply Math_round_le; exact E1).
      exact H. }
  assert (f <= kr) as FK by (apply Math_round_le; exact Hlow).
  assert (kr < f + 29 + 1) as KF.
  { apply Math_round_lt_add. change (inject_Z 29) with 29%Q.
    apply Qle_lt_trans with (eb + mb + cb + (2 # 1000))%Q; [exact R1|].
    apply Qle_lt_trans with (eb + 18 + 10 + (2 # 1000))%Q.
    - repeat apply Qplus_le_compat; try apply Qle_refl; assumption.
    - apply Qplus_lt_r with (z := (- eb)%Q). ring_simplify. reflexivity. }
  lia.
Qed.



Section ScoreRoute.

Import Api.

Variable w : World.

Lemma scoreAgent_Ok (agentId : Z) (chainName : string) (t : list Event)
    (response : Response ApiBody) :
  scoreAgent w agentId chainName = (t, Ok response) ->
  exists file feedback,
    response
    = c_json (ScoreOutputBody (scoreOutput agentId chainName file feedback)).
Proof.
  unfold scoreAgent. intros H.
  apply bind_Ok_inv in H as [t1 [chain [t2 [_ [H _]]]]].
  apply bind_Ok_inv in H as [t3 [doc [t4 [_ [H _]]]]].
  apply bind_Ok_inv in H as [t5 [fb [t6 [_ [H _]]]]].
  apply bind_Ok_inv in H as [t7 [file [t8 [_ [Hret _]]]]].
  injection Hret as _ <-. now exists file, fb.
Qed.

(** A score answered with status 200 is computed by [scoreOutput]. *)
Lemma postScoreInvoke_200 (raw : string) (t : list Event)
    (response : Response ApiBody) :
  postScoreInvoke w raw = (t, Ok response) ->
  status response = 200 ->
  exists agentId chainName file feedback,
    response
    = c_json (ScoreOutputBody (scoreOutput agentId chainName file feedback)).
Proof.
  unfold postScoreInvoke. intros Hroute H200.
  destruct (invokeEnvelopeSchema (requestJson w raw)) as [input|details];
    [|injection Hroute as _ <-; discriminate].
  destruct (scoreInputSchema input) as [[agentId chainName]|details];
    [|injection Hroute as _ <-; discriminate].
  destruct (guarded_total "Failed to compute trust score"
              (scoreAgent w agentId chainName))
    as [t' [response' [Hg Hcases]]].
  rewrite Hg in Hroute. injection Hroute as -> ->.
  destruct Hcases as [Hm|[e [_ ->]]].
  - destruct (scoreAgent_Ok _ _ _ _ Hm) as [file [feedback ->]].
    now exists agentId, chainName, file, feedback.
  - destruct (endpointError_status "Failed to compute trust score" e)
      as [[H404|H500] _]; lia.
Qed.

Lemma trustScore_unrated (file : RegistrationFile) :
  trustScore file [] = 50 + 3 * (identityMaturity file / 10).
Proof.
  unfold trustScore, effectiveBaseScore, maturityBonus, confidenceBonus,
    reputationConfidence, volumeScore, consistencyScore, feedbackCount,
    identityMaturity.
  change (List.length (@nil R)) with 0%nat.
  change (0 <? 0)%nat with false. cbv iota.
  change (Z.min 30 (Z.of_nat 0 * 3)) with 0.
  destruct (hasEndpoints file), (hasTrustMethods file), (longDescription file);
    match goal with
    | |- Z.min 100 (Z.max 0 (Math_round ?x)) = ?rhs =>
        let v := eval vm_compute in rhs in
        replace x with (IZR v) by (simpl; lra);
        rewrite Math_round_IZR; reflexivity
    end.
Qed.

End ScoreRoute.

(** X14: an agent without feedback, or whose feedback could not be read, is
    never rated low and never rated high.  When the score route answers
    with a feedback count of 0, the base score is the neutral 50, the trust
    score is 50 plus three points for every ten points of identity
    maturity, hence between 50 and 68, and the verdict is trusted when the
    identity maturity is at least 40 and neutral otherwise. *)
Theorem unrated_agent_is_neutral_or_trusted (w : World) (raw : string)
    (t : list Event) (output : Api.ScoreOutput) :
  Api.postScoreInvoke w raw
  = (t, Ok {| status := 200; body := Api.ScoreOutputBody output |}) ->
  Api.fs_count (Api.so_feedbackSummary output) = 0%nat ->
  Api.b_feedbackScore (Api.so_breakdown output) = 50
  /\ Api.so_trustScore output
     = 50 + 3 * (Api.b_identityMaturity (Api.so_breakdown output) / 10)
  /\ 50 <= Api.so_trustScore output <= 68
  /\ Api.so_verdict output
     = (if 40 <=? Api.b_identityMaturity (Api.so_breakdown output)
        then "trusted" else "neutral").
Proof.
  intros Hroute Hcount.
  destruct (postScoreInvoke_200 w raw t _ Hroute eq_refl)
    as [agentId [chainName [file [feedback Hresp]]]].
  injection Hresp as ->.
  cbn [Api.scoreOutput Api.so_feedbackSummary Api.fs_count Api.so_breakdown
       Api.b_feedbackScore Api.b_identityMaturity Api.so_trustScore
       Api.so_verdict] in *.
  unfold Api.feedbackCount in Hcount.
  destruct (Api.scores feedback) as [|x xs]; [|discriminate].
  rewrite trustScore_unrated.
  pose proof (identityMaturity_range file) as Hm.
  split.
  { unfold Api.effectiveBaseScore, Api.feedbackCount.
    cbn [List.length Nat.ltb Nat.leb]. apply (Math_round_IZR 50). }
  split; [reflexivity|].
  unfold Api.verdict, Api.identityMaturity.
  destruct (Api.hasEndpoints file), (Api.hasTrustMethods file),
    (Api.longDescription file); (split; [cbn; lia|reflexivity]).
Qed.

Lemma unrated_agent_is_neutral_or_trusted_witness :
  let output :=
    Api.scoreOutput 2 "base"
      (Api.asRegistrationFile (JObject [("name", JString "A")]))
      {| Api.scores := []; Api.clientAddresses := []; Api.warning := None |} in
  Api.b_feedbackScore (Api.so_breakdown output) = 50
  /\ Api.so_trustScore output
     = 50 + 3 * (Api.b_identityMaturity (Api.so_breakdown output) / 10)
  /\ 50 <= Api.so_trustScore output <= 68
  /\ Api.so_verdict output
     = (if 40 <=? Api.b_identityMaturity (Api.so_breakdown output)
        then "trusted" else "neutral").
Proof.
  apply (unrated_agent_is_neutral_or_trusted
           (withFeedback (Ok noFeedback) Sample.world) (Sample.invokeText "2")
           [GetTokenURI "base" 2; ReadAllFeedback "base" 2]).
  - reflexivity.
  - reflexivity.
Defined.

(* ================================================================= *)
(** ** The validation report, check by check *)

Section ReportShape.

Import Api ValidationPipeline Report.

Variable w : World.

(** One probe adds one status, for the endpoint it probed, and an issue
    exactly when that status is not reachable. *)
Lemma probeEndpoint_shape (ep : EndpointDecl) (r : ValidationReport) :
  exists s extra,
    probeEndpoint w ep r
    = ([Probe (ep_endpoint ep)],
       Ok {| endpointStatus := endpointStatus r ++ [s];
             walletStatus := walletStatus r;
             attestations := attestations r;
             overallVerdict := overallVerdict r;
             issues := issues r ++ extra |})
    /\ es_name s = ep_name ep
    /\ es_endpoint s = ep_endpoint ep
    /\ List.length extra = (if unreachable s then 1 else 0)%nat.
Proof.
  unfold probeEndpoint, call, bind, ret.
  destruct (probe w (ep_endpoint ep)) as [response latencyMs| |error];
    [destruct (resp_ok response)|..]; cbn [app].
  - do 2 eexists. split; [|split; [|split]].
    + unfold pushEndpointStatus. rewrite <- (app_nil_r (issues r)) at 1.
      reflexivity.
    + reflexivity.
    + reflexivity.
    + reflexivity.
  - do 2 eexists. split; [reflexivity|]. repeat split.
  - do 2 eexists. split; [reflexivity|]. repeat split.
  - do 2 eexists. split; [reflexivity|]. repeat split.
Qed.

Lemma probeEndpoints_shape (eps : list EndpointDecl) (r : ValidationReport) :
  exists ss extra,
    probeEndpoints w eps r
    = (map Probe (map ep_endpoint eps),
       Ok {| endpointStatus := endpointStatus r ++ ss;
             walletStatus := walletStatus r;
             attestations := attestations r;
             overallVerdict := overallVerdict r;
             issues := issues r ++ extra |})
    /\ map es_name ss = map ep_name eps
    /\ map es_endpoint ss = map ep_endpoint eps
    /\ List.length extra = List.length (filter unreachable ss).
Proof.
  revert r. induction eps as [|ep eps IH]; intros r.
  - exists [], []. cbn [probeEndpoints map]. rewrite !app_nil_r.
    destruct r. repeat split.
  - destruct (probeEndpoint_shape ep r) as [s [e1 [Hstep [Hn [He Hl]]]]].
    cbn [probeEndpoints]. rewrite (bind_Ok _ _ _ _ Hstep).
    destruct (IH {| endpointStatus := endpointStatus r ++ [s];
                    walletStatus := walletStatus r;
                    attestations := attestations r;
                    overallVerdict := overallVerdict r;
                    issues := issues r ++ e1 |})
      as [ss [e2 [Hrest [Hns [Hes Hls]]]]].
    rewrite Hrest. cbn [fst snd endpointStatus walletStatus attestations
                        overallVerdict issues map app].
    exists (s :: ss), (e1 ++ e2)%list.
    rewrite <- !app_assoc. cbn [app map filter].
    split; [reflexivity|]. rewrite Hn, He, Hns, Hes.
    split; [reflexivity|split; [reflexivity|]].
    rewrite length_app, Hl, Hls. destruct (unreachable s); reflexivity.
Qed.

Lemma checkEndpoints_shape (checks : list Check) (doc : JSON)
    (r : ValidationReport) :
  doc <> JNull ->
  exists ss extra,
    checkEndpoints w checks doc r
    = (if includes Endpoints checks
       then map Probe (map ep_endpoint (declaredEndpoints doc)) else [],
       Ok {| endpointStatus := endpointStatus r ++ ss;
             walletStatus := walletStatus r;
             attestations := attestations r;
             overallVerdict := overallVerdict r;
             issues := issues r ++ extra |})
    /\ map es_name ss
       = (if includes Endpoints checks
          then map ep_name (declaredEndpoints doc) else [])
    /\ map es_endpoint ss
       = (if includes Endpoints checks
          then map ep_endpoint (declaredEndpoints doc) else [])
    /\ List.length extra = List.length (filter unreachable ss).
Proof.
  intros Hdoc. unfold checkEndpoints, declaredEndpoints.
  destruct (includes Endpoints checks).
  - rewrite (bind_Ok _ _ _ _ (fileOf_document "endpoints" doc Hdoc)).
    cbn [app].
    destruct (rf_endpoints (asRegistrationFile doc)) as [eps|]; cbn [orEmpty].
    + destruct (probeEndpoints_shape eps r) as [ss [extra [-> H]]].
      now exists ss, extra.
    + exists [], []. rewrite !app_nil_r. destruct r. repeat split.
  - exists [], []. rewrite !app_nil_r. destruct r. repeat split.
Qed.

Lemma checkWallet_shape (checks : list Check) (chain : string) (agentId : Z)
    (owner : string) (r : ValidationReport) :
  checkWallet w checks chain agentId owner r
  = if includes Wallet checks
    then
      ([GetMetadata chain agentId "agentWallet"],
       Ok {| endpointStatus := endpointStatus r;
             walletStatus :=
               {| ws_address := walletOf w chain agentId owner;
                  ws_valid := Re.test reAddress (walletOf w chain agentId owner);
                  ws_isOwner :=
                    String.eqb
                      (JS.toLowerCase (walletOf w chain agentId owner))
                      (JS.toLowerCase owner) |};
             attestations := attestations r;
             overallVerdict := overallVerdict r;
             issues :=
               issues r
               ++ (if Re.test reAddress (walletOf w chain agentId owner)
                   then [] else ["Invalid wallet address format"]) |})
    else ([], Ok r).
Proof.
  unfold checkWallet, walletOf.
  destruct (includes Wallet checks); [|reflexivity].
  unfold call, bind, catch, ret.
  destruct (getMetadata w chain agentId "agentWallet") as [walletMeta|e];
    cbn [fst snd app].
  - destruct (JS.isEmpty walletMeta); cbn [negb];
      match goal with
      | |- context [Re.test reAddress ?x] => destruct (Re.test reAddress x)
      end; cbn [negb app]; unfold setWalletStatus, pushIssue;
      cbn [endpointStatus walletStatus attestations overallVerdict issues];
      rewrite ?app_nil_r; reflexivity.
  - destruct (Re.test reAddress owner); cbn [negb app];
      unfold setWalletStatus, pushIssue;
      cbn [endpointStatus walletStatus attestations overallVerdict issues];
      rewrite ?app_nil_r; reflexivity.
Qed.

(** One turn of the attestation loop adds one attestation, of the type of
    the trust method, and reads the feedback only for [reputation]. *)
Lemma attest_shape (chain : string) (agentId : Z) (trustType : string)
    (r : ValidationReport) :
  exists a,
    attest w chain agentId trustType r
    = (if String.eqb trustType "reputation"
       then [ReadAllFeedback chain agentId] else [],
       Ok {| endpointStatus := endpointStatus r;
             walletStatus := walletStatus r;
             attestations := attestations r ++ [a];
             overallVerdict := overallVerdict r;
             issues := issues r |})
    /\ at_type a = trustType.
Proof.
  unfold attest.
  destruct (String.eqb trustType "reputation") eqn:Hrep.
  - destruct (readFeedbackSafe_total w chain agentId) as [feedback Hfb].
    rewrite (bind_Ok _ _ _ _ Hfb). cbn [fst snd ret app].
    eexists. split; [reflexivity|]. cbn [at_type].
    symmetry. now apply String.eqb_eq.
  - destruct (String.eqb trustType "tee-attestation") eqn:Htee;
      [|destruct (String.eqb trustType "crypto-economic") eqn:Hce];
      eexists; (split; [reflexivity|]); cbn [at_type];
      try reflexivity; symmetry; now apply String.eqb_eq.
Qed.

Lemma attestAll_shape (chain : string) (agentId : Z) (trust : list string)
    (r : ValidationReport) :
  exists atts,
    attestAll w chain agentId trust r
    = (map (fun _ => ReadAllFeedback chain agentId)
           (filter (fun trustType => String.eqb trustType "reputation") trust),
       Ok {| endpointStatus := endpointStatus r;
             walletStatus := walletStatus r;
             attestations := attestations r ++ atts;
             overallVerdict := overallVerdict r;
             issues := issues r |})
    /\ map at_type atts = trust.
Proof.
  revert r. induction trust as [|trustType trust IH]; intros r.
  - exists []. cbn [attestAll map filter]. rewrite app_nil_r.
    destruct r. split; reflexivity.
  - destruct (attest_shape chain agentId trustType r) as [a [Hstep Ha]].
    cbn [attestAll]. rewrite (bind_Ok _ _ _ _ Hstep).
    destruct (IH {| endpointStatus := endpointStatus r;
                    walletStatus := walletStatus r;
                    attestations := attestations r ++ [a];
                    overallVerdict := overallVerdict r;
                    issues := issues r |}) as [atts [Hrest Hatts]].
    rewrite Hrest. cbn [fst snd endpointStatus walletStatus attestations
                        overallVerdict issues].
    exists (a :: atts). rewrite <- app_assoc. cbn [app map filter].
    rewrite Ha, Hatts. split; [|reflexivity].
    destruct (String.eqb trustType "reputation"); reflexivity.
Qed.

Lemma checkAttestations_shape (checks : list Check) (chain : string)
    (agentId : Z) (doc : JSON) (r : ValidationReport) :
  doc <> JNull ->
  exists atts,
    checkAttestations w checks chain agentId doc r
    = (if includes Attestations checks
       then map (fun _ => ReadAllFeedback chain agentId)
                (filter (fun trustType => String.eqb trustType "reputation")
                        (declaredTrust doc))
       else [],
       Ok {| endpointStatus := endpointStatus r;
             walletStatus := walletStatus r;
             attestations := attestations r ++ atts;
             overallVerdict := overallVerdict r;
             issues := issues r |})
    /\ map at_type atts
       = (if includes Attestations checks then declaredTrust doc else []).
Proof.
  intros Hdoc. unfold checkAttestations, declaredTrust.
  destruct (includes Attestations checks).
  - rewrite (bind_Ok _ _ _ _ (fileOf_document "supportedTrust" doc Hdoc)).
    cbn [app].
    destruct (rf_supportedTrust (asRegistrationFile doc)) as [trust|];
      cbn [orEmpty].
    + destruct (attestAll_shape chain agentId trust r) as [atts [-> H]].
      now exists atts.
    + exists []. rewrite app_nil_r. destruct r. split; reflexivity.
  - exists []. rewrite app_nil_r. destruct r. split; reflexivity.
Qed.

(** The report of the three checks on a document, before the verdict. *)
Lemma runChecks_shape (checks : list Check) (chain : string) (agentId : Z)
    (doc : JSON) (owner : string) :
  doc <> JNull ->
  exists ss extra atts,
    runChecks w checks chain agentId doc owner
    = (((if includes Endpoints checks
         then map Probe (map ep_endpoint (declaredEndpoints doc)) else [])
        ++ (if includes Wallet checks
            then [GetMetadata chain agentId "agentWallet"] else [])
        ++ (if includes Attestations checks
            then map (fun _ => ReadAllFeedback chain agentId)
                     (filter (fun trustType => String.eqb trustType "reputation")
                             (declaredTrust doc))
            else []))%list,
       Ok {| endpointStatus := ss;
             walletStatus :=
               if includes Wallet checks
               then {| ws_address := walletOf w chain agentId owner;
                       ws_valid :=
                         Re.test reAddress (walletOf w chain agentId owner);
                       ws_isOwner :=
                         String.eqb
                           (JS.toLowerCase (walletOf w chain agentId owner))
                           (JS.toLowerCase owner) |}
               else walletStatus initialReport;
             attestations := atts;
             overallVerdict := "pending";
             issues :=
               extra
               ++ (if includes Wallet checks
                      && negb (Re.test reAddress
                                 (walletOf w chain agentId owner))
                   then ["Invalid wallet address format"] else []) |})
    /\ map es_name ss
       = (if includes Endpoints checks
          then map ep_name (declaredEndpoints doc) else [])
    /\ map es_endpoint ss
       = (if includes Endpoints checks
          then map ep_endpoint (declaredEndpoints doc) else [])
    /\ List.length extra = List.length (filter unreachable ss)
    /\ map at_type atts
       = (if includes Attestations checks then declaredTrust doc else []).
Proof.
  intros Hdoc. unfold runChecks.
  destruct (checkEndpoints_shape checks doc initialReport Hdoc)
    as [ss [extra [HE [Hn [He Hl]]]]].
  rewrite (bind_Ok _ _ _ _ HE). rewrite checkWallet_shape.
  cbn [endpointStatus walletStatus attestations overallVerdict issues
       initialReport app].
  destruct (includes Wallet checks); cbn [fst snd bind andb].
  - match goal with
    | |- context [checkAttestations w checks chain agentId doc ?r] =>
        destruct (checkAttestations_shape checks chain agentId doc r Hdoc)
          as [atts [HA Hat]]
    end.
    rewrite HA.
    cbn [fst snd endpointStatus walletStatus attestations overallVerdict
         issues app].
    exists ss, extra, atts. split; [|auto].
    destruct (Re.test reAddress (walletOf w chain agentId owner));
      reflexivity.
  - match goal with
    | |- context [checkAttestations w checks chain agentId doc ?r] =>
        destruct (checkAttestations_shape checks chain agentId doc r Hdoc)
          as [atts [HA Hat]]
    end.
    rewrite HA.
    cbn [fst snd endpointStatus walletStatus attestations overallVerdict
         issues app].
    exists ss, extra, atts. rewrite !app_nil_r. split; [reflexivity|auto].
Qed.

End ReportShape.

Section ValidateRoute.

Import Api ValidationPipeline Report.

Variable w : World.

(** A validate run that ends well, with what it read. *)
Lemma validateAgent_inv (agentId : Z) (chainName : string)
    (checks : list Check) (t : list Event) (response : Response ApiBody) :
  validateAgent w agentId chainName checks = (t, Ok response) ->
  exists chain tf doc owner t1 checked,
    createClients chainName = ([], Ok chain)
    /\ fetchRegistrationFile w chain agentId = (tf, Ok doc)
    /\ doc <> JNull
    /\ getOwner w chain agentId = Ok owner
    /\ runChecks w checks chain agentId doc owner = (t1, Ok checked)
    /\ t = (tf ++ GetOwner chain agentId :: t1)%list
    /\ response
       = c_json (ValidateOutputBody
                   {| vo_agentId := JS.showZ agentId;
                      vo_chain := chainName;
                      vo_agentName := rf_name (asRegistrationFile doc);
                      vo_report := determineVerdict checked |}).
Proof.
  unfold validateAgent. intros Hrun.
  apply bind_Ok_inv in Hrun as [tc [chain [t' [Hc [Hrun ->]]]]].
  apply bind_Ok_inv in Hrun as [tf [doc [t'' [Hf [Hrun ->]]]]].
  apply bind_Ok_inv in Hrun as [to [owner [t3 [Ho [Hrun ->]]]]].
  apply bind_Ok_inv in Hrun as [t1 [checked [t4 [Hchecks [Hrun ->]]]]].
  apply bind_Ok_inv in Hrun as [tn [file [t5 [Hfile [Hret ->]]]]].
  injection Hret as <- <-.
  assert (tc = []) as ->.
  { unfold createClients in Hc.
    destruct (existsb (String.eqb chainName) CHAINS); [now injection Hc|].
    destruct (existsb (String.eqb chainName) inheritedKeys);
      [discriminate|now injection Hc]. }
  assert (doc <> JNull) as Hdoc.
  { intros ->. discriminate. }
  rewrite (fileOf_document "name" doc Hdoc) in Hfile.
  injection Hfile as <- <-.
  unfold call in Ho. injection Ho as <- Ho.
  exists chain, tf, doc, owner, t1, checked.
  repeat split; auto.
  cbn [app]. now rewrite !app_nil_r.
Qed.

(** A validate request answered with status 200, with what it read. *)
Lemma postValidateInvoke_200 (raw : string) (input : option JSON)
    (agentId : Z) (chainName : string) (checks : list Check)
    (t : list Event) (response : Response ApiBody) :
  invokeEnvelopeSchema (requestJson w raw) = Parsed input ->
  validateInputSchema input = Parsed (agentId, chainName, checks) ->
  postValidateInvoke w raw = (t, Ok response) ->
  status response = 200 ->
  exists chain tf doc owner t1 checked,
    createClients chainName = ([], Ok chain)
    /\ fetchRegistrationFile w chain agentId = (tf, Ok doc)
    /\ doc <> JNull
    /\ getOwner w chain agentId = Ok owner
    /\ runChecks w checks chain agentId doc owner = (t1, Ok checked)
    /\ t = (tf ++ GetOwner chain agentId :: t1)%list
    /\ response
       = c_json (ValidateOutputBody
                   {| vo_agentId := JS.showZ agentId;
                      vo_chain := chainName;
                      vo_agentName := rf_name (asRegistrationFile doc);
                      vo_report := determineVerdict checked |}).
Proof.
  intros Henv Hin Hroute H200. unfold postValidateInvoke in Hroute.
  rewrite Henv, Hin in Hroute.
  destruct (guarded_total "Failed to validate agent"
              (validateAgent w agentId chainName checks))
    as [t' [response' [Hg Hcases]]].
  rewrite Hg in Hroute. injection Hroute as -> ->.
  destruct Hcases as [Hm|[e [_ ->]]].
  - now apply validateAgent_inv.
  - destruct (endpointError_status "Failed to validate agent" e)
      as [[H404|H500] _]; lia.
Qed.

Lemma filter_none {X} (p : X -> bool) (l : list X) :
  Forall (fun x => p x = false) l -> filter p l = [].
Proof.
  induction 1 as [|x l Hx _ IH]; [reflexivity|]. cbn [filter]. now rewrite Hx.
Qed.

Lemma filter_all {X} (p : X -> bool) (l : list X) :
  Forall (fun x => p x = true) l -> filter p l = l.
Proof.
  induction 1 as [|x l Hx _ IH]; [reflexivity|]. cbn [filter].
  now rewrite Hx, IH.
Qed.

Lemma determineVerdict_fields (r : ValidationReport) :
  endpointStatus (determineVerdict r) = endpointStatus r
  /\ walletStatus (determineVerdict r) = walletStatus r
  /\ attestations (determineVerdict r) = attestations r
  /\ issues (determineVerdict r) = issues r.
Proof. rewrite determineVerdict_table. repeat split. Qed.

End ValidateRoute.

Section TraceFacts.

Import Api Report.

Variable w : World.

Lemma filter_isProbe_probes (urls : list string) :
  filter isProbe (map Probe urls) = map Probe urls.
Proof. induction urls as [|u l IH]; [reflexivity|]. cbn. now rewrite IH. Qed.

Lemma filter_isReadAllFeedback_probes (urls : list string) :
  filter isReadAllFeedback (map Probe urls) = [].
Proof. induction urls as [|u l IH]; [reflexivity|exact IH]. Qed.

Lemma filter_isProbe_reads {X} (chain : string) (agentId : Z) (l : list X) :
  filter isProbe (map (fun _ => ReadAllFeedback chain agentId) l) = [].
Proof. induction l as [|u l IH]; [reflexivity|exact IH]. Qed.

Lemma filter_isReadAllFeedback_reads {X} (chain : string) (agentId : Z)
    (l : list X) :
  filter isReadAllFeedback (map (fun _ => ReadAllFeedback chain agentId) l)
  = map (fun _ => ReadAllFeedback chain agentId) l.
Proof. induction l as [|u l IH]; [reflexivity|]. cbn. now rewrite IH. Qed.

Lemma filter_isGetMetadata_probes (urls : list string) :
  filter isGetMetadata (map Probe urls) = [].
Proof. induction urls as [|u l IH]; [reflexivity|exact IH]. Qed.

Lemma filter_isGetMetadata_reads {X} (chain : string) (agentId : Z)
    (l : list X) :
  filter isGetMetadata (map (fun _ => ReadAllFeedback chain agentId) l) = [].
Proof. induction l as [|u l IH]; [reflexivity|exact IH]. Qed.

Lemma fetchRegistrationFile_filters (chain : string) (agentId : Z) :
  filter isProbe (fst (fetchRegistrationFile w chain agentId)) = []
  /\ filter isGetMetadata (fst (fetchRegistrationFile w chain agentId)) = []
  /\ filter isReadAllFeedback (fst (fetchRegistrationFile w chain agentId)) = [].
Proof.
  pose proof (fetchRegistrationFile_events w chain agentId) as Hev.
  repeat split; apply filter_none; eapply Forall_impl; try exact Hev;
    cbv beta; intros e He; apply He.
Qed.

End TraceFacts.

(** X15: the validation report follows the declarations of a
    registration file that follows the interface [RegistrationFile] (its
    endpoints a list of objects with a name and an address, its trust
    methods a list of texts).  When the endpoints are checked, every
    declared endpoint is probed once, in the declared order, and
    [endpointStatus] has one entry for each of them, in that order, under
    its name and address; when the attestations are checked, [attestations]
    has one entry for every declared trust method, in the declared order
    and of that type, and the feedback is read once for every method
    [reputation].  A check that is not asked for probes and reads
    nothing. *)
Theorem validation_report_follows_declarations (w : World) (raw : string)
    (input : option JSON) (agentId : Z) (chainName : string)
    (checks : list Api.Check) (t : list Event) (output : Api.ValidateOutput) :
  Api.invokeEnvelopeSchema (Api.requestJson w raw) = Api.Parsed input ->
  Api.validateInputSchema input = Api.Parsed (agentId, chainName, checks) ->
  (forall chain tf doc,
      Api.fetchRegistrationFile w chain agentId = (tf, Ok doc) ->
      Api.followsInterface doc = true) ->
  Api.postValidateInvoke w raw
  = (t, Ok {| status := 200; body := Api.ValidateOutputBody output |}) ->
  exists chain tf doc,
    Api.fetchRegistrationFile w chain agentId = (tf, Ok doc)
    /\ map Api.es_name (Api.endpointStatus (Api.vo_report output))
       = (if Api.includes Api.Endpoints checks
          then map Api.ep_name (Report.declaredEndpoints doc) else [])
    /\ map Api.es_endpoint (Api.endpointStatus (Api.vo_report output))
       = (if Api.includes Api.Endpoints checks
          then map Api.ep_endpoint (Report.declaredEndpoints doc) else [])
    /\ filter isProbe t
       = (if Api.includes Api.Endpoints checks
          then map Probe (map Api.ep_endpoint (Report.declaredEndpoints doc))
          else [])
    /\ map Api.at_type (Api.attestations (Api.vo_report output))
       = (if Api.includes Api.Attestations checks
          then Report.declaredTrust doc else [])
    /\ filter isReadAllFeedback t
       = (if Api.includes Api.Attestations checks
          then map (fun _ => ReadAllFeedback chain agentId)
                   (filter (fun trustType => String.eqb trustType "reputation")
                           (Report.declaredTrust doc))
          else []).
Proof.
  intros Henv Hin _ Hroute.
  destruct (postValidateInvoke_200 w raw input agentId chainName checks t _
              Henv Hin Hroute eq_refl)
    as [chain [tf [doc [owner [t1 [checked
          [Hc [Hf [Hdoc [Ho [Hrun [-> Hresp]]]]]]]]]]]].
  injection Hresp as ->.
  destruct (runChecks_shape w checks chain agentId doc owner Hdoc)
    as [ss [extra [atts [Hshape [Hn [He [Hl Hat]]]]]]].
  rewrite Hshape in Hrun. injection Hrun as Ht Hchecked. subst t1.
  exists chain, tf, doc. split; [exact Hf|].
  cbn [Api.vo_report].
  destruct (determineVerdict_fields checked) as [-> [_ [-> _]]].
  rewrite <- Hchecked. cbn [Api.endpointStatus Api.attestations].
  pose proof (fetchRegistrationFile_filters w chain agentId) as [Hp [_ Hr]].
  rewrite Hf in Hp, Hr. cbn [fst] in Hp, Hr.
  split; [exact Hn|]. split; [exact He|].
  split; [|split; [exact Hat|]].
  - rewrite filter_app, Hp. cbn [app filter isProbe]. rewrite !filter_app.
    destruct (Api.includes Api.Endpoints checks),
      (Api.includes Api.Wallet checks),
      (Api.includes Api.Attestations checks);
      cbn [filter isProbe app];
      rewrite ?filter_isProbe_probes, ?filter_isProbe_reads, ?app_nil_r;
      reflexivity.
  - rewrite filter_app, Hr. cbn [app filter isReadAllFeedback]. rewrite !filter_app.
    destruct (Api.includes Api.Endpoints checks),
      (Api.includes Api.Wallet checks),
      (Api.includes Api.Attestations checks);
      cbn [filter isReadAllFeedback app];
      rewrite ?filter_isReadAllFeedback_probes,
        ?filter_isReadAllFeedback_reads, ?app_nil_r;
      reflexivity.
Qed.

(** X16: every issue of a validation report is accounted for.  The number
    of issues is the number of endpoint statuses that are not reachable,
    plus one when the wallet was checked and is not valid; the attestations
    never add an issue.  So the verdict is validated exactly when every
    probed endpoint is reachable and the wallet, if it was checked, is
    valid. *)
Theorem validation_issues_are_accounted_for (w : World) (raw : string)
    (input : option JSON) (agentId : Z) (chainName : string)
    (checks : list Api.Check) (t : list Event) (output : Api.ValidateOutput) :
  Api.invokeEnvelopeSchema (Api.requestJson w raw) = Api.Parsed input ->
  Api.validateInputSchema input = Api.Parsed (agentId, chainName, checks) ->
  Api.postValidateInvoke w raw
  = (t, Ok {| status := 200; body := Api.ValidateOutputBody output |}) ->
  List.length (Api.issues (Api.vo_report output))
  = (Report.unreachableCount (Api.vo_report output)
     + (if Api.includes Api.Wallet checks
           && negb (Api.ws_valid (Api.walletStatus (Api.vo_report output)))
        then 1 else 0))%nat
  /\ (Api.overallVerdict (Api.vo_report output) = "validated"
      <-> Report.unreachableCount (Api.vo_report output) = 0%nat
          /\ (Api.includes Api.Wallet checks = true ->
              Api.ws_valid (Api.walletStatus (Api.vo_report output)) = true)).
Proof.
  intros Henv Hin Hroute.
  destruct (postValidateInvoke_200 w raw input agentId chainName checks t _
              Henv Hin Hroute eq_refl)
    as [chain [tf [doc [owner [t1 [checked
          [Hc [Hf [Hdoc [Ho [Hrun [-> Hresp]]]]]]]]]]]].
  injection Hresp as ->.
  destruct (runChecks_shape w checks chain agentId doc owner Hdoc)
    as [ss [extra [atts [Hshape [Hn [He [Hl Hat]]]]]]].
  rewrite Hshape in Hrun. injection Hrun as Ht Hchecked. subst t1.
  cbn [Api.vo_report]. unfold Report.unreachableCount.
  destruct (determineVerdict_fields checked) as [HE [HW [_ HI]]].
  rewrite HE, HW, HI.
  assert (Api.overallVerdict (Api.determineVerdict checked) = "validated"
          <-> List.length (Api.issues checked) = 0%nat) as Hverdict.
  { unfold Api.determineVerdict.
    destruct (List.length (Api.issues checked) =? 0)%nat eqn:Hzero.
    - apply Nat.eqb_eq in Hzero. now split.
    - apply Nat.eqb_neq in Hzero.
      split; [|intros Habs; now destruct Hzero].
      destruct ((_ =? _)%nat && _); [discriminate|].
      destruct ((_ <? _)%nat || _); discriminate. }
  rewrite Hverdict. rewrite <- Hchecked.
  cbn [Api.issues Api.endpointStatus Api.walletStatus Api.ws_valid].
  rewrite length_app, Hl.
  destruct (Api.includes Api.Wallet checks);
    cbn [andb Api.initialReport Api.walletStatus Api.ws_valid negb].
  - destruct (Re.test Api.reAddress (Report.walletOf w chain agentId owner));
      cbn [negb List.length].
    + split; [lia|].
      split; [intros H; split; [lia|reflexivity]|intros [H _]; lia].
    + split; [lia|].
      split; [intros H; lia|intros [_ H]; specialize (H eq_refl); discriminate].
  - cbn [List.length]. split; [lia|].
    split; [intros H; split; [lia|discriminate]|intros [H _]; lia].
Qed.

(** X17: the verdict validated-with-warnings is never returned.  A report
    has issues only when an endpoint is not reachable or the wallet is not
    valid, which is what that verdict excludes. *)
Theorem validated_with_warnings_is_never_returned (w : World) (raw : string)
    (t : list Event) (response : Response Api.ApiBody)
    (output : Api.ValidateOutput) :
  Api.postValidateInvoke w raw = (t, Ok response) ->
  body response = Api.ValidateOutputBody output ->
  Api.overallVerdict (Api.vo_report output) <> "validated-with-warnings".
Proof.
  unfold Api.postValidateInvoke. intros Hroute Hbody.
  destruct (Api.invokeEnvelopeSchema (Api.requestJson w raw)) as [input|details];
    [|injection Hroute as _ <-; discriminate].
  destruct (Api.validateInputSchema input) as [[[agentId chainName] checks]|details];
    [|injection Hroute as _ <-; discriminate].
  destruct (guarded_total "Failed to validate agent"
              (Api.validateAgent w agentId chainName checks))
    as [t' [response' [Hg Hcases]]].
  rewrite Hg in Hroute. injection Hroute as -> ->.
  destruct Hcases as [Hm|[e [_ ->]]].
  - destruct (validateAgent_inv w _ _ _ _ _ Hm)
      as [chain [tf [doc [owner [t1 [checked
            [_ [_ [_ [_ [Hrun [_ ->]]]]]]]]]]]].
    cbn [body Api.c_json] in Hbody. injection Hbody as <-.
    cbn [Api.vo_report].
    exact (never_validated_with_warnings w _ _ _ _ _ _ _ Hrun).
  - destruct (endpointError_status "Failed to validate agent" e)
      as [_ [details Hb]].
    rewrite Hb in Hbody. discriminate.
Qed.

(** X18: a validate request with an empty list of checks validates every
    agent whose registration file and owner can be read: nothing is probed
    and no metadata or feedback is read, the report is empty, and the
    verdict is validated. *)
Theorem validation_without_checks_is_vacuous (w : World) (raw : string)
    (input : option JSON) (agentId : Z) (chainName : string)
    (t : list Event) (output : Api.ValidateOutput) :
  Api.invokeEnvelopeSchema (Api.requestJson w raw) = Api.Parsed input ->
  Api.validateInputSchema input = Api.Parsed (agentId, chainName, []) ->
  Api.postValidateInvoke w raw
  = (t, Ok {| status := 200; body := Api.ValidateOutputBody output |}) ->
  Api.vo_report output
  = {| Api.endpointStatus := [];
       Api.walletStatus :=
         {| Api.ws_address := EmptyString; Api.ws_valid := false;
            Api.ws_isOwner := false |};
       Api.attestations := [];
       Api.overallVerdict := "validated";
       Api.issues := [] |}
  /\ exists chain,
       t = (fst (Api.fetchRegistrationFile w chain agentId)
            ++ [GetOwner chain agentId])%list.
Proof.
  intros Henv Hin Hroute.
  destruct (postValidateInvoke_200 w raw input agentId chainName [] t _
              Henv Hin Hroute eq_refl)
    as [chain [tf [doc [owner [t1 [checked
          [Hc [Hf [Hdoc [Ho [Hrun [-> Hresp]]]]]]]]]]]].
  injection Hresp as ->. cbn in Hrun. injection Hrun as <- <-.
  split; [reflexivity|]. exists chain. now rewrite Hf.
Qed.

Section IndependentChecks.

Import Api ValidationPipeline Report.

Variable w : World.

Lemma checkEndpoints_includes (checks checks' : list Check) (doc : JSON)
    (r : ValidationReport) :
  includes Endpoints checks = includes Endpoints checks' ->
  checkEndpoints w checks doc r = checkEndpoints w checks' doc r.
Proof. unfold checkEndpoints. now intros ->. Qed.

Lemma checkWallet_includes (checks checks' : list Check) (chain : string)
    (agentId : Z) (owner : string) (r : ValidationReport) :
  includes Wallet checks = includes Wallet checks' ->
  checkWallet w checks chain agentId owner r
  = checkWallet w checks' chain agentId owner r.
Proof. unfold checkWallet. now intros ->. Qed.

(** Two runs of the checks that agree on the endpoints and on the wallet
    differ in the attestations at most. *)
Lemma runChecks_attestations (checks checks' : list Check) (chain : string)
    (agentId : Z) (doc : JSON) (owner : string) (t t' : list Event)
    (r r' : ValidationReport) :
  includes Endpoints checks = includes Endpoints checks' ->
  includes Wallet checks = includes Wallet checks' ->
  runChecks w checks chain agentId doc owner = (t, Ok r) ->
  runChecks w checks' chain agentId doc owner = (t', Ok r') ->
  endpointStatus r = endpointStatus r'
  /\ walletStatus r = walletStatus r'
  /\ issues r = issues r'.
Proof.
  unfold runChecks. intros HE HW Hrun Hrun'.
  rewrite (checkEndpoints_includes checks checks' doc _ HE) in Hrun.
  apply bind_Ok_inv in Hrun as [t1 [r1 [t2 [H1 [Hrun _]]]]].
  apply bind_Ok_inv in Hrun' as [t1' [r1' [t2' [H1' [Hrun' _]]]]].
  rewrite H1 in H1'. injection H1' as _ <-.
  rewrite (checkWallet_includes checks checks' chain agentId owner _ HW) in Hrun.
  apply bind_Ok_inv in Hrun as [t3 [r2 [t4 [H2 [Hrun _]]]]].
  apply bind_Ok_inv in Hrun' as [t3' [r2' [t4' [H2' [Hrun' _]]]]].
  rewrite H2 in H2'. injection H2' as _ <-.
  destruct (checkAttestations_effect w _ _ _ _ _ _ _ Hrun) as [_ [-> [-> ->]]].
  destruct (checkAttestations_effect w _ _ _ _ _ _ _ Hrun') as [_ [-> [-> ->]]].
  repeat split.
Qed.

Lemma verdict_fields (r r' : ValidationReport) :
  endpointStatus r = endpointStatus r' ->
  walletStatus r = walletStatus r' ->
  issues r = issues r' ->
  overallVerdict (determineVerdict r) = overallVerdict (determineVerdict r').
Proof.
  intros HE HW HI. rewrite !determineVerdict_table.
  cbn [overallVerdict setOverallVerdict].
  unfold verdict, noIssues, allEndpointsReachable, anyEndpointReachable,
    walletValid.
  now rewrite HE, HW, HI.
Qed.

(** The language of the address pattern. *)
Lemma test_times (p : ascii -> bool) (n : nat) (s : string) :
  Re.test (Re.times n (Re.Cls p)) s = true ->
  String.length s = n.
Proof.
  revert s. induction n as [|n IH]; intros s.
  - destruct s as [|a s]; [reflexivity|].
    cbn [Re.times Re.test Re.deriv]. now rewrite test_Void.
  - destruct s as [|a s]; [discriminate|].
    cbn [Re.times Re.test Re.deriv Re.nullable String.length].
    destruct (p a); cbn [Re.seq].
    + intros H. f_equal. apply IH.
      destruct (Re.times n (Re.Cls p)); exact H.
    + now rewrite test_Void.
Qed.

Lemma test_reAddress (s : string) :
  Re.test reAddress s = true ->
  String.length s = 42%nat /\ JS.startsWith "0x" s = true.
Proof.
  unfold reAddress.
  destruct s as [|a s]; [cbn; discriminate|].
  cbn [Re.test Re.deriv Re.lit Re.chr Re.nullable andb Re.seq Re.alt].
  destruct (Ascii.eqb "0" a) eqn:Ha; cbn [Re.seq];
    [|rewrite test_Void; discriminate].
  destruct s as [|b s]; [cbn; discriminate|].
  cbn [Re.test Re.deriv Re.lit Re.chr Re.nullable andb Re.seq Re.alt].
  destruct (Ascii.eqb "x" b) eqn:Hb; cbn [Re.seq];
    [|rewrite test_Void; discriminate].
  apply Ascii.eqb_eq in Ha, Hb. subst a b.
  intros H. split; [|unfold JS.startsWith; destruct s; reflexivity].
  cbn [String.length]. do 2 f_equal.
  exact (test_times _ 40 s H).
Qed.

End IndependentChecks.

(** X19: the attestations never change the verdict.  Two validate requests
    for the same agent that agree on whether the endpoints and the wallet
    are checked report the same endpoint statuses, the same wallet status,
    the same issues and the same verdict, whether or not either of them
    asks for the attestations. *)
Theorem attestations_do_not_change_the_verdict (w : World) (raw raw' : string)
    (input input' : option JSON) (agentId : Z) (chainName : string)
    (checks checks' : list Api.Check) (t t' : list Event)
    (output output' : Api.ValidateOutput) :
  Api.invokeEnvelopeSchema (Api.requestJson w raw) = Api.Parsed input ->
  Api.validateInputSchema input = Api.Parsed (agentId, chainName, checks) ->
  Api.invokeEnvelopeSchema (Api.requestJson w raw') = Api.Parsed input' ->
  Api.validateInputSchema input' = Api.Parsed (agentId, chainName, checks') ->
  Api.includes Api.Endpoints checks = Api.includes Api.Endpoints checks' ->
  Api.includes Api.Wallet checks = Api.includes Api.Wallet checks' ->
  Api.postValidateInvoke w raw
  = (t, Ok {| status := 200; body := Api.ValidateOutputBody output |}) ->
  Api.postValidateInvoke w raw'
  = (t', Ok {| status := 200; body := Api.ValidateOutputBody output' |}) ->
  Api.endpointStatus (Api.vo_report output)
  = Api.endpointStatus (Api.vo_report output')
  /\ Api.walletStatus (Api.vo_report output)
     = Api.walletStatus (Api.vo_report output')
  /\ Api.issues (Api.vo_report output) = Api.issues (Api.vo_report output')
  /\ Api.overallVerdict (Api.vo_report output)
     = Api.overallVerdict (Api.vo_report output').
Proof.
  intros Henv Hin Henv' Hin' HE HW Hroute Hroute'.
  destruct (postValidateInvoke_200 w raw input agentId chainName checks t _
              Henv Hin Hroute eq_refl)
    as [chain [tf [doc [owner [t1 [checked
          [Hc [Hf [Hdoc [Ho [Hrun [_ Hresp]]]]]]]]]]]].
  destruct (postValidateInvoke_200 w raw' input' agentId chainName checks' t' _
              Henv' Hin' Hroute' eq_refl)
    as [chain' [tf' [doc' [owner' [t1' [checked'
          [Hc' [Hf' [Hdoc' [Ho' [Hrun' [_ Hresp']]]]]]]]]]]].
  rewrite Hc in Hc'. injection Hc' as <-.
  rewrite Hf in Hf'. injection Hf' as _ <-.
  rewrite Ho in Ho'. injection Ho' as <-.
  injection Hresp as ->. injection Hresp' as ->. cbn [Api.vo_report].
  destruct (runChecks_attestations w _ _ _ _ _ _ _ _ _ _ HE HW Hrun Hrun')
    as [He [Hw Hi]].
  destruct (determineVerdict_fields checked) as [-> [-> [_ ->]]].
  destruct (determineVerdict_fields checked') as [-> [-> [_ ->]]].
  repeat split; auto using verdict_fields.
Qed.

(** X20: the wallet of a validation report.  When the wallet is checked,
    the metadata of the agent is read once, for the entry [agentWallet],
    and no other entry is read; the address that is examined is that
    entry, or the owner when the entry cannot be read or is empty; it is
    reported valid only if it has 42 characters and begins with 0x; and
    when the address is the owner's, [isOwner] is true. *)
Theorem wallet_falls_back_to_the_owner (w : World) (raw : string)
    (input : option JSON) (agentId : Z) (chainName : string)
    (checks : list Api.Check) (t : list Event) (output : Api.ValidateOutput) :
  Api.invokeEnvelopeSchema (Api.requestJson w raw) = Api.Parsed input ->
  Api.validateInputSchema input = Api.Parsed (agentId, chainName, checks) ->
  Api.includes Api.Wallet checks = true ->
  Api.postValidateInvoke w raw
  = (t, Ok {| status := 200; body := Api.ValidateOutputBody output |}) ->
  exists chain owner,
    getOwner w chain agentId = Ok owner
    /\ filter isGetMetadata t = [GetMetadata chain agentId "agentWallet"]
    /\ Api.ws_address (Api.walletStatus (Api.vo_report output))
       = Report.walletOf w chain agentId owner
    /\ (Api.ws_valid (Api.walletStatus (Api.vo_report output)) = true ->
        String.length (Api.ws_address (Api.walletStatus (Api.vo_report output)))
        = 42%nat
        /\ JS.startsWith "0x"
             (Api.ws_address (Api.walletStatus (Api.vo_report output)))
           = true)
    /\ ((forall walletMeta,
            getMetadata w chain agentId "agentWallet" = Ok walletMeta ->
            walletMeta = EmptyString) ->
        Api.ws_address (Api.walletStatus (Api.vo_report output)) = owner
        /\ Api.ws_isOwner (Api.walletStatus (Api.vo_report output)) = true).
Proof.
  intros Henv Hin Hwallet Hroute.
  destruct (postValidateInvoke_200 w raw input agentId chainName checks t _
              Henv Hin Hroute eq_refl)
    as [chain [tf [doc [owner [t1 [checked
          [Hc [Hf [Hdoc [Ho [Hrun [-> Hresp]]]]]]]]]]]].
  injection Hresp as ->.
  destruct (runChecks_shape w checks chain agentId doc owner Hdoc)
    as [ss [extra [atts [Hshape _]]]].
  rewrite Hshape in Hrun. injection Hrun as Ht Hchecked. subst t1.
  exists chain, owner. split; [exact Ho|].
  cbn [Api.vo_report].
  destruct (determineVerdict_fields checked) as [_ [-> _]].
  rewrite <- Hchecked. cbn [Api.walletStatus]. rewrite Hwallet.
  cbn [Api.ws_address Api.ws_valid Api.ws_isOwner].
  split.
  { pose proof (fetchRegistrationFile_filters w chain agentId) as [_ [Hm _]].
    rewrite Hf in Hm. cbn [fst] in Hm.
    rewrite filter_app, Hm. cbn [app filter isGetMetadata].
    rewrite !filter_app.
    destruct (Api.includes Api.Endpoints checks),
      (Api.includes Api.Attestations checks);
      cbn [filter isGetMetadata app];
      rewrite ?filter_isGetMetadata_probes, ?filter_isGetMetadata_reads;
      reflexivity. }
  split; [reflexivity|].
  split; [apply test_reAddress|].
  intros Hmeta.
  assert (Report.walletOf w chain agentId owner = owner) as ->.
  { unfold Report.walletOf.
    destruct (getMetadata w chain agentId "agentWallet") as [walletMeta|e];
      [|reflexivity].
    now rewrite (Hmeta walletMeta eq_refl). }
  split; [reflexivity|apply String.eqb_refl].
Qed.

(* ----------------------------------------------------------------- *)
(** *** The statements above on the sample agent *)

Lemma validation_report_follows_declarations_witness :
  exists chain tf doc,
    Api.fetchRegistrationFile Sample.world chain 1 = (tf, Ok doc)
    /\ map Api.es_name (Api.endpointStatus Samples.endpointsReport)
       = map Api.ep_name (Report.declaredEndpoints doc)
    /\ map Api.es_endpoint (Api.endpointStatus Samples.endpointsReport)
       = map Api.ep_endpoint (Report.declaredEndpoints doc)
    /\ filter isProbe (Samples.resolution ++ [Probe "https://agent.example/a2a"])
       = map Probe (map Api.ep_endpoint (Report.declaredEndpoints doc))
    /\ map Api.at_type (Api.attestations Samples.endpointsReport) = []
    /\ filter isReadAllFeedback
         (Samples.resolution ++ [Probe "https://agent.example/a2a"])
       = [].
Proof.
  apply (validation_report_follows_declarations Sample.world
           (Sample.invokeChecksText "1" "endpoints")
           (Samples.validateInput "1" ["endpoints"]) 1 "base" [Api.Endpoints]
           (Samples.resolution ++ [Probe "https://agent.example/a2a"])
           (Samples.outputOf Samples.endpointsReport)).
  - vm_compute. reflexivity.
  - reflexivity.
  - intros chain tf doc H.
    assert (doc = Sample.document) as ->
      by (vm_compute in H; injection H as _ H; symmetry; exact H).
    reflexivity.
  - vm_compute. reflexivity.
Defined.

Lemma validation_issues_are_accounted_for_witness :
  List.length (Api.issues Samples.endpointsReport)
  = (Report.unreachableCount Samples.endpointsReport + 0)%nat
  /\ (Api.overallVerdict Samples.endpointsReport = "validated"
      <-> Report.unreachableCount Samples.endpointsReport = 0%nat
          /\ (false = true -> false = true)).
Proof.
  apply (validation_issues_are_accounted_for Sample.world
           (Sample.invokeChecksText "1" "endpoints")
           (Samples.validateInput "1" ["endpoints"]) 1 "base" [Api.Endpoints]
           (Samples.resolution ++ [Probe "https://agent.example/a2a"])
           (Samples.outputOf Samples.endpointsReport)).
  - vm_compute. reflexivity.
  - reflexivity.
  - vm_compute. reflexivity.
Defined.

Lemma validated_with_warnings_is_never_returned_witness :
  Api.overallVerdict Samples.endpointsReport <> "validated-with-warnings".
Proof.
  apply (validated_with_warnings_is_never_returned Sample.world
           (Sample.invokeChecksText "1" "endpoints")
           (Samples.resolution ++ [Probe "https://agent.example/a2a"])
           {| status := 200;
              body := Api.ValidateOutputBody
                        (Samples.outputOf Samples.endpointsReport) |}
           (Samples.outputOf Samples.endpointsReport)).
  - vm_compute. reflexivity.
  - reflexivity.
Defined.

Lemma validation_without_checks_is_vacuous_witness :
  Samples.emptyReport
  = {| Api.endpointStatus := [];
       Api.walletStatus :=
         {| Api.ws_address := EmptyString; Api.ws_valid := false;
            Api.ws_isOwner := false |};
       Api.attestations := [];
       Api.overallVerdict := "validated";
       Api.issues := [] |}
  /\ exists chain,
       Samples.resolution
       = (fst (Api.fetchRegistrationFile Sample.world chain 1)
          ++ [GetOwner chain 1])%list.
Proof.
  apply (validation_without_checks_is_vacuous Sample.world
           (Samples.validateText "1" "[]")
           (Samples.validateInput "1" []) 1 "base"
           Samples.resolution (Samples.outputOf Samples.emptyReport)).
  - vm_compute. reflexivity.
  - reflexivity.
  - vm_compute. reflexivity.
Defined.

Lemma attestations_do_not_change_the_verdict_witness :
  Api.endpointStatus Samples.walletReport
  = Api.endpointStatus Samples.attestedReport
  /\ Api.walletStatus Samples.walletReport
     = Api.walletStatus Samples.attestedReport
  /\ Api.issues Samples.walletReport = Api.issues Samples.attestedReport
  /\ Api.overallVerdict Samples.walletReport
     = Api.overallVerdict Samples.attestedReport.
Proof.
  apply (attestations_do_not_change_the_verdict Samples.unrated
           (Sample.invokeChecksText "1" "wallet")
           (Samples.validateText "1" Samples.walletAndAttestations)
           (Samples.validateInput "1" ["wallet"])
           (Samples.validateInput "1" ["wallet"; "attestations"])
           1 "base" [Api.Wallet] [Api.Wallet; Api.Attestations]
           (Samples.resolution ++ [GetMetadata "base" 1 "agentWallet"])
           (Samples.resolution
            ++ [GetMetadata "base" 1 "agentWallet"; ReadAllFeedback "base" 1])
           (Samples.outputOf Samples.walletReport)
           (Samples.outputOf Samples.attestedReport)).
  - vm_compute. reflexivity.
  - reflexivity.
  - vm_compute. reflexivity.
  - reflexivity.
  - reflexivity.
  - reflexivity.
  - vm_compute. reflexivity.
  - reflexivity.
Defined.

Lemma wallet_falls_back_to_the_owner_witness :
  exists chain owner,
    getOwner Sample.world chain 1 = Ok owner
    /\ filter isGetMetadata
         (Samples.resolution ++ [GetMetadata "base" 1 "agentWallet"])
       = [GetMetadata chain 1 "agentWallet"]
    /\ Api.ws_address Samples.ownerWallet
       = Report.walletOf Sample.world chain 1 owner
    /\ (Api.ws_valid Samples.ownerWallet = true ->
        String.length (Api.ws_address Samples.ownerWallet) = 42%nat
        /\ JS.startsWith "0x" (Api.ws_address Samples.ownerWallet) = true)
    /\ ((forall walletMeta,
            getMetadata Sample.world chain 1 "agentWallet" = Ok walletMeta ->
            walletMeta = EmptyString) ->
        Api.ws_address Samples.ownerWallet = owner
        /\ Api.ws_isOwner Samples.ownerWallet = true).
Proof.
  apply (wallet_falls_back_to_the_owner Sample.world
           (Sample.invokeChecksText "1" "wallet")
           (Samples.validateInput "1" ["wallet"]) 1 "base" [Api.Wallet]
           (Samples.resolution ++ [GetMetadata "base" 1 "agentWallet"])
           (Samples.outputOf Samples.walletReport)).
  - vm_compute. reflexivity.
  - reflexivity.
  - reflexivity.
  - vm_compute. reflexivity.
Defined.

(* ================================================================= *)
(** ** The route table of the payment middleware *)

Section RouteTable.

Import A2A.

Variable config : Config.

Lemma routeEntry_absent (key : string) (routes : list RoutePrice) :
  ~ In key (map path routes) ->
  routeEntry key (createPaymentMiddleware config routes) = None.
Proof.
  induction routes as [|r routes IH]; [reflexivity|].
  cbn [map createPaymentMiddleware routeEntry]. intros Hnot.
  fold (createPaymentMiddleware config routes).
  rewrite IH by (intros Hin; apply Hnot; now right).
  destruct (String.eqb key (path r)) eqn:Heq; [|reflexivity].
  apply String.eqb_eq in Heq. destruct Hnot. now left.
Qed.

Lemma routeEntry_present (key : string) (routes : list RoutePrice) :
  In key (map path routes) ->
  routeEntry key (createPaymentMiddleware config routes) <> None.
Proof.
  induction routes as [|r routes IH]; [contradiction|].
  cbn [map createPaymentMiddleware routeEntry].
  fold (createPaymentMiddleware config routes). intros [Hhere|Hlater].
  - destruct (routeEntry key (createPaymentMiddleware config routes));
      [discriminate|].
    rewrite <- Hhere, String.eqb_refl. discriminate.
  - specialize (IH Hlater).
    destruct (routeEntry key (createPaymentMiddleware config routes));
      [discriminate|now destruct IH].
Qed.

Lemma routeEntry_last (pre post : list RoutePrice) (r : RoutePrice) :
  ~ In (path r) (map path post) ->
  routeEntry (path r) (createPaymentMiddleware config (pre ++ r :: post))
  = Some (routeConfigOf config r).
Proof.
  intros Hnot. induction pre as [|p pre IH].
  - cbn [app map createPaymentMiddleware routeEntry].
    fold (createPaymentMiddleware config post).
    now rewrite (routeEntry_absent _ _ Hnot), String.eqb_refl.
  - cbn [app map createPaymentMiddleware routeEntry].
    fold (createPaymentMiddleware config (pre ++ r :: post)).
    now rewrite IH.
Qed.

End RouteTable.

(** X21: the route table that [createPaymentMiddleware] builds.  A key has
    an entry exactly when some route has that key as its path; the entry is
    the configuration of the last route with that path, a later route
    overwriting an earlier one; and when all paths differ, as those of
    [PAID_ENDPOINTS] do, every route is found under its path with its own
    price, description, network and payee. *)
Theorem route_table_lookup (config : A2A.Config) (routes : list A2A.RoutePrice) :
  (forall key,
      A2A.routeEntry key (A2A.createPaymentMiddleware config routes) = None
      <-> ~ In key (map A2A.path routes))
  /\ (forall pre r post,
         routes = (pre ++ r :: post)%list ->
         ~ In (A2A.path r) (map A2A.path post) ->
         A2A.routeEntry (A2A.path r) (A2A.createPaymentMiddleware config routes)
         = Some (A2A.routeConfigOf config r))
  /\ (NoDup (map A2A.path routes) ->
      forall r, In r routes ->
        A2A.routeEntry (A2A.path r) (A2A.createPaymentMiddleware config routes)
        = Some (A2A.routeConfigOf config r))
  /\ NoDup (map A2A.path A2A.PAID_ENDPOINTS).
Proof.
  split; [|split; [|split]].
  - intros key. split.
    + intros Hnone Hin. now apply (routeEntry_present config key routes Hin).
    + apply routeEntry_absent.
  - intros pre r post -> Hnot. now apply routeEntry_last.
  - intros Hnodup r Hin.
    apply in_split in Hin as [pre [post ->]].
    apply routeEntry_last.
    rewrite map_app in Hnodup. cbn [map] in Hnodup.
    apply NoDup_remove_2 in Hnodup. intros Hpost. apply Hnodup.
    apply in_or_app. now right.
  - cbn. repeat constructor; cbn; intuition discriminate.
Qed.

Section CanonicalResources.

Lemma hasChar_app (c : ascii) (s s' : string) :
  Text.hasChar c (s ++ s') = Text.hasChar c s || Text.hasChar c s'.
Proof.
  induction s as [|a s IH]; [reflexivity|]. cbn [append Text.hasChar].
  now rewrite IH, orb_assoc.
Qed.

Lemma replaceStars_no_star (s : string) :
  Text.hasChar "*" (JS.replaceStars "{wildcard}" s) = false.
Proof.
  induction s as [|a s IH]; [reflexivity|]. cbn [JS.replaceStars].
  destruct (Ascii.eqb a "*") eqn:Ha.
  - rewrite hasChar_app, IH. reflexivity.
  - cbn [Text.hasChar]. now rewrite Ha, IH.
Qed.

Lemma replaceStars_plain (r s : string) :
  Text.hasChar "*" s = false -> JS.replaceStars r s = s.
Proof.
  induction s as [|a s IH]; [reflexivity|]. cbn [Text.hasChar JS.replaceStars].
  intros H. apply orb_false_iff in H as [Ha Hs]. now rewrite Ha, IH.
Qed.

Lemma braceParams_plain (s : string) :
  Text.hasChar ":" s = false -> JS.braceParams false s = s.
Proof.
  induction s as [|a s IH]; [reflexivity|]. cbn [Text.hasChar JS.braceParams].
  intros H. apply orb_false_iff in H as [Ha Hs].
  cbn [andb append]. now rewrite Ha, IH.
Qed.

Lemma dropTrailingSlash_app (s : string) : JS.dropTrailingSlash (s ++ "/") = s.
Proof.
  induction s as [|a s IH]; [reflexivity|].
  cbn [append JS.dropTrailingSlash]. rewrite IH.
  destruct (s ++ "/")%string eqn:Hs; [|reflexivity].
  destruct s; discriminate.
Qed.

Lemma dropTrailingSlash_plain (s : string) :
  Text.endsWithSlash s = false -> JS.dropTrailingSlash s = s.
Proof.
  induction s as [|a s IH]; [reflexivity|].
  cbn [Text.endsWithSlash JS.dropTrailingSlash].
  destruct s as [|b s]; [now intros ->|].
  intros H. now rewrite (IH H).
Qed.

End CanonicalResources.

(** X22: the member [resource] of a route configuration is the agent URL
    without one trailing slash, followed by the canonical path of the
    route.  The canonical path has no wildcard star left, and it is the
    path pattern itself when that has neither a colon nor a star.  A
    trailing slash of the agent URL makes no difference: the configuration
    with the URL [u/] advertises the resources of the one with [u]. *)
Theorem resources_are_canonical (config : A2A.Config) (route : A2A.RoutePrice)
    (u : string) :
  A2A.resource (A2A.routeConfigOf config route)
  = JS.dropTrailingSlash (A2A.agentUrl config) ++ canonicalPath route
  /\ Text.hasChar "*" (canonicalPath route) = false
  /\ (Text.hasChar ":" (JS.secondWord (A2A.path route)) = false ->
      Text.hasChar "*" (JS.secondWord (A2A.path route)) = false ->
      canonicalPath route = JS.secondWord (A2A.path route))
  /\ (Text.endsWithSlash u = false ->
      A2A.routeConfigOf (withAgentUrl (u ++ "/") config) route
      = A2A.routeConfigOf (withAgentUrl u config) route
      /\ A2A.resource (A2A.routeConfigOf (withAgentUrl u config) route)
         = u ++ canonicalPath route).
Proof.
  split; [reflexivity|]. split; [apply replaceStars_no_star|]. split.
  - intros Hcolon Hstar. unfold canonicalPath.
    now rewrite (braceParams_plain _ Hcolon), (replaceStars_plain _ _ Hstar).
  - intros Hu. unfold A2A.routeConfigOf, withAgentUrl.
    cbn [A2A.agentUrl A2A.network A2A.walletAddress A2A.resource].
    now rewrite dropTrailingSlash_app, (dropTrailingSlash_plain u Hu).
Qed.

Lemma resources_are_canonical_witness :
  A2A.resource
    (A2A.routeConfigOf Sample.testConfig
       {| A2A.path := "GET /api/agent/:id/profile"; A2A.price := "$0.001";
          A2A.description := "Fetch agent identity and registration file" |})
  = "http://localhost:3000/api/agent/{id}/profile"
  /\ A2A.resource
       (A2A.routeConfigOf Sample.testConfig
          {| A2A.path := "GET /api/agent/*/profile"; A2A.price := "$0.001";
             A2A.description := "Fetch agent identity and registration file" |})
     = "http://localhost:3000/api/agent/{wildcard}/profile"
  /\ A2A.routeConfigOf (withAgentUrl "http://localhost:3000/" Sample.testConfig)
       {| A2A.path := "POST /a2a"; A2A.price := "$0.01";
          A2A.description := "A2A task execution" |}
     = A2A.routeConfigOf (withAgentUrl "http://localhost:3000" Sample.testConfig)
         {| A2A.path := "POST /a2a"; A2A.price := "$0.01";
            A2A.description := "A2A task execution" |}.
Proof.
  split; [|split].
  - exact (proj1 (resources_are_canonical Sample.testConfig
                    {| A2A.path := "GET /api/agent/:id/profile";
                       A2A.price := "$0.001";
                       A2A.description :=
                         "Fetch agent identity and registration file" |}
                    "http://localhost:3000")).
  - exact (proj1 (resources_are_canonical Sample.testConfig
                    {| A2A.path := "GET /api/agent/*/profile";
                       A2A.price := "$0.001";
                       A2A.description :=
                         "Fetch agent identity and registration file" |}
                    "http://localhost:3000")).
  - apply (proj2 (proj2 (proj2 (resources_are_canonical Sample.testConfig
                    {| A2A.path := "POST /a2a"; A2A.price := "$0.01";
                       A2A.description := "A2A task execution" |}
                    "http://localhost:3000")))).
    reflexivity.
Defined.

(* ================================================================= *)
(** ** The entrypoints of the agent card *)

Section EntrypointFacts.

Import Entrypoints.

Lemma allSlashes_cons (a : ascii) (s : string) :
  Text.allSlashes (String a s)
  = Ascii.eqb a "/" && (JS.isEmpty s || Text.allSlashes s).
Proof.
  destruct s as [|b s]; [cbn; now rewrite andb_true_r|reflexivity].
Qed.

Lemma allSlashes_app (s : string) :
  Text.allSlashes (s ++ "/") = JS.isEmpty s || Text.allSlashes s.
Proof.
  induction s as [|a s IH]; [reflexivity|].
  cbn [append JS.isEmpty orb]. rewrite !allSlashes_cons, IH.
  destruct s; reflexivity.
Qed.

Lemma dropTrailingSlashes_app (s : string) :
  Text.dropTrailingSlashes (s ++ "/") = Text.dropTrailingSlashes s.
Proof.
  induction s as [|a s IH]; [reflexivity|].
  cbn [append]. unfold Text.dropTrailingSlashes at 1 2.
  fold Text.dropTrailingSlashes.
  rewrite !allSlashes_cons, allSlashes_app, IH.
  destruct s; reflexivity.
Qed.

Lemma dropTrailingSlashes_empty (s : string) :
  Text.dropTrailingSlashes s = EmptyString ->
  JS.isEmpty s || Text.allSlashes s = true.
Proof.
  destruct s as [|a s]; [reflexivity|].
  unfold Text.dropTrailingSlashes. fold Text.dropTrailingSlashes.
  destruct (Text.allSlashes (String a s)); [reflexivity|discriminate].
Qed.

Lemma dropTrailingSlashes_trimmed (s : string) :
  Text.endsWithSlash (Text.dropTrailingSlashes s) = false.
Proof.
  induction s as [|a s IH]; [reflexivity|].
  unfold Text.dropTrailingSlashes. fold Text.dropTrailingSlashes.
  destruct (Text.allSlashes (String a s)) eqn:Hall; [reflexivity|].
  rewrite allSlashes_cons in Hall.
  destruct (Text.dropTrailingSlashes s) as [|b rest] eqn:Hrest.
  - apply dropTrailingSlashes_empty in Hrest. rewrite Hrest in Hall.
    cbn [Text.endsWithSlash]. now rewrite andb_true_r in Hall.
  - exact IH.
Qed.

Lemma eqb_length (s s' : string) :
  String.eqb s s' = true -> String.length s = String.length s'.
Proof. intros H. apply String.eqb_eq in H. now subst. Qed.

Lemma length_append (s s' : string) :
  String.length (s ++ s') = (String.length s + String.length s')%nat.
Proof. induction s as [|a s IH]; [reflexivity|]. cbn. now rewrite IH. Qed.

Lemma dropA2A_suffix (base : string) :
  Text.dropA2A (base ++ "/a2a") = base
  /\ Text.dropA2A (base ++ "/a2a/") = base.
Proof.
  induction base as [|a b [IH1 IH2]]; [split; reflexivity|].
  cbn [append]. unfold Text.dropA2A at 1 2. fold Text.dropA2A.
  rewrite IH1, IH2. split.
  - destruct (String.eqb (String a (b ++ "/a2a")) "/a2a") eqn:H1.
    { apply eqb_length in H1. cbn [String.length] in H1.
      rewrite length_append in H1. cbn [String.length] in H1. lia. }
    destruct (String.eqb (String a (b ++ "/a2a")) "/a2a/") eqn:H2;
      [|reflexivity].
    pose proof (eqb_length _ _ H2) as Hlen. cbn [String.length] in Hlen.
    rewrite length_append in Hlen. cbn [String.length] in Hlen.
    destruct b; [|cbn [String.length] in Hlen; lia].
    apply String.eqb_eq in H2. discriminate.
  - destruct (String.eqb (String a (b ++ "/a2a/")) "/a2a") eqn:H1.
    { apply eqb_length in H1. cbn [String.length] in H1.
      rewrite length_append in H1. cbn [String.length] in H1. lia. }
    destruct (String.eqb (String a (b ++ "/a2a/")) "/a2a/") eqn:H2;
      [|reflexivity].
    apply eqb_length in H2. cbn [String.length] in H2.
    rewrite length_append in H2. cbn [String.length] in H2. lia.
Qed.

End EntrypointFacts.

(** X23: the entrypoints of the agent card.  For every base URL the result
    of [buildEntrypoints] has the keys profile, score and validate, in this
    order; the URL of each entrypoint is the base URL without its trailing
    slashes, followed by the path of its template, so that one slash stands
    at the joint; trailing slashes of the base URL make no difference; and
    the agent-card route, for a card whose URL is [base/a2a] or [base/a2a/],
    answers with the entrypoints built from [base]. *)
Theorem entrypoints_are_resolved_against_the_origin (baseUrl : string) :
  map fst (Entrypoints.buildEntrypoints baseUrl) = ["profile"; "score"; "validate"]
  /\ map (fun entry => Entrypoints.url (snd entry))
         (Entrypoints.buildEntrypoints baseUrl)
     = map (fun entry =>
              Text.dropTrailingSlashes baseUrl ++ Entrypoints.t_path (snd entry))
           Entrypoints.templates
  /\ Text.endsWithSlash (Text.dropTrailingSlashes baseUrl) = false
  /\ Forall (fun entry => JS.startsWith "/" (Entrypoints.t_path (snd entry)) = true)
            Entrypoints.templates
  /\ Entrypoints.buildEntrypoints (baseUrl ++ "/")
     = Entrypoints.buildEntrypoints baseUrl
  /\ (forall members,
         Entrypoints.entrypoints
           (body (Entrypoints.agentCardRoute
                    {| Entrypoints.card_url := baseUrl ++ "/a2a";
                       Entrypoints.card_members := members |}))
         = Entrypoints.buildEntrypoints baseUrl
         /\ Entrypoints.entrypoints
              (body (Entrypoints.agentCardRoute
                       {| Entrypoints.card_url := baseUrl ++ "/a2a/";
                          Entrypoints.card_members := members |}))
            = Entrypoints.buildEntrypoints baseUrl).
Proof.
  split; [reflexivity|]. split; [reflexivity|].
  split; [apply dropTrailingSlashes_trimmed|].
  split; [repeat constructor|].
  split.
  - unfold Entrypoints.buildEntrypoints. now rewrite dropTrailingSlashes_app.
  - intros members. unfold Entrypoints.agentCardRoute.
    cbn [body Entrypoints.entrypoints Entrypoints.card_url].
    destruct (dropA2A_suffix baseUrl) as [-> ->]. split; reflexivity.
Qed.

(* ================================================================= *)
(** ** The A2A executor *)

Section ExecutorFacts.

Import Executor.

Variable cl : Clients.

Lemma readWallet_cases (agentId : Z) (owner : string) :
  readWallet cl agentId owner
  = ([GetMetadata agentId "agentWallet"],
     Ok match getMetadata cl agentId "agentWallet" with
        | Ok wallet => wallet
        | Throw _ => owner
        end).
Proof.
  unfold readWallet, Trace.catch, Trace.call, Trace.ret.
  destruct (getMetadata cl agentId "agentWallet"); reflexivity.
Qed.

Lemma checkEndpoint_run (ep : Api.EndpointDecl) (f : Findings) :
  exists f',
    checkEndpoint cl ep f = ([Head (Api.ep_endpoint ep)], Ok f')
    /\ List.length (endpointResults f') = S (List.length (endpointResults f))
    /\ List.length (issues f')
       = (List.length (issues f)
          + if Answer.reachable cl ep then 0 else 1)%nat.
Proof.
  unfold checkEndpoint, Answer.reachable, Trace.bind, Trace.call, Trace.ret.
  destruct (head cl (Api.ep_endpoint ep)) as [response latency| |error].
  - destruct (resp_ok response); eexists; (split; [reflexivity|]);
      cbn [pushIssue pushResult endpointResults issues];
      rewrite ?length_app; cbn [List.length]; lia.
  - eexists; (split; [reflexivity|]);
      cbn [pushIssue pushResult endpointResults issues];
      rewrite ?length_app; cbn [List.length]; lia.
  - eexists; (split; [reflexivity|]);
      cbn [pushIssue pushResult endpointResults issues];
      rewrite ?length_app; cbn [List.length]; lia.
Qed.

Lemma checkEndpoints_run (eps : list Api.EndpointDecl) (f : Findings) :
  exists f',
    checkEndpoints cl eps f
    = (map (fun ep => Head (Api.ep_endpoint ep)) eps, Ok f')
    /\ List.length (endpointResults f')
       = (List.length (endpointResults f) + List.length eps)%nat
    /\ List.length (issues f')
       = (List.length (issues f) + Answer.unreachableCount cl eps)%nat.
Proof.
  revert f. induction eps as [|ep rest IH]; intros f.
  - exists f. cbn. split; [reflexivity|]. unfold Answer.unreachableCount. cbn. lia.
  - destruct (checkEndpoint_run ep f) as [f1 [Hrun [Hres Hiss]]].
    destruct (IH f1) as [f2 [Hrest [Hres2 Hiss2]]].
    exists f2. cbn [checkEndpoints]. unfold Trace.bind at 1.
    rewrite Hrun, Hrest. split; [reflexivity|].
    unfold Answer.unreachableCount in *. cbn [filter List.length map].
    destruct (Answer.reachable cl ep); cbn [negb List.length]; lia.
Qed.

Lemma checkDeclared_run (registration : Api.RegistrationFile) :
  exists f,
    checkDeclared cl registration
    = (map (fun ep => Head (Api.ep_endpoint ep))
         (Api.orEmpty (Api.rf_endpoints registration)), Ok f)
    /\ List.length (endpointResults f)
       = Nat.max 1 (List.length (Api.orEmpty (Api.rf_endpoints registration)))
    /\ List.length (issues f)
       = Answer.unreachableCount cl (Api.orEmpty (Api.rf_endpoints registration)).
Proof.
  unfold checkDeclared.
  destruct (Api.rf_endpoints registration) as [[|ep rest]|];
    try (eexists; split; [reflexivity|split; reflexivity]).
  destruct (checkEndpoints_run (ep :: rest) noFindings) as [f [Hrun [Hres Hiss]]].
  exists f. split; [exact Hrun|]. cbn [Api.orEmpty].
  cbn [noFindings endpointResults issues List.length] in Hres, Hiss.
  cbn [List.length] in *. split; lia.
Qed.

(** What [validate] does when the registration file and the owner can be
    read. *)
Lemma validate_run (agentId : Z) :
  validate cl agentId
  = match getRegistrationFile cl agentId with
    | Throw e => ([GetRegistrationFile agentId], Throw e)
    | Ok registration =>
        match getOwner cl agentId with
        | Throw e => ([GetRegistrationFile agentId; GetOwner agentId], Throw e)
        | Ok owner =>
            let wallet := match getMetadata cl agentId "agentWallet" with
                          | Ok wallet => wallet
                          | Throw _ => owner
                          end in
            (([GetRegistrationFile agentId; GetOwner agentId;
               GetMetadata agentId "agentWallet"]
              ++ fst (checkDeclared cl registration))%list,
             match snd (checkDeclared cl registration) with
             | Ok checked => Ok (registration, wallet, checkWallet wallet checked)
             | Throw e => Throw e
             end)
        end
    end.
Proof.
  unfold validate, Trace.bind at 1, Trace.call at 1.
  destruct (getRegistrationFile cl agentId) as [registration|e]; [|reflexivity].
  unfold Trace.bind at 1, Trace.call at 1.
  destruct (getOwner cl agentId) as [owner|e]; [|reflexivity].
  unfold Trace.bind at 1. rewrite readWallet_cases.
  unfold Trace.bind, Trace.ret.
  destruct (checkDeclared cl registration) as [t [checked|e]]; cbn;
    now rewrite ?app_nil_r.
Qed.

Lemma forallb_isRead_heads (eps : list Api.EndpointDecl) :
  forallb isRead (map (fun ep => Head (Api.ep_endpoint ep)) eps) = true.
Proof. induction eps; [reflexivity|exact IHeps]. Qed.

Lemma getProfile_reads (agentId : Z) :
  forallb isRead (fst (getProfile cl agentId)) = true.
Proof.
  unfold getProfile, Trace.bind at 1, Trace.call at 1.
  destruct (getRegistrationFile cl agentId); [|reflexivity].
  unfold Trace.bind at 1, Trace.call at 1.
  destruct (getOwner cl agentId); [|reflexivity].
  unfold Trace.bind. rewrite readWallet_cases. reflexivity.
Qed.

Lemma getTrustScore_reads (agentId : Z) :
  forallb isRead (fst (getTrustScore cl agentId)) = true.
Proof.
  unfold getTrustScore, Trace.bind at 1, Trace.call at 1.
  destruct (getRegistrationFile cl agentId); [|reflexivity].
  unfold Trace.bind, Trace.call.
  destruct (getSummary cl agentId); reflexivity.
Qed.

Lemma validateAgent_reads (agentId : Z) :
  forallb isRead (fst (validateAgent cl agentId)) = true.
Proof.
  unfold validateAgent, Trace.bind. rewrite validate_run.
  destruct (getRegistrationFile cl agentId) as [registration|e]; [|reflexivity].
  destruct (getOwner cl agentId) as [owner|e]; [|reflexivity].
  destruct (checkDeclared_run registration) as [f [Hrun _]].
  rewrite Hrun. cbn [fst snd Trace.ret app]. rewrite app_nil_r.
  cbn [forallb isRead andb]. apply forallb_isRead_heads.
Qed.

Lemma respond_reads (userText : string) :
  forallb isRead (fst (respond cl userText)) = true.
Proof.
  unfold respond. destruct (matchAgentId userText) as [digits|]; [|reflexivity].
  unfold agentIdOf. destruct (Api.BigInt digits) as [agentId|]; [|reflexivity].
  unfold Trace.bind at 1, Trace.ret at 1. cbn [app].
  assert (forall m : Run string,
             forallb isRead (fst m) = true ->
             forallb isRead (fst (let (t', r) := m in (t', r))) = true) as Hlet
    by (intros [t r]; auto).
  destruct (mentions userText "profile" || mentions userText "identity"
            || mentions userText "details");
    [apply Hlet, getProfile_reads|].
  destruct (mentions userText "score" || mentions userText "trust"
            || mentions userText "reputation");
    [apply Hlet, getTrustScore_reads|].
  destruct (mentions userText "validate" || mentions userText "check"
            || mentions userText "health");
    [apply Hlet, validateAgent_reads|apply Hlet, getProfile_reads].
Qed.

Lemma execute_run (requestContext : RequestContext) :
  execute cl requestContext
  = ((fst (respond cl (userText requestContext))
      ++ [Publish (reply cl requestContext
                     (Answer.textOf (snd (respond cl (userText requestContext)))));
          Finished])%list,
     Ok tt).
Proof.
  unfold execute, Trace.catch, Trace.bind, Trace.call, Trace.ret.
  destruct (respond cl (userText requestContext)) as [t [responseText|error]];
    cbn; now rewrite ?app_nil_r.
Qed.

End ExecutorFacts.

(** X24: the executor answers every request exactly once.  Whatever the
    message and whatever the registries and the network do, [execute] does
    not throw; it publishes one message and then signals the end, and
    before that it only reads registries and probes endpoints.  The message
    has the role agent, the context id of the request and one text part:
    the text of the answer, or, when a call inside the [try] threw,
    [Error: ] followed by the message of the error. *)
Theorem execute_publishes_one_message (cl : Executor.Clients)
    (requestContext : Executor.RequestContext) :
  let attempt := Executor.respond cl (Executor.userText requestContext) in
  let message := Executor.reply cl requestContext (Answer.textOf (snd attempt)) in
  Executor.execute cl requestContext
  = ((fst attempt ++ [Executor.Publish message; Executor.Finished])%list, Ok tt)
  /\ forallb Executor.isRead (fst attempt) = true
  /\ Executor.m_role message = "agent"
  /\ Executor.m_contextId message = Executor.contextId requestContext
  /\ Executor.m_parts message
     = [{| Executor.kind := "text";
           Executor.text := Some (Answer.textOf (snd attempt)) |}]
  /\ (forall error,
         snd attempt = Throw (Error error) ->
         Answer.textOf (snd attempt) = "Error: " ++ error).
Proof.
  intros attempt message. split; [apply execute_run|].
  split; [apply respond_reads|].
  repeat (split; [reflexivity|]).
  intros error Hthrow. unfold attempt in *. now rewrite Hthrow.
Qed.

(** X25: the validation of the executor accounts for every issue.  When
    [validateAgent] gives a report, the registration file, the owner and
    the wallet entry were read once each, and every declared endpoint got
    exactly one HEAD request, in the declared order.  The wallet is the
    entry [agentWallet] as it was read, even when it is empty, and the
    owner only when the read failed.  The report has one line per declared
    endpoint (one line in all when none is declared), and one issue per
    endpoint that did not answer with a success status, plus one when the
    wallet is not 0x followed by forty hexadecimal digits; it says
    Validated exactly when there is no such endpoint and the wallet is
    good. *)
Theorem executor_validation_accounts_for_issues (cl : Executor.Clients)
    (agentId : Z) (t : list Executor.Call) (report : string) :
  Executor.validateAgent cl agentId = (t, Ok report) ->
  exists registration owner f,
    let eps := Api.orEmpty (Api.rf_endpoints registration) in
    let wallet := match Executor.getMetadata cl agentId "agentWallet" with
                  | Ok entry => entry
                  | Throw _ => owner
                  end in
    Executor.getRegistrationFile cl agentId = Ok registration
    /\ Executor.getOwner cl agentId = Ok owner
    /\ t = ([Executor.GetRegistrationFile agentId; Executor.GetOwner agentId;
             Executor.GetMetadata agentId "agentWallet"]
            ++ map (fun ep => Executor.Head (Api.ep_endpoint ep)) eps)%list
    /\ report = Executor.validationText agentId registration wallet f
    /\ List.length (Executor.endpointResults f) = Nat.max 1 (List.length eps)
    /\ List.length (Executor.issues f)
       = (Answer.unreachableCount cl eps
          + if Executor.walletValid wallet then 0 else 1)%nat
    /\ (Executor.overall f = Executor.reachableMark ++ " Validated"
        <-> Answer.unreachableCount cl eps = 0%nat
            /\ Executor.walletValid wallet = true).
Proof.
  unfold Executor.validateAgent, Trace.bind. rewrite validate_run.
  destruct (Executor.getRegistrationFile cl agentId) as [registration|e];
    [|discriminate].
  destruct (Executor.getOwner cl agentId) as [owner|e]; [|discriminate].
  destruct (checkDeclared_run cl registration) as [checked [Hrun [Hres Hiss]]].
  rewrite Hrun. cbn [fst snd Trace.ret]. rewrite app_nil_r.
  intros Hreport. injection Hreport as <- <-.
  set (wallet := match Executor.getMetadata cl agentId "agentWallet" with
                 | Ok entry => entry
                 | Throw _ => owner
                 end).
  exists registration, owner, (Executor.checkWallet wallet checked).
  cbv zeta. fold wallet.
  split; [reflexivity|]. split; [reflexivity|]. split; [reflexivity|].
  split; [reflexivity|].
  assert (List.length (Executor.issues (Executor.checkWallet wallet checked))
          = (Answer.unreachableCount cl
               (Api.orEmpty (Api.rf_endpoints registration))
             + if Executor.walletValid wallet then 0 else 1)%nat) as Hcount.
  { unfold Executor.checkWallet.
    destruct (Executor.walletValid wallet); cbn [negb];
      [lia|cbn [Executor.pushIssue Executor.issues]; rewrite length_app;
           cbn [List.length]; lia]. }
  split.
  { unfold Executor.checkWallet.
    destruct (negb (Executor.walletValid wallet)); exact Hres. }
  split; [exact Hcount|].
  unfold Executor.overall.
  destruct (Executor.issues (Executor.checkWallet wallet checked)) as [|i rest].
  - cbn [List.length] in Hcount. split; [intros _|reflexivity].
    destruct (Executor.walletValid wallet); [split; [lia|reflexivity]|lia].
  - cbn [List.length] in Hcount. split; [intros Hsame|].
    + exfalso. revert Hsame. vm_compute. discriminate.
    + intros [Hnone Hvalid]. rewrite Hnone, Hvalid in Hcount. discriminate.
Qed.

Lemma executor_validation_accounts_for_issues_witness :
  exists registration owner f,
    let eps := Api.orEmpty (Api.rf_endpoints registration) in
    let wallet := match Executor.getMetadata ExecutorSample.clients 1 "agentWallet" with
                  | Ok entry => entry
                  | Throw _ => owner
                  end in
    Executor.getRegistrationFile ExecutorSample.clients 1 = Ok registration
    /\ Executor.getOwner ExecutorSample.clients 1 = Ok owner
    /\ fst (Executor.validateAgent ExecutorSample.clients 1)
       = ([Executor.GetRegistrationFile 1; Executor.GetOwner 1;
           Executor.GetMetadata 1 "agentWallet"]
          ++ map (fun ep => Executor.Head (Api.ep_endpoint ep)) eps)%list
    /\ Answer.textOf (snd (Executor.validateAgent ExecutorSample.clients 1))
       = Executor.validationText 1 registration wallet f
    /\ List.length (Executor.endpointResults f) = Nat.max 1 (List.length eps)
    /\ List.length (Executor.issues f)
       = (Answer.unreachableCount ExecutorSample.clients eps
          + if Executor.walletValid wallet then 0 else 1)%nat
    /\ (Executor.overall f = Executor.reachableMark ++ " Validated"
        <-> Answer.unreachableCount ExecutorSample.clients eps = 0%nat
            /\ Executor.walletValid wallet = true).
Proof.
  apply (executor_validation_accounts_for_issues ExecutorSample.clients 1
           (fst (Executor.validateAgent ExecutorSample.clients 1))
           (Answer.textOf (snd (Executor.validateAgent ExecutorSample.clients 1)))).
  vm_compute. reflexivity.
Defined.

(* ----------------------------------------------------------------- *)
(** *** Reading the agent id and the intent *)

Section ScanFacts.

Import Executor.

Lemma digit_char (x : ascii) :
  JS.isDigit x = true ->
  JS.isSpace x = false /\ Ascii.eqb x "#" = false
  /\ JS.toLowerChar x = x /\ JS.lowerChar x = x.
Proof.
  destruct x as [[] [] [] [] [] [] [] []]; vm_compute; intros H;
    try discriminate H; repeat split; reflexivity.
Qed.

(** A character that the flag [i] relates to a letter of the word is
    turned into that letter by [toLowerCase], and is no digit. *)
Lemma fold_letter (c b : ascii) :
  In c ["a"; "g"; "e"; "n"; "t"]%char ->
  Ascii.eqb (JS.toLowerChar c) (JS.toLowerChar b) = true ->
  JS.lowerChar b = c /\ JS.isDigit b = false.
Proof.
  intros [<-|[<-|[<-|[<-|[<-|[]]]]]];
    destruct b as [[] [] [] [] [] [] [] []]; vm_compute; intros H;
    try discriminate H; split; reflexivity.
Qed.

Lemma letter_vs_digit (c x : ascii) :
  In c ["a"; "g"; "e"; "n"; "t"]%char ->
  JS.isDigit x = true ->
  Ascii.eqb (JS.toLowerChar c) (JS.toLowerChar x) = false.
Proof.
  intros Hc Hx.
  destruct (Ascii.eqb (JS.toLowerChar c) (JS.toLowerChar x)) eqn:Heq;
    [|reflexivity].
  destruct (fold_letter c x Hc Heq) as [_ Hno]. congruence.
Qed.

Lemma prefix_i_agent_inv (s : string) :
  prefix_i "agent" s = true ->
  exists a b c d e rest,
    s = String a (String b (String c (String d (String e rest))))
    /\ JS.lowerChar a = "a"%char /\ JS.lowerChar b = "g"%char
    /\ JS.lowerChar c = "e"%char /\ JS.lowerChar d = "n"%char
    /\ JS.lowerChar e = "t"%char.
Proof.
  destruct s as [|a [|b [|c [|d [|e rest]]]]]; cbn [prefix_i]; intros H;
    repeat match type of H with
           | (_ && _) = true => apply andb_prop in H as [? H]
           end;
    try discriminate.
  exists a, b, c, d, e, rest. split; [reflexivity|].
  repeat split;
    match goal with
    | |- JS.lowerChar ?x = ?l =>
        match goal with
        | Hx : Ascii.eqb (JS.toLowerChar l) (JS.toLowerChar x) = true |- _ =>
            apply (fold_letter l x); [cbn; tauto|exact Hx]
        end
    end.
Qed.

Lemma includes_unfold (needle s : string) :
  Text.includes needle s
  = String.prefix needle s
    || match s with
       | EmptyString => false
       | String _ s' => Text.includes needle s'
       end.
Proof. destruct s; reflexivity. Qed.

Lemma hasDigit_dropSpace (s : string) :
  Answer.hasDigit (JS.dropSpace s) = true -> Answer.hasDigit s = true.
Proof.
  induction s as [|a s IH]; [trivial|]. cbn [JS.dropSpace].
  destruct (JS.isSpace a); [|trivial].
  intros H. unfold Answer.hasDigit in *. cbn [list_ascii_of_string existsb].
  rewrite (IH H). apply orb_true_r.
Qed.

Lemma hasDigit_afterHash (s : string) :
  Answer.hasDigit (afterHash s) = true -> Answer.hasDigit s = true.
Proof.
  destruct s as [|a s]; [trivial|]. cbn [afterHash].
  destruct (Ascii.eqb a "#"); [|trivial].
  intros H. unfold Answer.hasDigit in *. cbn [list_ascii_of_string existsb].
  rewrite H. apply orb_true_r.
Qed.

Lemma hasDigit_slice (n : nat) (s : string) :
  Answer.hasDigit (JS.slice n s) = true -> Answer.hasDigit s = true.
Proof.
  revert s. induction n as [|n IH]; intros s; [destruct s; trivial|].
  destruct s as [|a s]; [trivial|]. cbn [JS.slice]. intros H.
  unfold Answer.hasDigit in *. cbn [list_ascii_of_string existsb].
  rewrite (IH s H). apply orb_true_r.
Qed.

Lemma digitsAt_hasDigit (s : string) :
  JS.isEmpty (digitsAt s) = false -> Answer.hasDigit s = true.
Proof.
  destruct s as [|a s]; [discriminate|]. cbn [digitsAt].
  unfold Answer.hasDigit. cbn [list_ascii_of_string existsb].
  destruct (JS.isDigit a); [reflexivity|discriminate].
Qed.

Lemma digitsAt_digits (s : string) :
  forallb JS.isDigit (list_ascii_of_string (digitsAt s)) = true.
Proof.
  induction s as [|a s IH]; [reflexivity|]. cbn [digitsAt].
  destruct (JS.isDigit a) eqn:Ha; [|reflexivity].
  cbn [list_ascii_of_string forallb]. now rewrite Ha.
Qed.

(** The pieces that the pattern skips keep what is left of the text. *)
Lemma tail_hasDigit (s : string) :
  Answer.hasDigit (JS.dropSpace (afterHash (JS.dropSpace (JS.slice 5 s)))) = true ->
  Answer.hasDigit s = true.
Proof.
  intros H. apply (hasDigit_slice 5), hasDigit_dropSpace, hasDigit_afterHash,
    hasDigit_dropSpace, H.
Qed.

Lemma matchHere_Some (s digits : string) :
  matchHere s = Some digits ->
  prefix_i "agent" s = true
  /\ digits = digitsAt (JS.dropSpace (afterHash (JS.dropSpace (JS.slice 5 s))))
  /\ JS.isEmpty digits = false.
Proof.
  unfold matchHere. destruct (prefix_i "agent" s); [|discriminate].
  destruct (JS.isEmpty (digitsAt _)) eqn:Hempty; [discriminate|].
  intros H. injection H as <-. auto.
Qed.

Lemma matchAgentId_unfold (s : string) :
  matchAgentId s
  = match matchHere s with
    | Some digits => Some digits
    | None =>
        match s with
        | EmptyString => None
        | String _ s' => matchAgentId s'
        end
    end.
Proof. destruct s; reflexivity. Qed.

(** A match needs the word and a digit, and its group holds digits only. *)
Lemma matchAgentId_Some (s digits : string) :
  matchAgentId s = Some digits ->
  Text.includes "agent" (JS.toLowerCase s) = true
  /\ Answer.hasDigit s = true
  /\ JS.isEmpty digits = false
  /\ forallb JS.isDigit (list_ascii_of_string digits) = true.
Proof.
  induction s as [|a s IH]; [discriminate|].
  rewrite matchAgentId_unfold.
  destruct (matchHere (String a s)) as [found|] eqn:Hhere.
  - intros H. injection H as ->.
    destruct (matchHere_Some _ _ Hhere) as [Hword [Hdigits Hne]].
    split; [|split; [|split]].
    + destruct (prefix_i_agent_inv _ Hword)
        as [a1 [a2 [a3 [a4 [a5 [rest [Hs [H1 [H2 [H3 [H4 H5]]]]]]]]]]].
      rewrite Hs. cbn [JS.toLowerCase]. rewrite H1, H2, H3, H4, H5.
      rewrite includes_unfold. apply orb_true_intro. left.
      destruct (JS.toLowerCase rest); reflexivity.
    + apply tail_hasDigit, digitsAt_hasDigit. now rewrite <- Hdigits.
    + exact Hne.
    + rewrite Hdigits. apply digitsAt_digits.
  - intros H. destruct (IH H) as [Hword [Hdigit Hrest]].
    split; [|split; [|exact Hrest]].
    + cbn [JS.toLowerCase]. rewrite includes_unfold, Hword. apply orb_true_r.
    + unfold Answer.hasDigit in *. cbn [list_ascii_of_string existsb].
      rewrite Hdigit. apply orb_true_r.
Qed.

Lemma respond_usage (cl : Clients) (userText : string) :
  matchAgentId userText = None -> respond cl userText = Trace.ret usage.
Proof. unfold respond. now intros ->. Qed.

(** **** Texts with a number in them *)

Lemma prefix_i_app_digit (q p : string) (x : ascii) (rest : string) :
  (forall c, In c (list_ascii_of_string q) ->
             In c ["a"; "g"; "e"; "n"; "t"]%char) ->
  JS.isDigit x = true ->
  prefix_i q (p ++ String x rest) = prefix_i q p.
Proof.
  intros Hq Hx. revert p. induction q as [|c q IH]; intros p.
  - destruct p; reflexivity.
  - destruct p as [|b p].
    + cbn [append prefix_i].
      rewrite (letter_vs_digit c x (Hq c (or_introl eq_refl)) Hx). reflexivity.
    + cbn [append prefix_i]. rewrite IH; [reflexivity|].
      intros c' Hc'. apply Hq. now right.
Qed.

Lemma prefix_i_agent_app (p : string) (x : ascii) (rest : string) :
  JS.isDigit x = true ->
  prefix_i "agent" (p ++ String x rest) = prefix_i "agent" p.
Proof.
  intros Hx. apply prefix_i_app_digit; [|exact Hx].
  intros c Hc. exact Hc.
Qed.

Lemma slice5_app (p rest : string) :
  prefix_i "agent" p = true -> JS.slice 5 (p ++ rest) = JS.slice 5 p ++ rest.
Proof.
  intros Hp.
  destruct (prefix_i_agent_inv _ Hp) as [a [b [c [d [e [tail [-> _]]]]]]].
  reflexivity.
Qed.

Lemma dropSpace_app_digit (q : string) (x : ascii) (rest : string) :
  JS.isDigit x = true ->
  JS.dropSpace (q ++ String x rest) = JS.dropSpace q ++ String x rest.
Proof.
  intros Hx. destruct (digit_char x Hx) as [Hspace _].
  induction q as [|b q IH].
  - cbn [append JS.dropSpace]. now rewrite Hspace.
  - cbn [append JS.dropSpace]. destruct (JS.isSpace b); [exact IH|reflexivity].
Qed.

Lemma afterHash_app_digit (q : string) (x : ascii) (rest : string) :
  JS.isDigit x = true ->
  afterHash (q ++ String x rest) = afterHash q ++ String x rest.
Proof.
  intros Hx. destruct (digit_char x Hx) as [_ [Hhash _]].
  destruct q as [|b q].
  - cbn [append afterHash]. now rewrite Hhash.
  - cbn [append afterHash]. destruct (Ascii.eqb b "#"); reflexivity.
Qed.

Lemma digitsAt_app (d post : string) :
  forallb JS.isDigit (list_ascii_of_string d) = true ->
  Answer.startsWithDigit post = false ->
  digitsAt (d ++ post) = d.
Proof.
  intros Hd Hpost. induction d as [|x d IH].
  - destruct post as [|b post]; [reflexivity|].
    cbn [append digitsAt]. cbn [Answer.startsWithDigit] in Hpost.
    now rewrite Hpost.
  - cbn [list_ascii_of_string forallb] in Hd. apply andb_prop in Hd as [Hx Hd].
    cbn [append digitsAt]. now rewrite Hx, (IH Hd).
Qed.

Lemma matchHere_app (p d post : string) :
  Answer.hasDigit p = false ->
  forallb JS.isDigit (list_ascii_of_string d) = true ->
  JS.isEmpty d = false ->
  Answer.startsWithDigit post = false ->
  matchHere (p ++ d ++ post) = if Answer.readyHere p then Some d else None.
Proof.
  intros Hp Hd Hne Hpost. destruct d as [|x d']; [discriminate|].
  pose proof Hd as Hall.
  cbn [list_ascii_of_string forallb] in Hd. apply andb_prop in Hd as [Hx Hd'].
  change (String x d' ++ post) with (String x (d' ++ post)).
  unfold matchHere, Answer.readyHere.
  rewrite (prefix_i_agent_app p x _ Hx).
  destruct (prefix_i "agent" p) eqn:Hword; [|reflexivity].
  rewrite (slice5_app _ _ Hword).
  rewrite (dropSpace_app_digit _ x _ Hx), (afterHash_app_digit _ x _ Hx),
    (dropSpace_app_digit _ x _ Hx).
  assert (Answer.hasDigit
            (JS.dropSpace (afterHash (JS.dropSpace (JS.slice 5 p)))) = false)
    as Htail.
  { destruct (Answer.hasDigit
                (JS.dropSpace (afterHash (JS.dropSpace (JS.slice 5 p)))))
      eqn:Ht; [|reflexivity].
    apply tail_hasDigit in Ht. congruence. }
  destruct (JS.dropSpace (afterHash (JS.dropSpace (JS.slice 5 p))))
    as [|c q].
  - change (EmptyString ++ String x (d' ++ post)) with (String x d' ++ post).
    rewrite (digitsAt_app _ _ Hall Hpost). reflexivity.
  - unfold Answer.hasDigit in Htail.
    cbn [list_ascii_of_string existsb] in Htail.
    apply orb_false_elim in Htail as [Hc _].
    cbn [append digitsAt]. rewrite Hc. reflexivity.
Qed.

Lemma matchAgentId_digits (d post : string) :
  forallb JS.isDigit (list_ascii_of_string d) = true ->
  matchAgentId (d ++ post) = matchAgentId post.
Proof.
  induction d as [|x d IH]; intros Hd; [reflexivity|].
  cbn [list_ascii_of_string forallb] in Hd. apply andb_prop in Hd as [Hx Hd].
  rewrite matchAgentId_unfold. cbn [append].
  assert (matchHere (String x (d ++ post)) = None) as ->.
  { unfold matchHere. cbn [prefix_i].
    rewrite (letter_vs_digit "a" x); [reflexivity|cbn; tauto|exact Hx]. }
  exact (IH Hd).
Qed.

(** The first match of a text with one number: the number is taken when
    some end of the text before it is ready for digits. *)
Lemma matchAgentId_app (pre d post : string) :
  Answer.hasDigit pre = false ->
  forallb JS.isDigit (list_ascii_of_string d) = true ->
  JS.isEmpty d = false ->
  Answer.startsWithDigit post = false ->
  matchAgentId (pre ++ d ++ post)
  = if Answer.ready pre then Some d else matchAgentId post.
Proof.
  intros Hpre Hd Hne Hpost. induction pre as [|c pre IH].
  - cbn [append]. rewrite (matchAgentId_digits _ _ Hd). reflexivity.
  - unfold Answer.hasDigit in Hpre.
    cbn [list_ascii_of_string existsb] in Hpre.
    apply orb_false_elim in Hpre as [Hc Hpre'].
    rewrite matchAgentId_unfold.
    rewrite (matchHere_app (String c pre) d post); try assumption.
    2:{ unfold Answer.hasDigit. cbn [list_ascii_of_string existsb].
        now rewrite Hc. }
    cbn [Answer.ready].
    destruct (Answer.readyHere (String c pre)); [reflexivity|].
    cbn [append orb]. exact (IH Hpre').
Qed.

Lemma toLowerCase_app (s s' : string) :
  JS.toLowerCase (s ++ s') = JS.toLowerCase s ++ JS.toLowerCase s'.
Proof. induction s as [|a s IH]; [reflexivity|]. cbn. now rewrite IH. Qed.

Lemma toLowerCase_digits (d : string) :
  forallb JS.isDigit (list_ascii_of_string d) = true -> JS.toLowerCase d = d.
Proof.
  induction d as [|x d IH]; [reflexivity|]. intros Hd.
  cbn [list_ascii_of_string forallb] in Hd. apply andb_prop in Hd as [Hx Hd].
  destruct (digit_char x Hx) as [_ [_ [_ Hlow]]].
  cbn [JS.toLowerCase]. now rewrite Hlow, (IH Hd).
Qed.

Lemma prefix_app_digit (word s : string) (x : ascii) (rest : string) :
  Answer.hasDigit word = false ->
  JS.isDigit x = true ->
  String.prefix word (s ++ String x rest) = String.prefix word s.
Proof.
  intros Hword Hx. revert s. induction word as [|c word IH]; intros s.
  - destruct s; reflexivity.
  - unfold Answer.hasDigit in Hword.
    cbn [list_ascii_of_string existsb] in Hword.
    apply orb_false_elim in Hword as [Hc Hword'].
    destruct s as [|b s].
    + cbn [append String.prefix].
      destruct (ascii_dec c x) as [->|_]; [congruence|reflexivity].
    + cbn [append String.prefix].
      destruct (ascii_dec c b); [apply (IH Hword')|reflexivity].
Qed.

Lemma includes_digits (c : ascii) (word d rest : string) :
  JS.isDigit c = false ->
  forallb JS.isDigit (list_ascii_of_string d) = true ->
  Text.includes (String c word) (d ++ rest) = Text.includes (String c word) rest.
Proof.
  intros Hc. induction d as [|x d IH]; intros Hd; [reflexivity|].
  cbn [list_ascii_of_string forallb] in Hd. apply andb_prop in Hd as [Hx Hd].
  rewrite includes_unfold. cbn [append String.prefix].
  destruct (ascii_dec c x) as [->|_]; [congruence|].
  exact (IH Hd).
Qed.

Lemma includes_app_digits (c : ascii) (word s d rest : string) :
  Answer.hasDigit (String c word) = false ->
  forallb JS.isDigit (list_ascii_of_string d) = true ->
  JS.isEmpty d = false ->
  Text.includes (String c word) (s ++ d ++ rest)
  = Text.includes (String c word) s || Text.includes (String c word) rest.
Proof.
  intros Hword Hd Hne.
  assert (JS.isDigit c = false) as Hc.
  { unfold Answer.hasDigit in Hword.
    cbn [list_ascii_of_string existsb] in Hword.
    now apply orb_false_elim in Hword as [Hc _]. }
  induction s as [|b s IH].
  - cbn [append]. rewrite (includes_digits c word d rest Hc Hd). reflexivity.
  - rewrite (includes_unfold _ (String b s ++ d ++ rest)).
    rewrite (includes_unfold _ (String b s)).
    destruct d as [|x d']; [discriminate|].
    pose proof Hd as Hall.
    cbn [list_ascii_of_string forallb] in Hd. apply andb_prop in Hd as [Hx _].
    change (String x d' ++ rest) with (String x (d' ++ rest)) in *.
    rewrite (prefix_app_digit _ (String b s) x _ Hword Hx).
    cbn [append]. rewrite IH. now rewrite orb_assoc.
Qed.

Lemma mentions_app (c : ascii) (word pre d post : string) :
  Answer.hasDigit (String c word) = false ->
  forallb JS.isDigit (list_ascii_of_string d) = true ->
  JS.isEmpty d = false ->
  mentions (pre ++ d ++ post) (String c word)
  = mentions pre (String c word) || mentions post (String c word).
Proof.
  intros Hword Hd Hne. unfold mentions.
  rewrite !toLowerCase_app, (toLowerCase_digits d Hd).
  now apply includes_app_digits.
Qed.

Lemma showZ_digits (n : Z) :
  0 <= n ->
  forallb JS.isDigit (list_ascii_of_string (JS.showZ n)) = true
  /\ JS.isEmpty (JS.showZ n) = false.
Proof.
  intros Hn. pose proof (test_reAgentId_showZ n Hn) as H.
  rewrite test_reAgentId in H. apply andb_prop in H as [Hne Hall].
  split; [exact Hall|]. now destruct (JS.isEmpty (JS.showZ n)).
Qed.

Lemma bind_ret_run {A B} (a : A) (k : A -> Run B) :
  Trace.bind (Trace.ret a) k = k a.
Proof. unfold Trace.bind, Trace.ret. destruct (k a) as [t r]. reflexivity. Qed.

(** A text with one number that stands where the pattern takes digits. *)
Lemma respond_ready (cl : Clients) (n : Z) (pre post : string) :
  0 <= n ->
  Answer.hasDigit pre = false ->
  Answer.startsWithDigit post = false ->
  Answer.ready pre = true ->
  respond cl (pre ++ JS.showZ n ++ post) = Answer.selected cl pre post n.
Proof.
  intros Hn Hpre Hpost Hready. destruct (showZ_digits n Hn) as [Hd Hne].
  unfold respond. rewrite (matchAgentId_app pre _ post Hpre Hd Hne Hpost), Hready.
  unfold agentIdOf. rewrite (BigInt_showZ n Hn).
  repeat match goal with
         | |- context [mentions (pre ++ JS.showZ n ++ post) (String ?c ?word)] =>
             rewrite (mentions_app c word pre (JS.showZ n) post eq_refl Hd Hne)
         end.
  unfold Answer.selected.
  now rewrite bind_ret_run.
Qed.

(** A text with one number that the pattern does not reach. *)
Lemma respond_not_ready (cl : Clients) (n : Z) (pre post : string) :
  0 <= n ->
  Answer.hasDigit pre = false ->
  Answer.startsWithDigit post = false ->
  Answer.ready pre = false ->
  matchAgentId post = None ->
  respond cl (pre ++ JS.showZ n ++ post) = Trace.ret usage.
Proof.
  intros Hn Hpre Hpost Hready Hafter. destruct (showZ_digits n Hn) as [Hd Hne].
  apply respond_usage.
  now rewrite (matchAgentId_app pre _ post Hpre Hd Hne Hpost), Hready.
Qed.

End ScanFacts.

(** X26: reading the agent id off a message.  A message whose text lacks
    the word agent (in any case) or has no digit, and so also a message
    without a text part, never reaches a registry: the executor publishes
    the usage text and signals the end.  When the pattern does find an id,
    its digits are read as a non-negative integer, however many there are:
    the conversion cannot throw. *)
Theorem message_without_agent_id_gets_usage (cl : Executor.Clients)
    (requestContext : Executor.RequestContext) :
  (Text.includes "agent" (JS.toLowerCase (Executor.userText requestContext)) = false
   \/ Answer.hasDigit (Executor.userText requestContext) = false ->
   Executor.execute cl requestContext
   = ([Executor.Publish (Executor.reply cl requestContext Executor.usage);
       Executor.Finished], Ok tt))
  /\ (forall digits,
         Executor.matchAgentId (Executor.userText requestContext) = Some digits ->
         exists agentId,
           0 <= agentId /\ Executor.agentIdOf digits = Trace.ret agentId).
Proof.
  split.
  - intros Hnone. rewrite execute_run.
    assert (Executor.matchAgentId (Executor.userText requestContext) = None)
      as Hmatch.
    { destruct (Executor.matchAgentId (Executor.userText requestContext))
        as [digits|] eqn:Hm; [|reflexivity].
      destruct (matchAgentId_Some _ _ Hm) as [Hword [Hdigit _]].
      destruct Hnone; congruence. }
    rewrite (respond_usage cl _ Hmatch). reflexivity.
  - intros digits Hm.
    destruct (matchAgentId_Some _ _ Hm) as [_ [_ [Hne Hall]]].
    destruct digits as [|x digits]; [discriminate|].
    destruct (digitsValue_digits (String x digits) 0 Hall ltac:(lia))
      as [v [Hv Hpos]].
    exists v. split; [exact Hpos|].
    unfold Executor.agentIdOf, Api.BigInt. now rewrite Hv.
Qed.

(** X27: the example prompts of the agent card, put to the executor with
    any agent id in place of their number.  All four examples of the skill
    trust-score get the trust score.  Of the examples of agent-profile,
    three get the profile, and the one that names the agent as
    [agent details for ID n] gets the usage text, since a word stands
    between [agent] and the number.  Of the examples of validate-agent, two
    get the validation, and the two that say [validation] or
    [services reachable] get the profile, since they hold none of the
    words validate, check and health. *)
Theorem skill_examples_are_routed (cl : Executor.Clients) (n : Z) :
  0 <= n ->
  map (fun example => Executor.respond cl (Skills.forAgent n example))
      (Skills.examples Skills.agentProfile)
  = [Executor.getProfile cl n; Executor.getProfile cl n;
     Trace.ret Executor.usage; Executor.getProfile cl n]
  /\ map (fun example => Executor.respond cl (Skills.forAgent n example))
         (Skills.examples Skills.trustScore)
     = [Executor.getTrustScore cl n; Executor.getTrustScore cl n;
        Executor.getTrustScore cl n; Executor.getTrustScore cl n]
  /\ map (fun example => Executor.respond cl (Skills.forAgent n example))
         (Skills.examples Skills.validateAgent)
     = [Executor.validateAgent cl n; Executor.validateAgent cl n;
        Executor.getProfile cl n; Executor.getProfile cl n].
Proof.
  intros Hn.
  unfold Skills.agentProfile, Skills.trustScore, Skills.validateAgent,
    Skills.forAgent.
  cbn [map Skills.examples].
  repeat match goal with
         | |- context [Executor.respond cl (?pre ++ JS.showZ n ++ ?post)] =>
             first
               [ rewrite (respond_ready cl n pre post Hn) by reflexivity
               | rewrite (respond_not_ready cl n pre post Hn) by reflexivity ]
         end.
  split; [reflexivity|split; reflexivity].
Qed.

Lemma skill_examples_are_routed_witness :
  map (fun example => Executor.respond ExecutorSample.clients
                        (Skills.forAgent 7 example))
      (Skills.examples Skills.agentProfile)
  = [Executor.getProfile ExecutorSample.clients 7;
     Executor.getProfile ExecutorSample.clients 7;
     Trace.ret Executor.usage;
     Executor.getProfile ExecutorSample.clients 7]
  /\ map (fun example => Executor.respond ExecutorSample.clients
                           (Skills.forAgent 7 example))
         (Skills.examples Skills.trustScore)
     = [Executor.getTrustScore ExecutorSample.clients 7;
        Executor.getTrustScore ExecutorSample.clients 7;
        Executor.getTrustScore ExecutorSample.clients 7;
        Executor.getTrustScore ExecutorSample.clients 7]
  /\ map (fun example => Executor.respond ExecutorSample.clients
                           (Skills.forAgent 7 example))
         (Skills.examples Skills.validateAgent)
     = [Executor.validateAgent ExecutorSample.clients 7;
        Executor.validateAgent ExecutorSample.clients 7;
        Executor.getProfile ExecutorSample.clients 7;
        Executor.getProfile ExecutorSample.clients 7].
Proof.
  apply (skill_examples_are_routed ExecutorSample.clients 7). lia.
Defined.

Section ExecutorScore.

Import Double.
#[local] Open Scope Q_scope.

Variable file : Api.RegistrationFile.
Variable xs : list double.
Hypothesis Hall : Forall (fun x => between 0 100 x = true) xs.
Hypothesis Hlen : (Z.of_nat (List.length xs) < 2 ^ 32)%Z.

Lemma feedbackCount64_value :
  Executor.feedbackCount64 (Z.of_nat (List.length xs))
  = Finite (inject_Z (Z.of_nat (List.length xs))).
Proof. unfold Executor.feedbackCount64. apply ofZ_value. lia. Qed.

Lemma volumeScore64_value :
  Executor.volumeScore64 (Z.of_nat (List.length xs))
  = Finite (inject_Z (Api64.volumeScore xs)).
Proof.
  unfold Executor.volumeScore64. rewrite feedbackCount64_value.
  cbn [mul]. set (n := Z.of_nat (List.length xs)) in *.
  rewrite (round_comp (inject_Z n * 3) (inject_Z (n * 3)))
    by (rewrite inject_Z_mult; reflexivity).
  rewrite round_Z by lia. cbn [Math_min].
  change 30 with (inject_Z 30). rewrite Qle_bool_Z.
  unfold Api64.volumeScore, Api64.feedbackCount. fold n.
  destruct (Z.leb_spec 30 (n * 3)) as [H|H]; f_equal; f_equal; lia.
Qed.

Lemma effectiveBaseScore64_value :
  Executor.effectiveBaseScore64 (Z.of_nat (List.length xs)) (Api64.avgScore xs)
  = Api64.effectiveBaseScore xs.
Proof.
  unfold Executor.effectiveBaseScore64, Api64.effectiveBaseScore,
    Api64.baseScore, Api64.feedbackCount.
  rewrite feedbackCount64_value. cbn [ltb].
  change 0 with (inject_Z 0). rewrite Qle_bool_Z.
  assert (xs = [] \/ xs <> []) as [E|Hne]
    by (clear; destruct xs; [left; reflexivity|right; discriminate]).
  - rewrite E. reflexivity.
  - pose proof (length_pos _ xs Hne) as P.
    assert ((0 <? List.length xs)%nat = true) as ->
      by (clear - Hne; destruct xs; [contradiction|reflexivity]).
    destruct (Z.leb_spec (Z.of_nat (List.length xs)) 0); [lia|reflexivity].
Qed.

Lemma identityMaturity_executor :
  (0 <= Executor.identityMaturity file <= 50)%Z
  /\ (Api64.identityMaturity file = Executor.identityMaturity file
      \/ Api64.identityMaturity file = Executor.identityMaturity file + 10)%Z.
Proof.
  unfold Api64.identityMaturity, Api.identityMaturity,
    Executor.identityMaturity, Executor.hasEndpoints, Executor.hasTrustMethods,
    Api.hasEndpoints, Api.hasTrustMethods.
  destruct (0 <? _)%nat, (0 <? _)%nat, (Api.longDescription file); lia.
Qed.

(** The two raw scores: the one of the executor is not above the one of the
    API, and less than 8 below it. *)
Lemma rawScore64_against_api :
  exists re ra,
    Executor.rawScore64 file (Z.of_nat (List.length xs)) (Api64.avgScore xs)
    = Finite re
    /\ Api64.rawScore file xs = Finite ra
    /\ re <= ra /\ ra < re + 8.
Proof.
  unfold Executor.rawScore64, Executor.reputationConfidence64, Api64.rawScore,
    Api64.maturityBonus, Api64.confidenceBonus, Api64.reputationConfidence.
  rewrite effectiveBaseScore64_value, volumeScore64_value.
  rewrite three_tenths_value, two_tenths_value.
  destruct (effectiveBaseScore_bounds xs Hall Hlen) as [eb [-> [E0 E1]]].
  destruct (consistencyScore_bounds xs Hall Hlen) as [cs [-> [S0 S1]]].
  pose proof (volumeScore_bounds xs) as [V0 V1].
  pose proof identityMaturity_executor as [[I0 I1] Hd].
  pose proof (identityMaturity_bounds file) as [A0 A1].
  rewrite !ofZ_value by lia.
  set (vol := inject_Z (Api64.volumeScore xs)).
  set (ie := inject_Z (Executor.identityMaturity file)).
  set (ia := inject_Z (Api64.identityMaturity file)).
  assert (0 <= vol /\ vol <= 30) as [V0' V1'].
  { unfold vol. split; [now apply inject_Z_nonneg|].
    change 30 with (inject_Z 30). now rewrite <- Zle_Qle. }
  assert (0 <= ie /\ ie <= 50) as [I0' I1'].
  { unfold ie. split; [now apply inject_Z_nonneg|].
    change 50 with (inject_Z 50). now rewrite <- Zle_Qle. }
  assert (ie <= ia /\ ia <= ie + 10) as [D0 D1].
  { unfold ie, ia. destruct Hd as [->| ->].
    - split; [apply Qle_refl|]. lra.
    - rewrite inject_Z_plus. change (inject_Z 10) with 10. split; lra. }
  cbn [mul add].
  set (c3 := 5404319552844595 # 18014398509481984).
  set (c2 := 3602879701896397 # 18014398509481984).
  assert (0 <= c3 /\ c3 <= 3 # 10) as [C30 C31] by (split; discriminate).
  assert (0 <= c2 /\ c2 <= 21 # 100) as [C20 C21] by (split; discriminate).
  assert (10 * c3 + 20 * c2 <= 701 # 100) as Hsum by discriminate.
  (* the maturity bonuses *)
  assert (0 <= ie * c3) as Me0 by (apply Qmult_le_0_compat; assumption).
  assert (ie * c3 <= 50 * c3) as Me1 by (apply Qmult_le_compat_r; assumption).
  assert (ie * c3 <= ia * c3) as Mle by (apply Qmult_le_compat_r; assumption).
  assert (ia * c3 <= ie * c3 + 10 * c3) as Mdiff.
  { assert (ia * c3 <= (ie + 10) * c3) as H
      by (apply Qmult_le_compat_r; assumption).
    setoid_replace ((ie + 10) * c3) with (ie * c3 + 10 * c3) in H by ring.
    exact H. }
  assert (50 * c3 <= 15) as C3b by discriminate.
  assert (10 * c3 <= 3) as C3c by discriminate.
  destruct (round_close (ie * c3)) as [me [Hme [Me [Me2 Me3]]]]; try lra.
  destruct (round_close (ia * c3)) as [ma [Hma [Ma [Ma2 Ma3]]]]; try lra.
  pose proof (round_le _ _ _ _ Mle Hme Hma) as Mm.
  rewrite Hme, Hma. cbn [add].
  (* the base score and the maturity bonus *)
  destruct (round_close (eb + me)) as [se [Hse [Se [Se2 Se3]]]]; try lra.
  destruct (round_close (eb + ma)) as [sa [Hsa [Sa [Sa2 Sa3]]]]; try lra.
  assert (eb + me <= eb + ma) as Sle by lra.
  pose proof (round_le _ _ _ _ Sle Hse Hsa) as Sm.
  rewrite Hse, Hsa.
  (* the confidence *)
  destruct (round_close (vol + cs)) as [rc [Hrc [Rc [Rc2 Rc3]]]]; try lra.
  assert (round vol = Finite vol) as Hvol by (apply round_Z; lia).
  assert (vol <= vol + cs) as Vle by lra.
  pose proof (round_le _ _ _ _ Vle Hvol Hrc) as Rm.
  rewrite Hrc. cbn [mul].
  assert (0 <= vol * c2) as Ce0 by (apply Qmult_le_0_compat; assumption).
  assert (vol * c2 <= 30 * c2) as Ce1 by (apply Qmult_le_compat_r; assumption).
  assert (vol * c2 <= rc * c2) as Cle by (apply Qmult_le_compat_r; assumption).
  assert (rc * c2 <= (vol + 20 + (1 # 1000)) * c2) as Cdiff
    by (apply Qmult_le_compat_r; [lra|assumption]).
  setoid_replace ((vol + 20 + (1 # 1000)) * c2)
    with (vol * c2 + 20 * c2 + (1 # 1000) * c2) in Cdiff by ring.
  assert (30 * c2 <= 7) as C2b by discriminate.
  assert (20 * c2 <= 5) as C2c by discriminate.
  assert ((1 # 1000) * c2 <= 1 # 1000) as C2d by discriminate.
  destruct (round_close (vol * c2)) as [ce [Hce [Ce [Ce2 Ce3]]]]; try lra.
  destruct (round_close (rc * c2)) as [ca [Hca [Ca [Ca2 Ca3]]]]; try lra.
  pose proof (round_le _ _ _ _ Cle Hce Hca) as Cm.
  rewrite Hce, Hca. cbn [add].
  (* the raw scores *)
  destruct (round_close (se + ce)) as [re [Hre [Re [Re2 Re3]]]]; try lra.
  destruct (round_close (sa + ca)) as [ra [Hra [Ra [Ra2 Ra3]]]]; try lra.
  assert (se + ce <= sa + ca) as Rle by lra.
  pose proof (round_le _ _ _ _ Rle Hre Hra) as Rmm.
  exists re, ra. rewrite Hre, Hra.
  split; [reflexivity|]. split; [reflexivity|]. split; [exact Rmm|].
  lra.
Qed.

End ExecutorScore.

(** X28: the trust score of the executor against the one of the API, on
    binary64 values.  For the same registration file, and a summary that
    agrees with the list of feedback scores (their number and their
    average), fewer than 2^32 scores between 0 and 100, both scores are
    integers, and the score that the executor reports is never above the
    score of POST /agent/score/invoke and at most 8 points below it: the
    executor leaves out the bonus for a long description and the
    consistency score, which are worth 7 points and can carry the rounding
    over one more. *)
Theorem executor_score_trails_api_score (file : Api.RegistrationFile)
    (xs : list Double.double) (count : Z) (average : Double.double) :
  Forall (fun x => Double.between 0 100 x = true) xs ->
  Z.of_nat (List.length xs) < 2 ^ 32 ->
  count = Z.of_nat (List.length xs) ->
  average = Api64.avgScore xs ->
  exists e a,
    Executor.trustScore64 file count average = Double.Finite (inject_Z e)
    /\ Api64.trustScore file xs = Double.Finite (inject_Z a)
    /\ e <= a <= e + 8.
Proof.
  intros Hall Hlen -> ->.
  destruct (rawScore64_against_api file xs Hall Hlen)
    as [re [ra [Hre [Hra [Hle Hlt]]]]].
  unfold Executor.trustScore64, Api64.trustScore. rewrite Hre, Hra.
  unfold Double.Math_round. rewrite !clamp_Z.
  do 2 eexists. split; [reflexivity|]. split; [reflexivity|].
  pose proof (Math_round_le re ra Hle) as Hlow.
  assert (Qfloor (ra + (1 # 2)) < Qfloor (re + (1 # 2)) + 8 + 1) as Hhigh
    by (apply Math_round_lt_add; exact Hlt).
  lia.
Qed.

Lemma executor_score_trails_api_score_witness :
  (exists e a,
      Executor.trustScore64 Samples.described 1 (Api64.avgScore [Samples.score09])
      = Double.Finite (inject_Z e)
      /\ Api64.trustScore Samples.described [Samples.score09]
         = Double.Finite (inject_Z a)
      /\ e <= a <= e + 8)
  /\ Executor.trustScore64 Samples.described 1 (Api64.avgScore [Samples.score09])
     = Double.Finite 1
  /\ Api64.trustScore Samples.described [Samples.score09] = Double.Finite 9.
Proof.
  split.
  - apply (executor_score_trails_api_score Samples.described
             [Samples.score09] 1 (Api64.avgScore [Samples.score09])).
    + repeat constructor.
    + cbn. lia.
    + reflexivity.
    + reflexivity.
  - split; vm_compute; reflexivity.
Defined.

(* ================================================================= *)
(** ** Registration of the agent *)

Section RegistrationFacts.

Import Registration.

Variable w : Sdk.

Lemma uploadImageToPinata_run (path jwt : string) :
  exists t outcome,
    uploadImageToPinata w path jwt = (t, outcome)
    /\ forallb isImageCall t = true
    /\ filter isRegisterIPFS t = []
    /\ (forall cid, outcome = Ok cid -> Json.truthy cid = true).
Proof.
  unfold uploadImageToPinata, Trace.bind, Trace.call, Trace.throw, Trace.ret.
  destruct (readFileSync w path) as [imageData|e].
  2:{ do 2 eexists. split; [reflexivity|].
      split; [reflexivity|split; [reflexivity|discriminate]]. }
  destruct (post w uploadUrl ("Bearer " ++ jwt) (basename w path) imageData)
    as [response|e].
  2:{ do 2 eexists. split; [reflexivity|].
      split; [reflexivity|split; [reflexivity|discriminate]]. }
  destruct (negb (resp_ok response)).
  { do 2 eexists. split; [reflexivity|].
    split; [reflexivity|split; [reflexivity|discriminate]]. }
  destruct (JSON_parse w (resp_body response)) as [result|].
  2:{ do 2 eexists. split; [reflexivity|].
      split; [reflexivity|split; [reflexivity|discriminate]]. }
  destruct (cidOf result) as [cid|].
  2:{ do 2 eexists. split; [reflexivity|].
      split; [reflexivity|split; [reflexivity|discriminate]]. }
  destruct (Json.truthy cid) eqn:Htruthy.
  - do 2 eexists. split; [reflexivity|].
    split; [reflexivity|split; [reflexivity|]].
    intros cid' H. injection H as <-. exact Htruthy.
  - do 2 eexists. split; [reflexivity|].
    split; [reflexivity|split; [reflexivity|discriminate]].
Qed.

Lemma uploadImage_skipped (config : Config) (opts : option Opts) :
  wantsImage config opts = false -> uploadImage w config opts = Trace.ret None.
Proof.
  unfold wantsImage, uploadImage.
  destruct (given match opts with Some o => imagePath o | None => None end);
    [|reflexivity].
  destruct (given (pinataJwt config)); [discriminate|reflexivity].
Qed.

Lemma uploadImage_run (config : Config) (opts : option Opts) :
  exists t outcome,
    uploadImage w config opts = (t, outcome)
    /\ forallb isImageCall t = true
    /\ filter isRegisterIPFS t = []
    /\ (forall imageCID,
           outcome = Ok imageCID ->
           if wantsImage config opts
           then exists cid,
                  imageCID = Some cid /\ Json.truthy cid = true
                  /\ In (UpdateInfo ("ipfs://" ++ textOf w cid)) t
           else imageCID = None /\ t = [])
    /\ (forall path jwt e,
           imagePathOf opts = Some path ->
           given (pinataJwt config) = Some jwt ->
           snd (uploadImageToPinata w path jwt) = Throw e ->
           outcome = Throw e).
Proof.
  unfold imagePathOf.
  destruct (wantsImage config opts) eqn:Hwants.
  2:{ rewrite (uploadImage_skipped _ _ Hwants). do 2 eexists.
      split; [reflexivity|]. split; [reflexivity|]. split; [reflexivity|].
      split.
      - intros imageCID H. injection H as <-. split; reflexivity.
      - intros path jwt e Hpath Hjwt. unfold wantsImage in Hwants.
        rewrite Hpath, Hjwt in Hwants.
        discriminate. }
  unfold wantsImage in Hwants. unfold uploadImage.
  destruct (given match opts with Some o => imagePath o | None => None end)
    as [path|]; [|discriminate].
  destruct (given (pinataJwt config)) as [jwt|]; [|discriminate].
  destruct (uploadImageToPinata_run path jwt)
    as [t [outcome [Hrun [Himage [Hnone Htruthy]]]]].
  rewrite Hrun. unfold Trace.bind, Trace.call, Trace.ret.
  destruct outcome as [cid|e].
  - destruct (updateInfo w ("ipfs://" ++ textOf w cid)) as [[]|e'].
    + do 2 eexists. split; [reflexivity|]. rewrite app_nil_r.
      split; [|split; [|split]].
      * rewrite forallb_app, Himage. reflexivity.
      * rewrite filter_app, Hnone. reflexivity.
      * intros imageCID H. injection H as <-. exists cid.
        split; [reflexivity|]. split; [now apply Htruthy|].
        apply in_or_app. right. now left.
      * intros path' jwt' e H1 H2. injection H1 as <-. injection H2 as <-. rewrite Hrun. discriminate.
    + do 2 eexists. split; [reflexivity|].
      split; [|split; [|split]].
      * rewrite forallb_app, Himage. reflexivity.
      * rewrite filter_app, Hnone. reflexivity.
      * discriminate.
      * intros path' jwt' e H1 H2. injection H1 as <-. injection H2 as <-. rewrite Hrun. discriminate.
  - do 2 eexists. split; [reflexivity|].
    split; [exact Himage|]. split; [exact Hnone|]. split; [discriminate|].
    intros path' jwt' e' H1 H2. injection H1 as <-. injection H2 as <-.
    rewrite Hrun. cbn [snd]. intros H. injection H as <-. reflexivity.
Qed.

Lemma registerAgent_steps (config : Config) (opts : option Opts) :
  registerAgent w config opts
  = let steps := firstSteps config opts in
    match newSDK w (sdkConfigOf config opts) with
    | Throw e => (firstn 1 steps, Throw e)
    | Ok _ =>
    match createAgent w (agentName config) (agentDescription config) with
    | Throw e => (firstn 2 steps, Throw e)
    | Ok _ =>
    match setA2A w (agentUrl config) with
    | Throw e => (firstn 3 steps, Throw e)
    | Ok _ =>
    match setX402Support w true with
    | Throw e => (steps, Throw e)
    | Ok _ =>
    match snd (uploadImage w config opts) with
    | Throw e => ((steps ++ fst (uploadImage w config opts))%list, Throw e)
    | Ok imageCID =>
    match registerIPFS w with
    | Throw e =>
        ((steps ++ fst (uploadImage w config opts) ++ [RegisterIPFS])%list,
         Throw e)
    | Ok hash =>
        ((steps ++ fst (uploadImage w config opts)
          ++ [RegisterIPFS; WaitMined])%list,
         match waitMined w with
         | Throw e => Throw e
         | Ok uri =>
             Ok {| agentId := match agent_agentId w with
                              | Some id => id
                              | None => "pending"
                              end;
                   txHash := hash;
                   agentURI := uri;
                   imageCID := imageCID |}
         end)
    end end end end end end.
Proof.
  unfold registerAgent, firstSteps, Trace.bind, Trace.call, Trace.ret.
  destruct (newSDK w (sdkConfigOf config opts)); [|reflexivity].
  destruct (createAgent w (agentName config) (agentDescription config));
    [|reflexivity].
  destruct (setA2A w (agentUrl config)); [|reflexivity].
  destruct (setX402Support w true); [|reflexivity].
  destruct (uploadImage w config opts) as [ti [imageCID|e]]; [|reflexivity].
  destruct (registerIPFS w); [|reflexivity].
  destruct (waitMined w); cbn; now rewrite ?app_nil_r.
Qed.

End RegistrationFacts.

(** X29: the image comes before the registration, and a failed upload
    stops it.  [registerAgent] calls [registerIPFS] at most once.  Without
    an image path or without a Pinata token it reads no file, sends no
    upload and sets no image.  When the upload is due and fails (the file
    cannot be read, the service does not answer with a success status, or
    its answer has no truthy CID), [registerAgent] throws and nothing is
    registered.  When [registerAgent] returns, its calls were: the SDK
    constructor, [createAgent], [setA2A], [setX402Support(true)], the
    calls of the image step, [registerIPFS] and [waitMined], in this
    order; the result carries the hash of the transaction and the agent
    URI, the agent id or the text pending, and the CID that was set as
    image. *)
Theorem failed_upload_stops_registration (w : Registration.Sdk)
    (config : Registration.Config) (opts : option Registration.Opts) :
  let run := Registration.registerAgent w config opts in
  (List.length (filter Registration.isRegisterIPFS (fst run)) <= 1)%nat
  /\ (Registration.wantsImage config opts = false ->
      filter Registration.isImageCall (fst run) = [])
  /\ (forall path jwt e,
         Registration.imagePathOf opts = Some path ->
         Registration.given (Registration.pinataJwt config) = Some jwt ->
         snd (Registration.uploadImageToPinata w path jwt) = Throw e ->
         filter Registration.isRegisterIPFS (fst run) = []
         /\ exists e', snd run = Throw e')
  /\ (forall r,
         snd run = Ok r ->
         exists imageCalls,
           fst run
           = (Registration.firstSteps config opts ++ imageCalls
              ++ [Registration.RegisterIPFS; Registration.WaitMined])%list
           /\ forallb Registration.isImageCall imageCalls = true
           /\ Registration.registerIPFS w = Ok (Registration.txHash r)
           /\ Registration.waitMined w = Ok (Registration.agentURI r)
           /\ Registration.agentId r
              = match Registration.agent_agentId w with
                | Some id => id
                | None => "pending"
                end
           /\ if Registration.wantsImage config opts
              then exists cid,
                     Registration.imageCID r = Some cid
                     /\ Json.truthy cid = true
                     /\ In (Registration.UpdateInfo
                              ("ipfs://" ++ Registration.textOf w cid))
                           imageCalls
              else Registration.imageCID r = None /\ imageCalls = []).
Proof.
  intros run. unfold run. rewrite registerAgent_steps. cbv zeta.
  unfold Registration.firstSteps.
  destruct (uploadImage_run w config opts)
    as [ti [oi [Hrun [Himage [Hnone [Hok Hfail]]]]]].
  rewrite Hrun. cbn [fst snd].
  assert (forall e : Exn, oi = Throw e -> Registration.wantsImage config opts = true)
    as Hwanted.
  { intros e ->. destruct (Registration.wantsImage config opts) eqn:Hw;
      [reflexivity|].
    rewrite (uploadImage_skipped w _ _ Hw) in Hrun. discriminate. }
  assert (Registration.wantsImage config opts = false -> ti = []) as Hskip.
  { intros Hw. rewrite (uploadImage_skipped w _ _ Hw) in Hrun.
    now injection Hrun as <- _. }
  destruct (Registration.newSDK w (Registration.sdkConfigOf config opts)).
  2:{ cbn. split; [lia|]. split; [reflexivity|].
      split; [|discriminate]. intros path jwt e0 _ _ _. eauto. }
  destruct (Registration.createAgent w (Registration.agentName config)
              (Registration.agentDescription config)).
  2:{ cbn. split; [lia|]. split; [reflexivity|].
      split; [|discriminate]. intros path jwt e0 _ _ _. eauto. }
  destruct (Registration.setA2A w (Registration.agentUrl config)).
  2:{ cbn. split; [lia|]. split; [reflexivity|].
      split; [|discriminate]. intros path jwt e0 _ _ _. eauto. }
  destruct (Registration.setX402Support w true).
  2:{ cbn. split; [lia|]. split; [reflexivity|].
      split; [|discriminate]. intros path jwt e0 _ _ _. eauto. }
  destruct oi as [imageCID|e].
  2:{ cbn [fst snd]. rewrite !filter_app, Hnone. cbn.
      split; [lia|]. split; [|split; [eauto|discriminate]].
      intros Hw. rewrite (Hwanted e eq_refl) in Hw. discriminate. }
  assert (forall path jwt e,
             Registration.imagePathOf opts = Some path ->
             Registration.given (Registration.pinataJwt config) = Some jwt ->
             snd (Registration.uploadImageToPinata w path jwt) = Throw e ->
             False) as Hnofail.
  { intros path jwt e H1 H2 H3. specialize (Hfail path jwt e H1 H2 H3).
    discriminate. }
  destruct (Registration.registerIPFS w) as [hash|e].
  2:{ cbn [fst snd]. rewrite !filter_app, Hnone. cbn.
      split; [lia|]. split; [|split; [|discriminate]].
      - intros Hw. now rewrite (Hskip Hw).
      - intros path jwt e0 H1 H2 H3. destruct (Hnofail path jwt e0 H1 H2 H3). }
  cbn [fst snd]. rewrite !filter_app, Hnone. cbn [app filter
    Registration.isRegisterIPFS Registration.isImageCall List.length].
  split; [lia|]. split; [|split].
  - intros Hw. now rewrite (Hskip Hw).
  - intros path jwt e0 H1 H2 H3. destruct (Hnofail path jwt e0 H1 H2 H3).
  - intros r Hr. destruct (Registration.waitMined w) as [uri|e]; [|discriminate].
    injection Hr as <-. exists ti. cbn.
    split; [reflexivity|]. split; [exact Himage|].
    split; [reflexivity|]. split; [reflexivity|]. split; [reflexivity|].
    specialize (Hok imageCID eq_refl).
    destruct (Registration.wantsImage config opts); exact Hok.
Qed.

Section ChainIds.

Import Registration.

Lemma digit_no_sign (x : ascii) :
  JS.isDigit x = true ->
  Ascii.eqb x ":" = false /\ Ascii.eqb x "-" = false /\ Ascii.eqb x "+" = false.
Proof.
  destruct x as [[] [] [] [] [] [] [] []]; vm_compute; intros H;
    try discriminate H; repeat split; reflexivity.
Qed.

Lemma afterColon_app (scheme rest : string) :
  Text.hasChar ":" scheme = false ->
  afterColon (scheme ++ ":" ++ rest) = Some rest.
Proof.
  induction scheme as [|a scheme IH]; [reflexivity|].
  cbn [Text.hasChar append afterColon]. intros H.
  apply orb_false_elim in H as [Ha Hrest]. rewrite Ha. exact (IH Hrest).
Qed.

Lemma afterColon_none (s : string) :
  Text.hasChar ":" s = false -> afterColon s = None.
Proof.
  induction s as [|a s IH]; [reflexivity|].
  cbn [Text.hasChar afterColon]. intros H.
  apply orb_false_elim in H as [Ha Hrest]. rewrite Ha. exact (IH Hrest).
Qed.

Lemma upToColon_digits (s : string) :
  forallb JS.isDigit (list_ascii_of_string s) = true -> upToColon s = s.
Proof.
  induction s as [|x s IH]; [reflexivity|]. intros H.
  cbn [list_ascii_of_string forallb] in H. apply andb_prop in H as [Hx Hs].
  destruct (digit_no_sign x Hx) as [Hcolon _].
  cbn [upToColon]. now rewrite Hcolon, (IH Hs).
Qed.

Lemma digitsAt_all (s : string) :
  forallb JS.isDigit (list_ascii_of_string s) = true -> Executor.digitsAt s = s.
Proof.
  induction s as [|x s IH]; [reflexivity|]. intros H.
  cbn [list_ascii_of_string forallb] in H. apply andb_prop in H as [Hx Hs].
  cbn [Executor.digitsAt]. now rewrite Hx, (IH Hs).
Qed.

Lemma parseInt_showZ (n : Z) :
  0 <= n <= 2 ^ 53 ->
  parseInt (Some (JS.showZ n)) = Double.Finite (inject_Z n).
Proof.
  intros Hrange. assert (0 <= n) as Hn by lia.
  destruct (showZ_digits n Hn) as [Hall Hne].
  pose proof (BigInt_showZ n Hn) as Hvalue.
  destruct (JS.showZ n) as [|x d] eqn:Hshow; [discriminate|].
  pose proof Hall as Hd.
  cbn [list_ascii_of_string forallb] in Hd. apply andb_prop in Hd as [Hx _].
  destruct (digit_no_sign x Hx) as [_ [Hminus Hplus]].
  destruct (digit_char x Hx) as [Hspace _].
  unfold parseInt. cbn [JS.dropSpace]. rewrite Hspace, Hminus, Hplus.
  cbn [fst snd]. rewrite (digitsAt_all _ Hall), Hvalue.
  apply round_Z. lia.
Qed.

Lemma chainIdOf_network (config : Config) (scheme : string) (n : Z) :
  0 <= n <= 2 ^ 53 ->
  Text.hasChar ":" scheme = false ->
  network config = scheme ++ ":" ++ JS.showZ n ->
  chainIdOf config = Double.Finite (inject_Z n).
Proof.
  intros Hn Hscheme Hnetwork. unfold chainIdOf, secondPiece.
  rewrite Hnetwork, (afterColon_app _ _ Hscheme). cbn [option_map].
  destruct (showZ_digits n (proj1 Hn)) as [Hall _].
  rewrite (upToColon_digits _ Hall). now apply parseInt_showZ.
Qed.

Lemma chainIdOf_beyond (config : Config) (scheme : string) :
  Text.hasChar ":" scheme = false ->
  network config = scheme ++ ":9007199254740993" ->
  chainIdOf config = Double.Finite (inject_Z 9007199254740992).
Proof.
  intros Hscheme Hnetwork. unfold chainIdOf, secondPiece.
  rewrite Hnetwork.
  change (scheme ++ ":9007199254740993")
    with (scheme ++ ":" ++ "9007199254740993").
  rewrite (afterColon_app scheme "9007199254740993" Hscheme).
  vm_compute. reflexivity.
Qed.

End ChainIds.

(** X30: how the SDK is configured.  The first call of [registerAgent] is
    the SDK constructor.  Its chain id is the number after the first colon
    of the network name, as a binary64 value: a name [scheme:n] gives n for
    n up to 2^53 (beyond, the nearest value: [scheme:9007199254740993]
    gives 9007199254740992), and a name without a colon gives NaN, with
    which the SDK is constructed all the same.  Registry addresses given in
    the options are used for whatever chain, in place of the built-in ones;
    without them Base Sepolia (84532) and Base (8453) get their built-in
    identity registry, and every other chain, and NaN, gets none.  Without
    a Pinata token the SDK gets no IPFS setting and the image step is not
    taken, whatever the image path. *)
Theorem sdk_is_configured_from_the_network (w : Registration.Sdk)
    (config : Registration.Config) (opts : option Registration.Opts) :
  (exists rest,
      fst (Registration.registerAgent w config opts)
      = Registration.NewSDK (Registration.sdkConfigOf config opts) :: rest)
  /\ Registration.sdk_chainId (Registration.sdkConfigOf config opts)
     = Registration.chainIdOf config
  /\ (forall scheme n,
         0 <= n <= 2 ^ 53 ->
         Text.hasChar ":" scheme = false ->
         Registration.network config = scheme ++ ":" ++ JS.showZ n ->
         Registration.chainIdOf config = Double.Finite (inject_Z n))
  /\ (forall scheme,
         Text.hasChar ":" scheme = false ->
         Registration.network config = scheme ++ ":9007199254740993" ->
         Registration.chainIdOf config
         = Double.Finite (inject_Z 9007199254740992))
  /\ (Text.hasChar ":" (Registration.network config) = false ->
      Registration.chainIdOf config = Double.NaN)
  /\ (forall o addresses,
         opts = Some o ->
         Registration.registryAddresses o = Some addresses ->
         Registration.sdk_registryOverrides (Registration.sdkConfigOf config opts)
         = Some (Registration.chainIdOf config, addresses))
  /\ ((opts = None
       \/ exists o, opts = Some o /\ Registration.registryAddresses o = None) ->
      Registration.sdk_registryOverrides (Registration.sdkConfigOf config opts)
      = match Registration.chainIdOf config with
        | Double.Finite id =>
            if Qeq_bool id (inject_Z 84532)
            then Some (Double.Finite id,
                       [("IDENTITY", "0x8004AA63c570c570eBF15376c0dB199918BFe9Fb")])
            else if Qeq_bool id (inject_Z 8453)
            then Some (Double.Finite id,
                       [("IDENTITY", "0x8004A169FB4a3325136EB29fA0ceB6D2e539a432")])
            else None
        | _ => None
        end)
  /\ (Registration.given (Registration.pinataJwt config) = None ->
      Registration.sdk_ipfs (Registration.sdkConfigOf config opts) = None
      /\ Registration.sdk_pinataJwt (Registration.sdkConfigOf config opts) = None
      /\ Registration.wantsImage config opts = false).
Proof.
  split.
  { rewrite registerAgent_steps. cbv zeta. unfold Registration.firstSteps.
    destruct (Registration.newSDK w (Registration.sdkConfigOf config opts));
      [|cbn; eauto].
    destruct (Registration.createAgent w (Registration.agentName config)
                (Registration.agentDescription config)); [|cbn; eauto].
    destruct (Registration.setA2A w (Registration.agentUrl config));
      [|cbn; eauto].
    destruct (Registration.setX402Support w true); [|cbn; eauto].
    destruct (snd (Registration.uploadImage w config opts)); [|cbn; eauto].
    destruct (Registration.registerIPFS w); cbn; eauto. }
  split; [reflexivity|].
  split; [intros scheme n; apply chainIdOf_network|].
  split; [intros scheme; apply chainIdOf_beyond|].
  split.
  { intros Hnone. unfold Registration.chainIdOf, Registration.secondPiece.
    now rewrite (afterColon_none _ Hnone). }
  split.
  { intros o addresses -> Haddresses.
    unfold Registration.sdkConfigOf, Registration.registryOverrides.
    cbn [Registration.sdk_registryOverrides]. now rewrite Haddresses. }
  split.
  { intros Hnone.
    unfold Registration.sdkConfigOf, Registration.registryOverrides.
    cbn [Registration.sdk_registryOverrides].
    assert (match opts with
            | Some o => Registration.registryAddresses o
            | None => None
            end = None) as ->.
    { destruct Hnone as [->|[o [-> Ho]]]; [reflexivity|exact Ho]. }
    unfold Registration.builtinAddresses, Registration.REGISTRY_ADDRESSES.
    destruct (Registration.chainIdOf config) as [| |id]; try reflexivity.
    cbn [find fst snd].
    destruct (Qeq_bool id (inject_Z 84532)); [reflexivity|].
    destruct (Qeq_bool id (inject_Z 8453)); reflexivity. }
  intros Hnone. unfold Registration.sdkConfigOf, Registration.wantsImage.
  cbn [Registration.sdk_ipfs Registration.sdk_pinataJwt]. rewrite Hnone.
  split; [reflexivity|split; [reflexivity|]].
  destruct (Registration.given
              match opts with
              | Some o => Registration.imagePath o
              | None => None
              end); reflexivity.
Qed.

Lemma failed_upload_stops_registration_witness :
  filter Registration.isRegisterIPFS
    (fst (Registration.registerAgent RegistrationSample.sdk
            RegistrationSample.config (Some RegistrationSample.opts)))
  = []
  /\ exists e',
       snd (Registration.registerAgent RegistrationSample.sdk
              RegistrationSample.config (Some RegistrationSample.opts))
       = Throw e'.
Proof.
  destruct (failed_upload_stops_registration RegistrationSample.sdk
              RegistrationSample.config (Some RegistrationSample.opts))
    as [_ [_ [Hfails _]]].
  apply (Hfails "assets/icon.png" "jwt"
           (Error "Failed to upload image to Pinata: HTTP 503 - unavailable"));
    reflexivity.
Defined.
